(** * The sentiment-refresh pipeline of codexometer

    A shallow embedding of the Supabase edge function
    [functions/sentiment-refresh/index.ts] (token acquisition, the
    rate-limited Reddit client, the per-subreddit processing loop, the
    in-memory aggregator, the persistence flush and the job lifecycle) and
    of the defaulting done by the Next.js route [app/api/refresh/route.ts].

    Representation choices, fixed once for the whole development:
    - JavaScript strings are [string], read as UTF-8; [trim] and
      [toLowerCase] follow the Unicode rules of the built-ins.
    - An ISO-8601 timestamp string is represented by the instant it
      denotes, in milliseconds since the Unix epoch ([Instant]); only the
      [YYYY-MM-DD] bucket of [updateAggregate] is rendered as text.
    - [number] values that hold counts or seconds are [Z]; the VADER
      compound score is a rational ([Q]): every finite double is one, and
      comparing doubles is comparing the rationals they denote.
    - Row identifiers generated by the store (uuid columns) are [nat].
    - Everything the function reads from outside (environment variables,
      the clock, Reddit's answers, the scorer, store failures) is a field
      of [Platform]; everything it changes is a field of [World]. *)

From Stdlib Require Import ZArith QArith String Ascii List Bool Lia Sorted.
From stdpp Require Import base option list gmap strings pretty.
Close Scope Q_scope.
Open Scope string_scope.
Open Scope list_scope.
Open Scope Z_scope.

(** ** JavaScript string built-ins

    A string is held as the bytes of its UTF-8 encoding, which every
    JavaScript string without a lone surrogate has. The code compares
    [length] with 0 only, and on well-formed UTF-8 [includes] finds
    exactly the substrings of code points, so both work on the bytes;
    [trim] and [toLowerCase] work on the code points, as the built-ins
    do. *)

Module Js.

(** *** UTF-8 *)

Definition byte (c : ascii) : Z := Z.of_N (N_of_ascii c).

Definition char (n : Z) : ascii := ascii_of_N (Z.to_N n).

(** The encoding of a code point. *)
Definition encode (cp : Z) : list ascii :=
  if cp <? 128 then [char cp]
  else if cp <? 2048 then [char (192 + cp / 64); char (128 + cp mod 64)]
  else if cp <? 65536 then
    [char (224 + cp / 4096); char (128 + (cp / 64) mod 64);
     char (128 + cp mod 64)]
  else
    [char (240 + cp / 262144); char (128 + (cp / 4096) mod 64);
     char (128 + (cp / 64) mod 64); char (128 + cp mod 64)].

(** A unit of text: a code point, or a byte outside any well-formed
    sequence, which no operation touches. *)
Inductive Unit :=
| Cp (cp : Z)
| Raw (b : ascii).

Definition encodes (cp : Z) (bytes : list ascii) : bool :=
  bool_decide (encode cp = bytes).

Fixpoint decode (l : list ascii) : list Unit :=
  match l with
  | [] => []
  | a :: l1 =>
      if byte a <? 128 then Cp (byte a) :: decode l1
      else
        match l1 with
        | [] => Raw a :: decode l1
        | b :: l2 =>
            let cp2 := (byte a - 192) * 64 + (byte b - 128) in
            if encodes cp2 [a; b] then Cp cp2 :: decode l2
            else
              match l2 with
              | [] => Raw a :: decode l1
              | c :: l3 =>
                  let cp3 :=
                    ((byte a - 224) * 64 + (byte b - 128)) * 64
                    + (byte c - 128) in
                  if encodes cp3 [a; b; c] then Cp cp3 :: decode l3
                  else
                    match l3 with
                    | [] => Raw a :: decode l1
                    | d :: l4 =>
                        let cp4 :=
                          (((byte a - 240) * 64 + (byte b - 128)) * 64
                           + (byte c - 128)) * 64
                          + (byte d - 128) in
                        if encodes cp4 [a; b; c; d] then Cp cp4 :: decode l4
                        else Raw a :: decode l1
                    end
              end
        end
  end.

(** *** [trim]

    [StrWhiteSpaceChar]: the white space and the line terminators of the
    language. *)
Definition WHITE_SPACE : list Z :=
  [9; 10; 11; 12; 13; 32; 160; 5760; 8192; 8193; 8194; 8195; 8196; 8197;
   8198; 8199; 8200; 8201; 8202; 8232; 8233; 8239; 8287; 12288; 65279].

(** What follows [p] in [l], when [l] starts with [p]. *)
Fixpoint after (p l : list ascii) : option (list ascii) :=
  match p, l with
  | [], _ => Some l
  | a :: p', b :: l' => if Ascii.eqb a b then after p' l' else None
  | _ :: _, [] => None
  end.

(** What follows the first of [ps] that [l] starts with. *)
Fixpoint after_any (ps : list (list ascii)) (l : list ascii)
    : option (list ascii) :=
  match ps with
  | [] => None
  | p :: ps' =>
      match after p l with
      | Some rest => Some rest
      | None => after_any ps' l
      end
  end.

(** [l] without the sequences of [ps] it starts with; [n] bounds their
    number. *)
Fixpoint strip (n : nat) (ps : list (list ascii)) (l : list ascii)
    : list ascii :=
  match n with
  | O => l
  | S n' =>
      match after_any ps l with
      | Some rest => strip n' ps rest
      | None => l
      end
  end.

Definition trimStart (s : string) : string :=
  let l := list_ascii_of_string s in
  string_of_list_ascii (strip (length l) (map encode WHITE_SPACE) l).

Definition trimEnd (s : string) : string :=
  let l := rev (list_ascii_of_string s) in
  string_of_list_ascii
    (rev (strip (length l) (map (fun cp => rev (encode cp)) WHITE_SPACE) l)).

Definition trim (s : string) : string := trimEnd (trimStart s).

(** *** [toLowerCase]

    The lower-case conversion of the Unicode standard that the language
    prescribes: the simple mappings, the one unconditional special
    mapping (U+0130) and the one context-sensitive rule that does not
    depend on the language, Final_Sigma. *)

(** The simple lower-case mappings of the Unicode Character Database
    (version 14.0): [(first, last, step, shift)] maps every [step]-th code
    point from [first] to [last] to itself plus [shift]. *)
Definition LOWER : list (Z * Z * Z * Z) :=
  [(65, 90, 1, 32); (192, 214, 1, 32); (216, 222, 1, 32); (256, 302, 2, 1);
   (306, 310, 2, 1); (313, 327, 2, 1); (330, 374, 2, 1);
   (376, 376, 1, -121); (377, 381, 2, 1); (385, 385, 1, 210);
   (386, 388, 2, 1); (390, 390, 1, 206); (391, 391, 1, 1);
   (393, 394, 1, 205); (395, 395, 1, 1); (398, 398, 1, 79);
   (399, 399, 1, 202); (400, 400, 1, 203); (401, 401, 1, 1);
   (403, 403, 1, 205); (404, 404, 1, 207); (406, 406, 1, 211);
   (407, 407, 1, 209); (408, 408, 1, 1); (412, 412, 1, 211);
   (413, 413, 1, 213); (415, 415, 1, 214); (416, 420, 2, 1);
   (422, 422, 1, 218); (423, 423, 1, 1); (425, 425, 1, 218);
   (428, 428, 1, 1); (430, 430, 1, 218); (431, 431, 1, 1);
   (433, 434, 1, 217); (435, 437, 2, 1); (439, 439, 1, 219);
   (440, 440, 1, 1); (444, 444, 1, 1); (452, 452, 1, 2); (453, 453, 1, 1);
   (455, 455, 1, 2); (456, 456, 1, 1); (458, 458, 1, 2); (459, 475, 2, 1);
   (478, 494, 2, 1); (497, 497, 1, 2); (498, 500, 2, 1); (502, 502, 1, -97);
   (503, 503, 1, -56); (504, 542, 2, 1); (544, 544, 1, -130);
   (546, 562, 2, 1); (570, 570, 1, 10795); (571, 571, 1, 1);
   (573, 573, 1, -163); (574, 574, 1, 10792); (577, 577, 1, 1);
   (579, 579, 1, -195); (580, 580, 1, 69); (581, 581, 1, 71);
   (582, 590, 2, 1); (880, 882, 2, 1); (886, 886, 1, 1); (895, 895, 1, 116);
   (902, 902, 1, 38); (904, 906, 1, 37); (908, 908, 1, 64);
   (910, 911, 1, 63); (913, 929, 1, 32); (931, 939, 1, 32);
   (975, 975, 1, 8); (984, 1006, 2, 1); (1012, 1012, 1, -60);
   (1015, 1015, 1, 1); (1017, 1017, 1, -7); (1018, 1018, 1, 1);
   (1021, 1023, 1, -130); (1024, 1039, 1, 80); (1040, 1071, 1, 32);
   (1120, 1152, 2, 1); (1162, 1214, 2, 1); (1216, 1216, 1, 15);
   (1217, 1229, 2, 1); (1232, 1326, 2, 1); (1329, 1366, 1, 48);
   (4256, 4293, 1, 7264); (4295, 4295, 1, 7264); (4301, 4301, 1, 7264);
   (5024, 5103, 1, 38864); (5104, 5109, 1, 8); (7312, 7354, 1, -3008);
   (7357, 7359, 1, -3008); (7680, 7828, 2, 1); (7838, 7838, 1, -7615);
   (7840, 7934, 2, 1); (7944, 7951, 1, -8); (7960, 7965, 1, -8);
   (7976, 7983, 1, -8); (7992, 7999, 1, -8); (8008, 8013, 1, -8);
   (8025, 8031, 2, -8); (8040, 8047, 1, -8); (8072, 8079, 1, -8);
   (8088, 8095, 1, -8); (8104, 8111, 1, -8); (8120, 8121, 1, -8);
   (8122, 8123, 1, -74); (8124, 8124, 1, -9); (8136, 8139, 1, -86);
   (8140, 8140, 1, -9); (8152, 8153, 1, -8); (8154, 8155, 1, -100);
   (8168, 8169, 1, -8); (8170, 8171, 1, -112); (8172, 8172, 1, -7);
   (8184, 8185, 1, -128); (8186, 8187, 1, -126); (8188, 8188, 1, -9);
   (8486, 8486, 1, -7517); (8490, 8490, 1, -8383); (8491, 8491, 1, -8262);
   (8498, 8498, 1, 28); (8544, 8559, 1, 16); (8579, 8579, 1, 1);
   (9398, 9423, 1, 26); (11264, 11311, 1, 48); (11360, 11360, 1, 1);
   (11362, 11362, 1, -10743); (11363, 11363, 1, -3814);
   (11364, 11364, 1, -10727); (11367, 11371, 2, 1);
   (11373, 11373, 1, -10780); (11374, 11374, 1, -10749);
   (11375, 11375, 1, -10783); (11376, 11376, 1, -10782);
   (11378, 11378, 1, 1); (11381, 11381, 1, 1); (11390, 11391, 1, -10815);
   (11392, 11490, 2, 1); (11499, 11501, 2, 1); (11506, 11506, 1, 1);
   (42560, 42604, 2, 1); (42624, 42650, 2, 1); (42786, 42798, 2, 1);
   (42802, 42862, 2, 1); (42873, 42875, 2, 1); (42877, 42877, 1, -35332);
   (42878, 42886, 2, 1); (42891, 42891, 1, 1); (42893, 42893, 1, -42280);
   (42896, 42898, 2, 1); (42902, 42920, 2, 1); (42922, 42922, 1, -42308);
   (42923, 42923, 1, -42319); (42924, 42924, 1, -42315);
   (42925, 42925, 1, -42305); (42926, 42926, 1, -42308);
   (42928, 42928, 1, -42258); (42929, 42929, 1, -42282);
   (42930, 42930, 1, -42261); (42931, 42931, 1, 928); (42932, 42946, 2, 1);
   (42948, 42948, 1, -48); (42949, 42949, 1, -42307);
   (42950, 42950, 1, -35384); (42951, 42953, 2, 1); (42960, 42960, 1, 1);
   (42966, 42968, 2, 1); (42997, 42997, 1, 1); (65313, 65338, 1, 32);
   (66560, 66599, 1, 40); (66736, 66771, 1, 40); (66928, 66938, 1, 39);
   (66940, 66954, 1, 39); (66956, 66962, 1, 39); (66964, 66965, 1, 39);
   (68736, 68786, 1, 64); (71840, 71871, 1, 32); (93760, 93791, 1, 32);
   (125184, 125217, 1, 34)]%Z.

(** The ranges of the code points with the property Cased. *)
Definition CASED : list (Z * Z) :=
  [(65, 90); (97, 122); (170, 170); (181, 181); (186, 186); (192, 214);
   (216, 246); (248, 442); (444, 447); (452, 659); (661, 696); (704, 705);
   (736, 740); (837, 837); (880, 883); (886, 887); (890, 893); (895, 895);
   (902, 902); (904, 906); (908, 908); (910, 929); (931, 1013);
   (1015, 1153); (1162, 1327); (1329, 1366); (1376, 1416); (4256, 4293);
   (4295, 4295); (4301, 4301); (4304, 4346); (4349, 4351); (5024, 5109);
   (5112, 5117); (7296, 7304); (7312, 7354); (7357, 7359); (7424, 7615);
   (7680, 7957); (7960, 7965); (7968, 8005); (8008, 8013); (8016, 8023);
   (8025, 8025); (8027, 8027); (8029, 8029); (8031, 8061); (8064, 8116);
   (8118, 8124); (8126, 8126); (8130, 8132); (8134, 8140); (8144, 8147);
   (8150, 8155); (8160, 8172); (8178, 8180); (8182, 8188); (8305, 8305);
   (8319, 8319); (8336, 8348); (8450, 8450); (8455, 8455); (8458, 8467);
   (8469, 8469); (8473, 8477); (8484, 8484); (8486, 8486); (8488, 8488);
   (8490, 8493); (8495, 8500); (8505, 8505); (8508, 8511); (8517, 8521);
   (8526, 8526); (8544, 8575); (8579, 8580); (9398, 9449); (11264, 11492);
   (11499, 11502); (11506, 11507); (11520, 11557); (11559, 11559);
   (11565, 11565); (42560, 42605); (42624, 42653); (42786, 42887);
   (42891, 42894); (42896, 42954); (42960, 42961); (42963, 42963);
   (42965, 42969); (42997, 42998); (43000, 43002); (43824, 43866);
   (43868, 43880); (43888, 43967); (64256, 64262); (64275, 64279);
   (65313, 65338); (65345, 65370); (66560, 66639); (66736, 66771);
   (66776, 66811); (66928, 66938); (66940, 66954); (66956, 66962);
   (66964, 66965); (66967, 66977); (66979, 66993); (66995, 67001);
   (67003, 67004); (67456, 67456); (67459, 67461); (67463, 67504);
   (67506, 67514); (68736, 68786); (68800, 68850); (71840, 71903);
   (93760, 93823); (119808, 119892); (119894, 119964); (119966, 119967);
   (119970, 119970); (119973, 119974); (119977, 119980); (119982, 119993);
   (119995, 119995); (119997, 120003); (120005, 120069); (120071, 120074);
   (120077, 120084); (120086, 120092); (120094, 120121); (120123, 120126);
   (120128, 120132); (120134, 120134); (120138, 120144); (120146, 120485);
   (120488, 120512); (120514, 120538); (120540, 120570); (120572, 120596);
   (120598, 120628); (120630, 120654); (120656, 120686); (120688, 120712);
   (120714, 120744); (120746, 120770); (120772, 120779); (122624, 122633);
   (122635, 122654); (125184, 125251); (127280, 127305); (127312, 127337);
   (127344, 127369)]%Z.

(** The ranges of the code points with the property Case_Ignorable. *)
Definition CASE_IGNORABLE : list (Z * Z) :=
  [(39, 39); (46, 46); (58, 58); (94, 94); (96, 96); (168, 168); (173, 173);
   (175, 175); (180, 180); (183, 184); (688, 879); (884, 885); (890, 890);
   (900, 901); (903, 903); (1155, 1161); (1369, 1369); (1375, 1375);
   (1425, 1469); (1471, 1471); (1473, 1474); (1476, 1477); (1479, 1479);
   (1524, 1524); (1536, 1541); (1552, 1562); (1564, 1564); (1600, 1600);
   (1611, 1631); (1648, 1648); (1750, 1757); (1759, 1768); (1770, 1773);
   (1807, 1807); (1809, 1809); (1840, 1866); (1958, 1968); (2027, 2037);
   (2042, 2042); (2045, 2045); (2070, 2093); (2137, 2139); (2184, 2184);
   (2192, 2193); (2200, 2207); (2249, 2306); (2362, 2362); (2364, 2364);
   (2369, 2376); (2381, 2381); (2385, 2391); (2402, 2403); (2417, 2417);
   (2433, 2433); (2492, 2492); (2497, 2500); (2509, 2509); (2530, 2531);
   (2558, 2558); (2561, 2562); (2620, 2620); (2625, 2626); (2631, 2632);
   (2635, 2637); (2641, 2641); (2672, 2673); (2677, 2677); (2689, 2690);
   (2748, 2748); (2753, 2757); (2759, 2760); (2765, 2765); (2786, 2787);
   (2810, 2815); (2817, 2817); (2876, 2876); (2879, 2879); (2881, 2884);
   (2893, 2893); (2901, 2902); (2914, 2915); (2946, 2946); (3008, 3008);
   (3021, 3021); (3072, 3072); (3076, 3076); (3132, 3132); (3134, 3136);
   (3142, 3144); (3146, 3149); (3157, 3158); (3170, 3171); (3201, 3201);
   (3260, 3260); (3263, 3263); (3270, 3270); (3276, 3277); (3298, 3299);
   (3328, 3329); (3387, 3388); (3393, 3396); (3405, 3405); (3426, 3427);
   (3457, 3457); (3530, 3530); (3538, 3540); (3542, 3542); (3633, 3633);
   (3636, 3642); (3654, 3662); (3761, 3761); (3764, 3772); (3782, 3782);
   (3784, 3789); (3864, 3865); (3893, 3893); (3895, 3895); (3897, 3897);
   (3953, 3966); (3968, 3972); (3974, 3975); (3981, 3991); (3993, 4028);
   (4038, 4038); (4141, 4144); (4146, 4151); (4153, 4154); (4157, 4158);
   (4184, 4185); (4190, 4192); (4209, 4212); (4226, 4226); (4229, 4230);
   (4237, 4237); (4253, 4253); (4348, 4348); (4957, 4959); (5906, 5908);
   (5938, 5939); (5970, 5971); (6002, 6003); (6068, 6069); (6071, 6077);
   (6086, 6086); (6089, 6099); (6103, 6103); (6109, 6109); (6155, 6159);
   (6211, 6211); (6277, 6278); (6313, 6313); (6432, 6434); (6439, 6440);
   (6450, 6450); (6457, 6459); (6679, 6680); (6683, 6683); (6742, 6742);
   (6744, 6750); (6752, 6752); (6754, 6754); (6757, 6764); (6771, 6780);
   (6783, 6783); (6823, 6823); (6832, 6862); (6912, 6915); (6964, 6964);
   (6966, 6970); (6972, 6972); (6978, 6978); (7019, 7027); (7040, 7041);
   (7074, 7077); (7080, 7081); (7083, 7085); (7142, 7142); (7144, 7145);
   (7149, 7149); (7151, 7153); (7212, 7219); (7222, 7223); (7288, 7293);
   (7376, 7378); (7380, 7392); (7394, 7400); (7405, 7405); (7412, 7412);
   (7416, 7417); (7468, 7530); (7544, 7544); (7579, 7679); (8125, 8125);
   (8127, 8129); (8141, 8143); (8157, 8159); (8173, 8175); (8189, 8190);
   (8203, 8207); (8216, 8217); (8228, 8228); (8231, 8231); (8234, 8238);
   (8288, 8292); (8294, 8303); (8305, 8305); (8319, 8319); (8336, 8348);
   (8400, 8432); (11388, 11389); (11503, 11505); (11631, 11631);
   (11647, 11647); (11744, 11775); (11823, 11823); (12293, 12293);
   (12330, 12333); (12337, 12341); (12347, 12347); (12441, 12446);
   (12540, 12542); (40981, 40981); (42232, 42237); (42508, 42508);
   (42607, 42610); (42612, 42621); (42623, 42623); (42652, 42655);
   (42736, 42737); (42752, 42785); (42864, 42864); (42888, 42890);
   (42994, 42996); (43000, 43001); (43010, 43010); (43014, 43014);
   (43019, 43019); (43045, 43046); (43052, 43052); (43204, 43205);
   (43232, 43249); (43263, 43263); (43302, 43309); (43335, 43345);
   (43392, 43394); (43443, 43443); (43446, 43449); (43452, 43453);
   (43471, 43471); (43493, 43494); (43561, 43566); (43569, 43570);
   (43573, 43574); (43587, 43587); (43596, 43596); (43632, 43632);
   (43644, 43644); (43696, 43696); (43698, 43700); (43703, 43704);
   (43710, 43711); (43713, 43713); (43741, 43741); (43756, 43757);
   (43763, 43764); (43766, 43766); (43867, 43871); (43881, 43883);
   (44005, 44005); (44008, 44008); (44013, 44013); (64286, 64286);
   (64434, 64450); (65024, 65039); (65043, 65043); (65056, 65071);
   (65106, 65106); (65109, 65109); (65279, 65279); (65287, 65287);
   (65294, 65294); (65306, 65306); (65342, 65342); (65344, 65344);
   (65392, 65392); (65438, 65439); (65507, 65507); (65529, 65531);
   (66045, 66045); (66272, 66272); (66422, 66426); (67456, 67461);
   (67463, 67504); (67506, 67514); (68097, 68099); (68101, 68102);
   (68108, 68111); (68152, 68154); (68159, 68159); (68325, 68326);
   (68900, 68903); (69291, 69292); (69446, 69456); (69506, 69509);
   (69633, 69633); (69688, 69702); (69744, 69744); (69747, 69748);
   (69759, 69761); (69811, 69814); (69817, 69818); (69821, 69821);
   (69826, 69826); (69837, 69837); (69888, 69890); (69927, 69931);
   (69933, 69940); (70003, 70003); (70016, 70017); (70070, 70078);
   (70089, 70092); (70095, 70095); (70191, 70193); (70196, 70196);
   (70198, 70199); (70206, 70206); (70367, 70367); (70371, 70378);
   (70400, 70401); (70459, 70460); (70464, 70464); (70502, 70508);
   (70512, 70516); (70712, 70719); (70722, 70724); (70726, 70726);
   (70750, 70750); (70835, 70840); (70842, 70842); (70847, 70848);
   (70850, 70851); (71090, 71093); (71100, 71101); (71103, 71104);
   (71132, 71133); (71219, 71226); (71229, 71229); (71231, 71232);
   (71339, 71339); (71341, 71341); (71344, 71349); (71351, 71351);
   (71453, 71455); (71458, 71461); (71463, 71467); (71727, 71735);
   (71737, 71738); (71995, 71996); (71998, 71998); (72003, 72003);
   (72148, 72151); (72154, 72155); (72160, 72160); (72193, 72202);
   (72243, 72248); (72251, 72254); (72263, 72263); (72273, 72278);
   (72281, 72283); (72330, 72342); (72344, 72345); (72752, 72758);
   (72760, 72765); (72767, 72767); (72850, 72871); (72874, 72880);
   (72882, 72883); (72885, 72886); (73009, 73014); (73018, 73018);
   (73020, 73021); (73023, 73029); (73031, 73031); (73104, 73105);
   (73109, 73109); (73111, 73111); (73459, 73460); (78896, 78904);
   (92912, 92916); (92976, 92982); (92992, 92995); (94031, 94031);
   (94095, 94111); (94176, 94177); (94179, 94180); (110576, 110579);
   (110581, 110587); (110589, 110590); (113821, 113822); (113824, 113827);
   (118528, 118573); (118576, 118598); (119143, 119145); (119155, 119170);
   (119173, 119179); (119210, 119213); (119362, 119364); (121344, 121398);
   (121403, 121452); (121461, 121461); (121476, 121476); (121499, 121503);
   (121505, 121519); (122880, 122886); (122888, 122904); (122907, 122913);
   (122915, 122916); (122918, 122922); (123184, 123197); (123566, 123566);
   (123628, 123631); (125136, 125142); (125252, 125259); (127995, 127999);
   (917505, 917505); (917536, 917631); (917760, 917999)]%Z.

Definition within (ranges : list (Z * Z)) (cp : Z) : bool :=
  existsb (fun r => (fst r <=? cp) && (cp <=? snd r)) ranges.

Definition cased (u : Unit) : bool :=
  match u with Cp cp => within CASED cp | Raw _ => false end.

Definition case_ignorable (u : Unit) : bool :=
  match u with Cp cp => within CASE_IGNORABLE cp | Raw _ => false end.

Definition shifted (cp : Z) (entry : Z * Z * Z * Z) : bool :=
  let '(first, last, step, _) := entry in
  (first <=? cp) && (cp <=? last) && ((cp - first) mod step =? 0).

(** The lower case of a code point, out of context. *)
Definition lower (cp : Z) : list Z :=
  if cp =? 304 then [105; 775]
  else
    match List.find (shifted cp) LOWER with
    | Some (_, _, _, shift) => [cp + shift]
    | None => [cp]
    end.

(** Whether a cased letter follows, case-ignorable code points apart. *)
Fixpoint cased_next (units : list Unit) : bool :=
  match units with
  | [] => false
  | u :: rest => if case_ignorable u then cased_next rest else cased u
  end.

(** [cased_before] tells whether a cased letter precedes, case-ignorable
    code points apart: a capital sigma (931) then becomes a final sigma
    (962) unless a cased letter follows, and a small sigma (963)
    otherwise. *)
Fixpoint lower_units (cased_before : bool) (units : list Unit)
    : list ascii :=
  match units with
  | [] => []
  | u :: rest =>
      (match u with
       | Cp cp =>
           if cp =? 931
           then encode (if cased_before && negb (cased_next rest)
                        then 962 else 963)
           else flat_map encode (lower cp)
       | Raw b => [b]
       end)
      ++ lower_units (if case_ignorable u then cased_before else cased u)
           rest
  end.

Definition toLowerCase (s : string) : string :=
  string_of_list_ascii (lower_units false (decode (list_ascii_of_string s))).

(** *** The other built-ins *)

Fixpoint startsWith (s p : string) : bool :=
  match p, s with
  | EmptyString, _ => true
  | String _ _, EmptyString => false
  | String a p', String b s' => if ascii_dec a b then startsWith s' p' else false
  end.

Fixpoint includes (s p : string) : bool :=
  startsWith s p ||
  match s with
  | EmptyString => false
  | String _ s' => includes s' p
  end.

(** Truthiness of a string value: the empty string is falsy. *)
Definition truthy (s : string) : bool :=
  match s with EmptyString => false | _ => true end.

(** Truthiness of a value that may be [undefined]/[null] or a string. *)
Definition truthy_opt (o : option string) : bool :=
  match o with Some s => truthy s | None => false end.

(** [Array.prototype.join]. *)
Fixpoint join (sep : string) (l : list string) : string :=
  match l with
  | [] => ""
  | [x] => x
  | x :: l' => x +:+ sep +:+ join sep l'
  end.

(** [Array.from(new Set(xs))]: first occurrences, in order. *)
Fixpoint uniq {A} `{EqDecision A} (l : list A) (seen : list A) : list A :=
  match l with
  | [] => []
  | x :: l' => if bool_decide (x ∈ seen) then uniq l' seen else x :: uniq l' (x :: seen)
  end.

End Js.

Example trim_ex : Js.trim "  Codex  " = "Codex".
Proof. reflexivity. Qed.

Example includes_ex :
  Js.includes (Js.toLowerCase "New CODEX feature") "codex" = true /\
  Js.includes (Js.toLowerCase "unrelated topic") "codex" = false.
Proof. split; reflexivity. Qed.

(** ** Dates *)

(** An instant: milliseconds since 1970-01-01T00:00:00Z. *)
Definition Instant := Z.

Module JsDate.

Definition MAX_TIME : Z := 8640000000000000.
Definition MS_PER_DAY : Z := 86400000.

(** A [Date] built from a time value outside the supported range is an
    invalid date. *)
Definition valid (ms : Z) : bool := (- MAX_TIME <=? ms) && (ms <=? MAX_TIME).

(** [new Date(ms).toISOString()], which throws a [RangeError] on an
    invalid date. *)
Definition toISOString (ms : Z) : option Instant :=
  if valid ms then Some ms else None.

(** [setUTCHours(0, 0, 0, 0)]. *)
Definition utcMidnight (t : Instant) : Instant := t - t mod MS_PER_DAY.

(** Proleptic Gregorian calendar date of a day number (days since the epoch). *)
Definition civil (days : Z) : Z * Z * Z :=
  let z := days + 719468 in
  let era := z / 146097 in
  let doe := z - era * 146097 in
  let yoe := (doe - doe / 1460 + doe / 36524 - doe / 146096) / 365 in
  let doy := doe - (365 * yoe + yoe / 4 - yoe / 100) in
  let mp := (5 * doy + 2) / 153 in
  let d := doy - (153 * mp + 2) / 5 + 1 in
  let m := if mp <? 10 then mp + 3 else mp - 9 in
  let y := yoe + era * 400 in
  (if m <=? 2 then y + 1 else y, m, d).

Fixpoint zeros (n : nat) : string :=
  match n with O => "" | S n' => "0" +:+ zeros n' end.

Definition pad (width : nat) (n : Z) : string :=
  let s := pretty (Z.abs n) in
  zeros (width - String.length s) +:+ s.

Definition year (y : Z) : string :=
  if (0 <=? y) && (y <=? 9999) then pad 4 y
  else (if y <? 0 then "-" else "+") +:+ pad 6 y.

(** [toISOString().slice(0, 10)]. *)
Definition isoDate (t : Instant) : string :=
  let '(y, m, d) := civil (t / MS_PER_DAY) in
  String.substring 0 10 (year y +:+ "-" +:+ pad 2 m +:+ "-" +:+ pad 2 d).

End JsDate.

Example isoDate_ex :
  JsDate.isoDate (JsDate.utcMidnight 1704153540000) = "2024-01-01" /\
  JsDate.isoDate (JsDate.utcMidnight 1704153660000) = "2024-01-02" /\
  JsDate.isoDate 0 = "1970-01-01" /\
  JsDate.isoDate (-1) = "1969-12-31" /\
  JsDate.isoDate 951782400000 = "2000-02-29".
Proof. repeat split; reflexivity. Qed.

(** ** Data model *)

Inductive SentimentLabel := Positive | Neutral | Negative.

(** [TIMEFRAME_CONFIG]: the hours of a supported timeframe. *)
Definition TIMEFRAME_CONFIG (timeframe : string) : option Z :=
  if String.eqb timeframe "24h" then Some 24
  else if String.eqb timeframe "7d" then Some (7 * 24)
  else if String.eqb timeframe "30d" then Some (30 * 24)
  else None.

Definition REDDIT_API_BASE : string := "https://oauth.reddit.com".
Definition MAX_POSTS : Z := 20.
Definition MAX_COMMENTS : Z := 10.
Definition RATE_LIMIT_MS : Z := 900.

Record RefreshPayload := {
  p_timeframe : option string;
  p_keyword : option string;
}.

Record SubredditRow := {
  sub_id : string;
  sub_name : string;
}.

(** The [data] object of a listing child, each field as the code reads it:
    text fields are [Some s] exactly when the JSON value is a string,
    [d_created_utc] is [Number(created_utc)] when that is finite, numeric
    fields are [Some n] exactly when [typeof] is ["number"], and the two
    flags are the truthiness of the JSON value. *)
Record ItemData := {
  d_id : string;
  d_title : option string;
  d_selftext : option string;
  d_body : option string;
  d_author : option string;
  d_created_utc : option Z;
  d_score : option Z;
  d_num_comments : option Z;
  d_permalink : option string;
  d_stickied : bool;
  d_removed_by_category : bool;
}.

(** An element of a [children] array; [data = None] when the element or
    its [data] is missing. *)
Record Child := {
  kind : string;
  data : option ItemData;
}.

Record PostRecordDraft := {
  pr_reddit_id : string;
  pr_subreddit_id : string;
  pr_title : string;
  pr_author : option string;
  pr_posted_at : Instant;
  pr_score : option Z;
  pr_comment_count : option Z;
  pr_permalink : option string;
  pr_raw_json : ItemData;
  pr_updated_at : Instant;
}.

Record PostSentimentDraft := {
  ps_reddit_id : string;
  ps_compound : Q;
  ps_label : SentimentLabel;
  ps_scored_at : Instant;
  ps_posted_at : Instant;
  ps_subreddit_id : string;
}.

Record CommentRecordDraft := {
  cr_reddit_id : string;
  cr_post_reddit_id : string;
  cr_author : option string;
  cr_posted_at : Instant;
  cr_body : string;
  cr_raw_json : ItemData;
}.

Record CommentSentimentDraft := {
  cs_reddit_id : string;
  cs_compound : Q;
  cs_label : SentimentLabel;
  cs_scored_at : Instant;
  cs_posted_at : Instant;
  cs_subreddit_id : string;
}.

Record AggregateRow := {
  subreddit_id : string;
  timeframe : string;
  bucket_start : string;
  positive_count : Z;
  neutral_count : Z;
  negative_count : Z;
  activity_count : Z;
}.

Record ProcessResult := {
  postsProcessed : Z;
  commentsProcessed : Z;
  sentimentsInserted : Z;
  aggregatesUpserted : Z;
  errors : list string;
}.

(** ** Pure helpers *)

Definition normalizeKeyword (keyword : option string) : option string :=
  match keyword with
  | None => None
  | Some k =>
      if negb (Js.truthy k) then None
      else
        let trimmed := Js.toLowerCase (Js.trim k) in
        if (0 <? Z.of_nat (String.length trimmed)) then Some trimmed else None
  end.

Definition labelFromScore (score : Q) : SentimentLabel :=
  if Qle_bool (5 # 100) score then Positive
  else if Qle_bool score (- (5 # 100)) then Negative
  else Neutral.

(** [keyword] is falsy when it is [null] or the empty string. *)
Definition matchesKeyword (text : string) (keyword : option string) : bool :=
  if negb (Js.truthy_opt keyword) then true
  else Js.includes (Js.toLowerCase text) (default "" keyword).

Definition sanitizeText (value : option string) : string :=
  match value with
  | None => ""
  | Some v =>
      if String.eqb v "[deleted]" || String.eqb v "[removed]" then "" else v
  end.

Record AggregateArgs := {
  a_subredditId : string;
  a_timeframe : string;
  a_timestamp : Instant;
  a_label : SentimentLabel;
}.

Definition bump (label : SentimentLabel) (row : AggregateRow) : AggregateRow :=
  let row1 :=
    match label with
    | Positive =>
        {| subreddit_id := subreddit_id row; timeframe := timeframe row;
           bucket_start := bucket_start row;
           positive_count := positive_count row + 1;
           neutral_count := neutral_count row;
           negative_count := negative_count row;
           activity_count := activity_count row |}
    | Negative =>
        {| subreddit_id := subreddit_id row; timeframe := timeframe row;
           bucket_start := bucket_start row;
           positive_count := positive_count row;
           neutral_count := neutral_count row;
           negative_count := negative_count row + 1;
           activity_count := activity_count row |}
    | Neutral =>
        {| subreddit_id := subreddit_id row; timeframe := timeframe row;
           bucket_start := bucket_start row;
           positive_count := positive_count row;
           neutral_count := neutral_count row + 1;
           negative_count := negative_count row;
           activity_count := activity_count row |}
    end in
  {| subreddit_id := subreddit_id row1; timeframe := timeframe row1;
     bucket_start := bucket_start row1;
     positive_count := positive_count row1;
     neutral_count := neutral_count row1;
     negative_count := negative_count row1;
     activity_count := activity_count row1 + 1 |}.

Definition updateAggregate (aggregates : gmap string AggregateRow)
    (args : AggregateArgs) : gmap string AggregateRow :=
  let bucket := JsDate.utcMidnight (a_timestamp args) in
  let bucketDate := JsDate.isoDate bucket in
  let key := a_subredditId args +:+ ":" +:+ bucketDate in
  let row :=
    match aggregates !! key with
    | Some row => row
    | None =>
        {| subreddit_id := a_subredditId args; timeframe := a_timeframe args;
           bucket_start := bucketDate;
           positive_count := 0; neutral_count := 0; negative_count := 0;
           activity_count := 0 |}
    end in
  <[key := bump (a_label args) row]> aggregates.

(** ** The store *)

Record JobRow := {
  job_id : nat;
  job_timeframe : string;
  job_keyword : option string;
  job_trigger_source : string;
  job_status : string;
  job_started_at : option Instant;
  job_finished_at : option Instant;
  job_posts_processed : Z;
  job_comments_processed : Z;
  job_sentiments_processed : Z;
  job_duration_ms : option Z;
  job_error : option string;
}.

(** A partial row, as passed to [update]: [None] leaves a column alone. *)
Record JobPatch := {
  u_status : option string;
  u_started_at : option Instant;
  u_finished_at : option Instant;
  u_posts_processed : option Z;
  u_comments_processed : option Z;
  u_sentiments_processed : option Z;
  u_duration_ms : option Z;
  u_error : option (option string);
}.

(** A stored row of a table with a generated [id] column: the identifier
    and the columns the pipeline writes. *)
Record Stored (C : Type) := {
  row_id : nat;
  cols : C;
}.
Arguments row_id {C} _.
Arguments cols {C} _.

Definition PostRow := Stored PostRecordDraft.

(** A comment draft re-keyed to the identifier of its stored post. *)
Record CommentCols := {
  cc_reddit_id : string;
  cc_post_id : nat;
  cc_author : option string;
  cc_posted_at : Instant;
  cc_body : string;
  cc_raw_json : ItemData;
}.

Definition CommentRow := Stored CommentCols.

Inductive SourceType := SrcPost | SrcComment.

Record SentimentRow := {
  s_source_type : SourceType;
  s_post_id : option nat;
  s_comment_id : option nat;
  s_compound : Q;
  s_label : SentimentLabel;
  s_scored_at : Instant;
}.

Record DB := {
  subreddits : list SubredditRow;
  refresh_jobs : list JobRow;
  posts : list PostRow;
  comments : list CommentRow;
  sentiments : list SentimentRow;
  subreddit_sentiment_daily : list AggregateRow;
  next_id : nat;
}.

Definition set_refresh_jobs (v : list JobRow) (d : DB) : DB :=
  {| subreddits := subreddits d; refresh_jobs := v; posts := posts d;
     comments := comments d; sentiments := sentiments d;
     subreddit_sentiment_daily := subreddit_sentiment_daily d;
     next_id := next_id d |}.

Definition set_posts (v : list PostRow) (d : DB) : DB :=
  {| subreddits := subreddits d; refresh_jobs := refresh_jobs d; posts := v;
     comments := comments d; sentiments := sentiments d;
     subreddit_sentiment_daily := subreddit_sentiment_daily d;
     next_id := next_id d |}.

Definition set_comments (v : list CommentRow) (d : DB) : DB :=
  {| subreddits := subreddits d; refresh_jobs := refresh_jobs d; posts := posts d;
     comments := v; sentiments := sentiments d;
     subreddit_sentiment_daily := subreddit_sentiment_daily d;
     next_id := next_id d |}.

Definition set_sentiments (v : list SentimentRow) (d : DB) : DB :=
  {| subreddits := subreddits d; refresh_jobs := refresh_jobs d; posts := posts d;
     comments := comments d; sentiments := v;
     subreddit_sentiment_daily := subreddit_sentiment_daily d;
     next_id := next_id d |}.

Definition set_daily (v : list AggregateRow) (d : DB) : DB :=
  {| subreddits := subreddits d; refresh_jobs := refresh_jobs d; posts := posts d;
     comments := comments d; sentiments := sentiments d;
     subreddit_sentiment_daily := v;
     next_id := next_id d |}.

Definition set_next_id (v : nat) (d : DB) : DB :=
  {| subreddits := subreddits d; refresh_jobs := refresh_jobs d; posts := posts d;
     comments := comments d; sentiments := sentiments d;
     subreddit_sentiment_daily := subreddit_sentiment_daily d;
     next_id := v |}.

(** *** Statements on the tables (what the store does when it does not fail) *)

Module Sql.

Definition patch_job (p : JobPatch) (r : JobRow) : JobRow :=
  {| job_id := job_id r;
     job_timeframe := job_timeframe r;
     job_keyword := job_keyword r;
     job_trigger_source := job_trigger_source r;
     job_status := default (job_status r) (u_status p);
     job_started_at :=
       match u_started_at p with Some t => Some t | None => job_started_at r end;
     job_finished_at :=
       match u_finished_at p with Some t => Some t | None => job_finished_at r end;
     job_posts_processed := default (job_posts_processed r) (u_posts_processed p);
     job_comments_processed :=
       default (job_comments_processed r) (u_comments_processed p);
     job_sentiments_processed :=
       default (job_sentiments_processed r) (u_sentiments_processed p);
     job_duration_ms :=
       match u_duration_ms p with Some t => Some t | None => job_duration_ms r end;
     job_error := default (job_error r) (u_error p) |}.

(** [insert({timeframe, keyword, trigger_source, status}).select("id").single()]:
    the other columns take their defaults. *)
Definition insert_job (tf : string) (kw : option string) (src st : string)
    (d : DB) : nat * DB :=
  let id := next_id d in
  let row :=
    {| job_id := id; job_timeframe := tf; job_keyword := kw;
       job_trigger_source := src; job_status := st;
       job_started_at := None; job_finished_at := None;
       job_posts_processed := 0; job_comments_processed := 0;
       job_sentiments_processed := 0; job_duration_ms := None;
       job_error := None |} in
  (id, set_next_id (S id) (set_refresh_jobs (refresh_jobs d ++ [row]) d)).

(** [update(patch).eq("id", jobId)]. *)
Definition update_job (id : nat) (p : JobPatch) (d : DB) : DB :=
  set_refresh_jobs
    (map (fun r => if Nat.eqb (job_id r) id then patch_job p r else r)
       (refresh_jobs d)) d.

(** [upsert(row, { onConflict: "reddit_id" })] for one row of a table
    keyed by [key]: the stored row with that key takes the new columns and
    keeps its [id]; otherwise a row is added under a fresh [id]. The result
    is the table and the next fresh [id]. *)
Fixpoint upsert_row {C} (key : C -> string) (c : C) (fresh : nat)
    (rows : list (Stored C)) : list (Stored C) * nat :=
  match rows with
  | [] => ([ {| row_id := fresh; cols := c |} ], S fresh)
  | r :: rows' =>
      if String.eqb (key (cols r)) (key c)
      then ({| row_id := row_id r; cols := c |} :: rows', fresh)
      else let '(rs, fresh') := upsert_row key c fresh rows' in (r :: rs, fresh')
  end.

(** The rows of a batch, one after the other. *)
Definition upsert_rows {C} (key : C -> string) (batch : list C)
    (table : list (Stored C) * nat) : list (Stored C) * nat :=
  fold_left (fun t c => upsert_row key c t.2 t.1) batch table.

(** The columns [reddit_id, id] of a table. *)
Definition keys {C} (key : C -> string) (rows : list (Stored C))
    : list (string * nat) :=
  map (fun r => (key (cols r), row_id r)) rows.

(** [select("id, reddit_id").in("reddit_id", ids)]. *)
Definition select_keys {C} (key : C -> string) (ids : list string)
    (rows : list (Stored C)) : list (string * nat) :=
  filter (fun p => p.1 ∈ ids) (keys key rows).

Definition upsert_posts (batch : list PostRecordDraft) (d : DB) : DB :=
  let t := upsert_rows pr_reddit_id batch (posts d, next_id d) in
  set_next_id t.2 (set_posts t.1 d).

Definition select_posts (ids : list string) (d : DB) : list (string * nat) :=
  select_keys pr_reddit_id ids (posts d).

Definition upsert_comments (batch : list CommentCols) (d : DB) : DB :=
  let t := upsert_rows cc_reddit_id batch (comments d, next_id d) in
  set_next_id t.2 (set_comments t.1 d).

Definition select_comments (ids : list string) (d : DB) : list (string * nat) :=
  select_keys cc_reddit_id ids (comments d).

Definition in_ids (o : option nat) (ids : list nat) : bool :=
  match o with
  | Some i => bool_decide (i ∈ ids)
  | None => false
  end.

(** [delete().in("post_id", ids)]. *)
Definition delete_sentiments_by_post (ids : list nat) (d : DB) : DB :=
  set_sentiments
    (List.filter (fun r => negb (in_ids (s_post_id r) ids)) (sentiments d)) d.

(** [delete().in("comment_id", ids)]. *)
Definition delete_sentiments_by_comment (ids : list nat) (d : DB) : DB :=
  set_sentiments
    (List.filter (fun r => negb (in_ids (s_comment_id r) ids)) (sentiments d)) d.

Definition insert_sentiments (rows : list SentimentRow) (d : DB) : DB :=
  set_sentiments (sentiments d ++ rows) d.

(** The rows that [eq("timeframe", tf).in("subreddit_id", subs)] does not
    select. *)
Definition stays (tf : string) (subs : list string) (r : AggregateRow) : bool :=
  negb (String.eqb (timeframe r) tf && bool_decide (subreddit_id r ∈ subs)).

(** [delete().eq("timeframe", tf).in("subreddit_id", subs)]. *)
Definition delete_daily (tf : string) (subs : list string) (d : DB) : DB :=
  set_daily (List.filter (stays tf subs) (subreddit_sentiment_daily d)) d.

Definition same_bucket (a b : AggregateRow) : bool :=
  String.eqb (subreddit_id a) (subreddit_id b)
  && String.eqb (timeframe a) (timeframe b)
  && String.eqb (bucket_start a) (bucket_start b).

(** [upsert(row, { onConflict: "subreddit_id,timeframe,bucket_start" })]. *)
Fixpoint upsert_daily_row (rows : list AggregateRow) (c : AggregateRow)
    : list AggregateRow :=
  match rows with
  | [] => [c]
  | r :: rows' =>
      if same_bucket r c then c :: rows' else r :: upsert_daily_row rows' c
  end.

Definition upsert_daily (batch : list AggregateRow) (d : DB) : DB :=
  set_daily (fold_left upsert_daily_row batch (subreddit_sentiment_daily d)) d.

End Sql.

(** ** The outside world *)

(** The parsed body of a Reddit answer, seen through the two paths the code
    follows: [listing?.data?.children] and [thread?.[1]?.data?.children];
    each is [Some l] exactly when the value found there is an array. *)
Record Payload := {
  listing_children : option (list Child);
  thread_children : option (list Child);
}.

(** An HTTP response: [json = None] when the body is not JSON, so that
    [response.json()] rejects. *)
Record Response := {
  status : Z;
  text : string;
  json : option Payload;
}.

Definition ok (r : Response) : bool := (200 <=? status r) && (status r <=? 299).

Inductive GrantType := password | client_credentials.

Definition grant_name (g : GrantType) : string :=
  match g with password => "password" | client_credentials => "client_credentials" end.

(** The answer of the token endpoint, with the three fields the code reads
    from the parsed body (all [None] when the body does not parse). *)
Record TokenResponse := {
  t_status : Z;
  t_text : string;
  t_error_description : option string;
  t_error : option string;
  t_access_token : option string;
}.

Definition t_ok (r : TokenResponse) : bool :=
  (200 <=? t_status r) && (t_status r <=? 299).

(** What the function reads but does not control. The oracles are indexed
    by the number of earlier calls of the same kind; [inl msg] is a
    rejected [fetch] (a network error).

    [clock k] is what the [k]-th [new Date()] of the execution shows. The
    time that passes between two readings, the waits of [delay] among it,
    is the difference between two values of the oracle: nothing ties one
    value to the next, so a statement for every [Platform] holds whatever
    the waits add. *)
Record Platform := {
  REDDIT_CLIENT_ID : option string;
  REDDIT_CLIENT_SECRET : option string;
  REDDIT_USERNAME : option string;
  REDDIT_PASSWORD : option string;
  SUPABASE_URL : option string;
  SUPABASE_SERVICE_ROLE_KEY : option string;
  SERVICE_ROLE_KEY : option string;
  reddit_get : nat -> string -> string -> string + Response;
  reddit_token : nat -> GrantType -> string + TokenResponse;
  polarity_compound : string -> Q;
  clock : nat -> Instant;
  store_fault : nat -> option string;
}.

(** What the function changes: the store, the live token of the
    [TokenManager], and the counters and logs of its effects. *)
Record World := {
  db : DB;
  token : string;
  gets : nat;
  token_requests : nat;
  clock_reads : nat;
  store_ops : nat;
  slept : list Z;
  console : list string;
}.

Definition set_db (v : DB) (w : World) : World :=
  {| db := v; token := token w; gets := gets w;
     token_requests := token_requests w; clock_reads := clock_reads w;
     store_ops := store_ops w; slept := slept w; console := console w |}.

Definition set_token (v : string) (w : World) : World :=
  {| db := db w; token := v; gets := gets w;
     token_requests := token_requests w; clock_reads := clock_reads w;
     store_ops := store_ops w; slept := slept w; console := console w |}.

Definition set_gets (v : nat) (w : World) : World :=
  {| db := db w; token := token w; gets := v;
     token_requests := token_requests w; clock_reads := clock_reads w;
     store_ops := store_ops w; slept := slept w; console := console w |}.

Definition set_token_requests (v : nat) (w : World) : World :=
  {| db := db w; token := token w; gets := gets w;
     token_requests := v; clock_reads := clock_reads w;
     store_ops := store_ops w; slept := slept w; console := console w |}.

Definition set_clock_reads (v : nat) (w : World) : World :=
  {| db := db w; token := token w; gets := gets w;
     token_requests := token_requests w; clock_reads := v;
     store_ops := store_ops w; slept := slept w; console := console w |}.

Definition set_store_ops (v : nat) (w : World) : World :=
  {| db := db w; token := token w; gets := gets w;
     token_requests := token_requests w; clock_reads := clock_reads w;
     store_ops := v; slept := slept w; console := console w |}.

Definition set_slept (v : list Z) (w : World) : World :=
  {| db := db w; token := token w; gets := gets w;
     token_requests := token_requests w; clock_reads := clock_reads w;
     store_ops := store_ops w; slept := v; console := console w |}.

Definition set_console (v : list string) (w : World) : World :=
  {| db := db w; token := token w; gets := gets w;
     token_requests := token_requests w; clock_reads := clock_reads w;
     store_ops := store_ops w; slept := slept w; console := v |}.

(** ** Effects: state and exceptions *)

Inductive Result (A : Type) : Type :=
| Ok (a : A)
| Throw (message : string).
Arguments Ok {A} a.
Arguments Throw {A} message.

Definition M (A : Type) : Type := World -> Result A * World.

Definition ret {A} (a : A) : M A := fun w => (Ok a, w).

Definition throw {A} (message : string) : M A := fun w => (Throw message, w).

Definition bind {A B} (m : M A) (k : A -> M B) : M B :=
  fun w =>
    match m w with
    | (Ok a, w') => k a w'
    | (Throw e, w') => (Throw e, w')
    end.

(** [try { m } catch (error) { h(error.message) }]. *)
Definition try_catch {A} (m : M A) (h : string -> M A) : M A :=
  fun w =>
    match m w with
    | (Ok a, w') => (Ok a, w')
    | (Throw e, w') => h e w'
    end.

Notation "'let!' x ':=' m 'in' k" := (bind m (fun x => k))
  (at level 10, x pattern, m at level 100, k at level 200).
Notation "m ';;' k" := (bind m (fun _ => k))
  (at level 100, k at level 200, right associativity).

Section Effects.

Context (P : Platform).

(** [new Date()], as an instant: the next reading of the clock. *)
Definition now : M Instant :=
  fun w => (Ok (clock P (clock_reads w)), set_clock_reads (S (clock_reads w)) w).

(** [await delay(ms)]: the wait is logged; the time it takes shows in the
    later readings of the clock. *)
Definition delay (ms : Z) : M unit :=
  fun w => (Ok tt, set_slept (ms :: slept w) w).

Definition console_error (line : string) : M unit :=
  fun w => (Ok tt, set_console (line :: console w) w).

(** [await fetch(url, { headers: { Authorization: `Bearer ${token}` } })]
    against Reddit; a rejected [fetch] throws. *)
Definition fetch_get (url : string) : M Response :=
  fun w =>
    let w' := set_gets (S (gets w)) w in
    match reddit_get P (gets w) url (token w) with
    | inl e => (Throw e, w')
    | inr r => (Ok r, w')
    end.

(** The POST to the token endpoint. *)
Definition fetch_token (g : GrantType) : M TokenResponse :=
  fun w =>
    let w' := set_token_requests (S (token_requests w)) w in
    match reddit_token P (token_requests w) g with
    | inl e => (Throw e, w')
    | inr r => (Ok r, w')
    end.

(** One statement sent to the store: it answers [{ data, error }], and a
    statement that fails leaves the tables as they were. *)
Definition store {A} (f : DB -> A * DB) : M (string + A) :=
  fun w =>
    let w' := set_store_ops (S (store_ops w)) w in
    match store_fault P (store_ops w) with
    | Some e => (Ok (inl e), w')
    | None => let '(a, d) := f (db w) in (Ok (inr a), set_db d w')
    end.

Definition store_ (f : DB -> DB) : M (string + unit) :=
  store (fun d => (tt, f d)).

Definition put_token (v : string) : M unit := fun w => (Ok tt, set_token v w).

End Effects.

(** ** TokenManager and the rate-limited client *)

Section Pipeline.

Context (P : Platform).

Definition requestRedditAccessToken (grantType : GrantType) : M string :=
  if negb (Js.truthy_opt (REDDIT_CLIENT_ID P))
     || negb (Js.truthy_opt (REDDIT_CLIENT_SECRET P))
  then throw "Reddit client credentials are not configured."
  else
    (match grantType with
     | password =>
         if negb (Js.truthy_opt (REDDIT_USERNAME P))
            || negb (Js.truthy_opt (REDDIT_PASSWORD P))
         then throw "Reddit username/password are required for password grant."
         else ret tt
     | client_credentials => ret tt
     end) ;;
    let! response := fetch_token P grantType in
    if negb (t_ok response) then
      let reason :=
        match t_error_description response with
        | Some r => r
        | None => default (t_text response) (t_error response)
        end in
      throw ("Reddit auth failed (" +:+ pretty (t_status response) +:+ ") ["
             +:+ grant_name grantType +:+ "]: " +:+ reason)
    else
      match t_access_token response with
      | Some accessToken =>
          if Js.truthy accessToken then ret accessToken
          else throw ("Reddit auth response missing access token ["
                      +:+ grant_name grantType +:+ "]: " +:+ t_text response)
      | None =>
          throw ("Reddit auth response missing access token ["
                 +:+ grant_name grantType +:+ "]: " +:+ t_text response)
      end.

Definition fetchRedditAccessToken : M string :=
  if Js.truthy_opt (REDDIT_USERNAME P) && Js.truthy_opt (REDDIT_PASSWORD P)
  then
    try_catch (requestRedditAccessToken password)
      (fun message =>
         if negb (Js.includes message "unauthorized_client")
         then throw message
         else requestRedditAccessToken client_credentials)
  else requestRedditAccessToken client_credentials.

(** The message of the [SyntaxError] of [response.json()]. *)
Definition JSON_SYNTAX_ERROR : string := "Unexpected token in JSON".

(** [fetchJson(url, tokenManager, attempt)]. The recursion of the source is
    on [attempt], guarded by [attempt < 3]; [retries] bounds it
    structurally and is never the reason to stop when it starts at
    [3 - attempt] (lemma [fetchJson_at_fuel]). *)
Fixpoint fetchJson_at (retries : nat) (url : string) (attempt : Z) : M Payload :=
  let! response := fetch_get P url in
  if (status response =? 401) && (attempt <? 3) then
    match retries with
    | O => throw "unreachable"
    | S retries' =>
        let! fresh := fetchRedditAccessToken in
        put_token fresh ;;
        fetchJson_at retries' url (attempt + 1)
    end
  else if ((status response =? 429) || (status response =? 403)) && (attempt <? 3) then
    match retries with
    | O => throw "unreachable"
    | S retries' =>
        delay (RATE_LIMIT_MS * attempt) ;;
        fetchJson_at retries' url (attempt + 1)
    end
  else if negb (ok response) then
    throw ("Reddit request failed (" +:+ pretty (status response) +:+ "): "
           +:+ url +:+ " :: " +:+ text response)
  else
    match json response with
    | Some payload => ret payload
    | None => throw JSON_SYNTAX_ERROR
    end.

Definition fetchJson (url : string) : M Payload := fetchJson_at 2 url 1.

(** ** SubredditProcessor *)

Record Gathered := {
  postRecords : list PostRecordDraft;
  postSentiments : list PostSentimentDraft;
  commentRecords : list CommentRecordDraft;
  commentSentiments : list CommentSentimentDraft;
  aggregates : gmap string AggregateRow;
  warnings : list string;
}.

Definition no_drafts (aggs : gmap string AggregateRow) (errs : list string)
    : Gathered :=
  {| postRecords := []; postSentiments := []; commentRecords := [];
     commentSentiments := []; aggregates := aggs; warnings := errs |}.

Definition push_warning (message : string) (g : Gathered) : Gathered :=
  {| postRecords := postRecords g; postSentiments := postSentiments g;
     commentRecords := commentRecords g;
     commentSentiments := commentSentiments g;
     aggregates := aggregates g; warnings := warnings g ++ [message] |}.

Definition push_post (r : PostRecordDraft) (g : Gathered) : Gathered :=
  {| postRecords := postRecords g ++ [r]; postSentiments := postSentiments g;
     commentRecords := commentRecords g;
     commentSentiments := commentSentiments g;
     aggregates := aggregates g; warnings := warnings g |}.

Definition push_post_sentiment (s : PostSentimentDraft) (tf : string)
    (g : Gathered) : Gathered :=
  {| postRecords := postRecords g; postSentiments := postSentiments g ++ [s];
     commentRecords := commentRecords g;
     commentSentiments := commentSentiments g;
     aggregates :=
       updateAggregate (aggregates g)
         {| a_subredditId := ps_subreddit_id s; a_timeframe := tf;
            a_timestamp := ps_posted_at s; a_label := ps_label s |};
     warnings := warnings g |}.

Definition push_comment (r : CommentRecordDraft) (s : CommentSentimentDraft)
    (tf : string) (g : Gathered) : Gathered :=
  {| postRecords := postRecords g; postSentiments := postSentiments g;
     commentRecords := commentRecords g ++ [r];
     commentSentiments := commentSentiments g ++ [s];
     aggregates :=
       updateAggregate (aggregates g)
         {| a_subredditId := cs_subreddit_id s; a_timeframe := tf;
            a_timestamp := cs_posted_at s; a_label := cs_label s |};
     warnings := warnings g |}.

(** [for (const x of xs) { ... }] over an accumulated state. *)
Fixpoint for_of {A St} (xs : list A) (body : St -> A -> M St) (s : St) : M St :=
  match xs with
  | [] => ret s
  | x :: xs' => let! s' := body s x in for_of xs' body s'
  end.

(** [new Date(seconds * 1000).toISOString()]. *)
Definition isoOfSeconds (seconds : Z) : M Instant :=
  match JsDate.toISOString (seconds * 1000) with
  | Some t => ret t
  | None => throw "Invalid time value"
  end.

Definition LF : string := String (ascii_of_nat 10) "".

Definition or_null (s : string) : option string :=
  if Js.truthy s then Some s else None.

Definition postsUrl (name : string) : string :=
  REDDIT_API_BASE +:+ "/r/" +:+ name +:+ "/new?limit=" +:+ pretty MAX_POSTS
  +:+ "&raw_json=1".

Definition commentsUrl (id : string) : string :=
  REDDIT_API_BASE +:+ "/comments/" +:+ id +:+ "?depth=1&limit="
  +:+ pretty MAX_COMMENTS +:+ "&raw_json=1".

Definition commentRecordOf (post commentData : ItemData) (postedAtIso : Instant)
    : CommentRecordDraft :=
  {| cr_reddit_id := d_id commentData;
     cr_post_reddit_id := d_id post;
     cr_author := or_null (sanitizeText (d_author commentData));
     cr_posted_at := postedAtIso;
     cr_body := sanitizeText (d_body commentData);
     cr_raw_json := commentData |}.

Definition commentSentimentOf (subreddit : SubredditRow)
    (commentData : ItemData) (postedAtIso scoredAt : Instant)
    : CommentSentimentDraft :=
  {| cs_reddit_id := d_id commentData;
     cs_compound := polarity_compound P (sanitizeText (d_body commentData));
     cs_label :=
       labelFromScore (polarity_compound P (sanitizeText (d_body commentData)));
     cs_scored_at := scoredAt;
     cs_posted_at := postedAtIso;
     cs_subreddit_id := sub_id subreddit |}.

(** The body of the loop over the comments of one post. *)
Definition processComment (subreddit : SubredditRow) (tf : string)
    (sinceEpoch : Z) (keyword : option string) (post : ItemData)
    (g : Gathered) (commentChild : Child) : M Gathered :=
  if negb (String.eqb (kind commentChild) "t1") then ret g
  else
    match data commentChild with
    | None => ret g
    | Some commentData =>
        match d_created_utc commentData with
        | None => ret g
        | Some commentCreated =>
            if commentCreated <? sinceEpoch then ret g
            else
              let body := sanitizeText (d_body commentData) in
              if negb (Js.truthy body) then ret g
              else if Js.truthy_opt keyword && negb (matchesKeyword body keyword)
              then ret g
              else
                let! postedAtIso := isoOfSeconds commentCreated in
                let! scoredAt := now P in
                ret (push_comment
                       (commentRecordOf post commentData postedAtIso)
                       (commentSentimentOf subreddit commentData postedAtIso
                          scoredAt)
                       tf g)
        end
    end.

(** Scoring of a kept post: skipped when its combined text is empty. *)
Definition scorePost (subreddit : SubredditRow) (tf : string) (d : ItemData)
    (posted_at : Instant) (combinedForKeyword : string) (g : Gathered)
    : M Gathered :=
  if 0 <? Z.of_nat (String.length combinedForKeyword) then
    let compound := polarity_compound P combinedForKeyword in
    let label := labelFromScore compound in
    let! scoredAt := now P in
    ret (push_post_sentiment
           {| ps_reddit_id := d_id d;
              ps_compound := compound;
              ps_label := label;
              ps_scored_at := scoredAt;
              ps_posted_at := posted_at;
              ps_subreddit_id := sub_id subreddit |} tf g)
  else ret g.

Definition commentWarning (subreddit : SubredditRow) (d : ItemData)
    (message : string) : string :=
  "[" +:+ sub_name subreddit +:+ "] Failed to fetch comments for "
  +:+ d_id d +:+ ": " +:+ message.

(** The comment pass of a kept post: the fetch, guarded by [try]/[catch],
    then the loop over the comments, then the courtesy delay. *)
Definition commentPass (subreddit : SubredditRow) (tf : string)
    (sinceEpoch : Z) (keyword : option string) (d : ItemData) (g : Gathered)
    : M Gathered :=
  let! fetched :=
    try_catch
      (let! commentsListing := fetchJson (commentsUrl (d_id d)) in
       ret (inr commentsListing))
      (fun message => ret (inl message)) in
  match fetched with
  | inl message =>
      let g' := push_warning (commentWarning subreddit d message) g in
      delay RATE_LIMIT_MS ;;
      ret g'
  | inr commentsListing =>
      let commentChildren := default [] (thread_children commentsListing) in
      let! g' :=
        for_of commentChildren
          (processComment subreddit tf sinceEpoch keyword d) g in
      delay RATE_LIMIT_MS ;;
      ret g'
  end.

Definition postRecordOf (subreddit : SubredditRow) (d : ItemData)
    (title : string) (posted_at nowIso : Instant) : PostRecordDraft :=
  {| pr_reddit_id := d_id d;
     pr_subreddit_id := sub_id subreddit;
     pr_title := title;
     pr_author := or_null (sanitizeText (d_author d));
     pr_posted_at := posted_at;
     pr_score := d_score d;
     pr_comment_count := d_num_comments d;
     pr_permalink :=
       match d_permalink d with
       | Some p => Some ("https://reddit.com" +:+ p)
       | None => None
       end;
     pr_raw_json := d;
     pr_updated_at := nowIso |}.

(** The body of the loop over the children of a listing. *)
Definition processPost (subreddit : SubredditRow) (tf : string)
    (sinceEpoch : Z) (keyword : option string) (nowIso : Instant)
    (g : Gathered) (child : Child) : M Gathered :=
  match data child with
  | None => ret g
  | Some d =>
      if negb (String.eqb (kind child) "t3") then ret g
      else if d_stickied d || d_removed_by_category d then ret g
      else
        match d_created_utc d with
        | None => ret g
        | Some createdUtc =>
            if createdUtc <? sinceEpoch then ret g
            else
              let title := sanitizeText (d_title d) in
              let selfText := sanitizeText (d_selftext d) in
              let combinedForKeyword := Js.trim (title +:+ LF +:+ selfText) in
              if Js.truthy_opt keyword
                 && negb (matchesKeyword combinedForKeyword keyword)
              then ret g
              else
                let! posted_at := isoOfSeconds createdUtc in
                let postRecord :=
                  postRecordOf subreddit d title posted_at nowIso in
                let! g' :=
                  scorePost subreddit tf d posted_at combinedForKeyword
                    (push_post postRecord g) in
                commentPass subreddit tf sinceEpoch keyword d g'
        end
  end.

Definition processSubreddit (subreddit : SubredditRow) (tf : string)
    (sinceEpoch : Z) (keyword : option string)
    (aggs : gmap string AggregateRow) (errs : list string) : M Gathered :=
  let! fetched :=
    try_catch
      (let! listing := fetchJson (postsUrl (sub_name subreddit)) in
       ret (inr listing))
      (fun message => ret (inl message)) in
  match fetched with
  | inl message =>
      ret (push_warning
             ("[" +:+ sub_name subreddit +:+ "] Failed to fetch posts: "
              +:+ message) (no_drafts aggs errs))
  | inr listing =>
      let children := default [] (listing_children listing) in
      let! nowIso := now P in
      for_of children (processPost subreddit tf sinceEpoch keyword nowIso)
        (no_drafts aggs errs)
  end.

(** ** processRefresh: gathering, then the flush to the store *)

(** [allX.push(...result.X)]; the aggregate map and the warning list are
    the shared objects the call has just updated. *)
Definition collect (all result : Gathered) : Gathered :=
  {| postRecords := postRecords all ++ postRecords result;
     postSentiments := postSentiments all ++ postSentiments result;
     commentRecords := commentRecords all ++ commentRecords result;
     commentSentiments := commentSentiments all ++ commentSentiments result;
     aggregates := aggregates result;
     warnings := warnings result |}.

(** The loop of [processRefresh] over the configured subreddits. *)
Definition gather (subs : list SubredditRow) (tf : string) (sinceEpoch : Z)
    (keyword : option string) : M Gathered :=
  for_of subs
    (fun all subreddit =>
       let! result :=
         processSubreddit subreddit tf sinceEpoch keyword
           (aggregates all) (warnings all) in
       ret (collect all result))
    (no_drafts ∅ []).

(** [if (error) throw new Error(`${context}: ${error.message}`)]. *)
Definition expect {A} (context : string) (answer : string + A) : M A :=
  match answer with
  | inl message => throw (context +:+ ": " +:+ message)
  | inr a => ret a
  end.

(** [new Map(pairs)]: a later pair replaces an earlier one with its key. *)
Definition js_map (pairs : list (string * nat)) : gmap string nat :=
  fold_left (fun m p => <[p.1 := p.2]> m) pairs ∅.

Definition commentRow (postIdMap : gmap string nat) (draft : CommentRecordDraft)
    : option CommentCols :=
  match postIdMap !! cr_post_reddit_id draft with
  | None => None
  | Some postId =>
      Some {| cc_reddit_id := cr_reddit_id draft;
              cc_post_id := postId;
              cc_author := cr_author draft;
              cc_posted_at := cr_posted_at draft;
              cc_body := cr_body draft;
              cc_raw_json := cr_raw_json draft |}
  end.

Definition postSentimentRow (postIdMap : gmap string nat)
    (draft : PostSentimentDraft) : option SentimentRow :=
  match postIdMap !! ps_reddit_id draft with
  | None => None
  | Some postId =>
      Some {| s_source_type := SrcPost;
              s_post_id := Some postId;
              s_comment_id := None;
              s_compound := ps_compound draft;
              s_label := ps_label draft;
              s_scored_at := ps_scored_at draft |}
  end.

Definition commentSentimentRow (commentIdMap : gmap string nat)
    (draft : CommentSentimentDraft) : option SentimentRow :=
  match commentIdMap !! cs_reddit_id draft with
  | None => None
  | Some commentId =>
      Some {| s_source_type := SrcComment;
              s_post_id := None;
              s_comment_id := Some commentId;
              s_compound := cs_compound draft;
              s_label := cs_label draft;
              s_scored_at := cs_scored_at draft |}
  end.

Definition nonempty {A} (l : list A) : bool := 0 <? Z.of_nat (length l).

(** [if (xs.length > 0) { const { error } = await statement;
    if (error) throw new Error(`${context}: ${error.message}`); }]. *)
Definition when_nonempty {A} (xs : list A) (context : string)
    (statement : DB -> DB) : M unit :=
  if nonempty xs then
    let! answer := store_ P statement in
    expect context answer
  else ret tt.

(** The part of [processRefresh] after the loop: upserts, re-keying,
    delete-then-insert of the sentiments and of the daily aggregates. *)
Definition flush (tf : string) (g : Gathered) : M ProcessResult :=
  let allPostRecords := postRecords g in
  let uniquePostRedditIds := Js.uniq (map pr_reddit_id allPostRecords) [] in
  when_nonempty allPostRecords "Failed to upsert posts"
    (Sql.upsert_posts allPostRecords) ;;
  let! answer := store P (fun d => (Sql.select_posts uniquePostRedditIds d, d)) in
  let! storedPosts := expect "Failed to load stored posts" answer in
  let postIdMap := js_map storedPosts in
  let commentRows := omap (commentRow postIdMap) (commentRecords g) in
  let uniqueCommentIds := Js.uniq (map cc_reddit_id commentRows) [] in
  when_nonempty commentRows "Failed to upsert comments"
    (Sql.upsert_comments commentRows) ;;
  let! answer :=
    store P (fun d => (Sql.select_comments uniqueCommentIds d, d)) in
  let! storedComments := expect "Failed to load stored comments" answer in
  let commentIdMap := js_map storedComments in
  let postSentimentRows := omap (postSentimentRow postIdMap) (postSentiments g) in
  let commentSentimentRows :=
    omap (commentSentimentRow commentIdMap) (commentSentiments g) in
  let postIdsForCleanup := Js.uniq (omap s_post_id postSentimentRows) [] in
  let commentIdsForCleanup :=
    Js.uniq (omap s_comment_id commentSentimentRows) [] in
  when_nonempty postIdsForCleanup "Failed to clean existing post sentiments"
    (Sql.delete_sentiments_by_post postIdsForCleanup) ;;
  when_nonempty commentIdsForCleanup
    "Failed to clean existing comment sentiments"
    (Sql.delete_sentiments_by_comment commentIdsForCleanup) ;;
  when_nonempty postSentimentRows "Failed to insert post sentiments"
    (Sql.insert_sentiments postSentimentRows) ;;
  when_nonempty commentSentimentRows "Failed to insert comment sentiments"
    (Sql.insert_sentiments commentSentimentRows) ;;
  let aggregateRows := (map_to_list (aggregates g)).*2 in
  (if nonempty aggregateRows then
     let subredditsProcessed := Js.uniq (map subreddit_id aggregateRows) [] in
     let! answer := store_ P (Sql.delete_daily tf subredditsProcessed) in
     expect "Failed to clean sentiment aggregates" answer ;;
     let! answer := store_ P (Sql.upsert_daily aggregateRows) in
     expect "Failed to upsert sentiment aggregates" answer
   else ret tt) ;;
  ret {| postsProcessed := Z.of_nat (length allPostRecords);
         commentsProcessed := Z.of_nat (length commentRows);
         sentimentsInserted :=
           Z.of_nat (length postSentimentRows)
           + Z.of_nat (length commentSentimentRows);
         aggregatesUpserted := Z.of_nat (length aggregateRows);
         errors := warnings g |}.

(** [Math.floor(since.getTime() / 1000)] after moving [since] back by the
    hours of the timeframe. *)
Definition cutoff (since : Instant) (hours : Z) : Z :=
  (since - hours * 3600000) / 1000.

Definition processRefresh (tf : string) (keyword : option string)
    : M ProcessResult :=
  let config := TIMEFRAME_CONFIG tf in
  let! since := now P in
  match config with
  | None => throw "Cannot read properties of undefined (reading 'hours')"
  | Some hours =>
      let sinceEpoch := cutoff since hours in
      let! r := store P (fun d => (subreddits d, d)) in
      let! subs := expect "Failed to load subreddits" r in
      if negb (nonempty subs)
      then throw "No subreddits configured. Seed the table first."
      else
        let! g := gather subs tf sinceEpoch keyword in
        flush tf g
  end.

(** ** JobLifecycle: the handler *)

Definition updateJob (jobId : nat) (patch : JobPatch) : M unit :=
  let! r := store_ P (Sql.update_job jobId patch) in
  match r with
  | inl message =>
      console_error ("Failed to update refresh job " +:+ pretty jobId +:+ " "
                     +:+ message)
  | inr _ => ret tt
  end.

Record Request := {
  method : string;
  body : option RefreshPayload;
}.

Inductive ReplyBody :=
| PlainText (content : string)
| ErrorOnly (error : string)
| Rejected (error : string) (allowed : list string)
| Failed (error : string) (jobId : option nat)
| Summary (jobId : nat) (status : string) (tf : string) (keyword : option string)
    (result : ProcessResult) (durationMs : Z).

Record Reply := {
  code : Z;
  content : ReplyBody;
}.

(** [createServiceClient] fails when the store's URL or key is missing. *)
Definition createServiceClient : string + unit :=
  let serviceKey :=
    match SUPABASE_SERVICE_ROLE_KEY P with
    | Some k => Some k
    | None => SERVICE_ROLE_KEY P
    end in
  if negb (Js.truthy_opt (SUPABASE_URL P)) || negb (Js.truthy_opt serviceKey)
  then inl "Supabase credentials are not configured."
  else inr tt.

(** The three patches of the lifecycle. *)
Definition processing (start : Instant) : JobPatch :=
  {| u_status := Some "processing"; u_started_at := Some start;
     u_finished_at := None; u_posts_processed := None;
     u_comments_processed := None; u_sentiments_processed := None;
     u_duration_ms := None; u_error := None |}.

Definition failed (finishedAt durationMs : Z) (message : string) : JobPatch :=
  {| u_status := Some "failed"; u_started_at := None;
     u_finished_at := Some finishedAt;
     u_posts_processed := None; u_comments_processed := None;
     u_sentiments_processed := None;
     u_duration_ms := Some durationMs;
     u_error := Some (Some message) |}.

Definition completed (finishedAt durationMs : Z) (result : ProcessResult)
    : JobPatch :=
  {| u_status := Some "completed"; u_started_at := None;
     u_finished_at := Some finishedAt;
     u_posts_processed := Some (postsProcessed result);
     u_comments_processed := Some (commentsProcessed result);
     u_sentiments_processed := Some (sentimentsInserted result);
     u_duration_ms := Some durationMs;
     u_error :=
       Some (if nonempty (errors result)
             then Some (Js.join " | " (errors result)) else None) |}.

(** The [catch] block of the handler. *)
Definition fail_run (startTimestamp : Instant) (jobId : option nat)
    (message : string) : M Reply :=
  let! finishedAt := now P in
  let durationMs := finishedAt - startTimestamp in
  (match jobId with
   | Some id => updateJob id (failed finishedAt durationMs message)
   | None => ret tt
   end) ;;
  ret {| code := 500; content := Failed message jobId |}.

(** The [try] block of the handler once the job row exists. *)
Definition run_job (startTimestamp : Instant) (jobId : nat) (tf : string)
    (keyword : option string) : M Reply :=
  updateJob jobId (processing startTimestamp) ;;
  let! value := fetchRedditAccessToken in
  put_token value ;;
  let! result := processRefresh tf keyword in
  let! finishedAt := now P in
  let durationMs := finishedAt - startTimestamp in
  updateJob jobId (completed finishedAt durationMs result) ;;
  ret {| code := 200;
         content :=
           Summary jobId
             (if nonempty (errors result)
              then "completed_with_warnings" else "completed")
             tf keyword result durationMs |}.

Definition serve (req : Request) : M Reply :=
  if negb (String.eqb (method req) "POST")
  then ret {| code := 405; content := PlainText "Method Not Allowed" |}
  else
    match body req with
    | None => ret {| code := 400; content := ErrorOnly "Invalid JSON body." |}
    | Some payload =>
        let tf := default "7d" (p_timeframe payload) in
        if negb (bool_decide (is_Some (TIMEFRAME_CONFIG tf)))
        then ret {| code := 400;
                    content := Rejected "Unsupported timeframe."
                                 ["24h"; "7d"; "30d"] |}
        else
          let keyword := normalizeKeyword (p_keyword payload) in
          match createServiceClient with
          | inl message => ret {| code := 500; content := ErrorOnly message |}
          | inr _ =>
              let! startTimestamp := now P in
              let! inserted :=
                store P (Sql.insert_job tf keyword "edge_function" "queued") in
              match inserted with
              | inl message => fail_run startTimestamp None message
              | inr jobId =>
                  try_catch (run_job startTimestamp jobId tf keyword)
                    (fail_run startTimestamp (Some jobId))
              end
          end
    end.

End Pipeline.

(** ** The Next.js route [app/api/refresh/route.ts] *)

Module Route.

(** What [POST] forwards to the edge function: [body.timeframe ?? "7d"] and
    [body.keyword?.trim() || null]. *)
Definition forwarded (body : RefreshPayload) : RefreshPayload :=
  {| p_timeframe := Some (default "7d" (p_timeframe body));
     p_keyword :=
       match p_keyword body with
       | Some k => if Js.truthy (Js.trim k) then Some (Js.trim k) else None
       | None => None
       end |}.

End Route.

(** * ContentFilter

    The source has no filter function: the checks are the [continue] guards
    of the two loops of [processSubreddit]. [keepsPost] and [keepsComment]
    collect them, in the order of the source, so that the loops can be
    compared with them. *)

Definition inWindow (sinceEpoch : Z) (d : ItemData) : bool :=
  match d_created_utc d with
  | Some created => sinceEpoch <=? created
  | None => false
  end.

Definition postText (d : ItemData) : string :=
  Js.trim (sanitizeText (d_title d) +:+ LF +:+ sanitizeText (d_selftext d)).

Definition keepsPost (sinceEpoch : Z) (keyword : option string) (child : Child)
    : bool :=
  match data child with
  | None => false
  | Some d =>
      String.eqb (kind child) "t3"
      && negb (d_stickied d) && negb (d_removed_by_category d)
      && inWindow sinceEpoch d
      && matchesKeyword (postText d) keyword
  end.

Definition keepsComment (sinceEpoch : Z) (keyword : option string)
    (child : Child) : bool :=
  String.eqb (kind child) "t1"
  && match data child with
     | None => false
     | Some d =>
         inWindow sinceEpoch d
         && Js.truthy (sanitizeText (d_body d))
         && matchesKeyword (sanitizeText (d_body d)) keyword
     end.

(** * The wording of the specification, where the code is compared with it *)

Module Claimed.

(** The waits prescribed for a sequence of response statuses when, as the
    specification words it, a retry after a 401 is immediate and does not
    count against the rate-limit back-off: the n-th rate-limited answer
    (429 or 403) waits n base delays. *)
Fixpoint backoff (statuses : list Z) (attempt : Z) : list Z :=
  match statuses with
  | [] => []
  | st :: rest =>
      if st =? 401 then backoff rest attempt
      else if (st =? 429) || (st =? 403)
      then RATE_LIMIT_MS * attempt :: backoff rest (attempt + 1)
      else []
  end.

(** The content filter as the specification words it, for an item whose
    text is [text]: not stickied, not removed by category, created at or
    after the cutoff, a text that is not empty once the deletion sentinels
    are replaced, and the keyword, when one is configured, contained in the
    lower-cased text. *)
Definition keeps (sinceEpoch : Z) (keyword : option string) (text : string)
    (d : ItemData) : bool :=
  negb (d_stickied d) && negb (d_removed_by_category d)
  && inWindow sinceEpoch d
  && Js.truthy text
  && match keyword with
     | Some k => Js.includes (Js.toLowerCase text) (Js.toLowerCase k)
     | None => true
     end.

(** The text of a post is its title and selftext, that of a comment its body. *)
Definition keeps_post (sinceEpoch : Z) (keyword : option string) (d : ItemData)
    : bool :=
  keeps sinceEpoch keyword (postText d) d.

Definition keeps_comment (sinceEpoch : Z) (keyword : option string)
    (d : ItemData) : bool :=
  keeps sinceEpoch keyword (sanitizeText (d_body d)) d.

End Claimed.

(** * Concrete worlds

    A small configured deployment, used to run the model on examples. *)

Module Demo.

Definition scorer (text : string) : Q :=
  if Js.includes text "good" then (1 # 2)%Q
  else if Js.includes text "bad" then (- (1 # 2))%Q
  else 0%Q.

Definition granted : string + TokenResponse :=
  inr {| t_status := 200; t_text := "{...}"; t_error_description := None;
         t_error := None; t_access_token := Some "token-1" |}.

(** A deployment with every credential set, a store that never fails, and
    the given Reddit answers. *)
Definition platform (get : nat -> string -> string -> string + Response)
    : Platform :=
  {| REDDIT_CLIENT_ID := Some "client";
     REDDIT_CLIENT_SECRET := Some "secret";
     REDDIT_USERNAME := None;
     REDDIT_PASSWORD := None;
     SUPABASE_URL := Some "https://store.example";
     SUPABASE_SERVICE_ROLE_KEY := Some "key";
     SERVICE_ROLE_KEY := None;
     reddit_get := get;
     reddit_token := fun _ _ => granted;
     polarity_compound := scorer;
     clock := fun k => 1704153600000 + Z.of_nat k;
     store_fault := fun _ => None |}.

(** The same deployment without the Reddit client credentials. *)
Definition without_reddit_credentials : Platform :=
  {| REDDIT_CLIENT_ID := None;
     REDDIT_CLIENT_SECRET := None;
     REDDIT_USERNAME := None;
     REDDIT_PASSWORD := None;
     SUPABASE_URL := Some "https://store.example";
     SUPABASE_SERVICE_ROLE_KEY := Some "key";
     SERVICE_ROLE_KEY := None;
     reddit_get := fun _ _ _ => inl "unreachable";
     reddit_token := fun _ _ => granted;
     polarity_compound := scorer;
     clock := fun k => 1704153600000 + Z.of_nat k;
     store_fault := fun _ => None |}.

Definition codex : SubredditRow := {| sub_id := "s1"; sub_name := "codex" |}.

Definition empty_db : DB :=
  {| subreddits := [codex]; refresh_jobs := []; posts := []; comments := [];
     sentiments := []; subreddit_sentiment_daily := []; next_id := 0 |}.

Definition world : World :=
  {| db := empty_db; token := ""; gets := 0; token_requests := 0;
     clock_reads := 0; store_ops := 0; slept := []; console := [] |}.

(** 2024-01-01T00:00:00Z in seconds; the cutoff of a 7d run at [clock 0]
    is seven days earlier. *)
Definition t0 : Z := 1704067200.

Definition post (id title : string) (created : Z) : Child :=
  {| kind := "t3";
     data := Some {| d_id := id; d_title := Some title; d_selftext := Some "";
                     d_body := None; d_author := Some "alice";
                     d_created_utc := Some created; d_score := Some 1;
                     d_num_comments := Some 0; d_permalink := Some "/r/codex/x";
                     d_stickied := false; d_removed_by_category := false |} |}.

Definition comment (id text : string) (created : Z) : Child :=
  {| kind := "t1";
     data := Some {| d_id := id; d_title := None; d_selftext := None;
                     d_body := Some text; d_author := Some "bob";
                     d_created_utc := Some created; d_score := None;
                     d_num_comments := None; d_permalink := None;
                     d_stickied := false; d_removed_by_category := false |} |}.

(** A comment pinned by a moderator. *)
Definition sticky_comment (id text : string) (created : Z) : Child :=
  {| kind := "t1";
     data := Some {| d_id := id; d_title := None; d_selftext := None;
                     d_body := Some text; d_author := Some "AutoModerator";
                     d_created_utc := Some created; d_score := None;
                     d_num_comments := None; d_permalink := None;
                     d_stickied := true; d_removed_by_category := false |} |}.

Definition listing (children : list Child) : string + Response :=
  inr {| status := 200; text := "";
         json := Some {| listing_children := Some children;
                         thread_children := None |} |}.

Definition thread (children : list Child) : string + Response :=
  inr {| status := 200; text := "";
         json := Some {| listing_children := None;
                         thread_children := Some children |} |}.

Definition refused (code : Z) (message : string) : string + Response :=
  inr {| status := code; text := message; json := None |}.

(** Reddit answering the k-th GET with the k-th entry of a script. *)
Definition script (answers : list (string + Response))
    : nat -> string -> string -> string + Response :=
  fun k _ _ => nth k answers (refused 500 "script exhausted").

(** Reddit answering by URL, whatever the token; unknown URLs are 404. *)
Definition by_url (table : list (string * (string + Response)))
    : nat -> string -> string -> string + Response :=
  fun _ url _ =>
    match List.find (fun e => String.eqb (fst e) url) table with
    | Some e => snd e
    | None => refused 404 "not found"
    end.

(** Three recent posts; the comments of the second cannot be fetched. *)
Definition batch : nat -> string -> string -> string + Response :=
  by_url
    [ (postsUrl "codex",
       listing [post "p1" "good news" t0; post "p2" "bad news" t0;
                post "p3" "plain" t0]);
      (commentsUrl "p1", thread [comment "c1" "good point" t0]);
      (commentsUrl "p2", refused 500 "boom");
      (commentsUrl "p3", thread [comment "c3" "bad take" t0]) ].

(** Reddit cannot be reached for the listing of the subreddit. *)
Definition listing_down : nat -> string -> string -> string + Response :=
  by_url [ (postsUrl "codex", refused 500 "down") ].

Definition request (tf : option string) (kw : option string) : Request :=
  {| method := "POST";
     body := Some {| p_timeframe := tf; p_keyword := kw |} |}.

End Demo.

(** * Predicates used in the statements *)

(** An aggregate row whose label counters add up to its activity count. *)
Definition balanced (row : AggregateRow) : Prop :=
  positive_count row + neutral_count row + negative_count row
  = activity_count row.

(** A computation that always completes. *)
Definition total {A} (m : M A) : Prop :=
  forall w, exists a w', m w = (Ok a, w').

(** The draft lists only grow, and the warnings with them. *)
Record extends (g g' : Gathered) : Prop := {
  ext_posts : postRecords g `prefix_of` postRecords g';
  ext_post_sentiments : postSentiments g `prefix_of` postSentiments g';
  ext_comments : commentRecords g `prefix_of` commentRecords g';
  ext_comment_sentiments : commentSentiments g `prefix_of` commentSentiments g';
  ext_warnings : warnings g `prefix_of` warnings g';
}.

(** What the comment loop leaves alone: the post drafts and the warnings. *)
Definition same_posts (g g' : Gathered) : Prop :=
  postRecords g' = postRecords g /\ postSentiments g' = postSentiments g
  /\ warnings g' = warnings g.

(** The value of a computation that completed, [fallback] otherwise. *)
Definition outcome {A} (fallback : A) (r : Result A * World) : A :=
  match r.1 with
  | Ok a => a
  | Throw _ => fallback
  end.

(** A computation that leaves a part [f] of the store as it found it. *)
Definition keeps {A X} (f : DB -> X) (m : M A) : Prop :=
  forall w, f (db (m w).2) = f (db w).

(** The store holds a refresh job with this identifier. *)
Definition has_job (id : nat) (d : DB) : Prop :=
  exists row, row ∈ refresh_jobs d /\ job_id row = id.

(** *** The store after a flush none of whose statements failed

    The steps of [flush] as functions of the store it starts from. *)

Module Flushed.

Definition with_posts (g : Gathered) (d : DB) : DB :=
  if nonempty (postRecords g) then Sql.upsert_posts (postRecords g) d else d.

Definition postIdMap (g : Gathered) (d : DB) : gmap string nat :=
  js_map (Sql.select_posts (Js.uniq (map pr_reddit_id (postRecords g)) [])
            (with_posts g d)).

Definition commentRows (g : Gathered) (d : DB) : list CommentCols :=
  omap (commentRow (postIdMap g d)) (commentRecords g).

Definition with_comments (g : Gathered) (d : DB) : DB :=
  if nonempty (commentRows g d)
  then Sql.upsert_comments (commentRows g d) (with_posts g d)
  else with_posts g d.

Definition commentIdMap (g : Gathered) (d : DB) : gmap string nat :=
  js_map (Sql.select_comments
            (Js.uniq (map cc_reddit_id (commentRows g d)) [])
            (with_comments g d)).

Definition postSentimentRows (g : Gathered) (d : DB) : list SentimentRow :=
  omap (postSentimentRow (postIdMap g d)) (postSentiments g).

Definition commentSentimentRows (g : Gathered) (d : DB) : list SentimentRow :=
  omap (commentSentimentRow (commentIdMap g d)) (commentSentiments g).

Definition postIdsForCleanup (g : Gathered) (d : DB) : list nat :=
  Js.uniq (omap s_post_id (postSentimentRows g d)) [].

Definition commentIdsForCleanup (g : Gathered) (d : DB) : list nat :=
  Js.uniq (omap s_comment_id (commentSentimentRows g d)) [].

Definition cleaned_posts (g : Gathered) (d : DB) : DB :=
  if nonempty (postIdsForCleanup g d)
  then Sql.delete_sentiments_by_post (postIdsForCleanup g d) (with_comments g d)
  else with_comments g d.

Definition cleaned (g : Gathered) (d : DB) : DB :=
  if nonempty (commentIdsForCleanup g d)
  then Sql.delete_sentiments_by_comment (commentIdsForCleanup g d)
         (cleaned_posts g d)
  else cleaned_posts g d.

Definition scored_posts (g : Gathered) (d : DB) : DB :=
  if nonempty (postSentimentRows g d)
  then Sql.insert_sentiments (postSentimentRows g d) (cleaned g d)
  else cleaned g d.

Definition scored (g : Gathered) (d : DB) : DB :=
  if nonempty (commentSentimentRows g d)
  then Sql.insert_sentiments (commentSentimentRows g d) (scored_posts g d)
  else scored_posts g d.

Definition aggregateRows (g : Gathered) : list AggregateRow :=
  (map_to_list (aggregates g)).*2.

Definition final (tf : string) (g : Gathered) (d : DB) : DB :=
  if nonempty (aggregateRows g)
  then Sql.upsert_daily (aggregateRows g)
         (Sql.delete_daily tf (Js.uniq (map subreddit_id (aggregateRows g)) [])
            (scored g d))
  else scored g d.

End Flushed.

(** Two gathered results about the same subjects: the same posts, comments
    and scored subjects in the same order, and the same aggregate map;
    timestamps of the run ([updated_at], [scored_at]) and scores may differ. *)
Record same_subjects (g g' : Gathered) : Prop := {
  ss_posts :
    map pr_reddit_id (postRecords g') = map pr_reddit_id (postRecords g);
  ss_post_sentiments :
    map ps_reddit_id (postSentiments g') = map ps_reddit_id (postSentiments g);
  ss_comments :
    map (fun r => (cr_reddit_id r, cr_post_reddit_id r)) (commentRecords g')
    = map (fun r => (cr_reddit_id r, cr_post_reddit_id r)) (commentRecords g);
  ss_comment_sentiments :
    map cs_reddit_id (commentSentiments g')
    = map cs_reddit_id (commentSentiments g);
  ss_aggregates : aggregates g' = aggregates g;
}.

(** Two stores with the same content tables (the job table and the
    identifier counter apart). *)
Record same_data (d d' : DB) : Prop := {
  sd_subreddits : subreddits d' = subreddits d;
  sd_posts : posts d' = posts d;
  sd_comments : comments d' = comments d;
  sd_sentiments : sentiments d' = sentiments d;
  sd_daily : subreddit_sentiment_daily d' = subreddit_sentiment_daily d;
}.

(** Every aggregate row carries the timeframe of the run. *)
Definition tagged (tf : string) (g : Gathered) : Prop :=
  map_Forall (fun _ row => timeframe row = tf) (aggregates g).

(** Two computations that, whatever the worlds they start from, both
    complete with related values or both throw the same error. *)
Definition agree {A} (R : A -> A -> Prop) (m m' : M A) : Prop :=
  forall w v,
    match (m w).1, (m' v).1 with
    | Ok a, Ok b => R a b
    | Throw e, Throw e' => e = e'
    | _, _ => False
    end.

(** An upstream data set that does not change: Reddit gives the same answer
    to the same URL, and the token endpoint the same answer to the same
    grant, whenever they are asked and whatever the token. *)
Definition unchanged_upstream (P : Platform) : Prop :=
  (forall k k' url tok tok',
      reddit_get P k url tok = reddit_get P k' url tok')
  /\ (forall k k' grant, reddit_token P k grant = reddit_token P k' grant).

(** The outcome of a guarded fetch: the same failure or the same payload. *)
Definition same_fetch (a b : string + Payload) : Prop :=
  match a, b with
  | inl e, inl e' => e = e'
  | inr p, inr p' => p = p'
  | _, _ => False
  end.

(** The number of sentiment rows of a post, and of a comment. *)
Definition post_scores (id : nat) (d : DB) : nat :=
  length (filter (fun o => o = Some id) (map s_post_id (sentiments d))).

Definition comment_scores (id : nat) (d : DB) : nat :=
  length (filter (fun o => o = Some id) (map s_comment_id (sentiments d))).

(** Every draft carries a timestamp at or after the cutoff. *)
Definition windowed (sinceEpoch : Z) (g : Gathered) : Prop :=
  Forall (fun r => sinceEpoch * 1000 <= pr_posted_at r) (postRecords g)
  /\ Forall (fun r => sinceEpoch * 1000 <= ps_posted_at r) (postSentiments g)
  /\ Forall (fun r => sinceEpoch * 1000 <= cr_posted_at r) (commentRecords g)
  /\ Forall (fun r => sinceEpoch * 1000 <= cs_posted_at r) (commentSentiments g).

(** * Invariants of the store *)

(** A computation that maintains an invariant of the store, whatever its
    outcome. *)
Definition maintains {A} (inv : DB -> Prop) (m : M A) : Prop :=
  forall w, inv (db w) -> inv (db (m w).2).

(** The job rows were all numbered before the next identifier. *)
Definition numbered (d : DB) : Prop :=
  Forall (fun r => (job_id r < next_id d)%nat) (refresh_jobs d).

(** The job table after a row numbered [id] was appended to [old]. *)
Definition appended (old : list JobRow) (id : nat) (d : DB) : Prop :=
  (id < next_id d)%nat
  /\ exists row,
       refresh_jobs d = old ++ [row] /\ job_id row = id
       /\ job_trigger_source row = "edge_function".

(** The job table holds a job with this identifier, timeframe and
    keyword. *)
Definition job_for (id : nat) (tf : string) (kw : option string) (d : DB)
    : Prop :=
  exists row,
    row ∈ refresh_jobs d /\ job_id row = id /\ job_timeframe row = tf
    /\ job_keyword row = kw.

(** The job a reply tells its caller about. *)
Definition replied_job (reply : Reply) : option nat :=
  match content reply with
  | Summary jobId _ _ _ _ _ => Some jobId
  | Failed _ jobId => jobId
  | _ => None
  end.

(** * The steps of gathering *)

(** The steps by which the loops of [processSubreddit] extend what has been
    gathered: a warning; the record of a post without text; the record of a
    post together with its sentiment; a comment of a post that has its
    record, together with its sentiment. A sentiment carries the identifier
    of its subject and the label of its score. *)
Inductive step (tf : string) : Gathered -> Gathered -> Prop :=
| step_warning (g : Gathered) (message : string) :
    step tf g (push_warning message g)
| step_post (g : Gathered) (r : PostRecordDraft) :
    step tf g (push_post r g)
| step_scored_post (g : Gathered) (r : PostRecordDraft)
    (s : PostSentimentDraft) :
    ps_reddit_id s = pr_reddit_id r ->
    ps_label s = labelFromScore (ps_compound s) ->
    step tf g (push_post_sentiment s tf (push_post r g))
| step_comment (g : Gathered) (r : CommentRecordDraft)
    (s : CommentSentimentDraft) :
    cr_post_reddit_id r ∈ map pr_reddit_id (postRecords g) ->
    cs_reddit_id s = cr_reddit_id r ->
    cs_label s = labelFromScore (cs_compound s) ->
    step tf g (push_comment r s tf g).

(** Any number of steps. *)
Definition grows (tf : string) : Gathered -> Gathered -> Prop := rtc (step tf).

(** * Counting *)

(** The sum of a counter over aggregate rows. *)
Definition tally (f : AggregateRow -> Z) (rows : list AggregateRow) : Z :=
  foldr (fun row acc => f row + acc) 0 rows.

(** The labels of the sentiments gathered, posts first. *)
Definition labels (g : Gathered) : list SentimentLabel :=
  map ps_label (postSentiments g) ++ map cs_label (commentSentiments g).

Definition is_label (a b : SentimentLabel) : bool :=
  match a, b with
  | Positive, Positive | Neutral, Neutral | Negative, Negative => true
  | _, _ => false
  end.

(** How many of the labels are [label]. *)
Definition count_label (label : SentimentLabel) (l : list SentimentLabel) : Z :=
  Z.of_nat (length (List.filter (is_label label) l)).

(** What is gathered hangs together: a post sentiment and a comment refer
    to a post record, the comment sentiments are those of the comment
    records, in order, and no post is scored twice. *)
Record linked (g : Gathered) : Prop := {
  ln_post_sentiments :
    Forall (fun s => ps_reddit_id s ∈ map pr_reddit_id (postRecords g))
      (postSentiments g);
  ln_comments :
    Forall (fun r => cr_post_reddit_id r ∈ map pr_reddit_id (postRecords g))
      (commentRecords g);
  ln_comment_sentiments :
    map cs_reddit_id (commentSentiments g)
    = map cr_reddit_id (commentRecords g);
  ln_scored : (length (postSentiments g) <= length (postRecords g))%nat;
}.

(** An aggregate map whose rows sit under the key of their subreddit and
    day, each counting at least one item. *)
Definition keyed (aggs : gmap string AggregateRow) : Prop :=
  map_Forall
    (fun key row =>
       key = subreddit_id row +:+ ":" +:+ bucket_start row
       /\ 1 <= activity_count row)
    aggs.

(** * Consistency of the stored rows *)

(** Every stored sentiment carries the label of its score. *)
Definition labelled (d : DB) : Prop :=
  Forall (fun s => s_label s = labelFromScore (s_compound s)) (sentiments d).

(** Every daily row is balanced. *)
Definition balanced_daily (d : DB) : Prop :=
  Forall balanced (subreddit_sentiment_daily d).

(** The sentiments gathered carry the labels of their scores. *)
Definition well_labelled (g : Gathered) : Prop :=
  Forall (fun s => ps_label s = labelFromScore (ps_compound s))
    (postSentiments g)
  /\ Forall (fun s => cs_label s = labelFromScore (cs_compound s))
       (commentSentiments g).

(** * The window of two runs *)

(** An item the upstream serves: a child of the listing or of the thread
    in the body of one of its answers. *)
Definition serves (P : Platform) (child : Child) : Prop :=
  exists k url tok response payload,
    reddit_get P k url tok = inr response
    /\ json response = Some payload
    /\ (child ∈ default [] (listing_children payload)
        \/ child ∈ default [] (thread_children payload)).

(** Two cutoffs between which the upstream has no item: the window check
    answers the same with both. *)
Definition same_window (P : Platform) (since since' : Z) : Prop :=
  forall child d t,
    serves P child -> data child = Some d -> d_created_utc d = Some t ->
    (t <? since) = (t <? since').

(** * A run in which one comment fetch fails *)

(** Every item the upstream serves carries a creation time that [Date]
    can represent. *)
Definition dated (P : Platform) : Prop :=
  forall child d t,
    serves P child -> data child = Some d -> d_created_utc d = Some t ->
    JsDate.valid (t * 1000) = true.

(** The fetch of [url] throws [message] whenever it is made. *)
Definition fetch_throws (P : Platform) (url message : string) : Prop :=
  forall w, exists w', fetchJson P url w = (Throw message, w').

(** The fetch of [url] returns [payload] whenever it is made. *)
Definition fetch_returns (P : Platform) (url : string) (payload : Payload)
    : Prop :=
  forall w, exists w', fetchJson P url w = (Ok payload, w').

(** The drafts of a post: its record and, unless its text is empty, its
    sentiment. *)
Definition drafted_post (g : Gathered) (d : ItemData) : Prop :=
  d_id d ∈ map pr_reddit_id (postRecords g)
  /\ (postText d <> "" -> d_id d ∈ map ps_reddit_id (postSentiments g)).

(** The drafts of a comment of [post]: its record, tied to the post, and
    its sentiment. *)
Definition drafted_comment (g : Gathered) (post commentData : ItemData)
    : Prop :=
  (d_id commentData, d_id post)
    ∈ map (fun r => (cr_reddit_id r, cr_post_reddit_id r)) (commentRecords g)
  /\ d_id commentData ∈ map cs_reddit_id (commentSentiments g).

(** What a gathering owes to a post of a listing that the filter keeps:
    the drafts of the post; a warning naming it if its comments cannot be
    fetched; the drafts of the comments that the filter keeps if they
    can. *)
Definition accounts_for (P : Platform) (subreddit : SubredditRow)
    (sinceEpoch : Z) (keyword : option string) (g : Gathered) (child : Child)
    : Prop :=
  forall d,
    data child = Some d -> keepsPost sinceEpoch keyword child = true ->
    drafted_post g d
    /\ (forall message,
           fetch_throws P (commentsUrl (d_id d)) message ->
           commentWarning subreddit d message ∈ warnings g)
    /\ (forall payload commentChild commentData,
           fetch_returns P (commentsUrl (d_id d)) payload ->
           commentChild ∈ default [] (thread_children payload) ->
           data commentChild = Some commentData ->
           keepsComment sinceEpoch keyword commentChild = true ->
           drafted_comment g d commentData).

(** The cutoff of the run that a trigger starts in [w]: the handler reads
    the clock once, for the start of the job, before [processRefresh]
    reads it for the window. *)
Definition run_cutoff (P : Platform) (w : World) (hours : Z) : Z :=
  cutoff (clock P (S (clock_reads w))) hours.

(** * Strings *)

(** A list of bytes that starts with none of the sequences [ps]. *)
Definition clean (ps : list (list ascii)) (l : list ascii) : Prop :=
  Js.after_any ps l = None.

(** A no-break space. *)
Definition NBSP : string := string_of_list_ascii (Js.encode 160).

(** * Dates

    The time arithmetic of the language, in UTC, for the two places where
    the function moves a date: the start of the window in [processRefresh]
    and the bucket of [updateAggregate]. A time value is a number of
    milliseconds; [None] is the time value of an invalid date, [NaN]. *)

Module UtcDate.

Definition msPerDay : Z := 86400000.
Definition msPerHour : Z := 3600000.
Definition msPerMinute : Z := 60000.
Definition msPerSecond : Z := 1000.

Definition Day (t : Z) : Z := t / msPerDay.
Definition HourFromTime (t : Z) : Z := (t / msPerHour) mod 24.
Definition MinFromTime (t : Z) : Z := (t / msPerMinute) mod 60.
Definition SecFromTime (t : Z) : Z := (t / msPerSecond) mod 60.
Definition msFromTime (t : Z) : Z := t mod msPerSecond.

Definition MakeTime (hour min sec ms : Z) : Z :=
  hour * msPerHour + min * msPerMinute + sec * msPerSecond + ms.

Definition MakeDate (day time : Z) : Z := day * msPerDay + time.

Definition TimeClip (time : Z) : option Z :=
  if JsDate.valid time then Some time else None.

Definition getUTCHours (t : Z) : Z := HourFromTime t.

(** [date.setUTCHours(hour)]: the minutes, seconds and milliseconds of the
    date are kept. *)
Definition setUTCHours (t hour : Z) : option Z :=
  TimeClip
    (MakeDate (Day t)
       (MakeTime hour (MinFromTime t) (SecFromTime t) (msFromTime t))).

(** [date.setUTCHours(hour, min, sec, ms)]. *)
Definition setUTCHours_all (t hour min sec ms : Z) : option Z :=
  TimeClip (MakeDate (Day t) (MakeTime hour min sec ms)).

(** [processRefresh]: [since.setUTCHours(since.getUTCHours() - hours)] and
    then [Math.floor(since.getTime() / 1000)], on a date of time value
    [since]. *)
Definition sinceEpoch (since hours : Z) : option Z :=
  match setUTCHours since (getUTCHours since - hours) with
  | Some time => Some (time / 1000)
  | None => None
  end.

(** [updateAggregate]: [bucket.setUTCHours(0, 0, 0, 0)] and then
    [bucket.toISOString().slice(0, 10)], on a date of time value
    [timestamp]. *)
Definition bucketDate (timestamp : Z) : option string :=
  match setUTCHours_all timestamp 0 0 0 0 with
  | Some bucket =>
      match JsDate.toISOString bucket with
      | Some iso => Some (JsDate.isoDate iso)
      | None => None
      end
  | None => None
  end.

End UtcDate.

(** * The web application

    The pure computations of the Next.js side: the timeframe table of
    [lib/timeframes.ts], the sanitising of the query parameters, the
    totals of the dashboard page and of the sentiment API route, the
    series of the charts, and the job status route. *)

(** ** JavaScript arrays and maps *)

Module JsArray.

(** [Array.prototype.sort(compare)]. The sort of the language is stable,
    so with a comparator that orders its arguments consistently the result
    does not depend on the algorithm; this one inserts the elements from
    the left, each after the elements that do not come after it. *)
Fixpoint insert {A} (compare : A -> A -> Z) (x : A) (sorted : list A)
    : list A :=
  match sorted with
  | [] => [x]
  | y :: rest =>
      if 0 <? compare y x then x :: sorted else y :: insert compare x rest
  end.

Definition sort {A} (compare : A -> A -> Z) (l : list A) : list A :=
  fold_left (fun sorted x => insert compare x sorted) l [].

(** The comparison of [sort()] without a comparator, on strings. *)
Definition byCodeUnits (a b : string) : Z :=
  match String.compare a b with
  | Lt => -1
  | Eq => 0
  | Gt => 1
  end.

(** [a > b] on strings. *)
Definition gt (a b : string) : bool := String.ltb b a.

(** [Map.prototype.get] and [set] on a map kept in insertion order. *)
Definition get {V} (key : string) (m : list (string * V)) : option V :=
  match List.find (fun e => String.eqb (fst e) key) m with
  | Some e => Some (snd e)
  | None => None
  end.

Fixpoint set {V} (key : string) (value : V) (m : list (string * V))
    : list (string * V) :=
  match m with
  | [] => [(key, value)]
  | e :: m' =>
      if String.eqb (fst e) key then (key, value) :: m'
      else e :: set key value m'
  end.

End JsArray.

(** ** [lib/timeframes.ts] *)

Module Timeframes.

(** [TIMEFRAMES]: the label and the hours of a timeframe. *)
Definition TIMEFRAMES (timeframe : string) : option (string * Z) :=
  if String.eqb timeframe "24h" then Some ("Last 24 hours", 24)
  else if String.eqb timeframe "7d" then Some ("Last 7 days", 7 * 24)
  else if String.eqb timeframe "30d" then Some ("Last 30 days", 30 * 24)
  else None.

(** [Object.hasOwn(TIMEFRAMES, key)]. *)
Definition hasOwn (key : string) : bool :=
  match TIMEFRAMES key with Some _ => true | None => false end.

End Timeframes.

Module Web.

(** *** The data of the dashboard ([lib/supabase/queries.ts]) *)

Record Subreddit := {
  ds_id : string;
  ds_name : string;
  ds_displayName : string;
}.

Record TrendPoint := {
  tp_subredditId : string;
  tp_bucketStart : string;
  tp_positive : Z;
  tp_neutral : Z;
  tp_negative : Z;
  tp_activityCount : Z;
}.

(** The mapping of a row of the daily table to a point of the trend. *)
Definition trendOf (row : AggregateRow) : TrendPoint :=
  {| tp_subredditId := subreddit_id row;
     tp_bucketStart := bucket_start row;
     tp_positive := positive_count row;
     tp_neutral := neutral_count row;
     tp_negative := negative_count row;
     tp_activityCount := activity_count row |}.

(** *** Query parameters *)

(** A value of [searchParams]: absent, a string, or an array of strings. *)
Inductive Param :=
| Absent
| Single (value : string)
| Multiple (values : list string).

(** [Array.isArray(v) ? v[0] : v]. *)
Definition first (p : Param) : option string :=
  match p with
  | Absent => None
  | Single v => Some v
  | Multiple vs => head vs
  end.

Definition DEFAULT_TIMEFRAME : string := "7d".

(** [resolveTimeframe] of the dashboard page. *)
Definition resolveTimeframe (timeframe : Param) : string :=
  match first timeframe with
  | None => DEFAULT_TIMEFRAME
  | Some paramValue =>
      if negb (Js.truthy paramValue) then DEFAULT_TIMEFRAME
      else if Timeframes.hasOwn paramValue then paramValue
      else DEFAULT_TIMEFRAME
  end.

(** [normalizeTimeframe] of the sentiment API route. *)
Definition normalizeTimeframe (input : option string) : string :=
  match input with
  | None => "7d"
  | Some input =>
      if negb (Js.truthy input) then "7d"
      else if Timeframes.hasOwn input then input else "7d"
  end.

(** [resolveSubreddit] of the dashboard page. *)
Definition resolveSubreddit (subreddit : Param) (subreddits : list Subreddit)
    : string :=
  match first subreddit with
  | None => "all"
  | Some value =>
      if negb (Js.truthy value) || String.eqb value "all" then "all"
      else
        if existsb (fun item => String.eqb (ds_id item) value) subreddits
        then value else "all"
  end.

(** *** Totals *)

Record Totals := {
  tot_subredditId : string;
  tot_positive : Z;
  tot_neutral : Z;
  tot_negative : Z;
  tot_activity : Z;
}.

(** The reducer shared by the page and by the API route. *)
Definition add_bucket (acc : Totals) (bucket : TrendPoint) : Totals :=
  {| tot_subredditId := tot_subredditId acc;
     tot_positive := tot_positive acc + tp_positive bucket;
     tot_neutral := tot_neutral acc + tp_neutral bucket;
     tot_negative := tot_negative acc + tp_negative bucket;
     tot_activity := tot_activity acc + tp_activityCount bucket |}.

(** The [totals] of [GET /api/sentiment]. *)
Definition apiTotals (subreddits : list Subreddit) (trend : list TrendPoint)
    : list Totals :=
  map (fun subreddit =>
         let buckets :=
           List.filter
             (fun bucket => String.eqb (tp_subredditId bucket) (ds_id subreddit))
             trend in
         fold_left add_bucket buckets
           {| tot_subredditId := ds_id subreddit; tot_positive := 0;
              tot_neutral := 0; tot_negative := 0; tot_activity := 0 |})
    subreddits.

(** A row of [totalsBySubreddit] of the dashboard page. *)
Record SubredditTotals := {
  st_id : string;
  st_displayName : string;
  st_positive : Z;
  st_neutral : Z;
  st_negative : Z;
  st_activity : Z;
}.

Record Aggregate := {
  ag_positive : Z;
  ag_neutral : Z;
  ag_negative : Z;
  ag_activity : Z;
}.

Definition totalsBySubreddit (subreddits : list Subreddit)
    (trend : list TrendPoint) : list SubredditTotals :=
  map (fun subreddit =>
         let relatedBuckets :=
           List.filter
             (fun bucket => String.eqb (tp_subredditId bucket) (ds_id subreddit))
             trend in
         let aggregate :=
           fold_left
             (fun acc bucket =>
                {| ag_positive := ag_positive acc + tp_positive bucket;
                   ag_neutral := ag_neutral acc + tp_neutral bucket;
                   ag_negative := ag_negative acc + tp_negative bucket;
                   ag_activity := ag_activity acc + tp_activityCount bucket |})
             relatedBuckets
             {| ag_positive := 0; ag_neutral := 0; ag_negative := 0;
                ag_activity := 0 |} in
         {| st_id := ds_id subreddit;
            st_displayName := ds_displayName subreddit;
            st_positive := ag_positive aggregate;
            st_neutral := ag_neutral aggregate;
            st_negative := ag_negative aggregate;
            st_activity := ag_activity aggregate |})
    subreddits.

(** [rows.reduce((sum, row) => sum + f(row), 0)]. *)
Definition sumOf {A} (f : A -> Z) (rows : list A) : Z :=
  fold_left (fun sum row => sum + f row) rows 0.

Definition positiveTotal (rows : list SubredditTotals) : Z := sumOf st_positive rows.
Definition neutralTotal (rows : list SubredditTotals) : Z := sumOf st_neutral rows.
Definition negativeTotal (rows : list SubredditTotals) : Z := sumOf st_negative rows.

Definition totalActivity (rows : list SubredditTotals) : Z :=
  positiveTotal rows + neutralTotal rows + negativeTotal rows.

(** [rows.filter(row => row.activity > 0)
         .sort((a, b) => b.activity - a.activity)[0] ?? null]. *)
Definition topSubreddit (rows : list SubredditTotals) : option SubredditTotals :=
  head (JsArray.sort (fun a b => st_activity b - st_activity a)
          (List.filter (fun row => 0 <? st_activity row) rows)).

(** *** The series of the charts *)

Record Counts := {
  c_positive : Z;
  c_neutral : Z;
  c_negative : Z;
}.

Record SeriesRow := {
  sr_bucket : string;
  sr_positive : Z;
  sr_neutral : Z;
  sr_negative : Z;
}.

(** The grouping of [buildSeries] of the trend chart: a [Map] from bucket
    to counts, filled point by point. *)
Definition group (subredditId : string)
    (grouped : list (string * Counts)) (point : TrendPoint)
    : list (string * Counts) :=
  if negb (String.eqb subredditId "all")
     && negb (String.eqb (tp_subredditId point) subredditId)
  then grouped
  else
    let existing :=
      default {| c_positive := 0; c_neutral := 0; c_negative := 0 |}
        (JsArray.get (tp_bucketStart point) grouped) in
    JsArray.set (tp_bucketStart point)
      {| c_positive := c_positive existing + tp_positive point;
         c_neutral := c_neutral existing + tp_neutral point;
         c_negative := c_negative existing + tp_negative point |}
      grouped.

(** [buildSeries] of the trend chart. *)
Definition trendSeries (data : list TrendPoint) (subredditId : string)
    : list SeriesRow :=
  let grouped := fold_left (group subredditId) data [] in
  map (fun e =>
         {| sr_bucket := fst e;
            sr_positive := c_positive (snd e);
            sr_neutral := c_neutral (snd e);
            sr_negative := c_negative (snd e) |})
    (JsArray.sort
       (fun a b => if JsArray.gt (fst a) (fst b) then 1 else -1) grouped).

(** A quotient of two integers, kept as its operands: the chart receives
    the double nearest to [num / den]. *)
Record Ratio := {
  num : Z;
  den : Z;
}.

Record ShareRow := {
  sh_bucket : string;
  sh_positive : Ratio;
  sh_neutral : Ratio;
  sh_negative : Ratio;
}.

(** [Array.from(new Set(data.map(row => row.bucketStart))).sort()]. *)
Definition buckets (data : list TrendPoint) : list string :=
  JsArray.sort JsArray.byCodeUnits (Js.uniq (map tp_bucketStart data) []).

(** [buildShareSeries] of the share chart. *)
Definition buildShareSeries (data : list TrendPoint) : list ShareRow :=
  map (fun bucket =>
         let points :=
           List.filter (fun row => String.eqb (tp_bucketStart row) bucket) data in
         let totals :=
           fold_left
             (fun acc row =>
                {| c_positive := c_positive acc + tp_positive row;
                   c_neutral := c_neutral acc + tp_neutral row;
                   c_negative := c_negative acc + tp_negative row |})
             points {| c_positive := 0; c_neutral := 0; c_negative := 0 |} in
         let sum := c_positive totals + c_neutral totals + c_negative totals in
         let total := if sum =? 0 then 1 else sum in
         {| sh_bucket := bucket;
            sh_positive := {| num := c_positive totals; den := total |};
            sh_neutral := {| num := c_neutral totals; den := total |};
            sh_negative := {| num := c_negative totals; den := total |} |})
    (buckets data).

(** A value of an entry of the net chart: a number or a string. *)
Inductive Cell :=
| Num (value : Z)
| Str (value : string).

(** [buildSeries] of the net chart: an object for each bucket, with the
    bucket under "bucket" and, under the identifier of each subreddit, the
    positive minus the negative count of its first point of that bucket. *)
Definition netSeries (data : list TrendPoint) (subreddits : list Subreddit)
    : list (gmap string Cell) :=
  map (fun bucket =>
         fold_left
           (fun entry subreddit =>
              let point :=
                List.find
                  (fun row =>
                     String.eqb (tp_bucketStart row) bucket
                     && String.eqb (tp_subredditId row) (ds_id subreddit))
                  data in
              <[ds_id subreddit :=
                  Num (match point with
                       | Some point => tp_positive point - tp_negative point
                       | None => 0
                       end)]> entry)
           subreddits
           {["bucket" := Str bucket]})
    (buckets data).

(** *** The refresh route [app/api/refresh/route.ts] *)

(** The variables of the environment the route reads. *)
Record RefreshEnv := {
  SUPABASE_EDGE_FUNCTION_URL : option string;
  SUPABASE_SERVICE_ROLE_JWT : option string;
  SUPABASE_SERVICE_ROLE_KEY : option string;
}.

(** The bodies of the answers of the route; [details] is the text of the
    reply of the edge function, kept as the content it serialises. *)
Inductive RefreshAnswer :=
| NotConfigured (error timeframe : string) (keyword : option string)
| MissingToken (error : string)
| InvocationFailed (error : string) (details : ReplyBody)
| Relayed (result : ReplyBody).

Record RefreshReply := {
  status : Z;
  answer : RefreshAnswer;
}.

(** [response.ok]. *)
Definition ok (response : Reply) : bool :=
  (200 <=? code response) && (code response <=? 299).

(** [response.json()]: the content of a reply, unless it is plain text. *)
Definition json (response : Reply) : M ReplyBody :=
  match content response with
  | PlainText _ => throw JSON_SYNTAX_ERROR
  | result => ret result
  end.

(** [POST]: [received] is the body of the request, [None] when it is not
    JSON, and [fetch] the call of the edge function. The handler has no
    [try]: a call that fails throws. *)
Definition POST_refresh (env : RefreshEnv) (fetch : Request -> M Reply)
    (received : option RefreshPayload) : M RefreshReply :=
  let body := default {| p_timeframe := None; p_keyword := None |} received in
  let timeframe := default "7d" (p_timeframe body) in
  let keyword :=
    match p_keyword body with
    | Some k => if Js.truthy (Js.trim k) then Some (Js.trim k) else None
    | None => None
    end in
  let edgeFunctionUrl := SUPABASE_EDGE_FUNCTION_URL env in
  if negb (Js.truthy_opt edgeFunctionUrl)
  then ret {| status := 503;
              answer :=
                NotConfigured "Supabase Edge Function URL is not configured."
                  timeframe keyword |}
  else
    let authToken :=
      match SUPABASE_SERVICE_ROLE_JWT env with
      | Some jwt => Some jwt
      | None => SUPABASE_SERVICE_ROLE_KEY env
      end in
    if negb (Js.truthy_opt authToken)
    then ret {| status := 500;
                answer :=
                  MissingToken
                    "Missing Supabase service token for Edge Function invocation."
             |}
    else
      let! response :=
        fetch {| method := "POST";
                 body := Some {| p_timeframe := Some timeframe;
                                 p_keyword := keyword |} |} in
      if negb (ok response)
      then ret {| status := 502;
                  answer :=
                    InvocationFailed "Edge Function invocation failed."
                      (content response) |}
      else
        let! result := json response in
        ret {| status := 200; answer := Relayed result |}.

(** *** The job status route [app/api/refresh/[id]/route.ts] *)

(** [createServiceRoleClient] of [lib/supabase/server.ts]. *)
Definition createServiceRoleClient (url serviceKey : option string)
    : string + unit :=
  if negb (Js.truthy_opt url)
  then inl "Missing `SUPABASE_URL` environment variable."
  else if negb (Js.truthy_opt serviceKey)
  then inl "Missing `SUPABASE_SERVICE_ROLE_KEY` environment variable."
  else inr tt.

(** The columns the route selects. [triggered_at] is filled by the store
    and is not among the columns of [JobRow]. *)
Record JobStatus := {
  js_id : nat;
  js_status : string;
  js_timeframe : string;
  js_keyword : option string;
  js_started_at : option Instant;
  js_finished_at : option Instant;
  js_error : option string;
  js_posts_processed : Z;
  js_comments_processed : Z;
  js_sentiments_processed : Z;
  js_duration_ms : option Z;
}.

Definition selected (row : JobRow) : JobStatus :=
  {| js_id := job_id row;
     js_status := job_status row;
     js_timeframe := job_timeframe row;
     js_keyword := job_keyword row;
     js_started_at := job_started_at row;
     js_finished_at := job_finished_at row;
     js_error := job_error row;
     js_posts_processed := job_posts_processed row;
     js_comments_processed := job_comments_processed row;
     js_sentiments_processed := job_sentiments_processed row;
     js_duration_ms := job_duration_ms row |}.

Inductive StatusReply :=
| Found (data : JobStatus)
| NotFound (id : nat)
| Unavailable (details : string).

Definition status_code (r : StatusReply) : Z :=
  match r with
  | Found _ => 200
  | NotFound _ => 404
  | Unavailable _ => 500
  end.

(** [select(...).eq("id", id).maybeSingle()]: no row is no data, one row is
    the data, and several rows are an error of the client library. *)
Definition maybeSingle (id : nat) (d : DB) : string + option JobStatus :=
  match List.filter (fun r => Nat.eqb (job_id r) id) (refresh_jobs d) with
  | [] => inr None
  | [row] => inr (Some (selected row))
  | _ => inl "JSON object requested, multiple (or no) rows returned"
  end.

(** [GET]: [fault] is the error of the store, when the query fails; the
    identifier is taken in the type of the column. The handler has no
    [try]: a client that cannot be created throws. *)
Definition GET_status (url serviceKey : option string) (fault : option string)
    (id : nat) (d : DB) : Result StatusReply :=
  match createServiceRoleClient url serviceKey with
  | inl message => Throw message
  | inr _ =>
      match fault with
      | Some message => Ok (Unavailable message)
      | None =>
          match maybeSingle id d with
          | inl message => Ok (Unavailable message)
          | inr None => Ok (NotFound id)
          | inr (Some data) => Ok (Found data)
          end
      end
  end.

End Web.

(** ** Predicates on the data of the charts *)

(** The points the trend chart of [subredditId] shows. *)
Definition shown (subredditId : string) (p : Web.TrendPoint) : bool :=
  String.eqb subredditId "all" || String.eqb (Web.tp_subredditId p) subredditId.

(** The shown points of one bucket. *)
Definition shown_at (subredditId bucket : string) (p : Web.TrendPoint) : bool :=
  shown subredditId p && String.eqb (Web.tp_bucketStart p) bucket.

(** The counts of a list of points. *)
Definition counts_of (points : list Web.TrendPoint) : Web.Counts :=
  {| Web.c_positive := Web.sumOf Web.tp_positive points;
     Web.c_neutral := Web.sumOf Web.tp_neutral points;
     Web.c_negative := Web.sumOf Web.tp_negative points |}.

(** A map from bucket to counts that holds the counts of the shown points
    among [points]. *)
Definition grouped_of (subredditId : string)
    (grouped : list (string * Web.Counts)) (points : list Web.TrendPoint)
    : Prop :=
  NoDup (map fst grouped)
  /\ forall b,
       JsArray.get b grouped
       = if existsb (shown_at subredditId b) points
         then Some (counts_of (List.filter (shown_at subredditId b) points))
         else None.

(** * More concrete worlds *)

Module Cases.

(** The deployment of [Demo.platform] with a store that refuses its
    statement number [k]. *)
Definition store_down_at (k : nat)
    (get : nat -> string -> string -> string + Response) : Platform :=
  {| REDDIT_CLIENT_ID := REDDIT_CLIENT_ID (Demo.platform get);
     REDDIT_CLIENT_SECRET := REDDIT_CLIENT_SECRET (Demo.platform get);
     REDDIT_USERNAME := None;
     REDDIT_PASSWORD := None;
     SUPABASE_URL := SUPABASE_URL (Demo.platform get);
     SUPABASE_SERVICE_ROLE_KEY := SUPABASE_SERVICE_ROLE_KEY (Demo.platform get);
     SERVICE_ROLE_KEY := None;
     reddit_get := get;
     reddit_token := reddit_token (Demo.platform get);
     polarity_compound := Demo.scorer;
     clock := clock (Demo.platform get);
     store_fault := fun n => if (n =? k)%nat then Some "offline" else None |}.

(** A store that has served one request before. *)
Definition served_once : World :=
  {| db :=
       {| subreddits := [Demo.codex];
          refresh_jobs :=
            [ {| job_id := 0; job_timeframe := "24h"; job_keyword := None;
                 job_trigger_source := "edge_function";
                 job_status := "completed";
                 job_started_at := Some 1704067200000;
                 job_finished_at := Some 1704067201000;
                 job_posts_processed := 0; job_comments_processed := 0;
                 job_sentiments_processed := 0;
                 job_duration_ms := Some 1000; job_error := None |} ];
          posts := []; comments := []; sentiments := [];
          subreddit_sentiment_daily := []; next_id := 1 |};
     token := ""; gets := 0; token_requests := 0; clock_reads := 0;
     store_ops := 0; slept := []; console := [] |}.

Definition openai : SubredditRow := {| sub_id := "s2"; sub_name := "openai" |}.

(** Two subreddits: the listing of the first cannot be fetched, the second
    has one recent post without comments. *)
Definition one_down : nat -> string -> string -> string + Response :=
  Demo.by_url
    [ (postsUrl "codex", Demo.refused 500 "down");
      (postsUrl "openai", Demo.listing [Demo.post "q1" "good day" Demo.t0]);
      (commentsUrl "q1", Demo.thread []) ].

(** A creation time given in microseconds where seconds are expected. *)
Definition late : Child := Demo.post "p9" "good news" (Demo.t0 * 1000000).

Definition in_microseconds : nat -> string -> string -> string + Response :=
  Demo.by_url
    [ (postsUrl "codex", Demo.listing [Demo.post "p1" "plain" Demo.t0; late]);
      (commentsUrl "p1", Demo.thread []) ].

Definition nothing : ProcessResult :=
  {| postsProcessed := 0; commentsProcessed := 0; sentimentsInserted := 0;
     aggregatesUpserted := 0; errors := [] |}.

(** The deployment of [Demo.platform] with a clock that moves by a second
    from one reading to the next. *)
Definition ticking (get : nat -> string -> string -> string + Response)
    : Platform :=
  {| REDDIT_CLIENT_ID := Some "client";
     REDDIT_CLIENT_SECRET := Some "secret";
     REDDIT_USERNAME := None;
     REDDIT_PASSWORD := None;
     SUPABASE_URL := Some "https://store.example";
     SUPABASE_SERVICE_ROLE_KEY := Some "key";
     SERVICE_ROLE_KEY := None;
     reddit_get := get;
     reddit_token := fun _ _ => Demo.granted;
     polarity_compound := Demo.scorer;
     clock := fun k => 1704153600000 + 1000 * Z.of_nat k;
     store_fault := fun _ => None |}.

(** Two posts of 2023-12-26: the first was created seven days, to the
    second, before the first reading of the clock, the second an hour
    later. Neither has comments. *)
Definition ageing : nat -> string -> string -> string + Response :=
  Demo.by_url
    [ (postsUrl "codex",
       Demo.listing [Demo.post "p1" "good news" 1703548800;
                     Demo.post "p2" "good news" 1703552400]);
      (commentsUrl "p1", Demo.thread []);
      (commentsUrl "p2", Demo.thread []) ].

End Cases.

(** * Properties *)

(** ** SentimentLabeler *)

Lemma Qle_bool_false (x y : Q) : Qle_bool x y = false <-> (y < x)%Q.
Proof.
  split; intros H.
  - apply Qnot_le_lt. intros Hle. apply Qle_bool_iff in Hle. congruence.
  - destruct (Qle_bool x y) eqn:E; [| reflexivity].
    apply Qle_bool_iff in E. apply Qlt_not_le in H. now elim H.
Qed.

(** C8. The label of a compound score is positive exactly from 0.05 up,
    negative exactly from -0.05 down and neutral strictly in between; so
    0.05 is positive, -0.05 negative, and 0.049999 and -0.049999 neutral. *)
Theorem labelFromScore_thresholds :
  (forall compound : Q,
      (labelFromScore compound = Positive <-> (5 # 100 <= compound)%Q) /\
      (labelFromScore compound = Negative <-> (compound <= - (5 # 100))%Q) /\
      (labelFromScore compound = Neutral <->
         (- (5 # 100) < compound)%Q /\ (compound < 5 # 100)%Q)) /\
  labelFromScore (5 # 100) = Positive /\
  labelFromScore (- (5 # 100)) = Negative /\
  labelFromScore (49999 # 1000000) = Neutral /\
  labelFromScore (- (49999 # 1000000)) = Neutral.
Proof.
  split; [| repeat split; reflexivity].
  intros c. unfold labelFromScore.
  assert (Hgap : forall x : Q, (5 # 100 <= x)%Q -> (x <= - (5 # 100))%Q -> False).
  { intros x H1 H2. assert (H : (5 # 100 <= - (5 # 100))%Q) by (eapply Qle_trans; eauto).
    revert H. unfold Qle; simpl. lia. }
  destruct (Qle_bool (5 # 100) c) eqn:Hp.
  - apply Qle_bool_iff in Hp.
    split; [tauto |]. split.
    + split; [discriminate | intros Hc; elim (Hgap c Hp Hc)].
    + split; [discriminate |].
      intros [_ Hlt]. apply Qlt_not_le in Hlt. tauto.
  - apply Qle_bool_false in Hp.
    assert (Hnp : ~ (5 # 100 <= c)%Q) by (now apply Qlt_not_le).
    destruct (Qle_bool c (- (5 # 100))) eqn:Hm.
    + apply Qle_bool_iff in Hm.
      split; [split; [discriminate | tauto] |].
      split; [tauto |].
      split; [discriminate |].
      intros [Hlt _]. apply Qlt_not_le in Hlt. tauto.
    + apply Qle_bool_false in Hm.
      assert (Hnm : ~ (c <= - (5 # 100))%Q) by (now apply Qlt_not_le).
      split; [split; [discriminate | tauto] |].
      split; [split; [discriminate | tauto] |].
      tauto.
Qed.

(** ** Aggregator *)

Lemma bump_balanced (label : SentimentLabel) (row : AggregateRow) :
  balanced row -> balanced (bump label row).
Proof. unfold balanced. destruct label; simpl; lia. Qed.

Lemma bump_counts (label : SentimentLabel) (row : AggregateRow) :
  activity_count (bump label row) = activity_count row + 1 /\
  positive_count (bump label row) + neutral_count (bump label row)
  + negative_count (bump label row)
  = positive_count row + neutral_count row + negative_count row + 1.
Proof. destruct label; simpl; lia. Qed.

Lemma updateAggregate_balanced (aggs : gmap string AggregateRow)
    (args : AggregateArgs) :
  map_Forall (fun _ row => balanced row) aggs ->
  map_Forall (fun _ row => balanced row) (updateAggregate aggs args).
Proof.
  intros Hall. unfold updateAggregate.
  apply map_Forall_insert_2; [| exact Hall].
  apply bump_balanced.
  destruct (aggs !! _) as [row |] eqn:Hrow.
  - exact (Hall _ _ Hrow).
  - reflexivity.
Qed.

(** C9. Starting from the empty aggregate map, after any sequence of
    [updateAggregate] calls every row has
    positive + neutral + negative = activity_count. *)
Theorem aggregate_rows_balanced (calls : list AggregateArgs) :
  map_Forall
    (fun _ row =>
       positive_count row + neutral_count row + negative_count row
       = activity_count row)
    (fold_left updateAggregate calls ∅).
Proof.
  change (map_Forall (fun _ row => balanced row)
            (fold_left updateAggregate calls ∅)).
  assert (Hgen : forall aggs,
             map_Forall (fun _ row => balanced row) aggs ->
             map_Forall (fun _ row => balanced row)
               (fold_left updateAggregate calls aggs)).
  { induction calls as [| args calls IH]; intros aggs Hall; simpl.
    - exact Hall.
    - apply IH, updateAggregate_balanced, Hall. }
  apply Hgen, map_Forall_empty.
Qed.

(** ** Reasoning about effects *)

Lemma bind_Ok {A B} (m : M A) (k : A -> M B) (w w' : World) (b : B) :
  bind m k w = (Ok b, w') ->
  exists a w1, m w = (Ok a, w1) /\ k a w1 = (Ok b, w').
Proof.
  unfold bind. destruct (m w) as [[a | e] w1]; intros H.
  - eauto.
  - discriminate.
Qed.

Lemma bind_Throw {A B} (m : M A) (k : A -> M B) (w w' : World) (e : string) :
  bind m k w = (Throw e, w') ->
  m w = (Throw e, w') \/ exists a w1, m w = (Ok a, w1) /\ k a w1 = (Throw e, w').
Proof.
  unfold bind. destruct (m w) as [[a | e1] w1]; intros H.
  - right. eauto.
  - left. congruence.
Qed.

Lemma bind_step {A B} (m : M A) (k : A -> M B) (w w1 : World) (a : A) :
  m w = (Ok a, w1) -> bind m k w = k a w1.
Proof. unfold bind. now intros ->. Qed.

Lemma bind_fail {A B} (m : M A) (k : A -> M B) (w w1 : World) (e : string) :
  m w = (Throw e, w1) -> bind m k w = (Throw e, w1).
Proof. unfold bind. now intros ->. Qed.

Lemma try_catch_Throw {A} (m : M A) (h : string -> M A) (w w1 : World)
    (e : string) :
  m w = (Throw e, w1) -> try_catch m h w = h e w1.
Proof. unfold try_catch. now intros ->. Qed.

Lemma total_bind {A B} (m : M A) (k : A -> M B) :
  total m -> (forall a, total (k a)) -> total (bind m k).
Proof.
  intros Hm Hk w. destruct (Hm w) as (a & w1 & Ha).
  rewrite (bind_step _ _ _ _ _ Ha). apply Hk.
Qed.

Lemma total_ret {A} (a : A) : total (ret a).
Proof. intros w. unfold ret. eauto. Qed.

Section Handler_facts.

Context (P : Platform).

Lemma total_now : total (now P).
Proof. intros w. unfold now. eauto. Qed.

Lemma total_store {A} (f : DB -> A * DB) : total (store P f).
Proof.
  intros w. unfold store.
  destruct (store_fault P (store_ops w)); [eauto |].
  destruct (f (db w)). eauto.
Qed.

Lemma total_updateJob (jobId : nat) (patch : JobPatch) :
  total (updateJob P jobId patch).
Proof.
  unfold updateJob, store_. apply total_bind; [apply total_store |].
  intros [e | []]; [| apply total_ret].
  intros w. unfold console_error. eauto.
Qed.

(** The [catch] block always answers, with a 500. *)
Lemma fail_run_answers (start : Instant) (jobId : option nat) (e : string)
    (w : World) :
  exists w', fail_run P start jobId e w
             = (Ok {| code := 500; content := Failed e jobId |}, w').
Proof.
  unfold fail_run.
  destruct (total_now w) as (t & w1 & Ht). rewrite (bind_step _ _ _ _ _ Ht).
  assert (Hu : total (match jobId with
                      | Some id => updateJob P id (failed t (t - start) e)
                      | None => ret tt
                      end)).
  { destruct jobId; [apply total_updateJob | apply total_ret]. }
  destruct (Hu w1) as ([] & w2 & Hw2). rewrite (bind_step _ _ _ _ _ Hw2).
  unfold ret. eauto.
Qed.

(** The [try] block, when it completes, answers with a 200 summary whose
    status is derived from the warnings. *)
Lemma run_job_Ok (start : Instant) (jobId : nat) (tf : string)
    (kw : option string) (w w' : World) (reply : Reply) :
  run_job P start jobId tf kw w = (Ok reply, w') ->
  exists result duration,
    reply = {| code := 200;
               content :=
                 Summary jobId
                   (if nonempty (errors result)
                    then "completed_with_warnings" else "completed")
                   tf kw result duration |}.
Proof.
  unfold run_job. intros H.
  apply bind_Ok in H as (? & ? & _ & H).
  apply bind_Ok in H as (? & ? & _ & H).
  apply bind_Ok in H as (? & ? & _ & H).
  apply bind_Ok in H as (result & ? & _ & H).
  apply bind_Ok in H as (t & ? & _ & H).
  apply bind_Ok in H as (? & ? & _ & H).
  unfold ret in H. injection H as <- _. eauto.
Qed.

(** The handler always answers. *)
Lemma serve_answers (req : Request) : total (serve P req).
Proof.
  intros w. unfold serve.
  destruct (negb _); [unfold ret; eauto |].
  destruct (body req) as [payload |]; [| unfold ret; eauto].
  destruct (negb _); [unfold ret; eauto |].
  destruct createServiceClient; [unfold ret; eauto |].
  destruct (total_now w) as (t & w1 & Ht). rewrite (bind_step _ _ _ _ _ Ht).
  destruct (total_store
              (Sql.insert_job (default "7d" (p_timeframe payload))
                 (normalizeKeyword (p_keyword payload)) "edge_function" "queued")
              w1) as (ins & w2 & Hins).
  rewrite (bind_step _ _ _ _ _ Hins).
  destruct ins as [e | jobId].
  - destruct (fail_run_answers t None e w2) as (w3 & ->). eauto.
  - unfold try_catch.
    destruct (run_job P t jobId _ _ w2) as [[reply | e] w3]; [eauto |].
    destruct (fail_run_answers t (Some jobId) e w3) as (w4 & ->). eauto.
Qed.

End Handler_facts.

(** ** Defaults of the trigger payload *)

Lemma normalizeKeyword_blank (keyword : string) :
  Js.trim keyword = "" -> normalizeKeyword (Some keyword) = None.
Proof.
  intros Hblank. unfold normalizeKeyword.
  destruct (negb (Js.truthy keyword)); [reflexivity |].
  now rewrite Hblank.
Qed.

(** ** RateLimitedClient *)

Section Client_facts.

Context (P : Platform).

(** Acquiring a token touches nothing but the count of token requests. *)
Lemma requestRedditAccessToken_frame (g : GrantType) (w : World) :
  let w' := (requestRedditAccessToken P g w).2 in
  w' = set_token_requests (token_requests w') w.
Proof.
  unfold requestRedditAccessToken.
  destruct (_ || _); [destruct w; reflexivity |].
  assert (Hpre : forall (c : bool) (k : unit -> M string),
             (forall u v, let v' := (k u v).2 in
                          v' = set_token_requests (token_requests v') v) ->
             let w' := (bind (if c then throw "Reddit username/password are required for password grant." else ret tt) k w).2 in
             w' = set_token_requests (token_requests w') w).
  { intros c k Hk. destruct c; unfold bind, throw, ret; simpl.
    - destruct w; reflexivity.
    - apply Hk. }
  assert (Hrest : forall (u : unit) (v : World),
             let v' :=
               ((let! response := fetch_token P g in
                 if negb (t_ok response) then
                   throw ("Reddit auth failed (" +:+ pretty (t_status response)
                          +:+ ") [" +:+ grant_name g +:+ "]: "
                          +:+ match t_error_description response with
                              | Some r => r
                              | None => default (t_text response) (t_error response)
                              end)
                 else
                   match t_access_token response with
                   | Some accessToken =>
                       if Js.truthy accessToken then ret accessToken
                       else throw ("Reddit auth response missing access token ["
                                   +:+ grant_name g +:+ "]: " +:+ t_text response)
                   | None =>
                       throw ("Reddit auth response missing access token ["
                              +:+ grant_name g +:+ "]: " +:+ t_text response)
                   end) v).2 in
             v' = set_token_requests (token_requests v') v).
  { intros _ v. unfold bind, fetch_token.
    destruct (reddit_token P (token_requests v) g) as [e | r].
    - destruct v; reflexivity.
    - destruct (negb (t_ok r)); [destruct v; reflexivity |].
      destruct (t_access_token r) as [a |]; [| destruct v; reflexivity].
      destruct (Js.truthy a); destruct v; reflexivity. }
  destruct g.
  - apply (Hpre _ _ Hrest).
  - apply (Hpre false _ Hrest).
Qed.

Lemma fetchRedditAccessToken_frame (w : World) :
  let w' := (fetchRedditAccessToken P w).2 in
  w' = set_token_requests (token_requests w') w.
Proof.
  unfold fetchRedditAccessToken.
  destruct (_ && _); [| apply requestRedditAccessToken_frame].
  unfold try_catch.
  pose proof (requestRedditAccessToken_frame password w) as H1.
  destruct (requestRedditAccessToken P password w) as [[a | e] w1]; simpl in *.
  - exact H1.
  - destruct (negb _).
    + exact H1.
    + pose proof (requestRedditAccessToken_frame client_credentials w1) as H2.
      simpl in H2. rewrite H2, H1. destruct w; reflexivity.
Qed.

Lemma fetchRedditAccessToken_gets (w : World) :
  gets (fetchRedditAccessToken P w).2 = gets w
  /\ slept (fetchRedditAccessToken P w).2 = slept w.
Proof.
  pose proof (fetchRedditAccessToken_frame w) as H. simpl in H.
  rewrite H. split; reflexivity.
Qed.

Lemma fetchJson_at_unfold (n : nat) (url : string) (attempt : Z) :
  fetchJson_at P n url attempt
  = (let! response := fetch_get P url in
     if (status response =? 401) && (attempt <? 3) then
       match n with
       | O => throw "unreachable"
       | S n' =>
           let! fresh := fetchRedditAccessToken P in
           put_token fresh ;;
           fetchJson_at P n' url (attempt + 1)
       end
     else if ((status response =? 429) || (status response =? 403))
             && (attempt <? 3) then
       match n with
       | O => throw "unreachable"
       | S n' =>
           delay (RATE_LIMIT_MS * attempt) ;;
           fetchJson_at P n' url (attempt + 1)
       end
     else if negb (ok response) then
       throw ("Reddit request failed (" +:+ pretty (status response)
              +:+ "): " +:+ url +:+ " :: " +:+ text response)
     else
       match json response with
       | Some payload => ret payload
       | None => throw JSON_SYNTAX_ERROR
       end).
Proof. destruct n; reflexivity. Qed.

(** One more retry than needed changes nothing: [retries] is never the
    reason why [fetchJson_at] stops once it covers [3 - attempt]. *)
Lemma fetchJson_at_fuel (n : nat) (url : string) (attempt : Z) (w : World) :
  (3 - attempt <= Z.of_nat n)%Z ->
  fetchJson_at P (S n) url attempt w = fetchJson_at P n url attempt w.
Proof.
  revert attempt w.
  induction n as [| n IH]; intros attempt w Hfuel.
  - rewrite (fetchJson_at_unfold 1 url attempt), (fetchJson_at_unfold 0 url attempt).
    unfold bind; destruct (fetch_get P url w) as [[r | e] w1]; try reflexivity.
    assert (Hlt : (attempt <? 3) = false) by lia.
    rewrite Hlt, !andb_false_r. reflexivity.
  - rewrite (fetchJson_at_unfold (S (S n)) url attempt), (fetchJson_at_unfold (S n) url attempt).
    unfold bind; destruct (fetch_get P url w) as [[r | e] w1]; try reflexivity.
    destruct (_ && _).
    + destruct (fetchRedditAccessToken P w1) as [[t | e] w2]; [| reflexivity].
      unfold put_token. apply IH. lia.
    + destruct (_ && _); [| reflexivity].
      unfold delay. apply IH. lia.
Qed.

Lemma fetchJson_at_gets (n : nat) (url : string) (attempt : Z) (w : World) :
  (gets w < gets (fetchJson_at P n url attempt w).2 <= gets w + S n)%nat.
Proof.
  revert attempt w.
  induction n as [| n IH]; intros attempt w;
    rewrite fetchJson_at_unfold; unfold bind, fetch_get;
    destruct (reddit_get P (gets w) url (token w)) as [e | r]; simpl; try lia.
  - destruct (_ && _); [simpl; lia |].
    destruct (_ && _); [simpl; lia |].
    destruct (negb _); [simpl; lia |].
    destruct (json r); simpl; lia.
  - destruct (_ && _).
    + pose proof (fetchRedditAccessToken_gets (set_gets (S (gets w)) w)) as [Hg _].
      destruct (fetchRedditAccessToken P (set_gets (S (gets w)) w))
        as [[t | e] w2]; simpl in *; [| lia].
      specialize (IH (attempt + 1) (set_token t w2)). simpl in IH. lia.
    + destruct (_ && _).
      * specialize (IH (attempt + 1)
                      (set_slept (RATE_LIMIT_MS * attempt :: slept w)
                         (set_gets (S (gets w)) w))).
        simpl in IH. simpl. lia.
      * destruct (negb _); [simpl; lia |].
        destruct (json r); simpl; lia.
Qed.

(** C5, as amended. One logical GET makes between one and three requests.
    A 401 on attempt 1 or 2 refreshes the token and retries at once, with no
    wait, as the next attempt: it uses up one of the three attempts and
    raises the attempt number that multiplies a later back-off. A 429 or
    403 on attempt 1 or 2 waits [RATE_LIMIT_MS * attempt] and retries. Any
    other answer that is not 2xx, and any answer that is not 2xx on attempt
    3, fails at once with the status, the URL and the response body in the
    message. *)
Theorem fetchJson_retry_policy (url : string) (w : World) :
  (gets w < gets (fetchJson P url w).2 <= gets w + 3)%nat
  /\ (forall n attempt r t w1,
        reddit_get P (gets w) url (token w) = inr r ->
        status r = 401 -> attempt < 3 ->
        fetchRedditAccessToken P (set_gets (S (gets w)) w) = (Ok t, w1) ->
        fetchJson_at P (S n) url attempt w
        = fetchJson_at P n url (attempt + 1) (set_token t w1)
        /\ slept w1 = slept w /\ gets w1 = S (gets w))
  /\ (forall n attempt r e w1,
        reddit_get P (gets w) url (token w) = inr r ->
        status r = 401 -> attempt < 3 ->
        fetchRedditAccessToken P (set_gets (S (gets w)) w) = (Throw e, w1) ->
        fetchJson_at P (S n) url attempt w = (Throw e, w1))
  /\ (forall n attempt r,
        reddit_get P (gets w) url (token w) = inr r ->
        status r = 429 \/ status r = 403 -> attempt < 3 ->
        fetchJson_at P (S n) url attempt w
        = fetchJson_at P n url (attempt + 1)
            (set_slept (RATE_LIMIT_MS * attempt :: slept w)
               (set_gets (S (gets w)) w)))
  /\ (forall n attempt r,
        reddit_get P (gets w) url (token w) = inr r ->
        ok r = false ->
        3 <= attempt \/ (status r <> 401 /\ status r <> 429 /\ status r <> 403) ->
        fetchJson_at P n url attempt w
        = (Throw ("Reddit request failed (" +:+ pretty (status r) +:+ "): "
                  +:+ url +:+ " :: " +:+ text r),
           set_gets (S (gets w)) w))
  /\ (forall n attempt r payload,
        reddit_get P (gets w) url (token w) = inr r ->
        ok r = true -> json r = Some payload ->
        fetchJson_at P n url attempt w = (Ok payload, set_gets (S (gets w)) w)).
Proof.
  split; [apply (fetchJson_at_gets 2 url 1 w) |].
  split; [| split; [| split; [| split]]].
  - intros n attempt r t w1 Hget Hst Hlt Hrefresh.
    rewrite fetchJson_at_unfold. unfold bind at 1, fetch_get. rewrite Hget, Hst.
    replace (attempt <? 3) with true by lia. cbn [Z.eqb Pos.eqb andb].
    unfold bind. rewrite Hrefresh. unfold put_token.
    pose proof (fetchRedditAccessToken_gets (set_gets (S (gets w)) w)) as [Hg Hs].
    rewrite Hrefresh in Hg, Hs. auto.
  - intros n attempt r e w1 Hget Hst Hlt Hrefresh.
    rewrite fetchJson_at_unfold. unfold bind at 1, fetch_get. rewrite Hget, Hst.
    replace (attempt <? 3) with true by lia. cbn [Z.eqb Pos.eqb andb].
    unfold bind. now rewrite Hrefresh.
  - intros n attempt r Hget Hst Hlt.
    rewrite fetchJson_at_unfold. unfold bind at 1, fetch_get. rewrite Hget.
    replace (attempt <? 3) with true by lia.
    destruct Hst as [-> | ->]; reflexivity.
  - intros n attempt r Hget Hok Hother.
    rewrite fetchJson_at_unfold. unfold bind, fetch_get. rewrite Hget.
    assert (Hno : (status r =? 401) && (attempt <? 3) = false
                  /\ ((status r =? 429) || (status r =? 403)) && (attempt <? 3)
                     = false) by lia.
    destruct Hno as [-> ->]. now rewrite Hok.
  - intros n attempt r payload Hget Hok Hjson.
    rewrite fetchJson_at_unfold. unfold bind, fetch_get. rewrite Hget.
    unfold ok in Hok.
    assert (Hno : (status r =? 401) && (attempt <? 3) = false
                  /\ ((status r =? 429) || (status r =? 403)) && (attempt <? 3)
                     = false) by lia.
    destruct Hno as [-> ->].
    unfold ok. rewrite Hok, Hjson. reflexivity.
Qed.

End Client_facts.

(** A 401, then a 429, then a success: the 429 is answered on attempt 2,
    so the wait is two base delays. *)
Lemma fetchJson_retry_policy_witness :
  fetchJson
    (Demo.platform
       (Demo.script [Demo.refused 401 ""; Demo.refused 429 ""; Demo.thread []]))
    "u" Demo.world
  = fetchJson_at
      (Demo.platform
         (Demo.script [Demo.refused 401 ""; Demo.refused 429 ""; Demo.thread []]))
      1 "u" 2
      (set_token "token-1" (set_token_requests 1 (set_gets 1 Demo.world))).
Proof.
  pose proof (fetchJson_retry_policy
                (Demo.platform
                   (Demo.script
                      [Demo.refused 401 ""; Demo.refused 429 ""; Demo.thread []]))
                "u" Demo.world) as (_ & H401 & _).
  destruct (H401 1%nat 1 {| status := 401; text := ""; json := None |}
              "token-1" (set_token_requests 1 (set_gets 1 Demo.world))
              eq_refl eq_refl eq_refl eq_refl) as (H & _).
  exact H.
Defined.

(** C5, as stated, fails: after a 401 the next 429 waits two base delays,
    not one, because the retry after the 401 advanced the attempt number. *)
Lemma retry_after_401_counts_for_backoff :
  rev (slept
         (fetchJson
            (Demo.platform
               (Demo.script
                  [Demo.refused 401 ""; Demo.refused 429 ""; Demo.thread []]))
            "u" Demo.world).2)
  = [2 * RATE_LIMIT_MS]
  /\ Claimed.backoff [401; 429; 200] 1 = [RATE_LIMIT_MS]
  /\ rev (slept
            (fetchJson
               (Demo.platform
                  (Demo.script
                     [Demo.refused 401 ""; Demo.refused 429 ""; Demo.thread []]))
               "u" Demo.world).2)
     <> Claimed.backoff [401; 429; 200] 1.
Proof. repeat split; vm_compute; congruence. Qed.


(** ** SubredditProcessor: one comment, one post *)

Section Processor_facts.

Context (P : Platform) (subreddit : SubredditRow) (tf : string)
  (sinceEpoch : Z) (keyword : option string).

Lemma matchesKeyword_guard (text : string) :
  Js.truthy_opt keyword && negb (matchesKeyword text keyword)
  = negb (matchesKeyword text keyword).
Proof.
  unfold matchesKeyword. destruct (Js.truthy_opt keyword); reflexivity.
Qed.

(** A comment the filter discards leaves everything as it was. *)
Lemma processComment_skipped (post : ItemData) (g : Gathered) (c : Child)
    (w : World) :
  keepsComment sinceEpoch keyword c = false ->
  processComment P subreddit tf sinceEpoch keyword post g c w = (Ok g, w).
Proof.
  unfold keepsComment, processComment, inWindow. intros Hk.
  destruct (String.eqb (kind c) "t1"); [| reflexivity]. simpl in *.
  destruct (data c) as [d |]; [| reflexivity].
  destruct (d_created_utc d) as [t |]; [| reflexivity].
  destruct (Z.ltb_spec t sinceEpoch); [reflexivity |].
  replace (sinceEpoch <=? t) with true in Hk by lia. simpl in Hk.
  destruct (Js.truthy (sanitizeText (d_body d))); [| reflexivity]. simpl in *.
  rewrite matchesKeyword_guard, Hk. reflexivity.
Qed.

(** A comment the filter keeps yields one record and one sentiment, read
    the clock once and counts in its day bucket; a time value outside the
    range of [Date] throws instead. *)
Lemma processComment_kept (post : ItemData) (g : Gathered) (c : Child)
    (w : World) :
  keepsComment sinceEpoch keyword c = true ->
  exists d t,
    data c = Some d /\ d_created_utc d = Some t /\ sinceEpoch <= t /\
    processComment P subreddit tf sinceEpoch keyword post g c w
    = if JsDate.valid (t * 1000)
      then (Ok (push_comment (commentRecordOf post d (t * 1000))
                  (commentSentimentOf P subreddit d (t * 1000)
                     (clock P (clock_reads w)))
                  tf g),
            set_clock_reads (S (clock_reads w)) w)
      else (Throw "Invalid time value", w).
Proof.
  unfold keepsComment, processComment, inWindow. intros Hk.
  destruct (String.eqb (kind c) "t1"); [| discriminate]. simpl in *.
  destruct (data c) as [d |]; [| discriminate].
  destruct (d_created_utc d) as [t |] eqn:Ht; [| discriminate].
  exists d, t. split; [reflexivity |]. split; [exact Ht |].
  destruct (Z.leb_spec sinceEpoch t); [| discriminate].
  split; [assumption |].
  replace (t <? sinceEpoch) with false by lia. simpl in Hk.
  destruct (Js.truthy (sanitizeText (d_body d))); [| discriminate]. simpl in *.
  rewrite matchesKeyword_guard, Hk. simpl.
  unfold isoOfSeconds, JsDate.toISOString.
  destruct (JsDate.valid (t * 1000)); reflexivity.
Qed.

Lemma extends_refl (g : Gathered) : extends g g.
Proof. split; reflexivity. Qed.

Lemma extends_trans (g1 g2 g3 : Gathered) :
  extends g1 g2 -> extends g2 g3 -> extends g1 g3.
Proof. intros [] []. split; etrans; eassumption. Qed.

Lemma processComment_Ok (post : ItemData) (g g' : Gathered) (c : Child)
    (w w' : World) :
  processComment P subreddit tf sinceEpoch keyword post g c w = (Ok g', w') ->
  extends g g' /\ same_posts g g'.
Proof.
  intros H.
  destruct (keepsComment sinceEpoch keyword c) eqn:Hk.
  - destruct (processComment_kept post g c w Hk) as (d & t & _ & _ & _ & Hrun).
    rewrite Hrun in H. destruct (JsDate.valid (t * 1000)); [| discriminate].
    injection H as <- <-.
    split; [| repeat split].
    split; simpl; try reflexivity; apply prefix_app_r; reflexivity.
  - rewrite (processComment_skipped post g c w Hk) in H. injection H as <- <-.
    split; [apply extends_refl | repeat split].
Qed.

Lemma processComment_Throw (post : ItemData) (g : Gathered) (c : Child)
    (w w' : World) (e : string) :
  processComment P subreddit tf sinceEpoch keyword post g c w = (Throw e, w') ->
  e = "Invalid time value".
Proof.
  intros H.
  destruct (keepsComment sinceEpoch keyword c) eqn:Hk.
  - destruct (processComment_kept post g c w Hk) as (d & t & _ & _ & _ & Hrun).
    rewrite Hrun in H. destruct (JsDate.valid (t * 1000)); [discriminate |].
    now injection H as <- <-.
  - rewrite (processComment_skipped post g c w Hk) in H. discriminate.
Qed.

Lemma comment_loop_Ok (post : ItemData) (cs : list Child) (g g' : Gathered)
    (w w' : World) :
  for_of cs (processComment P subreddit tf sinceEpoch keyword post) g w
  = (Ok g', w') ->
  extends g g' /\ same_posts g g'.
Proof.
  revert g w. induction cs as [| c cs IH]; intros g w H; simpl in H.
  - injection H as <- <-. split; [apply extends_refl | repeat split].
  - apply bind_Ok in H as (g1 & w1 & Hc & Hrest).
    apply processComment_Ok in Hc as [He (Hp & Hs & Hw)].
    apply IH in Hrest as [He' (Hp' & Hs' & Hw')].
    split; [eapply extends_trans; eassumption |].
    repeat split; congruence.
Qed.

Lemma comment_loop_Throw (post : ItemData) (cs : list Child) (g : Gathered)
    (w w' : World) (e : string) :
  for_of cs (processComment P subreddit tf sinceEpoch keyword post) g w
  = (Throw e, w') ->
  e = "Invalid time value".
Proof.
  revert g w. induction cs as [| c cs IH]; intros g w H; simpl in H.
  - discriminate.
  - apply bind_Throw in H as [H | (g1 & w1 & _ & H)].
    + eapply processComment_Throw, H.
    + eapply IH, H.
Qed.

Lemma scorePost_run (d : ItemData) (posted_at : Instant) (combined : string)
    (g : Gathered) (w : World) :
  scorePost P subreddit tf d posted_at combined g w
  = if 0 <? Z.of_nat (String.length combined)
    then (Ok (push_post_sentiment
                {| ps_reddit_id := d_id d;
                   ps_compound := polarity_compound P combined;
                   ps_label := labelFromScore (polarity_compound P combined);
                   ps_scored_at := clock P (clock_reads w);
                   ps_posted_at := posted_at;
                   ps_subreddit_id := sub_id subreddit |} tf g),
          set_clock_reads (S (clock_reads w)) w)
    else (Ok g, w).
Proof. unfold scorePost. destruct (0 <? _); reflexivity. Qed.

Lemma scorePost_Ok (d : ItemData) (posted_at : Instant) (combined : string)
    (g : Gathered) (w : World) :
  exists g' w',
    scorePost P subreddit tf d posted_at combined g w = (Ok g', w')
    /\ extends g g' /\ postRecords g' = postRecords g
    /\ warnings g' = warnings g.
Proof.
  rewrite scorePost_run. destruct (0 <? _); eexists _, _; (split; [reflexivity |]).
  - split; [| split; reflexivity].
    split; simpl; try reflexivity. apply prefix_app_r; reflexivity.
  - split; [apply extends_refl | split; reflexivity].
Qed.

(** A comment fetch that throws becomes a warning naming the post; the
    pass completes after the courtesy delay. *)
Lemma commentPass_fetch_failed (d : ItemData) (g : Gathered) (w w1 : World)
    (message : string) :
  fetchJson P (commentsUrl (d_id d)) w = (Throw message, w1) ->
  commentPass P subreddit tf sinceEpoch keyword d g w
  = (Ok (push_warning (commentWarning subreddit d message) g),
     set_slept (RATE_LIMIT_MS :: slept w1) w1).
Proof.
  intros Hfetch. unfold commentPass, bind at 1, try_catch, bind at 1.
  rewrite Hfetch. reflexivity.
Qed.

Lemma commentPass_fetched (d : ItemData) (g : Gathered) (w w1 : World)
    (payload : Payload) :
  fetchJson P (commentsUrl (d_id d)) w = (Ok payload, w1) ->
  commentPass P subreddit tf sinceEpoch keyword d g w
  = (let! g' :=
       for_of (default [] (thread_children payload))
         (processComment P subreddit tf sinceEpoch keyword d) g in
     delay RATE_LIMIT_MS ;; ret g') w1.
Proof.
  intros Hfetch. unfold commentPass, bind at 1, try_catch, bind at 1.
  rewrite Hfetch. reflexivity.
Qed.

Lemma commentPass_Ok (d : ItemData) (g g' : Gathered) (w w' : World) :
  commentPass P subreddit tf sinceEpoch keyword d g w = (Ok g', w') ->
  extends g g' /\ postRecords g' = postRecords g
  /\ postSentiments g' = postSentiments g.
Proof.
  intros H.
  destruct (fetchJson P (commentsUrl (d_id d)) w) as [[payload | e] w1] eqn:Hf.
  - rewrite (commentPass_fetched d g w w1 payload Hf) in H.
    apply bind_Ok in H as (g1 & w2 & Hloop & H).
    apply comment_loop_Ok in Hloop as [He (Hp & Hs & _)].
    unfold bind, delay, ret in H. injection H as <- _. auto.
  - rewrite (commentPass_fetch_failed d g w w1 e Hf) in H.
    injection H as <- _.
    split; [| split; reflexivity].
    split; simpl; try reflexivity. apply prefix_app_r; reflexivity.
Qed.

Lemma commentPass_Throw (d : ItemData) (g : Gathered) (w w' : World)
    (e : string) :
  commentPass P subreddit tf sinceEpoch keyword d g w = (Throw e, w') ->
  e = "Invalid time value".
Proof.
  intros H.
  destruct (fetchJson P (commentsUrl (d_id d)) w) as [[payload | e1] w1] eqn:Hf.
  - rewrite (commentPass_fetched d g w w1 payload Hf) in H.
    apply bind_Throw in H as [H | (g1 & w2 & _ & H)].
    + eapply comment_loop_Throw, H.
    + discriminate.
  - rewrite (commentPass_fetch_failed d g w w1 e1 Hf) in H. discriminate.
Qed.

(** A post the filter discards leaves everything as it was: nothing is
    drafted, scored or counted, and its comments are not fetched. *)
Lemma processPost_skipped (nowIso : Instant) (g : Gathered) (c : Child)
    (w : World) :
  keepsPost sinceEpoch keyword c = false ->
  processPost P subreddit tf sinceEpoch keyword nowIso g c w = (Ok g, w).
Proof.
  unfold keepsPost, processPost, inWindow, postText. intros Hk.
  destruct (data c) as [d |]; [| reflexivity].
  destruct (String.eqb (kind c) "t3"); [| reflexivity]. simpl in *.
  destruct (d_stickied d); [reflexivity |].
  destruct (d_removed_by_category d); [reflexivity |]. simpl in *.
  destruct (d_created_utc d) as [t |]; [| reflexivity].
  destruct (Z.ltb_spec t sinceEpoch); [reflexivity |].
  replace (sinceEpoch <=? t) with true in Hk by lia. simpl in Hk.
  rewrite matchesKeyword_guard, Hk. reflexivity.
Qed.

(** A post the filter keeps is drafted, then scored, then its comments are
    fetched; a time value outside the range of [Date] throws instead. *)
Lemma processPost_kept (nowIso : Instant) (g : Gathered) (c : Child)
    (w : World) :
  keepsPost sinceEpoch keyword c = true ->
  exists d t,
    data c = Some d /\ d_created_utc d = Some t /\ sinceEpoch <= t /\
    processPost P subreddit tf sinceEpoch keyword nowIso g c w
    = if JsDate.valid (t * 1000)
      then (let! g' :=
              scorePost P subreddit tf d (t * 1000) (postText d)
                (push_post
                   (postRecordOf subreddit d (sanitizeText (d_title d))
                      (t * 1000) nowIso) g) in
            commentPass P subreddit tf sinceEpoch keyword d g') w
      else (Throw "Invalid time value", w).
Proof.
  unfold keepsPost, processPost, inWindow, postText. intros Hk.
  destruct (data c) as [d |]; [| discriminate].
  destruct (String.eqb (kind c) "t3"); [| discriminate]. simpl in *.
  destruct (d_stickied d); [discriminate |].
  destruct (d_removed_by_category d); [discriminate |]. simpl in *.
  destruct (d_created_utc d) as [t |] eqn:Ht; [| discriminate].
  exists d, t. split; [reflexivity |]. split; [exact Ht |].
  destruct (Z.leb_spec sinceEpoch t); [| discriminate].
  split; [assumption |].
  replace (t <? sinceEpoch) with false by lia. simpl in Hk.
  rewrite matchesKeyword_guard, Hk. simpl.
  unfold isoOfSeconds, JsDate.toISOString, bind at 1.
  destruct (JsDate.valid (t * 1000)); reflexivity.
Qed.

(** The outcome of a kept post whose own time value is in range: either its
    record has been appended to the post drafts, or a comment carried a
    time value out of range and the processing threw. *)
Lemma processPost_kept_outcome (nowIso : Instant) (g : Gathered) (c : Child)
    (w : World) (d : ItemData) (t : Z) :
  keepsPost sinceEpoch keyword c = true ->
  data c = Some d -> d_created_utc d = Some t ->
  JsDate.valid (t * 1000) = true ->
  (exists g' w',
      processPost P subreddit tf sinceEpoch keyword nowIso g c w = (Ok g', w')
      /\ postRecords g'
         = postRecords g
           ++ [postRecordOf subreddit d (sanitizeText (d_title d)) (t * 1000)
                 nowIso])
  \/ (exists w',
         processPost P subreddit tf sinceEpoch keyword nowIso g c w
         = (Throw "Invalid time value", w')).
Proof.
  intros Hk Hd Ht Hvalid.
  destruct (processPost_kept nowIso g c w Hk) as (d' & t' & Hd' & Ht' & _ & Hrun).
  assert (d' = d) by congruence. subst d'.
  assert (t' = t) by congruence. subst t'.
  rewrite Hvalid in Hrun. rewrite Hrun.
  destruct (scorePost_Ok d (t * 1000) (postText d)
              (push_post
                 (postRecordOf subreddit d (sanitizeText (d_title d)) (t * 1000)
                    nowIso) g) w) as (g1 & w1 & Hscore & _ & Hp1 & _).
  rewrite (bind_step _ _ _ _ _ Hscore).
  destruct (commentPass P subreddit tf sinceEpoch keyword d g1 w1)
    as [[g2 | e] w2] eqn:Hpass.
  - left. exists g2, w2. split; [reflexivity |].
    apply commentPass_Ok in Hpass as (_ & Hp2 & _).
    rewrite Hp2, Hp1. reflexivity.
  - right. exists w2. apply commentPass_Throw in Hpass. now subst e.
Qed.

Lemma processPost_Ok (nowIso : Instant) (g g' : Gathered) (c : Child)
    (w w' : World) :
  processPost P subreddit tf sinceEpoch keyword nowIso g c w = (Ok g', w') ->
  extends g g'.
Proof.
  intros H.
  destruct (keepsPost sinceEpoch keyword c) eqn:Hk.
  - destruct (processPost_kept nowIso g c w Hk) as (d & t & _ & _ & _ & Hrun).
    rewrite Hrun in H. destruct (JsDate.valid (t * 1000)); [| discriminate].
    apply bind_Ok in H as (g1 & w1 & Hscore & Hpass).
    destruct (scorePost_Ok d (t * 1000) (postText d)
                (push_post
                   (postRecordOf subreddit d (sanitizeText (d_title d))
                      (t * 1000) nowIso) g) w) as (g1' & w1' & Hscore' & He & _).
    rewrite Hscore in Hscore'. injection Hscore' as <- <-.
    apply commentPass_Ok in Hpass as (He' & _).
    eapply extends_trans; [| exact He'].
    eapply extends_trans; [| exact He].
    split; simpl; try reflexivity. apply prefix_app_r; reflexivity.
  - rewrite (processPost_skipped nowIso g c w Hk) in H. injection H as <- <-.
    apply extends_refl.
Qed.

Lemma post_loop_Ok (nowIso : Instant) (cs : list Child) (g g' : Gathered)
    (w w' : World) :
  for_of cs (processPost P subreddit tf sinceEpoch keyword nowIso) g w
  = (Ok g', w') ->
  extends g g'.
Proof.
  revert g w. induction cs as [| c cs IH]; intros g w H; simpl in H.
  - injection H as <- <-. apply extends_refl.
  - apply bind_Ok in H as (g1 & w1 & Hc & Hrest).
    eapply extends_trans; [eapply processPost_Ok, Hc | eapply IH, Hrest].
Qed.

Lemma for_of_app {A St} (xs ys : list A) (body : St -> A -> M St) (s s1 : St)
    (w w1 : World) :
  for_of xs body s w = (Ok s1, w1) ->
  for_of (xs ++ ys) body s w = for_of ys body s1 w1.
Proof.
  revert s w. induction xs as [| x xs IH]; intros s w H; simpl in *.
  - now injection H as <- <-.
  - apply bind_Ok in H as (s' & w' & Hx & Hrest).
    rewrite (bind_step _ _ _ _ _ Hx). now apply IH.
Qed.

End Processor_facts.

(** ** ContentFilter *)

Lemma truthy_true (s : string) : Js.truthy s = true <-> s <> "".
Proof. destruct s; simpl; split; congruence. Qed.

Lemma matchesKeyword_true (text : string) (keyword : option string) :
  matchesKeyword text keyword = true
  <-> match keyword with
      | Some k => k = "" \/ Js.includes (Js.toLowerCase text) k = true
      | None => True
      end.
Proof.
  unfold matchesKeyword. destruct keyword as [k |]; simpl; [| tauto].
  destruct k; simpl; [tauto |].
  split; [auto | intros [H | H]; [discriminate | exact H]].
Qed.

Lemma keepsPost_true (sinceEpoch : Z) (keyword : option string) (c : Child) :
  keepsPost sinceEpoch keyword c = true
  <-> exists d t,
        data c = Some d /\ kind c = "t3"
        /\ d_stickied d = false /\ d_removed_by_category d = false
        /\ d_created_utc d = Some t /\ sinceEpoch <= t
        /\ match keyword with
           | Some k => k = "" \/ Js.includes (Js.toLowerCase (postText d)) k = true
           | None => True
           end.
Proof.
  unfold keepsPost, inWindow. split.
  - destruct (data c) as [d |]; [| discriminate].
    rewrite !andb_true_iff, !negb_true_iff, String.eqb_eq, matchesKeyword_true.
    intros ((((Hk & Hs) & Hr) & Hw) & Hm).
    destruct (d_created_utc d) as [t |] eqn:Ht; [| discriminate].
    exists d, t. repeat split; try assumption. lia.
  - intros (d & t & -> & Hk & Hs & Hr & Ht & Hw & Hm).
    rewrite !andb_true_iff, !negb_true_iff, String.eqb_eq, matchesKeyword_true, Ht.
    repeat split; try assumption. lia.
Qed.

Lemma keepsComment_true (sinceEpoch : Z) (keyword : option string) (c : Child) :
  keepsComment sinceEpoch keyword c = true
  <-> exists d t,
        kind c = "t1" /\ data c = Some d
        /\ d_created_utc d = Some t /\ sinceEpoch <= t
        /\ sanitizeText (d_body d) <> ""
        /\ match keyword with
           | Some k =>
               k = "" \/ Js.includes (Js.toLowerCase (sanitizeText (d_body d))) k
                         = true
           | None => True
           end.
Proof.
  unfold keepsComment, inWindow. split.
  - rewrite andb_true_iff, String.eqb_eq. intros [Hk H].
    destruct (data c) as [d |]; [| discriminate].
    rewrite !andb_true_iff, truthy_true, matchesKeyword_true in H.
    destruct H as ((Hw & Hb) & Hm).
    destruct (d_created_utc d) as [t |] eqn:Ht; [| discriminate].
    exists d, t. repeat split; try assumption. lia.
  - intros (d & t & Hk & -> & Ht & Hw & Hb & Hm).
    rewrite !andb_true_iff, String.eqb_eq, truthy_true, matchesKeyword_true, Ht.
    repeat split; try assumption. lia.
Qed.

(** ** The window *)

Section Window_facts.

Context (P : Platform) (subreddit : SubredditRow) (tf : string)
  (sinceEpoch : Z) (keyword : option string).

Lemma processComment_windowed (post : ItemData) (g g' : Gathered) (c : Child)
    (w w' : World) :
  windowed sinceEpoch g ->
  processComment P subreddit tf sinceEpoch keyword post g c w = (Ok g', w') ->
  windowed sinceEpoch g'.
Proof.
  intros Hwin H.
  destruct (keepsComment sinceEpoch keyword c) eqn:Hk.
  - destruct (processComment_kept P subreddit tf sinceEpoch keyword post g c w Hk)
      as (d & t & _ & _ & Hle & Hrun).
    rewrite Hrun in H. destruct (JsDate.valid (t * 1000)); [| discriminate].
    injection H as <- _. destruct Hwin as (H1 & H2 & H3 & H4).
    repeat split; simpl; try assumption;
      apply Forall_app; (split; [assumption |]);
      apply Forall_singleton; simpl; lia.
  - rewrite (processComment_skipped P subreddit tf sinceEpoch keyword post g c w Hk)
      in H.
    now injection H as <- _.
Qed.

Lemma comment_loop_windowed (post : ItemData) (cs : list Child)
    (g g' : Gathered) (w w' : World) :
  windowed sinceEpoch g ->
  for_of cs (processComment P subreddit tf sinceEpoch keyword post) g w
  = (Ok g', w') ->
  windowed sinceEpoch g'.
Proof.
  revert g w. induction cs as [| c cs IH]; intros g w Hwin H; simpl in H.
  - now injection H as <- _.
  - apply bind_Ok in H as (g1 & w1 & Hc & Hrest).
    eapply IH; [| exact Hrest]. eapply processComment_windowed; eassumption.
Qed.

Lemma commentPass_windowed (d : ItemData) (g g' : Gathered) (w w' : World) :
  windowed sinceEpoch g ->
  commentPass P subreddit tf sinceEpoch keyword d g w = (Ok g', w') ->
  windowed sinceEpoch g'.
Proof.
  intros Hwin H.
  destruct (fetchJson P (commentsUrl (d_id d)) w) as [[payload | e] w1] eqn:Hf.
  - rewrite (commentPass_fetched P subreddit tf sinceEpoch keyword d g w w1
               payload Hf) in H.
    apply bind_Ok in H as (g1 & w2 & Hloop & H).
    unfold bind, delay, ret in H. injection H as <- _.
    eapply comment_loop_windowed; eassumption.
  - rewrite (commentPass_fetch_failed P subreddit tf sinceEpoch keyword d g w w1
               e Hf) in H.
    injection H as <- _. exact Hwin.
Qed.

Lemma processPost_windowed (nowIso : Instant) (g g' : Gathered) (c : Child)
    (w w' : World) :
  windowed sinceEpoch g ->
  processPost P subreddit tf sinceEpoch keyword nowIso g c w = (Ok g', w') ->
  windowed sinceEpoch g'.
Proof.
  intros Hwin H.
  destruct (keepsPost sinceEpoch keyword c) eqn:Hk.
  - destruct (processPost_kept P subreddit tf sinceEpoch keyword nowIso g c w Hk)
      as (d & t & _ & _ & Hle & Hrun).
    rewrite Hrun in H. destruct (JsDate.valid (t * 1000)); [| discriminate].
    apply bind_Ok in H as (g1 & w1 & Hscore & Hpass).
    eapply commentPass_windowed; [| exact Hpass].
    rewrite scorePost_run in Hscore. destruct Hwin as (H1 & H2 & H3 & H4).
    assert (Hrec : Forall (fun r => sinceEpoch * 1000 <= pr_posted_at r)
                     (postRecords g
                      ++ [postRecordOf subreddit d (sanitizeText (d_title d))
                            (t * 1000) nowIso])).
    { apply Forall_app. split; [assumption |].
      apply Forall_singleton. simpl. lia. }
    destruct (0 <? _); injection Hscore as <- _;
      repeat split; simpl; try assumption.
    apply Forall_app. split; [assumption |].
    apply Forall_singleton. simpl. lia.
  - rewrite (processPost_skipped P subreddit tf sinceEpoch keyword nowIso g c w Hk)
      in H.
    now injection H as <- _.
Qed.

Lemma post_loop_windowed (nowIso : Instant) (cs : list Child)
    (g g' : Gathered) (w w' : World) :
  windowed sinceEpoch g ->
  for_of cs (processPost P subreddit tf sinceEpoch keyword nowIso) g w
  = (Ok g', w') ->
  windowed sinceEpoch g'.
Proof.
  revert g w. induction cs as [| c cs IH]; intros g w Hwin H; simpl in H.
  - now injection H as <- _.
  - apply bind_Ok in H as (g1 & w1 & Hc & Hrest).
    eapply IH; [| exact Hrest]. eapply processPost_windowed; eassumption.
Qed.

Lemma no_drafts_windowed (aggs : gmap string AggregateRow) (errs : list string) :
  windowed sinceEpoch (no_drafts aggs errs).
Proof. repeat split; constructor. Qed.

Lemma processSubreddit_windowed (aggs : gmap string AggregateRow)
    (errs : list string) (g' : Gathered) (w w' : World) :
  processSubreddit P subreddit tf sinceEpoch keyword aggs errs w = (Ok g', w') ->
  windowed sinceEpoch g'.
Proof.
  unfold processSubreddit. intros H.
  apply bind_Ok in H as (fetched & w1 & _ & H).
  destruct fetched as [message | listing].
  - injection H as <- _. apply no_drafts_windowed.
  - apply bind_Ok in H as (nowIso & w2 & _ & H).
    eapply post_loop_windowed; [| exact H]. apply no_drafts_windowed.
Qed.

End Window_facts.

(** ** The claims about the processing of one subreddit *)

Lemma out_of_window_post (sinceEpoch : Z) (keyword : option string)
    (c : Child) (d : ItemData) (t : Z) :
  data c = Some d -> d_created_utc d = Some t -> t < sinceEpoch ->
  keepsPost sinceEpoch keyword c = false.
Proof.
  intros Hd Ht Hlt. unfold keepsPost, inWindow. rewrite Hd, Ht.
  replace (sinceEpoch <=? t) with false by lia.
  now rewrite andb_false_r.
Qed.

Lemma out_of_window_comment (sinceEpoch : Z) (keyword : option string)
    (c : Child) (d : ItemData) (t : Z) :
  data c = Some d -> d_created_utc d = Some t -> t < sinceEpoch ->
  keepsComment sinceEpoch keyword c = false.
Proof.
  intros Hd Ht Hlt. unfold keepsComment, inWindow. rewrite Hd, Ht.
  replace (sinceEpoch <=? t) with false by lia.
  now rewrite andb_false_r.
Qed.

Lemma processComment_kept_valid (P : Platform) (subreddit : SubredditRow)
    (tf : string) (sinceEpoch : Z) (keyword : option string)
    (post : ItemData) (g : Gathered) (c : Child) (w : World)
    (d : ItemData) (t : Z) :
  keepsComment sinceEpoch keyword c = true ->
  data c = Some d -> d_created_utc d = Some t ->
  JsDate.valid (t * 1000) = true ->
  processComment P subreddit tf sinceEpoch keyword post g c w
  = (Ok (push_comment (commentRecordOf post d (t * 1000))
           (commentSentimentOf P subreddit d (t * 1000)
              (clock P (clock_reads w))) tf g),
     set_clock_reads (S (clock_reads w)) w).
Proof.
  intros Hk Hd Ht Hvalid.
  destruct (processComment_kept P subreddit tf sinceEpoch keyword post g c w Hk)
    as (d' & t' & Hd' & Ht' & _ & Hrun).
  assert (d' = d) by congruence. subst d'.
  assert (t' = t) by congruence. subst t'.
  now rewrite Hvalid in Hrun.
Qed.

(** A comment loop throws only on a kept comment whose time value is
    outside the range of [Date]. *)
Lemma comment_loop_throws (P : Platform) (subreddit : SubredditRow)
    (tf : string) (sinceEpoch : Z) (keyword : option string)
    (post : ItemData) (cs : list Child) (g : Gathered) (w w' : World)
    (e : string) :
  for_of cs (processComment P subreddit tf sinceEpoch keyword post) g w
  = (Throw e, w') ->
  e = "Invalid time value"
  /\ exists c d t,
       c ∈ cs /\ keepsComment sinceEpoch keyword c = true
       /\ data c = Some d /\ d_created_utc d = Some t
       /\ JsDate.valid (t * 1000) = false.
Proof.
  revert g w. induction cs as [| c cs IH]; intros g w H; simpl in H.
  - discriminate.
  - apply bind_Throw in H as [H | (g1 & w1 & _ & H)].
    + destruct (keepsComment sinceEpoch keyword c) eqn:Hk.
      * destruct (processComment_kept P subreddit tf sinceEpoch keyword post
                    g c w Hk) as (d & t & Hd & Ht & _ & Hrun).
        rewrite Hrun in H.
        destruct (JsDate.valid (t * 1000)) eqn:Hv; [discriminate |].
        injection H as <- _. split; [reflexivity |].
        exists c, d, t. repeat split; try assumption. left.
      * rewrite (processComment_skipped P subreddit tf sinceEpoch keyword
                   post g c w Hk) in H. discriminate.
    + destruct (IH _ _ H) as (He & c' & d & t & Hin & Hrest).
      split; [exact He |]. exists c', d, t. split; [now right | exact Hrest].
Qed.

(** The pass over the comments of a post throws only when the comments
    were fetched and one that is kept has such a time value. *)
Lemma commentPass_throws (P : Platform) (subreddit : SubredditRow)
    (tf : string) (sinceEpoch : Z) (keyword : option string)
    (post : ItemData) (g : Gathered) (w w' : World) (e : string) :
  commentPass P subreddit tf sinceEpoch keyword post g w = (Throw e, w') ->
  e = "Invalid time value"
  /\ exists payload w1 c d t,
       fetchJson P (commentsUrl (d_id post)) w = (Ok payload, w1)
       /\ c ∈ default [] (thread_children payload)
       /\ keepsComment sinceEpoch keyword c = true
       /\ data c = Some d /\ d_created_utc d = Some t
       /\ JsDate.valid (t * 1000) = false.
Proof.
  intros H.
  destruct (fetchJson P (commentsUrl (d_id post)) w) as [[payload | e1] w1]
    eqn:Hf.
  - rewrite (commentPass_fetched P subreddit tf sinceEpoch keyword post g w w1
               payload Hf) in H.
    apply bind_Throw in H as [H | (g1 & w2 & _ & H)]; [| discriminate].
    apply comment_loop_throws in H as (He & c & d & t & Hrest).
    split; [exact He |]. now exists payload, w1, c, d, t.
  - rewrite (commentPass_fetch_failed P subreddit tf sinceEpoch keyword post g
               w w1 e1 Hf) in H. discriminate.
Qed.




(** C7. An item created strictly before the cutoff, even by one second,
    changes nothing: no draft, no sentiment, no aggregate count (and for a
    post no comment fetch). An item created at or after the cutoff is not
    stopped by the window check: when it passes the other checks it is
    drafted. Every draft of a completed pass over a subreddit carries a
    timestamp at or after the cutoff. *)
Theorem window_exclusion (P : Platform) (subreddit : SubredditRow)
    (tf : string) (sinceEpoch : Z) (keyword : option string)
    (nowIso : Instant) (post : ItemData) (g : Gathered) (c : Child)
    (w : World) (d : ItemData) (t : Z) :
  data c = Some d -> d_created_utc d = Some t ->
  (t < sinceEpoch ->
   processPost P subreddit tf sinceEpoch keyword nowIso g c w = (Ok g, w)
   /\ processComment P subreddit tf sinceEpoch keyword post g c w = (Ok g, w))
  /\ (sinceEpoch <= t -> JsDate.valid (t * 1000) = true ->
      (kind c = "t3" -> d_stickied d = false ->
       d_removed_by_category d = false ->
       matchesKeyword (postText d) keyword = true ->
       (exists g' w',
           processPost P subreddit tf sinceEpoch keyword nowIso g c w
           = (Ok g', w')
           /\ postRecords g'
              = postRecords g
                ++ [postRecordOf subreddit d (sanitizeText (d_title d))
                      (t * 1000) nowIso])
       \/ (exists w',
              processPost P subreddit tf sinceEpoch keyword nowIso g c w
              = (Throw "Invalid time value", w')))
      /\ (kind c = "t1" -> sanitizeText (d_body d) <> "" ->
          matchesKeyword (sanitizeText (d_body d)) keyword = true ->
          processComment P subreddit tf sinceEpoch keyword post g c w
          = (Ok (push_comment (commentRecordOf post d (t * 1000))
                   (commentSentimentOf P subreddit d (t * 1000)
                      (clock P (clock_reads w))) tf g),
             set_clock_reads (S (clock_reads w)) w)))
  /\ (forall aggs errs g' w',
         processSubreddit P subreddit tf sinceEpoch keyword aggs errs w
         = (Ok g', w') ->
         windowed sinceEpoch g').
Proof.
  intros Hd Ht. split; [| split].
  - intros Hlt. split.
    + apply processPost_skipped. eapply out_of_window_post; eassumption.
    + apply processComment_skipped. eapply out_of_window_comment; eassumption.
  - intros Hle Hvalid. split.
    + intros Hkind Hs Hr Hm.
      apply processPost_kept_outcome; try assumption.
      unfold keepsPost, inWindow. rewrite Hd, Ht, Hkind, Hs, Hr, Hm.
      replace (sinceEpoch <=? t) with true by lia. reflexivity.
    + intros Hkind Hbody Hm.
      apply processComment_kept_valid; try assumption.
      unfold keepsComment, inWindow. rewrite Hd, Ht, Hkind, Hm.
      apply truthy_true in Hbody. rewrite Hbody.
      replace (sinceEpoch <=? t) with true by lia. reflexivity.
  - intros aggs errs g' w'. apply processSubreddit_windowed.
Qed.

(** One second before the cutoff: discarded. *)
Lemma window_exclusion_witness :
  processPost (Demo.platform Demo.batch) Demo.codex "7d" (Demo.t0 + 1) None 0
    (no_drafts ∅ []) (Demo.post "p1" "good news" Demo.t0) Demo.world
  = (Ok (no_drafts ∅ []), Demo.world)
  /\ processComment (Demo.platform Demo.batch) Demo.codex "7d" (Demo.t0 + 1)
       None
       {| d_id := "p1"; d_title := Some "good news"; d_selftext := Some "";
          d_body := None; d_author := Some "alice";
          d_created_utc := Some Demo.t0; d_score := Some 1;
          d_num_comments := Some 0; d_permalink := Some "/r/codex/x";
          d_stickied := false; d_removed_by_category := false |}
       (no_drafts ∅ []) (Demo.post "p1" "good news" Demo.t0) Demo.world
     = (Ok (no_drafts ∅ []), Demo.world).
Proof.
  pose proof (window_exclusion (Demo.platform Demo.batch) Demo.codex "7d"
                (Demo.t0 + 1) None 0
                {| d_id := "p1"; d_title := Some "good news";
                   d_selftext := Some ""; d_body := None;
                   d_author := Some "alice"; d_created_utc := Some Demo.t0;
                   d_score := Some 1; d_num_comments := Some 0;
                   d_permalink := Some "/r/codex/x"; d_stickied := false;
                   d_removed_by_category := false |}
                (no_drafts ∅ []) (Demo.post "p1" "good news" Demo.t0)
                Demo.world _ Demo.t0 eq_refl eq_refl) as (Hbefore & _).
  apply Hbefore. reflexivity.
Defined.

(** ** What the pipeline leaves alone

    Fetching and scoring never write to the store, and the flush never
    touches the table of refresh jobs. *)

Section Frame_rules.

Context {X : Type} (f : DB -> X).

Lemma keeps_ret {A} (a : A) : keeps f (ret a).
Proof. intros w. reflexivity. Qed.

Lemma keeps_throw {A} (e : string) : keeps f (@throw A e).
Proof. intros w. reflexivity. Qed.

Lemma keeps_bind {A B} (m : M A) (k : A -> M B) :
  keeps f m -> (forall a, keeps f (k a)) -> keeps f (bind m k).
Proof.
  intros Hm Hk w. unfold bind. specialize (Hm w).
  destruct (m w) as [[a | e] w1]; simpl in *.
  - rewrite <- Hm. apply Hk.
  - exact Hm.
Qed.

Lemma keeps_try_catch {A} (m : M A) (h : string -> M A) :
  keeps f m -> (forall e, keeps f (h e)) -> keeps f (try_catch m h).
Proof.
  intros Hm Hh w. unfold try_catch. specialize (Hm w).
  destruct (m w) as [[a | e] w1]; simpl in *.
  - exact Hm.
  - rewrite <- Hm. apply Hh.
Qed.

Lemma keeps_for_of {A St} (xs : list A) (body : St -> A -> M St) (s : St) :
  (forall s x, keeps f (body s x)) -> keeps f (for_of xs body s).
Proof.
  intros Hbody. revert s. induction xs as [| x xs IH]; intros s; simpl.
  - apply keeps_ret.
  - apply keeps_bind; [apply Hbody | intros s'; apply IH].
Qed.

Context (P : Platform).

Lemma keeps_now : keeps f (now P).
Proof. intros w. reflexivity. Qed.

Lemma keeps_delay (ms : Z) : keeps f (delay ms).
Proof. intros w. reflexivity. Qed.

Lemma keeps_put_token (v : string) : keeps f (put_token v).
Proof. intros w. reflexivity. Qed.

Lemma keeps_fetch_get (url : string) : keeps f (fetch_get P url).
Proof. intros w. unfold fetch_get. destruct (reddit_get _ _ _ _); reflexivity. Qed.

Lemma keeps_store {A} (statement : DB -> A * DB) :
  (forall d, f (statement d).2 = f d) -> keeps f (store P statement).
Proof.
  intros Hf w. unfold store. destruct (store_fault _ _); [reflexivity |].
  specialize (Hf (db w)). destruct (statement (db w)); exact Hf.
Qed.

Lemma keeps_expect {A} (context : string) (answer : string + A) :
  keeps f (expect context answer).
Proof. destruct answer; intros w; reflexivity. Qed.

Lemma keeps_when_nonempty {A} (xs : list A) (context : string)
    (statement : DB -> DB) :
  (forall d, f (statement d) = f d) ->
  keeps f (when_nonempty P xs context statement).
Proof.
  intros Hf. unfold when_nonempty. destruct (nonempty xs).
  - apply keeps_bind; [| intros a; apply keeps_expect].
    apply keeps_store. exact Hf.
  - apply keeps_ret.
Qed.

Lemma keeps_fetchRedditAccessToken : keeps f (fetchRedditAccessToken P).
Proof.
  intros w. pose proof (fetchRedditAccessToken_frame P w) as H. simpl in H.
  rewrite H. reflexivity.
Qed.

Lemma keeps_fetchJson_at (n : nat) (url : string) (attempt : Z) :
  keeps f (fetchJson_at P n url attempt).
Proof.
  revert attempt. induction n as [| n IH]; intros attempt;
    rewrite fetchJson_at_unfold;
    (apply keeps_bind; [apply keeps_fetch_get | intros r]).
  - destruct (_ && _); [apply keeps_throw |].
    destruct (_ && _); [apply keeps_throw |].
    destruct (negb _); [apply keeps_throw |].
    destruct (json r); [apply keeps_ret | apply keeps_throw].
  - destruct (_ && _).
    { apply keeps_bind; [apply keeps_fetchRedditAccessToken |].
      intros t. apply keeps_bind; [apply keeps_put_token |].
      intros _. apply IH. }
    destruct (_ && _).
    { apply keeps_bind; [apply keeps_delay | intros _; apply IH]. }
    destruct (negb _); [apply keeps_throw |].
    destruct (json r); [apply keeps_ret | apply keeps_throw].
Qed.

End Frame_rules.

Create HintDb frame discriminated.

#[local] Hint Resolve keeps_ret keeps_throw keeps_now keeps_delay
  keeps_put_token keeps_fetch_get keeps_expect keeps_fetchRedditAccessToken
  keeps_fetchJson_at : frame.

(** Splits a computation along its binds, branches and loops, leaving the
    statements sent to the store. *)
Ltac frame_step :=
  match goal with
  | |- keeps _ (bind _ _) => apply keeps_bind; [| intros ?]
  | |- keeps _ (try_catch _ _) => apply keeps_try_catch; [| intros ?]
  | |- keeps _ (for_of _ _ _) => apply keeps_for_of; intros ? ?
  | |- keeps _ (when_nonempty _ _ _ _) => apply keeps_when_nonempty; intros ?
  | |- keeps _ (store _ _) => apply keeps_store; intros ?
  | |- keeps _ (store_ _ _) => apply keeps_store; intros ?
  | |- keeps _ (if ?c then _ else _) => destruct c
  | |- keeps _ (match ?x with _ => _ end) => destruct x
  | |- keeps _ _ => solve [auto with frame]
  end.

Section Frame_pipeline.

Context {X : Type} (f : DB -> X) (P : Platform).

Lemma keeps_processComment sub tf since kw post g c :
  keeps f (processComment P sub tf since kw post g c).
Proof. unfold processComment, isoOfSeconds. repeat frame_step. Qed.

Lemma keeps_commentPass sub tf since kw d g :
  keeps f (commentPass P sub tf since kw d g).
Proof.
  unfold commentPass, fetchJson. repeat frame_step.
  apply keeps_processComment.
Qed.

Lemma keeps_processPost sub tf since kw nowIso g c :
  keeps f (processPost P sub tf since kw nowIso g c).
Proof.
  unfold processPost, isoOfSeconds, scorePost. repeat frame_step;
    apply keeps_commentPass.
Qed.

Lemma keeps_processSubreddit sub tf since kw aggs errs :
  keeps f (processSubreddit P sub tf since kw aggs errs).
Proof.
  unfold processSubreddit, fetchJson. repeat frame_step.
  apply keeps_processPost.
Qed.

(** Gathering leaves the whole store alone. *)
Lemma keeps_gather subs tf since kw : keeps f (gather P subs tf since kw).
Proof.
  unfold gather. repeat frame_step. apply keeps_processSubreddit.
Qed.

End Frame_pipeline.

Section Frame_jobs.

Context (P : Platform).

Lemma keeps_jobs_flush tf g : keeps refresh_jobs (flush P tf g).
Proof. unfold flush. repeat frame_step; reflexivity. Qed.

Lemma keeps_jobs_processRefresh tf kw :
  keeps refresh_jobs (processRefresh P tf kw).
Proof.
  unfold processRefresh. repeat frame_step;
    first [apply keeps_gather | apply keeps_jobs_flush | reflexivity].
Qed.

End Frame_jobs.

(** ** JobLifecycle *)

Section Lifecycle_facts.

Context (P : Platform).

Lemma updateJob_run (id : nat) (patch : JobPatch) (w : World) :
  updateJob P id patch w
  = (Ok tt,
     match store_fault P (store_ops w) with
     | Some e =>
         set_console
           (("Failed to update refresh job " +:+ pretty id +:+ " " +:+ e)
            :: console w)
           (set_store_ops (S (store_ops w)) w)
     | None =>
         set_db (Sql.update_job id patch (db w))
           (set_store_ops (S (store_ops w)) w)
     end).
Proof.
  unfold updateJob, store_, store, bind.
  destruct (store_fault P (store_ops w)); reflexivity.
Qed.

Lemma update_job_has (id id' : nat) (patch : JobPatch) (d : DB) :
  has_job id d -> has_job id (Sql.update_job id' patch d).
Proof.
  intros (row & Hin & Hid). unfold Sql.update_job. simpl.
  exists (if Nat.eqb (job_id row) id' then Sql.patch_job patch row else row).
  split.
  - apply list_elem_of_In, in_map_iff. exists row.
    split; [reflexivity | now apply list_elem_of_In].
  - destruct (Nat.eqb (job_id row) id'); exact Hid.
Qed.

Lemma update_job_patched (id : nat) (patch : JobPatch) (d : DB) (row : JobRow) :
  row ∈ refresh_jobs (Sql.update_job id patch d) -> job_id row = id ->
  exists r, r ∈ refresh_jobs d /\ row = Sql.patch_job patch r.
Proof.
  unfold Sql.update_job. simpl. intros Hin Hid.
  apply list_elem_of_In, in_map_iff in Hin as (r & Hr & Hin).
  exists r. split; [now apply list_elem_of_In |].
  destruct (Nat.eqb_spec (job_id r) id) as [_ | Hne]; [now subst row |].
  subst row. contradiction.
Qed.

Lemma updateJob_has (id id' : nat) (patch : JobPatch) (w : World) :
  has_job id (db w) -> has_job id (db (updateJob P id' patch w).2).
Proof.
  intros H. rewrite updateJob_run. simpl.
  destruct (store_fault P (store_ops w)); simpl; [exact H |].
  now apply update_job_has.
Qed.

Lemma insert_job_has (tf : string) (kw : option string) (src st : string)
    (d : DB) :
  has_job (next_id d) (Sql.insert_job tf kw src st d).2.
Proof.
  unfold Sql.insert_job, has_job. simpl.
  eexists. split; [apply elem_of_app; right; apply list_elem_of_singleton;
                   reflexivity | reflexivity].
Qed.

(** Without the client credentials no token request is even sent. *)
Lemma fetchRedditAccessToken_unconfigured (w : World) :
  Js.truthy_opt (REDDIT_CLIENT_ID P) && Js.truthy_opt (REDDIT_CLIENT_SECRET P)
  = false ->
  fetchRedditAccessToken P w
  = (Throw "Reddit client credentials are not configured.", w).
Proof.
  intros Hcreds.
  assert (Hreq : forall g v,
             requestRedditAccessToken P g v
             = (Throw "Reddit client credentials are not configured.", v)).
  { intros g v. unfold requestRedditAccessToken.
    replace (negb (Js.truthy_opt (REDDIT_CLIENT_ID P))
             || negb (Js.truthy_opt (REDDIT_CLIENT_SECRET P))) with true;
      [reflexivity |].
    destruct (Js.truthy_opt (REDDIT_CLIENT_ID P));
      destruct (Js.truthy_opt (REDDIT_CLIENT_SECRET P)); simpl in *; congruence. }
  unfold fetchRedditAccessToken.
  destruct (Js.truthy_opt (REDDIT_USERNAME P)
            && Js.truthy_opt (REDDIT_PASSWORD P)); [| apply Hreq].
  unfold try_catch. rewrite Hreq.
  change (Js.includes "Reddit client credentials are not configured."
            "unauthorized_client") with false.
  reflexivity.
Qed.

Lemma store_ok {A} (f : DB -> A * DB) (w : World) :
  store_fault P (store_ops w) = None ->
  store P f w
  = (Ok (inr (f (db w)).1),
     set_db (f (db w)).2 (set_store_ops (S (store_ops w)) w)).
Proof. intros H. unfold store. rewrite H. destruct (f (db w)); reflexivity. Qed.

Lemma store_failed {A} (f : DB -> A * DB) (w : World) (e : string) :
  store_fault P (store_ops w) = Some e ->
  store P f w = (Ok (inl e), set_store_ops (S (store_ops w)) w).
Proof. intros H. unfold store. now rewrite H. Qed.

Lemma fail_run_run (start : Instant) (id : nat) (e : string) (w : World) :
  fail_run P start (Some id) e w
  = (Ok {| code := 500; content := Failed e (Some id) |},
     (updateJob P id
        (failed (clock P (clock_reads w)) (clock P (clock_reads w) - start) e)
        (set_clock_reads (S (clock_reads w)) w)).2).
Proof.
  unfold fail_run, bind at 1, now. unfold bind. rewrite updateJob_run. reflexivity.
Qed.

Lemma updateJob_store_ops (id : nat) (patch : JobPatch) (w : World) :
  store_ops (updateJob P id patch w).2 = S (store_ops w).
Proof.
  rewrite updateJob_run. simpl. destruct (store_fault P (store_ops w)); reflexivity.
Qed.

Lemma run_job_unconfigured (start : Instant) (id : nat) (tf : string)
    (kw : option string) (w : World) :
  Js.truthy_opt (REDDIT_CLIENT_ID P) && Js.truthy_opt (REDDIT_CLIENT_SECRET P)
  = false ->
  run_job P start id tf kw w
  = (Throw "Reddit client credentials are not configured.",
     (updateJob P id (processing start) w).2).
Proof.
  intros Hcreds. unfold run_job.
  destruct (total_updateJob P id (processing start) w) as ([] & w1 & Hw1).
  rewrite (bind_step _ _ _ _ _ Hw1), Hw1.
  apply bind_fail. now apply fetchRedditAccessToken_unconfigured.
Qed.

End Lifecycle_facts.

(** C4, as amended. An unsupported timeframe is rejected with a 400 before
    anything is touched: no job row is created. So is a missing store
    credential, with a 500. Missing Reddit client credentials are not found
    at validation time: they surface when the token is requested, after the
    job row has been inserted; the run then answers 500 and the row of this
    invocation exists, marked failed with the error when that last update
    reaches the store. *)
Theorem configuration_errors (P : Platform) (payload : RefreshPayload)
    (w : World) :
  (TIMEFRAME_CONFIG (default "7d" (p_timeframe payload)) = None ->
   serve P {| method := "POST"; body := Some payload |} w
   = (Ok {| code := 400;
            content := Rejected "Unsupported timeframe." ["24h"; "7d"; "30d"] |},
      w))
  /\ (forall message,
         is_Some (TIMEFRAME_CONFIG (default "7d" (p_timeframe payload))) ->
         createServiceClient P = inl message ->
         serve P {| method := "POST"; body := Some payload |} w
         = (Ok {| code := 500; content := ErrorOnly message |}, w))
  /\ (is_Some (TIMEFRAME_CONFIG (default "7d" (p_timeframe payload))) ->
      createServiceClient P = inr tt ->
      store_fault P (store_ops w) = None ->
      Js.truthy_opt (REDDIT_CLIENT_ID P)
      && Js.truthy_opt (REDDIT_CLIENT_SECRET P) = false ->
      exists w',
        serve P {| method := "POST"; body := Some payload |} w
        = (Ok {| code := 500;
                 content :=
                   Failed "Reddit client credentials are not configured."
                     (Some (next_id (db w))) |}, w')
        /\ has_job (next_id (db w)) (db w')
        /\ (store_fault P (S (S (store_ops w))) = None ->
            forall row,
              row ∈ refresh_jobs (db w') -> job_id row = next_id (db w) ->
              job_status row = "failed"
              /\ job_error row
                 = Some "Reddit client credentials are not configured.")).
Proof.
  split; [| split].
  - intros Htf. unfold serve. cbn [method body]. rewrite Htf. reflexivity.
  - intros message [hours Htf] Hclient. unfold serve. cbn [method body].
    rewrite Htf, Hclient. reflexivity.
  - intros [hours Htf] Hclient Hins Hcreds. unfold serve. cbn [method body].
    rewrite Htf, Hclient.
    cbn [String.eqb Ascii.eqb Bool.eqb negb bool_decide decide_rel].
    replace (negb (bool_decide (is_Some (Some hours)))) with false
      by (symmetry; apply negb_false_iff, bool_decide_eq_true; eauto).
    erewrite bind_step by reflexivity.
    erewrite bind_step by (apply store_ok; exact Hins).
    cbn [fst snd db set_clock_reads Sql.insert_job].
    erewrite try_catch_Throw by (apply run_job_unconfigured; exact Hcreds).
    rewrite fail_run_run. eexists. split; [reflexivity |].
    split.
    + apply updateJob_has. cbn [db set_clock_reads]. apply updateJob_has.
      apply (insert_job_has (default "7d" (p_timeframe payload))
               (normalizeKeyword (p_keyword payload)) "edge_function" "queued"
               (db w)).
    + intros Hlast row Hin Hid. rewrite updateJob_run in Hin.
      cbn [store_ops set_clock_reads snd] in Hin.
      rewrite updateJob_store_ops in Hin.
      cbn [store_ops set_db set_store_ops set_clock_reads] in Hin.
      rewrite Hlast in Hin. cbn [db set_db] in Hin.
      apply update_job_patched in Hin as (r & _ & ->); [| exact Hid].
      split; reflexivity.
Qed.

(** A timeframe outside the three supported ones is turned down and the
    world is left as it was. *)
Lemma configuration_errors_witness :
  serve Demo.without_reddit_credentials (Demo.request (Some "1y") None)
    Demo.world
  = (Ok {| code := 400;
           content := Rejected "Unsupported timeframe." ["24h"; "7d"; "30d"] |},
     Demo.world).
Proof.
  pose proof (configuration_errors Demo.without_reddit_credentials
                {| p_timeframe := Some "1y"; p_keyword := None |} Demo.world)
    as (Hbad & _).
  exact (Hbad eq_refl).
Defined.

(** C4, as stated, fails: with a supported timeframe and no Reddit client
    credentials the run fails, and a job row of this invocation exists. *)
Lemma missing_reddit_credentials_leave_a_job_row :
  (serve Demo.without_reddit_credentials (Demo.request (Some "7d") None)
     Demo.world).1
  = Ok {| code := 500;
          content :=
            Failed "Reddit client credentials are not configured." (Some 0%nat) |}
  /\ refresh_jobs Demo.empty_db = []
  /\ map (fun row => (job_id row, job_status row, job_error row))
       (refresh_jobs
          (db (serve Demo.without_reddit_credentials
                 (Demo.request (Some "7d") None) Demo.world).2))
     = [(0%nat, "failed",
         Some "Reddit client credentials are not configured.")].
Proof. vm_compute. repeat split. Qed.

Section Terminal_status.

Context (P : Platform).

(** What a completed [try] block has done: the summary it answers, and the
    job table, which nothing between the two updates touches. *)
Lemma run_job_completed (start : Instant) (id : nat) (tf : string)
    (kw : option string) (w w' : World) (reply : Reply) :
  run_job P start id tf kw w = (Ok reply, w') ->
  exists result finishedAt w3,
    reply = {| code := 200;
               content :=
                 Summary id
                   (if nonempty (errors result)
                    then "completed_with_warnings" else "completed")
                   tf kw result (finishedAt - start) |}
    /\ w' = (updateJob P id (completed finishedAt (finishedAt - start) result)
               w3).2
    /\ refresh_jobs (db w3)
       = refresh_jobs (db (updateJob P id (processing start) w).2).
Proof.
  unfold run_job. intros H.
  apply bind_Ok in H as ([] & w1 & Hup & H).
  apply bind_Ok in H as (value & w2 & Htok & H).
  apply bind_Ok in H as ([] & w2' & Hput & H).
  apply bind_Ok in H as (result & w3 & Hrun & H).
  apply bind_Ok in H as (finishedAt & w4 & Hnow & H).
  apply bind_Ok in H as ([] & w5 & Hlast & H).
  injection H as <- <-.
  exists result, finishedAt, w4. split; [reflexivity |].
  split; [now rewrite Hlast |].
  pose proof (keeps_now refresh_jobs P w3) as K4. rewrite Hnow in K4.
  pose proof (keeps_jobs_processRefresh P tf kw w2') as K3. rewrite Hrun in K3.
  pose proof (keeps_put_token refresh_jobs value w2) as K2. rewrite Hput in K2.
  pose proof (keeps_fetchRedditAccessToken refresh_jobs P w1) as K1.
  rewrite Htok in K1.
  rewrite Hup. simpl in *. congruence.
Qed.

(** C1, as amended. A run that completes answers the caller with status
    completed_with_warnings when a warning was recorded and completed
    otherwise. The job row of the run exists and, when the final update
    reaches the store, its status is completed in both cases: the warnings
    are joined into its error field, which is null when there are none. *)
Theorem terminal_status (req : Request) (w w' : World) (jobId : nat)
    (status tf : string) (kw : option string) (result : ProcessResult)
    (duration : Z) :
  serve P req w
  = (Ok {| code := 200;
           content := Summary jobId status tf kw result duration |}, w') ->
  status = (if nonempty (errors result)
            then "completed_with_warnings" else "completed")
  /\ has_job jobId (db w')
  /\ (store_fault P (Nat.pred (store_ops w')) = None ->
      forall row,
        row ∈ refresh_jobs (db w') -> job_id row = jobId ->
        job_status row = "completed"
        /\ job_error row
           = (if nonempty (errors result)
              then Some (Js.join " | " (errors result)) else None)).
Proof.
  unfold serve. intros H.
  destruct (negb (String.eqb (method req) "POST")); [discriminate |].
  destruct (body req) as [payload |]; [| discriminate].
  destruct (negb _); [discriminate |].
  destruct (createServiceClient P); [discriminate |].
  apply bind_Ok in H as (start & w1 & Hnow & H).
  apply bind_Ok in H as (ins & w2 & Hins & H).
  destruct (store_fault P (store_ops w1)) as [e |] eqn:Hfault.
  { rewrite (store_failed P _ w1 e Hfault) in Hins. injection Hins as <- <-.
    destruct (fail_run_answers P start None e (set_store_ops (S (store_ops w1)) w1))
      as (w3 & Hfail).
    rewrite Hfail in H. discriminate. }
  rewrite (store_ok P _ w1 Hfault) in Hins. injection Hins as <- <-.
  set (tf0 := default "7d" (p_timeframe payload)) in *.
  set (kw0 := normalizeKeyword (p_keyword payload)) in *.
  cbn [fst snd Sql.insert_job] in H.
  set (id := next_id (db w1)) in *.
  set (w2 := set_db _ _) in *.
  assert (Hhas2 : has_job id (db w2))
    by apply (insert_job_has tf0 kw0 "edge_function" "queued" (db w1)).
  unfold try_catch in H.
  destruct (run_job P start id tf0 kw0 w2) as [[reply | e] w3] eqn:Hrun.
  2:{ destruct (fail_run_answers P start (Some id) e w3) as (w4 & Hfail).
      rewrite Hfail in H. discriminate. }
  apply run_job_completed in Hrun as (res & fin & w4 & -> & -> & Hjobs).
  injection H as <- <- <- <- <- <- Hw'.
  split; [reflexivity |].
  assert (Hhas4 : has_job id (db w4)).
  { destruct (updateJob_has P id id (processing start) w2 Hhas2)
      as (row & Hin & Hid).
    exists row. split; [now rewrite Hjobs | exact Hid]. }
  split.
  - rewrite <- Hw'. now apply updateJob_has.
  - intros Hlast row Hin Hid. rewrite <- Hw' in Hin, Hlast.
    rewrite updateJob_store_ops in Hlast. simpl in Hlast.
    rewrite updateJob_run, Hlast in Hin. cbn [snd db set_db] in Hin.
    apply update_job_patched in Hin as (r & _ & ->); [| exact Hid].
    split; reflexivity.
Qed.

End Terminal_status.

(** The listing of the only subreddit cannot be fetched: the run completes
    with one warning. *)
Lemma terminal_status_witness :
  has_job 0 (db (serve (Demo.platform Demo.listing_down)
                   (Demo.request (Some "7d") None) Demo.world).2).
Proof.
  set (run := serve (Demo.platform Demo.listing_down)
                (Demo.request (Some "7d") None) Demo.world).
  refine (proj1 (proj2
            (terminal_status (Demo.platform Demo.listing_down)
               (Demo.request (Some "7d") None) Demo.world run.2 0%nat
               "completed_with_warnings" "7d" None
               {| postsProcessed := 0; commentsProcessed := 0;
                  sentimentsInserted := 0; aggregatesUpserted := 0;
                  errors :=
                    ["[codex] Failed to fetch posts: Reddit request failed (500): https://oauth.reddit.com/r/codex/new?limit=20&raw_json=1 :: down"] |}
               2 _))).
  vm_compute. reflexivity.
Defined.

(** C1, as stated, fails: in the three-post batch one comment fetch is
    lost and the persistence succeeds; the caller is told
    completed_with_warnings, but the status recorded on the job row is
    completed, with the warning in its error field. *)
Lemma recorded_status_is_completed :
  (exists jobId tf kw result duration,
      (serve (Demo.platform Demo.batch) (Demo.request (Some "7d") None)
         Demo.world).1
      = Ok {| code := 200;
              content :=
                Summary jobId "completed_with_warnings" tf kw result duration |}
      /\ length (errors result) = 1%nat
      /\ sentimentsInserted result = 5)
  /\ map (fun row => (job_status row, job_error row))
       (refresh_jobs
          (db (serve (Demo.platform Demo.batch)
                 (Demo.request (Some "7d") None) Demo.world).2))
     = [("completed",
         Some "[codex] Failed to fetch comments for p2: Reddit request failed (500): https://oauth.reddit.com/comments/p2?depth=1&limit=10&raw_json=1 :: boom")]
  /\ console (serve (Demo.platform Demo.batch)
                (Demo.request (Some "7d") None) Demo.world).2 = [].
Proof.
  split; [| split; vm_compute; reflexivity].
  vm_compute. do 5 eexists. repeat split.
Qed.

(** ** The store: keyed tables *)

Section Tables.

Context {C : Type} (key : C -> string).

Lemma upsert_row_known (c : C) (fresh : nat) (rows : list (Stored C)) :
  key c ∈ (Sql.keys key rows).*1 ->
  Sql.keys key (Sql.upsert_row key c fresh rows).1 = Sql.keys key rows
  /\ (Sql.upsert_row key c fresh rows).2 = fresh.
Proof.
  induction rows as [| r rows IH]; simpl; intros Hin.
  - apply elem_of_nil in Hin. contradiction.
  - destruct (String.eqb_spec (key (cols r)) (key c)) as [Heq | Hne]; simpl.
    + rewrite Heq. split; reflexivity.
    + apply elem_of_cons in Hin as [Hin | Hin]; [congruence |].
      destruct (IH Hin) as [Hk Hf].
      destruct (Sql.upsert_row key c fresh rows) as [rs fresh']; simpl in *.
      split; congruence.
Qed.

Lemma upsert_row_covers (c : C) (fresh : nat) (rows : list (Stored C))
    (k : string) :
  k ∈ (Sql.keys key (Sql.upsert_row key c fresh rows).1).*1
  <-> k = key c \/ k ∈ (Sql.keys key rows).*1.
Proof.
  induction rows as [| r rows IH]; simpl.
  - rewrite list_elem_of_singleton, elem_of_nil. tauto.
  - destruct (String.eqb_spec (key (cols r)) (key c)) as [Heq | Hne]; simpl.
    + rewrite !elem_of_cons, Heq. tauto.
    + destruct (Sql.upsert_row key c fresh rows) as [rs fresh']; simpl in *.
      rewrite !elem_of_cons, IH. tauto.
Qed.

Lemma upsert_rows_known (batch : list C) (rows : list (Stored C))
    (fresh : nat) :
  (forall c, c ∈ batch -> key c ∈ (Sql.keys key rows).*1) ->
  Sql.keys key (Sql.upsert_rows key batch (rows, fresh)).1 = Sql.keys key rows
  /\ (Sql.upsert_rows key batch (rows, fresh)).2 = fresh.
Proof.
  unfold Sql.upsert_rows. revert rows.
  induction batch as [| c batch IH]; intros rows Hall; simpl.
  - split; reflexivity.
  - destruct (upsert_row_known c fresh rows) as [Hk Hf].
    { apply Hall. left. }
    destruct (Sql.upsert_row key c fresh rows) as [rs fresh'] eqn:Hrow.
    simpl in *. subst fresh'.
    destruct (IH rs) as [Hk' Hf'].
    { intros c' Hc'. rewrite Hk. apply Hall. now right. }
    split; congruence.
Qed.

Lemma upsert_rows_covers (batch : list C) (rows : list (Stored C))
    (fresh : nat) (k : string) :
  k ∈ (Sql.keys key (Sql.upsert_rows key batch (rows, fresh)).1).*1
  <-> k ∈ map key batch \/ k ∈ (Sql.keys key rows).*1.
Proof.
  unfold Sql.upsert_rows. revert rows fresh.
  induction batch as [| c batch IH]; intros rows fresh; simpl.
  - rewrite elem_of_nil. tauto.
  - pose proof (upsert_row_covers c fresh rows k) as Hrow.
    destruct (Sql.upsert_row key c fresh rows) as [rs fresh']; simpl in *.
    rewrite IH, Hrow, elem_of_cons. tauto.
Qed.

End Tables.

(** ** The flush, statement by statement *)

Section Flush_facts.

Context (P : Platform).

Lemma when_nonempty_Ok {A} (xs : list A) (context : string)
    (statement : DB -> DB) (w w' : World) (u : unit) :
  when_nonempty P xs context statement w = (Ok u, w') ->
  db w' = if nonempty xs then statement (db w) else db w.
Proof.
  unfold when_nonempty. destruct (nonempty xs).
  - intros H. apply bind_Ok in H as (answer & w1 & Hstore & Hexp).
    unfold store_, store in Hstore.
    destruct (store_fault P (store_ops w)).
    + injection Hstore as <- <-. discriminate.
    + injection Hstore as <- <-. now injection Hexp as _ <-.
  - now intros [= _ <-].
Qed.

Lemma store_query_Ok {A} (query : DB -> A) (context : string)
    (w w1 w2 : World) (answer : string + A) (a : A) :
  store P (fun d => (query d, d)) w = (Ok answer, w1) ->
  expect context answer w1 = (Ok a, w2) ->
  a = query (db w) /\ db w2 = db w.
Proof.
  unfold store. destruct (store_fault P (store_ops w)).
  - intros [= <- <-]. discriminate.
  - intros [= <- <-] [= <- <-]. split; reflexivity.
Qed.

Lemma store_statement_Ok (statement : DB -> DB) (context : string)
    (w w1 w2 : World) (answer : string + unit) (u : unit) :
  store_ P statement w = (Ok answer, w1) ->
  expect context answer w1 = (Ok u, w2) ->
  db w2 = statement (db w).
Proof.
  unfold store_, store. destruct (store_fault P (store_ops w)).
  - intros [= <- <-]. discriminate.
  - intros [= <- <-] [= _ <-]. reflexivity.
Qed.

(** A flush that completes leaves the store as [Flushed.final] says and
    reports the numbers of rows it wrote. *)
Lemma flush_Ok (tf : string) (g : Gathered) (w w' : World)
    (r : ProcessResult) :
  flush P tf g w = (Ok r, w') ->
  db w' = Flushed.final tf g (db w)
  /\ r = {| postsProcessed := Z.of_nat (length (postRecords g));
            commentsProcessed :=
              Z.of_nat (length (Flushed.commentRows g (db w)));
            sentimentsInserted :=
              Z.of_nat (length (Flushed.postSentimentRows g (db w)))
              + Z.of_nat (length (Flushed.commentSentimentRows g (db w)));
            aggregatesUpserted := Z.of_nat (length (Flushed.aggregateRows g));
            errors := warnings g |}.
Proof.
  unfold flush. intros H.
  apply bind_Ok in H as (u1 & w1 & H1 & H). apply when_nonempty_Ok in H1.
  apply bind_Ok in H as (a2 & w2 & H2 & H).
  apply bind_Ok in H as (storedPosts & w3 & H3 & H).
  destruct (store_query_Ok _ _ _ _ _ _ _ H2 H3) as [-> Hdb3].
  fold (Flushed.with_posts g (db w)) in H1. rewrite H1 in *.
  fold (Flushed.postIdMap g (db w)) in H.
  fold (Flushed.commentRows g (db w)) in H.
  apply bind_Ok in H as (u4 & w4 & H4 & H). apply when_nonempty_Ok in H4.
  rewrite Hdb3 in H4. fold (Flushed.with_comments g (db w)) in H4.
  apply bind_Ok in H as (a5 & w5 & H5 & H).
  apply bind_Ok in H as (storedComments & w6 & H6 & H).
  destruct (store_query_Ok _ _ _ _ _ _ _ H5 H6) as [-> Hdb6].
  rewrite H4 in *.
  fold (Flushed.commentIdMap g (db w)) in H.
  fold (Flushed.postSentimentRows g (db w)) in H.
  fold (Flushed.commentSentimentRows g (db w)) in H.
  fold (Flushed.postIdsForCleanup g (db w)) in H.
  fold (Flushed.commentIdsForCleanup g (db w)) in H.
  apply bind_Ok in H as (u7 & w7 & H7 & H). apply when_nonempty_Ok in H7.
  rewrite Hdb6 in H7. fold (Flushed.cleaned_posts g (db w)) in H7.
  apply bind_Ok in H as (u8 & w8 & H8 & H). apply when_nonempty_Ok in H8.
  rewrite H7 in H8. fold (Flushed.cleaned g (db w)) in H8.
  apply bind_Ok in H as (u9 & w9 & H9 & H). apply when_nonempty_Ok in H9.
  rewrite H8 in H9. fold (Flushed.scored_posts g (db w)) in H9.
  apply bind_Ok in H as (u10 & w10 & H10 & H). apply when_nonempty_Ok in H10.
  rewrite H9 in H10. fold (Flushed.scored g (db w)) in H10.
  fold (Flushed.aggregateRows g) in H.
  apply bind_Ok in H as (u11 & w11 & H11 & H).
  injection H as <- <-.
  split; [| reflexivity].
  unfold Flushed.final. destruct (nonempty (Flushed.aggregateRows g)).
  - apply bind_Ok in H11 as (a12 & w12 & H12 & H11).
    apply bind_Ok in H11 as (u13 & w13 & H13 & H11).
    apply bind_Ok in H11 as (a14 & w14 & H14 & H11).
    rewrite (store_statement_Ok _ _ _ _ _ _ _ H14 H11).
    rewrite (store_statement_Ok _ _ _ _ _ _ _ H12 H13).
    now rewrite H10.
  - injection H11 as _ <-. exact H10.
Qed.

End Flush_facts.

(** ** Flushing twice *)

Lemma nonempty_false {A} (l : list A) : nonempty l = false -> l = [].
Proof. destruct l; [reflexivity | discriminate]. Qed.

Lemma uniq_elem_of {A} `{EqDecision A} (l seen : list A) (x : A) :
  x ∈ Js.uniq l seen <-> x ∈ l /\ x ∉ seen.
Proof.
  revert seen. induction l as [| y l IH]; intros seen; simpl.
  - rewrite elem_of_nil. tauto.
  - case_bool_decide as Hy.
    + rewrite IH, elem_of_cons. split; [tauto |].
      intros [[-> | H] Hx]; tauto.
    + rewrite !elem_of_cons, IH, elem_of_cons.
      destruct (decide (x = y)) as [-> | Hne]; tauto.
Qed.

Section Flush_tables.

Context (tf : string) (g : Gathered) (d : DB).

Lemma final_posts :
  posts (Flushed.final tf g d) = posts (Flushed.with_posts g d).
Proof.
  unfold Flushed.final, Flushed.scored, Flushed.scored_posts, Flushed.cleaned,
    Flushed.cleaned_posts, Flushed.with_comments.
  repeat match goal with |- context [if ?c then _ else _] => destruct c end;
    reflexivity.
Qed.

Lemma final_comments :
  comments (Flushed.final tf g d) = comments (Flushed.with_comments g d).
Proof.
  unfold Flushed.final, Flushed.scored, Flushed.scored_posts, Flushed.cleaned,
    Flushed.cleaned_posts.
  repeat match goal with |- context [if ?c then _ else _] => destruct c end;
    reflexivity.
Qed.

Lemma final_sentiments :
  sentiments (Flushed.final tf g d) = sentiments (Flushed.scored g d).
Proof.
  unfold Flushed.final. destruct (nonempty _); reflexivity.
Qed.

Lemma final_subreddits : subreddits (Flushed.final tf g d) = subreddits d.
Proof.
  unfold Flushed.final, Flushed.scored, Flushed.scored_posts, Flushed.cleaned,
    Flushed.cleaned_posts, Flushed.with_comments, Flushed.with_posts.
  repeat match goal with |- context [if ?c then _ else _] => destruct c end;
    reflexivity.
Qed.

Lemma with_posts_comments :
  comments (Flushed.with_posts g d) = comments d.
Proof. unfold Flushed.with_posts. destruct (nonempty _); reflexivity. Qed.

Lemma with_comments_sentiments :
  sentiments (Flushed.with_comments g d) = sentiments d.
Proof.
  unfold Flushed.with_comments, Flushed.with_posts.
  repeat match goal with |- context [if ?c then _ else _] => destruct c end;
    reflexivity.
Qed.

Lemma scored_daily :
  subreddit_sentiment_daily (Flushed.scored g d) = subreddit_sentiment_daily d.
Proof.
  unfold Flushed.scored, Flushed.scored_posts, Flushed.cleaned,
    Flushed.cleaned_posts, Flushed.with_comments, Flushed.with_posts.
  repeat match goal with |- context [if ?c then _ else _] => destruct c end;
    reflexivity.
Qed.

(** After the upsert every post of the batch is stored. *)
Lemma with_posts_covers (k : string) :
  k ∈ map pr_reddit_id (postRecords g) ->
  k ∈ (Sql.keys pr_reddit_id (posts (Flushed.with_posts g d))).*1.
Proof.
  intros Hk. unfold Flushed.with_posts.
  destruct (nonempty (postRecords g)) eqn:Hne.
  - unfold Sql.upsert_posts. simpl. apply upsert_rows_covers. now left.
  - apply nonempty_false in Hne. rewrite Hne in Hk.
    apply elem_of_nil in Hk. contradiction.
Qed.

(** Upserting posts that are all stored already changes no key and no
    identifier. *)
Lemma with_posts_known :
  (forall k, k ∈ map pr_reddit_id (postRecords g) ->
             k ∈ (Sql.keys pr_reddit_id (posts d)).*1) ->
  Sql.keys pr_reddit_id (posts (Flushed.with_posts g d))
  = Sql.keys pr_reddit_id (posts d).
Proof.
  intros Hall. unfold Flushed.with_posts.
  destruct (nonempty (postRecords g)); [| reflexivity].
  unfold Sql.upsert_posts. simpl. apply upsert_rows_known.
  intros c Hc. apply Hall. apply list_elem_of_fmap.
  exists c. split; [reflexivity | exact Hc].
Qed.

Lemma with_comments_covers (k : string) :
  k ∈ map cc_reddit_id (Flushed.commentRows g d) ->
  k ∈ (Sql.keys cc_reddit_id (comments (Flushed.with_comments g d))).*1.
Proof.
  intros Hk. unfold Flushed.with_comments.
  destruct (nonempty (Flushed.commentRows g d)) eqn:Hne.
  - unfold Sql.upsert_comments. simpl. apply upsert_rows_covers. now left.
  - apply nonempty_false in Hne. rewrite Hne in Hk.
    apply elem_of_nil in Hk. contradiction.
Qed.

Lemma with_comments_known :
  (forall k, k ∈ map cc_reddit_id (Flushed.commentRows g d) ->
             k ∈ (Sql.keys cc_reddit_id (comments d)).*1) ->
  Sql.keys cc_reddit_id (comments (Flushed.with_comments g d))
  = Sql.keys cc_reddit_id (comments d).
Proof.
  intros Hall. unfold Flushed.with_comments.
  destruct (nonempty (Flushed.commentRows g d)).
  - unfold Sql.upsert_comments. simpl. rewrite with_posts_comments.
    apply upsert_rows_known.
    intros c Hc. apply Hall. apply list_elem_of_fmap.
    exists c. split; [reflexivity | exact Hc].
  - now rewrite with_posts_comments.
Qed.

End Flush_tables.

Lemma filter_all {A} (f : A -> bool) (l : list A) :
  (forall x, In x l -> f x = true) -> List.filter f l = l.
Proof.
  induction l as [| x l IH]; intros H; simpl; [reflexivity |].
  rewrite (H x (or_introl eq_refl)), IH; [reflexivity |].
  intros y Hy. apply H. now right.
Qed.

Lemma filter_none {A} (f : A -> bool) (l : list A) :
  (forall x, In x l -> f x = false) -> List.filter f l = [].
Proof.
  induction l as [| x l IH]; intros H; simpl; [reflexivity |].
  rewrite (H x (or_introl eq_refl)). apply IH.
  intros y Hy. apply H. now right.
Qed.

Lemma filter_again {A} (f : A -> bool) (l : list A) :
  List.filter f (List.filter f l) = List.filter f l.
Proof. apply filter_all. intros x Hx. now apply List.filter_In in Hx. Qed.

Lemma in_ids_nil (o : option nat) : Sql.in_ids o [] = false.
Proof.
  destruct o; [| reflexivity]. unfold Sql.in_ids.
  apply bool_decide_eq_false, not_elem_of_nil.
Qed.

(** What the re-keying of the drafts depends on: the identifiers only. *)
Lemma commentRow_ids (m : gmap string nat) (l : list CommentRecordDraft) :
  map cc_reddit_id (omap (commentRow m) l)
  = omap (fun p => match m !! p.2 with Some _ => Some p.1 | None => None end)
      (map (fun r => (cr_reddit_id r, cr_post_reddit_id r)) l).
Proof.
  induction l as [| r l IH]; simpl; [reflexivity |].
  unfold commentRow at 1. destruct (m !! cr_post_reddit_id r); simpl;
    [f_equal |]; exact IH.
Qed.

Lemma postSentimentRow_ids (m : gmap string nat) (l : list PostSentimentDraft) :
  map s_post_id (omap (postSentimentRow m) l)
  = map Some (omap (fun k => m !! k) (map ps_reddit_id l))
  /\ Forall (fun r => s_comment_id r = None) (omap (postSentimentRow m) l).
Proof.
  induction l as [| r l [IH1 IH2]]; simpl; [split; [reflexivity | constructor] |].
  destruct (postSentimentRow m r) as [row |] eqn:E;
    unfold postSentimentRow in E; destruct (m !! ps_reddit_id r);
    try discriminate; simpl.
  - injection E as <-.
    split; [f_equal; exact IH1 | constructor; [reflexivity | exact IH2]].
  - split; [exact IH1 | exact IH2].
Qed.

Lemma commentSentimentRow_ids (m : gmap string nat)
    (l : list CommentSentimentDraft) :
  map s_comment_id (omap (commentSentimentRow m) l)
  = map Some (omap (fun k => m !! k) (map cs_reddit_id l))
  /\ Forall (fun r => s_post_id r = None) (omap (commentSentimentRow m) l).
Proof.
  induction l as [| r l [IH1 IH2]]; simpl; [split; [reflexivity | constructor] |].
  destruct (commentSentimentRow m r) as [row |] eqn:E;
    unfold commentSentimentRow in E; destruct (m !! cs_reddit_id r);
    try discriminate; simpl.
  - injection E as <-.
    split; [f_equal; exact IH1 | constructor; [reflexivity | exact IH2]].
  - split; [exact IH1 | exact IH2].
Qed.

Section Flush_sentiments.

Context (g : Gathered) (d : DB).

(** The sentiment table after the two deletes and the two inserts. *)
Lemma scored_sentiments :
  sentiments (Flushed.scored g d)
  = List.filter
      (fun r => negb (Sql.in_ids (s_comment_id r) (Flushed.commentIdsForCleanup g d)))
      (List.filter
         (fun r => negb (Sql.in_ids (s_post_id r) (Flushed.postIdsForCleanup g d)))
         (sentiments d))
    ++ Flushed.postSentimentRows g d ++ Flushed.commentSentimentRows g d.
Proof.
  assert (Hposts :
            sentiments (Flushed.cleaned_posts g d)
            = List.filter
                (fun r => negb (Sql.in_ids (s_post_id r)
                                  (Flushed.postIdsForCleanup g d)))
                (sentiments d)).
  { unfold Flushed.cleaned_posts.
    destruct (nonempty (Flushed.postIdsForCleanup g d)) eqn:Hne; simpl.
    - now rewrite with_comments_sentiments.
    - apply nonempty_false in Hne. rewrite Hne, with_comments_sentiments.
      symmetry. apply filter_all. intros r _. now rewrite in_ids_nil. }
  assert (Hcleaned :
            sentiments (Flushed.cleaned g d)
            = List.filter
                (fun r => negb (Sql.in_ids (s_comment_id r)
                                  (Flushed.commentIdsForCleanup g d)))
                (sentiments (Flushed.cleaned_posts g d))).
  { unfold Flushed.cleaned.
    destruct (nonempty (Flushed.commentIdsForCleanup g d)) eqn:Hne; simpl.
    - reflexivity.
    - apply nonempty_false in Hne. rewrite Hne.
      symmetry. apply filter_all. intros r _. now rewrite in_ids_nil. }
  assert (Hsp :
            sentiments (Flushed.scored_posts g d)
            = sentiments (Flushed.cleaned g d) ++ Flushed.postSentimentRows g d).
  { unfold Flushed.scored_posts.
    destruct (nonempty (Flushed.postSentimentRows g d)) eqn:Hne; simpl.
    - reflexivity.
    - apply nonempty_false in Hne. now rewrite Hne, app_nil_r. }
  unfold Flushed.scored.
  destruct (nonempty (Flushed.commentSentimentRows g d)) eqn:Hne; simpl.
  - now rewrite Hsp, Hcleaned, Hposts, <- app_assoc.
  - apply nonempty_false in Hne.
    now rewrite Hne, app_nil_r, Hsp, Hcleaned, Hposts.
Qed.

End Flush_sentiments.

Lemma omap_fmap_id {A B} (f : A -> option B) (l : list A) :
  omap f l = omap id (map f l).
Proof.
  induction l as [| x l IH]; simpl; [reflexivity |].
  destruct (f x); simpl; [f_equal |]; exact IH.
Qed.

Lemma postSentimentRow_shape (m : gmap string nat) (l : list PostSentimentDraft)
    (r : SentimentRow) :
  r ∈ omap (postSentimentRow m) l ->
  s_comment_id r = None
  /\ exists i, s_post_id r = Some i
               /\ i ∈ Js.uniq (omap s_post_id (omap (postSentimentRow m) l)) [].
Proof.
  intros Hr.
  pose proof Hr as Hshape.
  apply list_elem_of_omap in Hshape as (draft & _ & Hrow).
  unfold postSentimentRow in Hrow.
  destruct (m !! ps_reddit_id draft) as [i |]; [| discriminate].
  injection Hrow as <-. split; [reflexivity |].
  exists i. split; [reflexivity |].
  apply uniq_elem_of. split; [| apply not_elem_of_nil].
  apply list_elem_of_omap. eexists. split; [exact Hr | reflexivity].
Qed.

Lemma commentSentimentRow_shape (m : gmap string nat)
    (l : list CommentSentimentDraft) (r : SentimentRow) :
  r ∈ omap (commentSentimentRow m) l ->
  s_post_id r = None
  /\ exists i, s_comment_id r = Some i
               /\ i ∈ Js.uniq
                        (omap s_comment_id (omap (commentSentimentRow m) l)) [].
Proof.
  intros Hr.
  pose proof Hr as Hshape.
  apply list_elem_of_omap in Hshape as (draft & _ & Hrow).
  unfold commentSentimentRow in Hrow.
  destruct (m !! cs_reddit_id draft) as [i |]; [| discriminate].
  injection Hrow as <-. split; [reflexivity |].
  exists i. split; [reflexivity |].
  apply uniq_elem_of. split; [| apply not_elem_of_nil].
  apply list_elem_of_omap. eexists. split; [exact Hr | reflexivity].
Qed.

Section Twice.

Context (tf : string) (g g' : Gathered) (d0 d1' : DB).
Hypothesis Hsubj : same_subjects g g'.
Hypothesis Hdata : same_data (Flushed.final tf g d0) d1'.

(** The second run finds every post stored: it resolves the same
    identifiers. *)
Lemma postIdMap_again : Flushed.postIdMap g' d1' = Flushed.postIdMap g d0.
Proof.
  unfold Flushed.postIdMap, Sql.select_posts, Sql.select_keys.
  rewrite (ss_posts _ _ Hsubj). do 2 f_equal.
  rewrite with_posts_known.
  - now rewrite (sd_posts _ _ Hdata), final_posts.
  - intros k Hk. rewrite (sd_posts _ _ Hdata), final_posts.
    apply with_posts_covers. now rewrite <- (ss_posts _ _ Hsubj).
Qed.

Lemma commentRows_again :
  map cc_reddit_id (Flushed.commentRows g' d1')
  = map cc_reddit_id (Flushed.commentRows g d0).
Proof.
  unfold Flushed.commentRows.
  now rewrite postIdMap_again, !commentRow_ids, (ss_comments _ _ Hsubj).
Qed.

Lemma commentIdMap_again :
  Flushed.commentIdMap g' d1' = Flushed.commentIdMap g d0.
Proof.
  unfold Flushed.commentIdMap, Sql.select_comments, Sql.select_keys.
  rewrite commentRows_again. do 2 f_equal.
  rewrite with_comments_known.
  - now rewrite (sd_comments _ _ Hdata), final_comments.
  - intros k Hk. rewrite (sd_comments _ _ Hdata), final_comments.
    apply with_comments_covers. now rewrite <- commentRows_again.
Qed.

Lemma postSentimentRows_again :
  map s_post_id (Flushed.postSentimentRows g' d1')
  = map s_post_id (Flushed.postSentimentRows g d0).
Proof.
  unfold Flushed.postSentimentRows.
  rewrite postIdMap_again.
  rewrite (proj1 (postSentimentRow_ids _ (postSentiments g'))).
  rewrite (proj1 (postSentimentRow_ids _ (postSentiments g))).
  now rewrite (ss_post_sentiments _ _ Hsubj).
Qed.

Lemma commentSentimentRows_again :
  map s_comment_id (Flushed.commentSentimentRows g' d1')
  = map s_comment_id (Flushed.commentSentimentRows g d0).
Proof.
  unfold Flushed.commentSentimentRows.
  rewrite commentIdMap_again.
  rewrite (proj1 (commentSentimentRow_ids _ (commentSentiments g'))).
  rewrite (proj1 (commentSentimentRow_ids _ (commentSentiments g))).
  now rewrite (ss_comment_sentiments _ _ Hsubj).
Qed.

Lemma postIdsForCleanup_again :
  Flushed.postIdsForCleanup g' d1' = Flushed.postIdsForCleanup g d0.
Proof.
  unfold Flushed.postIdsForCleanup.
  now rewrite (omap_fmap_id s_post_id), postSentimentRows_again,
    <- (omap_fmap_id s_post_id).
Qed.

Lemma commentIdsForCleanup_again :
  Flushed.commentIdsForCleanup g' d1' = Flushed.commentIdsForCleanup g d0.
Proof.
  unfold Flushed.commentIdsForCleanup.
  now rewrite (omap_fmap_id s_comment_id), commentSentimentRows_again,
    <- (omap_fmap_id s_comment_id).
Qed.

(** The rows the first run inserted are exactly the rows the second run
    deletes; the rows it had kept are kept again. *)
Lemma sentiments_again :
  sentiments (Flushed.final tf g' d1')
  = List.filter
      (fun r => negb (Sql.in_ids (s_comment_id r)
                        (Flushed.commentIdsForCleanup g d0)))
      (List.filter
         (fun r => negb (Sql.in_ids (s_post_id r)
                           (Flushed.postIdsForCleanup g d0)))
         (sentiments d0))
    ++ Flushed.postSentimentRows g' d1' ++ Flushed.commentSentimentRows g' d1'.
Proof.
  rewrite final_sentiments, scored_sentiments.
  rewrite postIdsForCleanup_again, commentIdsForCleanup_again.
  f_equal.
  rewrite (sd_sentiments _ _ Hdata), final_sentiments, scored_sentiments.
  set (keepp := fun r => negb (Sql.in_ids (s_post_id r)
                                 (Flushed.postIdsForCleanup g d0))).
  set (keepc := fun r => negb (Sql.in_ids (s_comment_id r)
                                 (Flushed.commentIdsForCleanup g d0))).
  rewrite !List.filter_app.
  assert (Hp : List.filter keepp (Flushed.postSentimentRows g d0) = []).
  { apply filter_none. intros r Hr. apply list_elem_of_In in Hr.
    apply postSentimentRow_shape in Hr as (_ & i & Hi & Hin).
    unfold keepp, Sql.in_ids. rewrite Hi.
    apply negb_false_iff, bool_decide_eq_true. exact Hin. }
  assert (Hc : List.filter keepc
                 (List.filter keepp (Flushed.commentSentimentRows g d0)) = []).
  { apply filter_none. intros r Hr. apply List.filter_In in Hr as [Hr _].
    apply list_elem_of_In in Hr.
    apply commentSentimentRow_shape in Hr as (_ & i & Hi & Hin).
    unfold keepc, Sql.in_ids. rewrite Hi.
    apply negb_false_iff, bool_decide_eq_true. exact Hin. }
  rewrite Hp, Hc. simpl. rewrite !app_nil_r.
  assert (Hkept : List.filter keepp
                    (List.filter keepc (List.filter keepp (sentiments d0)))
                  = List.filter keepc (List.filter keepp (sentiments d0))).
  { apply filter_all. intros r Hr.
    apply List.filter_In in Hr as [Hr _].
    now apply List.filter_In in Hr as [_ Hr]. }
  rewrite Hkept. apply filter_again.
Qed.

Lemma sentiments_first :
  sentiments (Flushed.final tf g d0)
  = List.filter
      (fun r => negb (Sql.in_ids (s_comment_id r)
                        (Flushed.commentIdsForCleanup g d0)))
      (List.filter
         (fun r => negb (Sql.in_ids (s_post_id r)
                           (Flushed.postIdsForCleanup g d0)))
         (sentiments d0))
    ++ Flushed.postSentimentRows g d0 ++ Flushed.commentSentimentRows g d0.
Proof. now rewrite final_sentiments, scored_sentiments. Qed.

End Twice.

Lemma no_post_scores (id : nat) (l : list SentimentRow) :
  Forall (fun r => s_post_id r = None) l ->
  filter (fun o => o = Some id) (map s_post_id l) = [].
Proof.
  induction 1 as [| r l Hr _ IH]; simpl; [reflexivity |].
  rewrite filter_cons_False; [exact IH | congruence].
Qed.

Lemma no_comment_scores (id : nat) (l : list SentimentRow) :
  Forall (fun r => s_comment_id r = None) l ->
  filter (fun o => o = Some id) (map s_comment_id l) = [].
Proof.
  induction 1 as [| r l Hr _ IH]; simpl; [reflexivity |].
  rewrite filter_cons_False; [exact IH | congruence].
Qed.

Section Daily.

Context (tf : string) (subs : list string).

Lemma delete_upsert_daily_row (rows : list AggregateRow) (c : AggregateRow) :
  timeframe c = tf -> subreddit_id c ∈ subs ->
  List.filter (Sql.stays tf subs) (Sql.upsert_daily_row rows c) = List.filter (Sql.stays tf subs) rows.
Proof.
  intros Htf Hsub.
  assert (Hc : Sql.stays tf subs c = false).
  { unfold Sql.stays. rewrite Htf, String.eqb_refl.
    now rewrite (bool_decide_eq_true_2 _ Hsub). }
  induction rows as [| r rows IH]; simpl.
  - now rewrite Hc.
  - destruct (Sql.same_bucket r c) eqn:Hsame; simpl.
    + rewrite Hc.
      unfold Sql.same_bucket in Hsame.
      apply andb_true_iff in Hsame as [Hsame _].
      apply andb_true_iff in Hsame as [Hs Ht].
      apply String.eqb_eq in Hs, Ht.
      assert (Hr : Sql.stays tf subs r = false).
      { unfold Sql.stays. rewrite Hs, Ht. exact Hc. }
      now rewrite Hr.
    + now rewrite IH.
Qed.

Lemma delete_upsert_daily (batch rows : list AggregateRow) :
  Forall (fun c => timeframe c = tf /\ subreddit_id c ∈ subs) batch ->
  List.filter (Sql.stays tf subs) (fold_left Sql.upsert_daily_row batch rows)
  = List.filter (Sql.stays tf subs) rows.
Proof.
  intros Hall. revert rows.
  induction Hall as [| c batch [Htf Hsub] _ IH]; intros rows; simpl.
  - reflexivity.
  - rewrite IH. now apply delete_upsert_daily_row.
Qed.

End Daily.

Lemma final_daily (tf : string) (g : Gathered) (d : DB) :
  subreddit_sentiment_daily (Flushed.final tf g d)
  = if nonempty (Flushed.aggregateRows g)
    then fold_left Sql.upsert_daily_row (Flushed.aggregateRows g)
           (List.filter
              (Sql.stays tf
                 (Js.uniq (map subreddit_id (Flushed.aggregateRows g)) []))
              (subreddit_sentiment_daily d))
    else subreddit_sentiment_daily d.
Proof.
  unfold Flushed.final. destruct (nonempty (Flushed.aggregateRows g)); simpl;
    now rewrite scored_daily.
Qed.

(** Flushing the same subjects a second time leaves the daily aggregates
    and the number of scores of every post and comment as the first flush
    left them. *)
Lemma flushed_twice (tf : string) (g g' : Gathered) (d0 d1' : DB) :
  same_subjects g g' ->
  same_data (Flushed.final tf g d0) d1' ->
  map_Forall (fun _ row => timeframe row = tf) (aggregates g) ->
  subreddit_sentiment_daily (Flushed.final tf g' d1')
  = subreddit_sentiment_daily (Flushed.final tf g d0)
  /\ (forall id, post_scores id (Flushed.final tf g' d1')
                 = post_scores id (Flushed.final tf g d0))
  /\ (forall id, comment_scores id (Flushed.final tf g' d1')
                 = comment_scores id (Flushed.final tf g d0)).
Proof.
  intros Hsubj Hdata Htf. split; [| split].
  - rewrite (final_daily tf g' d1'), (sd_daily _ _ Hdata).
    assert (Hrows : Flushed.aggregateRows g' = Flushed.aggregateRows g).
    { unfold Flushed.aggregateRows. now rewrite (ss_aggregates _ _ Hsubj). }
    rewrite Hrows, (final_daily tf g d0).
    destruct (nonempty (Flushed.aggregateRows g)); [| reflexivity].
    rewrite delete_upsert_daily; [now rewrite filter_again |].
    apply Forall_forall. intros c Hc. split.
    + unfold Flushed.aggregateRows in Hc.
      apply list_elem_of_fmap in Hc as ([k row] & -> & Hin).
      apply elem_of_map_to_list in Hin. exact (Htf _ _ Hin).
    + apply uniq_elem_of. split; [| apply not_elem_of_nil].
      apply list_elem_of_fmap. exists c. split; [reflexivity | exact Hc].
  - intros id. unfold post_scores.
    rewrite (sentiments_again tf g g' d0 d1' Hsubj Hdata), (sentiments_first tf g d0).
    rewrite !List.map_app, !filter_app, !length_app.
    rewrite (postSentimentRows_again tf g g' d0 d1' Hsubj Hdata).
    assert (H1 : Forall (fun r => s_post_id r = None)
                   (Flushed.commentSentimentRows g' d1'))
      by apply (proj2 (commentSentimentRow_ids _ _)).
    assert (H2 : Forall (fun r => s_post_id r = None)
                   (Flushed.commentSentimentRows g d0))
      by apply (proj2 (commentSentimentRow_ids _ _)).
    now rewrite (no_post_scores id _ H1), (no_post_scores id _ H2).
  - intros id. unfold comment_scores.
    rewrite (sentiments_again tf g g' d0 d1' Hsubj Hdata), (sentiments_first tf g d0).
    rewrite !List.map_app, !filter_app, !length_app.
    rewrite (commentSentimentRows_again tf g g' d0 d1' Hsubj Hdata).
    assert (H1 : Forall (fun r => s_comment_id r = None)
                   (Flushed.postSentimentRows g' d1'))
      by apply (proj2 (postSentimentRow_ids _ _)).
    assert (H2 : Forall (fun r => s_comment_id r = None)
                   (Flushed.postSentimentRows g d0))
      by apply (proj2 (postSentimentRow_ids _ _)).
    now rewrite (no_comment_scores id _ H1), (no_comment_scores id _ H2).
Qed.

(** ** The aggregate rows of a run carry its timeframe *)

Lemma updateAggregate_tagged (tf : string) (aggs : gmap string AggregateRow)
    (args : AggregateArgs) :
  map_Forall (fun _ row => timeframe row = tf) aggs ->
  a_timeframe args = tf ->
  map_Forall (fun _ row => timeframe row = tf) (updateAggregate aggs args).
Proof.
  intros Hall Htf. unfold updateAggregate.
  apply map_Forall_insert_2; [| exact Hall].
  destruct (aggs !! _) as [row |] eqn:Hrow.
  - specialize (Hall _ _ Hrow). simpl in Hall.
    destruct (a_label args); exact Hall.
  - destruct (a_label args); exact Htf.
Qed.

Section Tagged_facts.

Context (P : Platform) (subreddit : SubredditRow) (tf : string)
  (sinceEpoch : Z) (keyword : option string).

Lemma processComment_tagged (post : ItemData) (g g' : Gathered) (c : Child)
    (w w' : World) :
  tagged tf g ->
  processComment P subreddit tf sinceEpoch keyword post g c w = (Ok g', w') ->
  tagged tf g'.
Proof.
  intros Htag H.
  destruct (keepsComment sinceEpoch keyword c) eqn:Hk.
  - destruct (processComment_kept P subreddit tf sinceEpoch keyword post g c w Hk)
      as (d & t & _ & _ & _ & Hrun).
    rewrite Hrun in H. destruct (JsDate.valid (t * 1000)); [| discriminate].
    injection H as <- _. now apply updateAggregate_tagged.
  - rewrite (processComment_skipped P subreddit tf sinceEpoch keyword post g c w Hk)
      in H.
    now injection H as <- _.
Qed.

Lemma comment_loop_tagged (post : ItemData) (cs : list Child)
    (g g' : Gathered) (w w' : World) :
  tagged tf g ->
  for_of cs (processComment P subreddit tf sinceEpoch keyword post) g w
  = (Ok g', w') ->
  tagged tf g'.
Proof.
  revert g w. induction cs as [| c cs IH]; intros g w Htag H; simpl in H.
  - now injection H as <- _.
  - apply bind_Ok in H as (g1 & w1 & Hc & Hrest).
    eapply IH; [| exact Hrest]. eapply processComment_tagged; eassumption.
Qed.

Lemma commentPass_tagged (d : ItemData) (g g' : Gathered) (w w' : World) :
  tagged tf g ->
  commentPass P subreddit tf sinceEpoch keyword d g w = (Ok g', w') ->
  tagged tf g'.
Proof.
  intros Htag H.
  destruct (fetchJson P (commentsUrl (d_id d)) w) as [[payload | e] w1] eqn:Hf.
  - rewrite (commentPass_fetched P subreddit tf sinceEpoch keyword d g w w1
               payload Hf) in H.
    apply bind_Ok in H as (g1 & w2 & Hloop & H).
    unfold bind, delay, ret in H. injection H as <- _.
    eapply comment_loop_tagged; eassumption.
  - rewrite (commentPass_fetch_failed P subreddit tf sinceEpoch keyword d g w w1
               e Hf) in H.
    injection H as <- _. exact Htag.
Qed.

Lemma processPost_tagged (nowIso : Instant) (g g' : Gathered) (c : Child)
    (w w' : World) :
  tagged tf g ->
  processPost P subreddit tf sinceEpoch keyword nowIso g c w = (Ok g', w') ->
  tagged tf g'.
Proof.
  intros Htag H.
  destruct (keepsPost sinceEpoch keyword c) eqn:Hk.
  - destruct (processPost_kept P subreddit tf sinceEpoch keyword nowIso g c w Hk)
      as (d & t & _ & _ & _ & Hrun).
    rewrite Hrun in H. destruct (JsDate.valid (t * 1000)); [| discriminate].
    apply bind_Ok in H as (g1 & w1 & Hscore & Hpass).
    eapply commentPass_tagged; [| exact Hpass].
    rewrite scorePost_run in Hscore.
    destruct (0 <? _); injection Hscore as <- _; [| exact Htag].
    now apply updateAggregate_tagged.
  - rewrite (processPost_skipped P subreddit tf sinceEpoch keyword nowIso g c w Hk)
      in H.
    now injection H as <- _.
Qed.

Lemma post_loop_tagged (nowIso : Instant) (cs : list Child)
    (g g' : Gathered) (w w' : World) :
  tagged tf g ->
  for_of cs (processPost P subreddit tf sinceEpoch keyword nowIso) g w
  = (Ok g', w') ->
  tagged tf g'.
Proof.
  revert g w. induction cs as [| c cs IH]; intros g w Htag H; simpl in H.
  - now injection H as <- _.
  - apply bind_Ok in H as (g1 & w1 & Hc & Hrest).
    eapply IH; [| exact Hrest]. eapply processPost_tagged; eassumption.
Qed.

Lemma processSubreddit_tagged (aggs : gmap string AggregateRow)
    (errs : list string) (g' : Gathered) (w w' : World) :
  map_Forall (fun _ row => timeframe row = tf) aggs ->
  processSubreddit P subreddit tf sinceEpoch keyword aggs errs w = (Ok g', w') ->
  tagged tf g'.
Proof.
  unfold processSubreddit. intros Htag H.
  apply bind_Ok in H as (fetched & w1 & _ & H).
  destruct fetched as [message | listing].
  - injection H as <- _. exact Htag.
  - apply bind_Ok in H as (nowIso & w2 & _ & H).
    eapply post_loop_tagged; [| exact H]. exact Htag.
Qed.

End Tagged_facts.

Lemma gather_tagged (P : Platform) (subs : list SubredditRow) (tf : string)
    (sinceEpoch : Z) (keyword : option string) (g : Gathered) (w w' : World) :
  gather P subs tf sinceEpoch keyword w = (Ok g, w') -> tagged tf g.
Proof.
  unfold gather.
  assert (Hgen : forall all v,
             tagged tf all ->
             for_of subs
               (fun all subreddit =>
                  let! result :=
                    processSubreddit P subreddit tf sinceEpoch keyword
                      (aggregates all) (warnings all) in
                  ret (collect all result)) all v
             = (Ok g, w') ->
             tagged tf g).
  { induction subs as [| sub subs IH]; intros all v Htag H; simpl in H.
    - now injection H as <- _.
    - apply bind_Ok in H as (all1 & v1 & Hstep & Hrest).
      apply bind_Ok in Hstep as (result & v2 & Hsub & Hret).
      injection Hret as <- <-.
      eapply IH; [| exact Hrest].
      change (tagged tf result).
      eapply processSubreddit_tagged; [exact Htag | exact Hsub]. }
  apply Hgen. apply map_Forall_empty.
Qed.

(** ** Gathering twice from an upstream that has not changed *)

Lemma agree_ret {A} (R : A -> A -> Prop) (a b : A) :
  R a b -> agree R (ret a) (ret b).
Proof. intros H w v. exact H. Qed.

Lemma agree_throw {A} (R : A -> A -> Prop) (e : string) :
  agree R (throw e) (throw e).
Proof. intros w v. reflexivity. Qed.

Lemma agree_bind {A B} (R : A -> A -> Prop) (R' : B -> B -> Prop)
    (m m' : M A) (k k' : A -> M B) :
  agree R m m' ->
  (forall a b, R a b -> agree R' (k a) (k' b)) ->
  agree R' (bind m k) (bind m' k').
Proof.
  intros Hm Hk w v. unfold bind. specialize (Hm w v).
  destruct (m w) as [[a | e] w1], (m' v) as [[b | e'] v1]; simpl in *;
    try contradiction; [| exact Hm].
  apply Hk. exact Hm.
Qed.

Lemma agree_try_catch {A} (R : A -> A -> Prop) (m m' : M A)
    (h h' : string -> M A) :
  agree R m m' ->
  (forall e, agree R (h e) (h' e)) ->
  agree R (try_catch m h) (try_catch m' h').
Proof.
  intros Hm Hh w v. unfold try_catch. specialize (Hm w v).
  destruct (m w) as [[a | e] w1], (m' v) as [[b | e'] v1]; simpl in *;
    try contradiction; [exact Hm |].
  subst e'. apply Hh.
Qed.

Lemma agree_for_of {A St} (R : St -> St -> Prop) (xs : list A)
    (body body' : St -> A -> M St) (s s' : St) :
  (forall s s' x, R s s' -> agree R (body s x) (body' s' x)) ->
  R s s' ->
  agree R (for_of xs body s) (for_of xs body' s').
Proof.
  intros Hbody. revert s s'.
  induction xs as [| x xs IH]; intros s s' Hs; simpl.
  - now apply agree_ret.
  - eapply agree_bind; [apply Hbody, Hs | intros a b Hab; now apply IH].
Qed.

Lemma agree_same {A} (m : M A) :
  (forall w v, (m w).1 = (m v).1) -> agree eq m m.
Proof.
  intros H w v. rewrite (H w v). destruct (m v).1; reflexivity.
Qed.

(** *** Related drafts stay related *)

Lemma same_subjects_refl (g : Gathered) : same_subjects g g.
Proof. split; reflexivity. Qed.

Lemma same_subjects_no_drafts (aggs : gmap string AggregateRow)
    (errs errs' : list string) :
  same_subjects (no_drafts aggs errs) (no_drafts aggs errs').
Proof. split; reflexivity. Qed.

Lemma same_subjects_warning (g g' : Gathered) (e e' : string) :
  same_subjects g g' -> same_subjects (push_warning e g) (push_warning e' g').
Proof. intros []. split; assumption. Qed.

Lemma same_subjects_post (g g' : Gathered) (r r' : PostRecordDraft) :
  pr_reddit_id r' = pr_reddit_id r ->
  same_subjects g g' -> same_subjects (push_post r g) (push_post r' g').
Proof.
  intros Hid []. split; simpl; try assumption.
  rewrite !List.map_app. simpl. congruence.
Qed.

Lemma same_subjects_post_sentiment (g g' : Gathered) (tf : string)
    (s s' : PostSentimentDraft) :
  ps_reddit_id s' = ps_reddit_id s -> ps_subreddit_id s' = ps_subreddit_id s ->
  ps_posted_at s' = ps_posted_at s -> ps_label s' = ps_label s ->
  same_subjects g g' ->
  same_subjects (push_post_sentiment s tf g) (push_post_sentiment s' tf g').
Proof.
  intros Hid Hsub Hat Hlabel []. split; simpl; try assumption.
  - rewrite !List.map_app. simpl. congruence.
  - congruence.
Qed.

Lemma same_subjects_comment (g g' : Gathered) (tf : string)
    (r : CommentRecordDraft) (s s' : CommentSentimentDraft) :
  cs_reddit_id s' = cs_reddit_id s -> cs_subreddit_id s' = cs_subreddit_id s ->
  cs_posted_at s' = cs_posted_at s -> cs_label s' = cs_label s ->
  same_subjects g g' ->
  same_subjects (push_comment r s tf g) (push_comment r s' tf g').
Proof.
  intros Hid Hsub Hat Hlabel []. split; simpl; try assumption.
  - rewrite !List.map_app. simpl. congruence.
  - rewrite !List.map_app. simpl. congruence.
  - congruence.
Qed.

Lemma same_subjects_collect (all all' result result' : Gathered) :
  same_subjects all all' -> same_subjects result result' ->
  same_subjects (collect all result) (collect all' result').
Proof.
  intros [] []. split; simpl; rewrite ?List.map_app; congruence.
Qed.

Section Unchanged_upstream.

Context (P : Platform).
Hypothesis Hstable : unchanged_upstream P.

Lemma agree_fetch_get (url : string) :
  agree eq (fetch_get P url) (fetch_get P url).
Proof.
  apply agree_same. intros w v. unfold fetch_get.
  rewrite (proj1 Hstable (gets w) (gets v) url (token w) (token v)).
  destruct (reddit_get P (gets v) url (token v)); reflexivity.
Qed.

Lemma agree_fetch_token (grant : GrantType) :
  agree eq (fetch_token P grant) (fetch_token P grant).
Proof.
  apply agree_same. intros w v. unfold fetch_token.
  rewrite (proj2 Hstable (token_requests w) (token_requests v) grant).
  destruct (reddit_token P (token_requests v) grant); reflexivity.
Qed.

Lemma agree_now : agree (fun _ _ => True) (now P) (now P).
Proof. intros w v. exact I. Qed.

Lemma agree_delay (ms : Z) : agree eq (delay ms) (delay ms).
Proof. intros w v. reflexivity. Qed.

Lemma agree_put_token (t t' : string) : agree eq (put_token t) (put_token t').
Proof. intros w v. reflexivity. Qed.

Lemma agree_requestRedditAccessToken (grant : GrantType) :
  agree eq (requestRedditAccessToken P grant)
    (requestRedditAccessToken P grant).
Proof.
  unfold requestRedditAccessToken.
  destruct (_ || _); [apply agree_throw |].
  eapply agree_bind with (R := eq).
  { destruct grant; [| now apply agree_ret].
    destruct (_ || _); [apply agree_throw | now apply agree_ret]. }
  intros _ _ _.
  eapply agree_bind; [apply agree_fetch_token |].
  intros r _ <-.
  destruct (negb (t_ok r)); [apply agree_throw |].
  destruct (t_access_token r) as [a |]; [| apply agree_throw].
  destruct (Js.truthy a); [now apply agree_ret | apply agree_throw].
Qed.

Lemma agree_fetchRedditAccessToken :
  agree eq (fetchRedditAccessToken P) (fetchRedditAccessToken P).
Proof.
  unfold fetchRedditAccessToken.
  destruct (_ && _); [| apply agree_requestRedditAccessToken].
  apply agree_try_catch; [apply agree_requestRedditAccessToken |].
  intros e. destruct (negb _); [apply agree_throw |].
  apply agree_requestRedditAccessToken.
Qed.

Lemma agree_fetchJson_at (n : nat) (url : string) (attempt : Z) :
  agree eq (fetchJson_at P n url attempt) (fetchJson_at P n url attempt).
Proof.
  revert attempt. induction n as [| n IH]; intros attempt;
    rewrite fetchJson_at_unfold;
    (eapply agree_bind; [apply agree_fetch_get | intros r _ <-]).
  - destruct (_ && _); [apply agree_throw |].
    destruct (_ && _); [apply agree_throw |].
    destruct (negb _); [apply agree_throw |].
    destruct (json r); [now apply agree_ret | apply agree_throw].
  - destruct (_ && _).
    { eapply agree_bind; [apply agree_fetchRedditAccessToken |].
      intros t t' _.
      eapply agree_bind; [apply agree_put_token | intros _ _ _; apply IH]. }
    destruct (_ && _).
    { eapply agree_bind; [apply agree_delay | intros _ _ _; apply IH]. }
    destruct (negb _); [apply agree_throw |].
    destruct (json r); [now apply agree_ret | apply agree_throw].
Qed.

Lemma agree_guarded_fetch (url : string) :
  agree same_fetch
    (try_catch (let! p := fetchJson P url in ret (inr p))
       (fun message => ret (inl message)))
    (try_catch (let! p := fetchJson P url in ret (inr p))
       (fun message => ret (inl message))).
Proof.
  apply agree_try_catch.
  - eapply agree_bind; [apply agree_fetchJson_at |].
    intros p _ <-. now apply agree_ret.
  - intros e. now apply agree_ret.
Qed.

Context (subreddit : SubredditRow) (tf : string) (sinceEpoch : Z)
  (keyword : option string).

Lemma agree_processComment (post : ItemData) (g g' : Gathered) (c : Child) :
  same_subjects g g' ->
  agree same_subjects
    (processComment P subreddit tf sinceEpoch keyword post g c)
    (processComment P subreddit tf sinceEpoch keyword post g' c).
Proof.
  intros Hg w v.
  destruct (keepsComment sinceEpoch keyword c) eqn:Hk.
  - destruct (processComment_kept P subreddit tf sinceEpoch keyword post g c w Hk)
      as (d & t & Hd & Ht & _ & ->).
    destruct (processComment_kept P subreddit tf sinceEpoch keyword post g' c v Hk)
      as (d' & t' & Hd' & Ht' & _ & ->).
    assert (d' = d) by congruence. subst d'.
    assert (t' = t) by congruence. subst t'.
    destruct (JsDate.valid (t * 1000)); simpl; [| reflexivity].
    now apply same_subjects_comment.
  - rewrite !processComment_skipped by exact Hk. exact Hg.
Qed.

Lemma agree_commentPass (d : ItemData) (g g' : Gathered) :
  same_subjects g g' ->
  agree same_subjects
    (commentPass P subreddit tf sinceEpoch keyword d g)
    (commentPass P subreddit tf sinceEpoch keyword d g').
Proof.
  intros Hg. unfold commentPass.
  eapply agree_bind; [apply agree_guarded_fetch |].
  intros [e | p] [e' | p'] Hfetch; simpl in Hfetch; try contradiction; subst.
  - eapply agree_bind; [apply agree_delay |].
    intros _ _ _. apply agree_ret. now apply same_subjects_warning.
  - eapply agree_bind.
    + apply agree_for_of; [| exact Hg].
      intros s s' x Hs. now apply agree_processComment.
    + intros s s' Hs.
      eapply agree_bind; [apply agree_delay |].
      intros _ _ _. now apply agree_ret.
Qed.

Lemma agree_scorePost (d : ItemData) (posted_at : Instant) (text : string)
    (g g' : Gathered) :
  same_subjects g g' ->
  agree same_subjects
    (scorePost P subreddit tf d posted_at text g)
    (scorePost P subreddit tf d posted_at text g').
Proof.
  intros Hg w v. rewrite !scorePost_run.
  destruct (0 <? _); simpl; [| exact Hg].
  now apply same_subjects_post_sentiment.
Qed.

Lemma agree_processPost (nowIso nowIso' : Instant) (g g' : Gathered)
    (c : Child) :
  same_subjects g g' ->
  agree same_subjects
    (processPost P subreddit tf sinceEpoch keyword nowIso g c)
    (processPost P subreddit tf sinceEpoch keyword nowIso' g' c).
Proof.
  intros Hg w v.
  destruct (keepsPost sinceEpoch keyword c) eqn:Hk.
  - destruct (processPost_kept P subreddit tf sinceEpoch keyword nowIso g c w Hk)
      as (d & t & Hd & Ht & _ & ->).
    destruct (processPost_kept P subreddit tf sinceEpoch keyword nowIso' g' c v Hk)
      as (d' & t' & Hd' & Ht' & _ & ->).
    assert (d' = d) by congruence. subst d'.
    assert (t' = t) by congruence. subst t'.
    destruct (JsDate.valid (t * 1000)); simpl; [| reflexivity].
    apply (agree_bind same_subjects same_subjects).
    + apply agree_scorePost. now apply same_subjects_post.
    + intros s s' Hs. now apply agree_commentPass.
  - rewrite !processPost_skipped by exact Hk. exact Hg.
Qed.

Lemma agree_processSubreddit (aggs : gmap string AggregateRow)
    (errs errs' : list string) :
  agree same_subjects
    (processSubreddit P subreddit tf sinceEpoch keyword aggs errs)
    (processSubreddit P subreddit tf sinceEpoch keyword aggs errs').
Proof.
  unfold processSubreddit.
  eapply agree_bind; [apply agree_guarded_fetch |].
  intros [e | p] [e' | p'] Hfetch; simpl in Hfetch; try contradiction; subst.
  - apply agree_ret. apply same_subjects_warning, same_subjects_no_drafts.
  - eapply agree_bind; [apply agree_now |].
    intros nowIso nowIso' _.
    apply agree_for_of; [| apply same_subjects_no_drafts].
    intros s s' x Hs. now apply agree_processPost.
Qed.

End Unchanged_upstream.

(** Two passes over the same subreddits with the same cutoff gather the
    same subjects and the same aggregates. *)
Lemma agree_gather (P : Platform) (subs : list SubredditRow) (tf : string)
    (sinceEpoch : Z) (keyword : option string) :
  unchanged_upstream P ->
  agree same_subjects (gather P subs tf sinceEpoch keyword)
    (gather P subs tf sinceEpoch keyword).
Proof.
  intros Hstable. unfold gather.
  apply agree_for_of; [| apply same_subjects_refl].
  intros all all' sub Hall.
  eapply agree_bind.
  - rewrite (ss_aggregates _ _ Hall). now apply agree_processSubreddit.
  - intros r r' Hr. apply agree_ret. now apply same_subjects_collect.
Qed.

(** ** Running the pipeline twice *)

(** A run that completes has gathered from the configured subreddits with
    the cutoff of its clock, without touching the store, and then flushed. *)
Lemma processRefresh_Ok (P : Platform) (tf : string) (kw : option string)
    (w w' : World) (r : ProcessResult) :
  processRefresh P tf kw w = (Ok r, w') ->
  exists hours g wa wb,
    TIMEFRAME_CONFIG tf = Some hours
    /\ gather P (subreddits (db w)) tf
         (cutoff (clock P (clock_reads w)) hours) kw wa
       = (Ok g, wb)
    /\ db wb = db w
    /\ flush P tf g wb = (Ok r, w').
Proof.
  unfold processRefresh. intros H.
  apply bind_Ok in H as (since & w1 & Hnow & H).
  injection Hnow as <- <-.
  destruct (TIMEFRAME_CONFIG tf) as [hours |]; [| discriminate].
  apply bind_Ok in H as (answer & w2 & Hstore & H).
  apply bind_Ok in H as (subs & w3 & Hexp & H).
  destruct (store_query_Ok P _ _ _ _ _ _ _ Hstore Hexp) as [-> Hdb].
  destruct (negb _); [discriminate |].
  apply bind_Ok in H as (g & wb & Hgather & Hflush).
  exists hours, g, w3, wb. split; [reflexivity |].
  split; [exact Hgather |]. split; [| exact Hflush].
  pose proof (keeps_gather (fun d => d) P
                (subreddits (db (set_clock_reads (S (clock_reads w)) w))) tf
                (cutoff (clock P (clock_reads w)) hours) kw w3) as Hkeep.
  rewrite Hgather in Hkeep. simpl in Hkeep. now rewrite Hkeep, Hdb.
Qed.

(** ** The window of two runs *)

Section Same_window.

Context (P : Platform) (subreddit : SubredditRow) (tf : string)
  (since since' : Z) (keyword : option string).

(** The body a fetch returns is the body of an answer of the upstream. *)
Lemma fetchJson_at_served (n : nat) (url : string) (attempt : Z)
    (w w' : World) (payload : Payload) :
  fetchJson_at P n url attempt w = (Ok payload, w') ->
  exists k tok response,
    reddit_get P k url tok = inr response /\ json response = Some payload.
Proof.
  revert attempt w. induction n as [| n IH]; intros attempt w;
    rewrite fetchJson_at_unfold; intros H;
    apply bind_Ok in H as (r & w1 & Hget & H).
  - destruct (_ && _); [discriminate |].
    destruct (_ && _); [discriminate |].
    destruct (negb _); [discriminate |].
    destruct (json r) as [p |] eqn:Hjson; [| discriminate].
    injection H as <- _. exists (gets w), (token w), r.
    split; [| exact Hjson]. unfold fetch_get in Hget.
    destruct (reddit_get P (gets w) url (token w)); [discriminate |].
    now injection Hget as <- _.
  - destruct (_ && _).
    { apply bind_Ok in H as (fresh & w2 & _ & H).
      apply bind_Ok in H as ([] & w3 & _ & H). eapply IH, H. }
    destruct (_ && _).
    { apply bind_Ok in H as ([] & w2 & _ & H). eapply IH, H. }
    destruct (negb _); [discriminate |].
    destruct (json r) as [p |] eqn:Hjson; [| discriminate].
    injection H as <- _. exists (gets w), (token w), r.
    split; [| exact Hjson]. unfold fetch_get in Hget.
    destruct (reddit_get P (gets w) url (token w)); [discriminate |].
    now injection Hget as <- _.
Qed.

Lemma for_of_same {A St} (xs : list A) (body body' : St -> A -> M St)
    (s : St) (w : World) :
  (forall x s w, x ∈ xs -> body s x w = body' s x w) ->
  for_of xs body s w = for_of xs body' s w.
Proof.
  revert s w. induction xs as [| x xs IH]; intros s w H; [reflexivity |].
  cbn. unfold bind. rewrite (H x s w) by left.
  destruct (body' s x w) as [[s' | e] w']; [| reflexivity].
  apply IH. intros y s0 w0 Hy. apply H. now right.
Qed.

Hypothesis Hwindow : same_window P since since'.

Lemma processComment_same_window (post : ItemData) (g : Gathered)
    (c : Child) (w : World) :
  serves P c ->
  processComment P subreddit tf since keyword post g c w
  = processComment P subreddit tf since' keyword post g c w.
Proof.
  intros Hc. unfold processComment.
  destruct (negb _); [reflexivity |].
  destruct (data c) as [d |] eqn:Hd; [| reflexivity].
  destruct (d_created_utc d) as [t |] eqn:Ht; [| reflexivity].
  now rewrite (Hwindow c d t Hc Hd Ht).
Qed.

Lemma commentPass_same_window (d : ItemData) (g : Gathered) (w : World) :
  commentPass P subreddit tf since keyword d g w
  = commentPass P subreddit tf since' keyword d g w.
Proof.
  destruct (fetchJson P (commentsUrl (d_id d)) w) as [[payload | e] w1] eqn:Hf.
  - rewrite !(commentPass_fetched P subreddit tf _ keyword d g w w1 payload Hf).
    unfold bind at 1 3.
    rewrite (for_of_same _ _
               (processComment P subreddit tf since' keyword d)); [reflexivity |].
    intros c s w0 Hc. apply processComment_same_window.
    apply fetchJson_at_served in Hf as (k & tok & r & Hr & Hjson).
    exists k, (commentsUrl (d_id d)), tok, r, payload. auto.
  - now rewrite !(commentPass_fetch_failed P subreddit tf _ keyword d g w w1 e Hf).
Qed.

Lemma processPost_same_window (nowIso : Instant) (g : Gathered) (c : Child)
    (w : World) :
  serves P c ->
  processPost P subreddit tf since keyword nowIso g c w
  = processPost P subreddit tf since' keyword nowIso g c w.
Proof.
  intros Hc. unfold processPost.
  destruct (data c) as [d |] eqn:Hd; [| reflexivity].
  destruct (negb _); [reflexivity |].
  destruct (_ || _); [reflexivity |].
  destruct (d_created_utc d) as [t |] eqn:Ht; [| reflexivity].
  rewrite (Hwindow c d t Hc Hd Ht).
  destruct (t <? since'); [reflexivity |].
  destruct (_ && _); [reflexivity |].
  unfold bind. destruct (isoOfSeconds t w) as [[posted | e] w1]; [| reflexivity].
  destruct (scorePost _ _ _ _ _ _ _ w1) as [[g1 | e] w2]; [| reflexivity].
  apply commentPass_same_window.
Qed.

Lemma processSubreddit_same_window (aggs : gmap string AggregateRow)
    (errs : list string) (w : World) :
  processSubreddit P subreddit tf since keyword aggs errs w
  = processSubreddit P subreddit tf since' keyword aggs errs w.
Proof.
  unfold processSubreddit, bind.
  destruct (try_catch _ _ w) as [[[message | listing] | e] w1] eqn:Hm;
    try reflexivity.
  destruct (now P w1) as [[nowIso | e] w2]; [| reflexivity].
  apply for_of_same. intros c s w0 Hc. apply processPost_same_window.
  unfold try_catch, ret in Hm.
  destruct (fetchJson P (postsUrl (sub_name subreddit)) w)
    as [[p | e] w0'] eqn:Hf; [| discriminate].
  injection Hm as -> _.
  apply fetchJson_at_served in Hf as (k & tok & r & Hr & Hjson).
  exists k, (postsUrl (sub_name subreddit)), tok, r, listing. auto.
Qed.

End Same_window.

(** Two cutoffs between which the upstream has no item gather the same. *)
Lemma gather_same_window (P : Platform) (subs : list SubredditRow)
    (tf : string) (since since' : Z) (keyword : option string) (w : World) :
  same_window P since since' ->
  gather P subs tf since keyword w = gather P subs tf since' keyword w.
Proof.
  intros Hwindow. unfold gather. apply for_of_same.
  intros sub all w0 _. unfold bind.
  now rewrite (processSubreddit_same_window P sub tf since since' keyword
                 Hwindow).
Qed.


(** The items served by an upstream that answers by URL are those of its
    table. *)
Lemma served_by_url (P : Platform)
    (table : list (string * (string + Response))) (child : Child) :
  reddit_get P = Demo.by_url table ->
  serves P child ->
  exists entry response payload,
    entry ∈ table /\ snd entry = inr response
    /\ json response = Some payload
    /\ (child ∈ default [] (listing_children payload)
        \/ child ∈ default [] (thread_children payload)).
Proof.
  intros Hget (k & url & tok & r & payload & Hr & Hj & Hin).
  rewrite Hget in Hr. unfold Demo.by_url in Hr.
  destruct (List.find _ table) as [entry |] eqn:Hfind.
  - apply List.find_some in Hfind as [Hentry _].
    exists entry, r, payload. split; [now apply list_elem_of_In |]. auto.
  - injection Hr as <-. discriminate.
Qed.



(** * Further properties of the edge function *)

(** ** Invariants maintained along the handler *)

Section Maintained.

Context (inv : DB -> Prop).

Lemma maintains_ret {A} (a : A) : maintains inv (ret a).
Proof. intros w Hw. exact Hw. Qed.

Lemma maintains_throw {A} (e : string) : maintains inv (@throw A e).
Proof. intros w Hw. exact Hw. Qed.

Lemma maintains_bind {A B} (m : M A) (k : A -> M B) :
  maintains inv m -> (forall a, maintains inv (k a)) -> maintains inv (bind m k).
Proof.
  intros Hm Hk w Hw. unfold bind. specialize (Hm w Hw).
  destruct (m w) as [[a | e] w1]; [apply Hk |]; exact Hm.
Qed.

Lemma maintains_try_catch {A} (m : M A) (h : string -> M A) :
  maintains inv m -> (forall e, maintains inv (h e)) ->
  maintains inv (try_catch m h).
Proof.
  intros Hm Hh w Hw. unfold try_catch. specialize (Hm w Hw).
  destruct (m w) as [[a | e] w1]; [| apply Hh]; exact Hm.
Qed.

(** A computation that leaves the store alone maintains everything. *)
Lemma maintains_keeps {A} (m : M A) :
  keeps (fun d => d) m -> maintains inv m.
Proof. intros Hk w Hw. unfold keeps in Hk. now rewrite Hk. Qed.

Context (P : Platform).

Lemma maintains_store {A} (statement : DB -> A * DB) :
  (forall d, inv d -> inv (statement d).2) -> maintains inv (store P statement).
Proof.
  intros Hs w Hw. unfold store.
  destruct (store_fault P (store_ops w)); [exact Hw |].
  specialize (Hs (db w) Hw). destruct (statement (db w)). exact Hs.
Qed.

Lemma maintains_when_nonempty {A} (xs : list A) (context : string)
    (statement : DB -> DB) :
  (forall d, inv d -> inv (statement d)) ->
  maintains inv (when_nonempty P xs context statement).
Proof.
  intros Hs. unfold when_nonempty. destruct (nonempty xs).
  - apply maintains_bind; [now apply maintains_store |].
    intros a. apply maintains_keeps, keeps_expect.
  - apply maintains_ret.
Qed.

Lemma maintains_updateJob (jobId : nat) (patch : JobPatch) :
  (forall d, inv d -> inv (Sql.update_job jobId patch d)) ->
  maintains inv (updateJob P jobId patch).
Proof.
  intros Hs. unfold updateJob.
  apply maintains_bind; [now apply maintains_store |].
  intros [e | []]; [| apply maintains_ret].
  intros w Hw. exact Hw.
Qed.

End Maintained.

Ltac maintain_step :=
  match goal with
  | |- maintains _ (bind _ _) => apply maintains_bind; [| intros ?]
  | |- maintains _ (try_catch _ _) => apply maintains_try_catch; [| intros ?]
  | |- maintains _ (when_nonempty _ _ _ _) =>
      apply maintains_when_nonempty; intros ? ?
  | |- maintains _ (updateJob _ _ _) => apply maintains_updateJob; intros ? ?
  | |- maintains _ (store _ _) => apply maintains_store; intros ? ?
  | |- maintains _ (store_ _ _) => apply maintains_store; intros ? ?
  | |- maintains _ (ret _) => apply maintains_ret
  | |- maintains _ (throw _) => apply maintains_throw
  | |- maintains _ (if ?c then _ else _) => destruct c
  | |- maintains _ (match ?x with _ => _ end) => destruct x
  | |- maintains _ _ => apply maintains_keeps; solve [auto with frame]
  end.

Section Maintained_pipeline.

Context (inv : DB -> Prop) (P : Platform).

(** The statements of the flush, one hypothesis per table it writes. *)
Context (tf : string).
Hypothesis Hposts : forall batch d, inv d -> inv (Sql.upsert_posts batch d).
Hypothesis Hcomments : forall batch d, inv d -> inv (Sql.upsert_comments batch d).
Hypothesis Hdel_post :
  forall ids d, inv d -> inv (Sql.delete_sentiments_by_post ids d).
Hypothesis Hdel_comment :
  forall ids d, inv d -> inv (Sql.delete_sentiments_by_comment ids d).
Hypothesis Hins : forall rows d, inv d -> inv (Sql.insert_sentiments rows d).
Hypothesis Hdel_daily : forall subs d, inv d -> inv (Sql.delete_daily tf subs d).
Hypothesis Hup_daily : forall rows d, inv d -> inv (Sql.upsert_daily rows d).

Lemma maintains_flush (g : Gathered) : maintains inv (flush P tf g).
Proof. unfold flush. repeat maintain_step; cbn [snd]; auto. Qed.

Lemma maintains_processRefresh (kw : option string) :
  maintains inv (processRefresh P tf kw).
Proof.
  unfold processRefresh. repeat maintain_step; cbn [snd]; auto.
  - apply maintains_keeps, keeps_gather.
  - apply maintains_flush.
Qed.

End Maintained_pipeline.

Section Maintained_handler.

Context (inv : DB -> Prop) (P : Platform).

Hypothesis Hrefresh : forall tf kw, maintains inv (processRefresh P tf kw).

Lemma maintains_fail_run (start : Instant) (jobId : option nat) (e : string) :
  (forall id patch d, jobId = Some id -> inv d -> inv (Sql.update_job id patch d)) ->
  maintains inv (fail_run P start jobId e).
Proof.
  intros Hup. unfold fail_run. repeat maintain_step; cbn [snd]; eauto.
Qed.

Lemma maintains_run_job (start : Instant) (jobId : nat) (tf : string)
    (kw : option string) :
  (forall patch d, inv d -> inv (Sql.update_job jobId patch d)) ->
  maintains inv (run_job P start jobId tf kw).
Proof.
  intros Hup. unfold run_job. repeat maintain_step; cbn [snd]; auto.
Qed.

Hypothesis Hinsert_job :
  forall tf kw src st d, inv d -> inv (Sql.insert_job tf kw src st d).2.
Hypothesis Hupdate_job : forall id patch d, inv d -> inv (Sql.update_job id patch d).

Lemma maintains_serve (req : Request) : maintains inv (serve P req).
Proof.
  unfold serve. repeat maintain_step; cbn [snd]; auto;
    first [apply maintains_fail_run | apply maintains_run_job]; auto.
Qed.

End Maintained_handler.

(** ** The answers of the handler *)

(** The handler always answers, and with one of four status codes: no
    failure of Reddit, of the store or of a date conversion escapes it. It
    answers 405 exactly to the requests that are not POSTs, it answers 400
    and 405 without any effect, and a 200 answer always carries the summary
    of the run. *)
Theorem serve_always_answers (P : Platform) (req : Request) (w : World) :
  exists reply w',
    serve P req w = (Ok reply, w')
    /\ (code reply = 200 \/ code reply = 400 \/ code reply = 405
        \/ code reply = 500)
    /\ (code reply = 405 <-> method req <> "POST")
    /\ (code reply = 400 \/ code reply = 405 -> w' = w)
    /\ (code reply = 200 <->
        exists jobId status tf kw result duration,
          content reply = Summary jobId status tf kw result duration).
Proof.
  unfold serve.
  destruct (String.eqb_spec (method req) "POST") as [Hm | Hm]; cbn [negb].
  2:{ do 2 eexists. split; [reflexivity |]. cbn.
      repeat split; try tauto; try discriminate; try lia.
      intros (? & ? & ? & ? & ? & ? & ?); discriminate. }
  destruct (body req) as [payload |].
  2:{ do 2 eexists. split; [reflexivity |]. cbn.
      repeat split; try tauto; try discriminate; try lia.
      intros (? & ? & ? & ? & ? & ? & ?); discriminate. }
  destruct (negb _).
  { do 2 eexists. split; [reflexivity |]. cbn.
    repeat split; try tauto; try discriminate; try lia.
    intros (? & ? & ? & ? & ? & ? & ?); discriminate. }
  destruct (createServiceClient P).
  { do 2 eexists. split; [reflexivity |]. cbn.
    repeat split; try tauto; try discriminate; try lia.
    intros (? & ? & ? & ? & ? & ? & ?); discriminate. }
  set (tf := default "7d" (p_timeframe payload)).
  set (kw := normalizeKeyword (p_keyword payload)).
  destruct (now P w) as [[start | e] w1] eqn:Hnow; [| discriminate Hnow].
  rewrite (bind_step _ _ _ _ _ Hnow).
  destruct (total_store P (Sql.insert_job tf kw "edge_function" "queued") w1)
    as (ins & w2 & Hins).
  rewrite (bind_step _ _ _ _ _ Hins).
  destruct ins as [e | id].
  - destruct (fail_run_answers P start None e w2) as (w3 & ->).
    do 2 eexists. split; [reflexivity |]. cbn.
    repeat split; try tauto; try discriminate; try lia.
    intros (? & ? & ? & ? & ? & ? & ?); discriminate.
  - unfold try_catch.
    destruct (run_job P start id tf kw w2) as [[reply | e] w3] eqn:Hrun.
    + apply run_job_Ok in Hrun as (result & duration & ->).
      do 2 eexists. split; [reflexivity |]. cbn.
      repeat split; try tauto; try discriminate; try lia.
      intros _. now do 6 eexists.
    + destruct (fail_run_answers P start (Some id) e w3) as (w4 & ->).
      do 2 eexists. split; [reflexivity |]. cbn.
      repeat split; try tauto; try discriminate; try lia.
      intros (? & ? & ? & ? & ? & ? & ?); discriminate.
Qed.

(** ** The job row of a failed run *)

(** A run that fails after its job row was created answers 500 with the
    error and the job id; the row still exists and, when the final update
    reaches the store, it is marked failed with that error, the time of the
    failure and the duration since the first clock reading of the request. *)
Theorem failed_run_is_recorded (P : Platform) (req : Request) (w w' : World) (e : string)
    (jobId : nat) :
  serve P req w
  = (Ok {| code := 500; content := Failed e (Some jobId) |}, w') ->
  has_job jobId (db w')
  /\ (store_fault P (Nat.pred (store_ops w')) = None ->
      forall row,
        row ∈ refresh_jobs (db w') -> job_id row = jobId ->
        job_status row = "failed"
        /\ job_error row = Some e
        /\ job_finished_at row = Some (clock P (Nat.pred (clock_reads w')))
        /\ job_duration_ms row
           = Some (clock P (Nat.pred (clock_reads w'))
                   - clock P (clock_reads w))).
Proof.
  unfold serve. intros H.
  destruct (negb (String.eqb (method req) "POST")); [discriminate |].
  destruct (body req) as [payload |]; [| discriminate].
  destruct (negb _); [discriminate |].
  destruct (createServiceClient P); [discriminate |].
  apply bind_Ok in H as (start & w1 & Hnow & H).
  assert (Hstart : start = clock P (clock_reads w)) by (now injection Hnow).
  clear Hnow.
  apply bind_Ok in H as (ins & w2 & Hins & H).
  destruct (store_fault P (store_ops w1)) as [e0 |] eqn:Hfault.
  { rewrite (store_failed P _ w1 e0 Hfault) in Hins. injection Hins as <- <-.
    destruct (fail_run_answers P start None e0
                (set_store_ops (S (store_ops w1)) w1)) as (w3 & Hfail).
    rewrite Hfail in H. discriminate. }
  rewrite (store_ok P _ w1 Hfault) in Hins. injection Hins as <- <-.
  set (tf0 := default "7d" (p_timeframe payload)) in *.
  set (kw0 := normalizeKeyword (p_keyword payload)) in *.
  cbn [fst snd Sql.insert_job] in H.
  set (id := next_id (db w1)) in *.
  set (w2 := set_db _ _) in *.
  assert (Hhas2 : has_job id (db w2))
    by apply (insert_job_has tf0 kw0 "edge_function" "queued" (db w1)).
  unfold try_catch in H.
  destruct (run_job P start id tf0 kw0 w2) as [[reply | e1] w3] eqn:Hrun.
  { apply run_job_Ok in Hrun as (res & dur & ->). discriminate. }
  assert (Hhas3 : has_job id (db (run_job P start id tf0 kw0 w2).2)).
  { apply (maintains_run_job (has_job id) P); [| | exact Hhas2].
    - intros tf kw. apply maintains_processRefresh; intros; assumption.
    - intros patch d Hd. now apply update_job_has. }
  rewrite Hrun in Hhas3. cbn [snd] in Hhas3.
  rewrite fail_run_run in H. injection H as <- <- Hw'.
  split.
  - rewrite <- Hw'. now apply updateJob_has.
  - intros Hlast row Hin Hid. rewrite <- Hw' in Hin, Hlast |- *.
    rewrite updateJob_store_ops in Hlast. simpl in Hlast.
    rewrite updateJob_run in Hin |- *. cbn [snd] in Hin |- *.
    change (store_ops (set_clock_reads (S (clock_reads w3)) w3))
      with (store_ops w3) in Hin |- *.
    rewrite Hlast in Hin |- *.
    cbn [snd db set_db] in Hin.
    apply update_job_patched in Hin as (r & _ & ->); [| exact Hid].
    cbn. rewrite Hstart. repeat split; reflexivity.
Qed.


(** The store is down when the run loads the subreddits. *)
Lemma failed_run_is_recorded_witness :
  has_job 0
    (db (serve (Cases.store_down_at 2 Demo.batch)
           (Demo.request (Some "7d") None) Demo.world).2).
Proof.
  set (run := serve (Cases.store_down_at 2 Demo.batch)
                (Demo.request (Some "7d") None) Demo.world).
  refine (proj1
            (failed_run_is_recorded (Cases.store_down_at 2 Demo.batch)
               (Demo.request (Some "7d") None) Demo.world run.2
               "Failed to load subreddits: offline" 0%nat _)).
  vm_compute. reflexivity.
Defined.

(** ** What a request leaves in place *)

Section Kept_rows.

Context {C : Type} (key : C -> string).

Lemma upsert_row_keeps (c : C) (fresh : nat) (rows : list (Stored C))
    (p : string * nat) :
  p ∈ Sql.keys key rows -> p ∈ Sql.keys key (Sql.upsert_row key c fresh rows).1.
Proof.
  induction rows as [| r rows IH]; cbn [Sql.upsert_row]; intros Hp.
  - inversion Hp.
  - destruct (String.eqb_spec (key (cols r)) (key c)) as [E | E].
    + cbn in Hp |- *. rewrite <- E.
      apply elem_of_cons in Hp as [-> | Hp]; [left | right; exact Hp].
    + destruct (Sql.upsert_row key c fresh rows) as [rs fresh'] eqn:Eu.
      cbn in Hp, IH |- *.
      apply elem_of_cons in Hp as [-> | Hp]; [left | right; auto].
Qed.

Lemma upsert_rows_keeps (batch : list C) (table : list (Stored C) * nat)
    (p : string * nat) :
  p ∈ Sql.keys key table.1 ->
  p ∈ Sql.keys key (Sql.upsert_rows key batch table).1.
Proof.
  revert table. unfold Sql.upsert_rows.
  induction batch as [| c batch IH]; intros table Hp; [exact Hp |].
  cbn [fold_left]. apply IH. now apply upsert_row_keeps.
Qed.

End Kept_rows.

(** What a request leaves of the stored content, whatever its outcome: the
    subreddits table is only read, and a stored post or comment is never
    removed nor given another identifier. *)
Theorem serve_keeps_stored_rows (P : Platform) (req : Request) (w : World) :
  subreddits (db (serve P req w).2) = subreddits (db w)
  /\ (forall reddit_id id,
         (reddit_id, id) ∈ Sql.keys pr_reddit_id (posts (db w)) ->
         (reddit_id, id) ∈ Sql.keys pr_reddit_id (posts (db (serve P req w).2)))
  /\ (forall reddit_id id,
         (reddit_id, id) ∈ Sql.keys cc_reddit_id (comments (db w)) ->
         (reddit_id, id)
         ∈ Sql.keys cc_reddit_id (comments (db (serve P req w).2))).
Proof.
  split; [| split].
  - apply (maintains_serve (fun d => subreddits d = subreddits (db w)) P);
      try (intros; assumption); [| reflexivity].
    intros tf kw. apply maintains_processRefresh; intros; assumption.
  - intros k i.
    apply (maintains_serve
             (fun d => (k, i) ∈ Sql.keys pr_reddit_id (posts d)) P);
      try (intros; assumption).
    intros tf kw. apply maintains_processRefresh; try (intros; assumption).
    intros batch d Hd. now apply upsert_rows_keeps.
  - intros k i.
    apply (maintains_serve
             (fun d => (k, i) ∈ Sql.keys cc_reddit_id (comments d)) P);
      try (intros; assumption).
    intros tf kw. apply maintains_processRefresh; try (intros; assumption).
    intros batch d Hd. now apply upsert_rows_keeps.
Qed.

(** ** The job table as a log *)

Lemma upsert_row_fresh {C} (key : C -> string) (c : C) (fresh : nat)
    (rows : list (Stored C)) :
  (fresh <= (Sql.upsert_row key c fresh rows).2)%nat.
Proof.
  induction rows as [| r rows IH]; cbn [Sql.upsert_row]; [cbn; lia |].
  destruct (String.eqb _ _); [cbn; lia |].
  destruct (Sql.upsert_row key c fresh rows). exact IH.
Qed.

Lemma upsert_rows_fresh {C} (key : C -> string) (batch : list C)
    (table : list (Stored C) * nat) :
  (table.2 <= (Sql.upsert_rows key batch table).2)%nat.
Proof.
  revert table. unfold Sql.upsert_rows.
  induction batch as [| c batch IH]; intros table; [cbn; lia |].
  cbn [fold_left]. etransitivity; [| apply IH]. apply upsert_row_fresh.
Qed.

Section Job_history.

Context (P : Platform) (old : list JobRow) (id : nat).
Hypothesis Hold : Forall (fun r => (job_id r < id)%nat) old.

Lemma update_job_appended (patch : JobPatch) (d : DB) :
  appended old id d -> appended old id (Sql.update_job id patch d).
Proof.
  intros (Hlt & row & Hrows & Hid & Hsrc). split; [exact Hlt |].
  exists (Sql.patch_job patch row).
  split; [| split; [exact Hid | exact Hsrc]].
  unfold Sql.update_job. cbn. rewrite Hrows, map_app. cbn.
  rewrite Hid, Nat.eqb_refl. f_equal.
  generalize Hold. generalize old. clear. intros l H.
  induction H as [| r l Hr _ IH]; [reflexivity |].
  cbn. rewrite IH. destruct (Nat.eqb_spec (job_id r) id); [lia | reflexivity].
Qed.

Lemma appended_run (start : Instant) (tf : string) (kw : option string) :
  maintains (appended old id)
    (try_catch (run_job P start id tf kw) (fail_run P start (Some id))).
Proof.
  apply maintains_try_catch; [apply maintains_run_job | intros e;
                               apply maintains_fail_run];
    try (intros; subst; first [injection H as <- | idtac];
         now apply update_job_appended).
  intros tf' kw'. apply maintains_processRefresh; try (intros; assumption).
  all: intros batch d (Hlt & Hrow); split; [| exact Hrow]; cbn.
  - pose proof (upsert_rows_fresh pr_reddit_id batch (posts d, next_id d)).
    cbn in *. lia.
  - pose proof (upsert_rows_fresh cc_reddit_id batch (comments d, next_id d)).
    cbn in *. lia.
Qed.

End Job_history.

(** What a request does to the job table, by the job its reply names. *)
Lemma serve_job_table (P : Platform) (req : Request) (w : World) :
  numbered (db w) ->
  exists reply w',
    serve P req w = (Ok reply, w')
    /\ match replied_job reply with
       | Some id =>
           id = next_id (db w) /\ appended (refresh_jobs (db w)) id (db w')
       | None => db w' = db w
       end.
Proof.
  intros Hnum. unfold serve.
  destruct (negb (String.eqb (method req) "POST"));
    [eexists _, _; split; reflexivity |].
  destruct (body req) as [payload |];
    [| eexists _, _; split; reflexivity].
  destruct (negb _); [eexists _, _; split; reflexivity |].
  destruct (createServiceClient P); [eexists _, _; split; reflexivity |].
  set (tf := default "7d" (p_timeframe payload)).
  set (kw := normalizeKeyword (p_keyword payload)).
  set (w1 := set_clock_reads (S (clock_reads w)) w).
  set (start := clock P (clock_reads w)).
  rewrite (bind_step (now P) _ w w1 start eq_refl).
  destruct (store_fault P (store_ops w1)) as [e |] eqn:Hfault.
  - rewrite (bind_step _ _ _ _ _ (store_failed P _ w1 e Hfault)).
    eexists _, _. split; [reflexivity |]. reflexivity.
  - rewrite (bind_step _ _ _ _ _ (store_ok P _ w1 Hfault)).
    cbn [fst snd Sql.insert_job].
    set (w2 := set_db _ _).
    pose proof (appended_run P (refresh_jobs (db w1)) (next_id (db w1)) Hnum
                  start tf kw w2) as Hrun.
    assert (Hw2 : appended (refresh_jobs (db w1)) (next_id (db w1)) (db w2)).
    { split; [cbn; lia |]. eexists. split; [reflexivity |]. now split. }
    specialize (Hrun Hw2). revert Hrun. unfold try_catch.
    destruct (run_job P start (next_id (db w1)) tf kw w2)
      as [[reply | e] w3] eqn:Hjob.
    + apply run_job_Ok in Hjob as (result & duration & ->).
      intros Hrun. eexists _, _. split; [reflexivity |]. cbn. now split.
    + destruct (fail_run_answers P start (Some (next_id (db w1))) e w3)
        as (w4 & ->).
      intros Hrun. eexists _, _. split; [reflexivity |]. cbn. now split.
Qed.

(** The job table is a log: a request adds at most one row, numbered with
    the next identifier, and leaves the rows of earlier requests as they
    were; the rows stay numbered below the next identifier. *)
Theorem job_history_is_append_only (P : Platform) (req : Request) (w : World) :
  numbered (db w) ->
  numbered (db (serve P req w).2)
  /\ (refresh_jobs (db (serve P req w).2) = refresh_jobs (db w)
      \/ exists row,
           refresh_jobs (db (serve P req w).2) = refresh_jobs (db w) ++ [row]
           /\ job_id row = next_id (db w)
           /\ job_trigger_source row = "edge_function").
Proof.
  intros Hnum.
  destruct (serve_job_table P req w Hnum) as (reply & w' & -> & H).
  cbn [snd]. destruct (replied_job reply) as [id |].
  - destruct H as (-> & Hlt & row & Hrows & Hid & Hsrc). split.
    + unfold numbered. rewrite Hrows. apply Forall_app. split.
      * eapply Forall_impl; [exact Hnum |]. cbn. intros r Hr. lia.
      * apply Forall_singleton. lia.
    + right. now exists row.
  - rewrite H. split; [exact Hnum | now left].
Qed.

(** A second request on a store that has served one. *)
Lemma job_history_is_append_only_witness :
  numbered
    (db (serve (Demo.platform Demo.batch) (Demo.request (Some "7d") None)
           Cases.served_once).2).
Proof.
  refine (proj1
            (job_history_is_append_only (Demo.platform Demo.batch)
               (Demo.request (Some "7d") None) Cases.served_once _)).
  constructor; [vm_compute; lia | constructor].
Defined.

(** ** Token acquisition *)

Section Token_policy.

Context (P : Platform).

Lemma requestRedditAccessToken_world (g : GrantType) (w : World) :
  ((requestRedditAccessToken P g w).2 = w
   /\ exists e, (requestRedditAccessToken P g w).1 = Throw e)
  \/ (requestRedditAccessToken P g w).2
     = set_token_requests (S (token_requests w)) w.
Proof.
  unfold requestRedditAccessToken.
  destruct (_ || _); [left; split; [reflexivity | eexists; reflexivity] |].
  destruct g.
  - destruct (_ || _); [left; split; [reflexivity | eexists; reflexivity] |].
    right. unfold bind, ret, throw, fetch_token.
    destruct (reddit_token P (token_requests w) password) as [e | r];
      [reflexivity |].
    destruct (negb (t_ok r)); [reflexivity |].
    destruct (t_access_token r) as [a |]; [| reflexivity].
    destruct (Js.truthy a); reflexivity.
  - right. unfold bind, ret, throw, fetch_token.
    destruct (reddit_token P (token_requests w) client_credentials) as [e | r];
      [reflexivity |].
    destruct (negb (t_ok r)); [reflexivity |].
    destruct (t_access_token r) as [a |]; [| reflexivity].
    destruct (Js.truthy a); reflexivity.
Qed.

(** Acquiring a token sends at most two requests to the token endpoint and
    changes nothing else; it sends none when the client credentials are
    missing, and it sends two only when the password grant was refused with
    an error that mentions unauthorized_client. A password grant that fails
    otherwise is reported as it is, without trying the other grant. *)
Theorem token_requests_are_bounded (w : World) :
  (fetchRedditAccessToken P w).2
  = set_token_requests (token_requests (fetchRedditAccessToken P w).2) w
  /\ (token_requests w <= token_requests (fetchRedditAccessToken P w).2
      <= token_requests w + 2)%nat
  /\ (Js.truthy_opt (REDDIT_CLIENT_ID P) && Js.truthy_opt (REDDIT_CLIENT_SECRET P)
      = false ->
      fetchRedditAccessToken P w
      = (Throw "Reddit client credentials are not configured.", w))
  /\ (token_requests (fetchRedditAccessToken P w).2 = (token_requests w + 2)%nat ->
      exists e w1,
        requestRedditAccessToken P password w = (Throw e, w1)
        /\ Js.includes e "unauthorized_client" = true)
  /\ (forall e w1,
         Js.truthy_opt (REDDIT_USERNAME P) && Js.truthy_opt (REDDIT_PASSWORD P)
         = true ->
         requestRedditAccessToken P password w = (Throw e, w1) ->
         Js.includes e "unauthorized_client" = false ->
         fetchRedditAccessToken P w = (Throw e, w1)).
Proof.
  split; [apply fetchRedditAccessToken_frame |].
  split; [| split; [apply fetchRedditAccessToken_unconfigured | split]].
  - unfold fetchRedditAccessToken.
    destruct (_ && _).
    + unfold try_catch.
      pose proof (requestRedditAccessToken_world password w) as H1.
      destruct (requestRedditAccessToken P password w) as [[t | e] w1];
        cbn [fst snd] in *.
      * destruct H1 as [[-> _] | ->]; cbn; lia.
      * destruct (negb _).
        -- destruct H1 as [[-> _] | ->]; cbn; lia.
        -- pose proof (requestRedditAccessToken_world client_credentials w1)
             as H2.
           destruct H1 as [[-> _] | ->], H2 as [[-> _] | ->]; cbn; lia.
    + pose proof (requestRedditAccessToken_world client_credentials w) as H2.
      destruct H2 as [[-> _] | ->]; cbn; lia.
  - unfold fetchRedditAccessToken.
    destruct (_ && _).
    + unfold try_catch.
      pose proof (requestRedditAccessToken_world password w) as H1.
      destruct (requestRedditAccessToken P password w) as [[t | e] w1];
        cbn [fst snd] in *.
      * destruct H1 as [[-> _] | ->]; cbn; lia.
      * destruct (Js.includes e "unauthorized_client") eqn:Hinc; cbn [negb].
        -- intros _. now exists e, w1.
        -- destruct H1 as [[-> _] | ->]; cbn; lia.
    + pose proof (requestRedditAccessToken_world client_credentials w) as H2.
      destruct H2 as [[-> _] | ->]; cbn; lia.
  - intros e w1 Hup Hreq Hinc. unfold fetchRedditAccessToken, try_catch.
    rewrite Hup, Hreq, Hinc. reflexivity.
Qed.

End Token_policy.

(** ** A subreddit that cannot be listed *)

Section Listing_failure.

Context (P : Platform) (tf : string) (sinceEpoch : Z) (keyword : option string).

Lemma processSubreddit_fetch_failed (subreddit : SubredditRow)
    (aggs : gmap string AggregateRow) (errs : list string) (w w1 : World)
    (message : string) :
  fetchJson P (postsUrl (sub_name subreddit)) w = (Throw message, w1) ->
  processSubreddit P subreddit tf sinceEpoch keyword aggs errs w
  = (Ok (push_warning
           ("[" +:+ sub_name subreddit +:+ "] Failed to fetch posts: "
            +:+ message) (no_drafts aggs errs)), w1).
Proof.
  intros H. unfold processSubreddit, bind at 1, try_catch, bind at 1.
  rewrite H. reflexivity.
Qed.

(** A subreddit whose listing cannot be fetched costs the run one warning
    and nothing else: the drafts and the aggregates gathered from the
    subreddits before it are kept, the loop goes on with the subreddits
    after it from the state the failed fetch left, and the store has not
    been written. *)
Theorem listing_failure_is_a_warning (before after : list SubredditRow)
    (subreddit : SubredditRow) (g : Gathered) (w0 w w1 : World)
    (message : string) :
  gather P before tf sinceEpoch keyword w0 = (Ok g, w) ->
  fetchJson P (postsUrl (sub_name subreddit)) w = (Throw message, w1) ->
  gather P (before ++ subreddit :: after) tf sinceEpoch keyword w0
  = for_of after
      (fun all subreddit =>
         let! result :=
           processSubreddit P subreddit tf sinceEpoch keyword
             (aggregates all) (warnings all) in
         ret (collect all result))
      (push_warning
         ("[" +:+ sub_name subreddit +:+ "] Failed to fetch posts: "
          +:+ message) g) w1
  /\ db w1 = db w0.
Proof.
  intros Hg Hf. split.
  - unfold gather in *. rewrite (for_of_app _ _ _ _ _ _ _ Hg).
    cbn [for_of].
    rewrite (bind_step _ _ w w1
               (collect g
                  (push_warning
                     ("[" +:+ sub_name subreddit
                      +:+ "] Failed to fetch posts: " +:+ message)
                     (no_drafts (aggregates g) (warnings g))))).
    + f_equal. unfold collect, push_warning, no_drafts. cbn.
      now rewrite !app_nil_r.
    + unfold bind.
      now rewrite (processSubreddit_fetch_failed subreddit (aggregates g)
                     (warnings g) w w1 message Hf).
  - pose proof (keeps_gather (fun d => d) P before tf sinceEpoch keyword w0)
      as K0.
    rewrite Hg in K0. cbn in K0.
    pose proof (keeps_fetchJson_at (fun d => d) P 2
                  (postsUrl (sub_name subreddit)) 1 w) as K1.
    unfold fetchJson in Hf. rewrite Hf in K1. cbn in K1. congruence.
Qed.

End Listing_failure.

(** Of two subreddits, the first cannot be listed: the post of the second
    is gathered and the run has one warning. *)
Lemma listing_failure_is_a_warning_witness :
  exists g w',
    gather (Demo.platform Cases.one_down) [Demo.codex; Cases.openai] "7d" 0
      None Demo.world
    = (Ok g, w')
    /\ map pr_reddit_id (postRecords g) = ["q1"]
    /\ length (warnings g) = 1%nat.
Proof.
  destruct (listing_failure_is_a_warning (Demo.platform Cases.one_down) "7d" 0
              None [] [Cases.openai] Demo.codex (no_drafts ∅ []) Demo.world
              Demo.world (set_gets 1 Demo.world)
              "Reddit request failed (500): https://oauth.reddit.com/r/codex/new?limit=20&raw_json=1 :: down"
              eq_refl ltac:(vm_compute; reflexivity)) as [H _].
  cbn [app] in H. rewrite H. vm_compute. do 2 eexists. repeat split.
Defined.

(** ** Creation times outside the range of a date *)

Section Date_range.

Context (P : Platform) (subreddit : SubredditRow) (tf : string)
  (sinceEpoch : Z) (keyword : option string).

Lemma processPost_Throw (nowIso : Instant) (g : Gathered) (c : Child)
    (w w' : World) (e : string) :
  processPost P subreddit tf sinceEpoch keyword nowIso g c w = (Throw e, w') ->
  e = "Invalid time value".
Proof.
  intros H.
  destruct (keepsPost sinceEpoch keyword c) eqn:Hk.
  - destruct (processPost_kept P subreddit tf sinceEpoch keyword nowIso g c w Hk)
      as (d & t & Hd & Ht & Hle & Heq).
    rewrite Heq in H. destruct (JsDate.valid (t * 1000)).
    + apply bind_Throw in H as [H | (g1 & w1 & _ & H)].
      * destruct (scorePost_Ok P subreddit tf d (t * 1000) (postText d)
                    (push_post
                       (postRecordOf subreddit d (sanitizeText (d_title d))
                          (t * 1000) nowIso) g) w) as (g1 & w1 & Hs & _).
        rewrite Hs in H. discriminate.
      * now apply commentPass_Throw in H.
    + now injection H as <- _.
  - rewrite (processPost_skipped P subreddit tf sinceEpoch keyword nowIso g c w Hk)
      in H.
    discriminate.
Qed.

Lemma post_loop_out_of_range (nowIso : Instant) (cs : list Child) (c : Child)
    (d : ItemData) (t : Z) (g : Gathered) (w : World) :
  c ∈ cs -> keepsPost sinceEpoch keyword c = true ->
  data c = Some d -> d_created_utc d = Some t ->
  JsDate.valid (t * 1000) = false ->
  exists w',
    for_of cs (processPost P subreddit tf sinceEpoch keyword nowIso) g w
    = (Throw "Invalid time value", w').
Proof.
  intros Hin Hk Hd Ht Hv. revert g w.
  induction cs as [| c0 cs IH]; intros g w; [inversion Hin |].
  cbn [for_of]. unfold bind.
  destruct (processPost P subreddit tf sinceEpoch keyword nowIso g c0 w)
    as [[g1 | e] w1] eqn:H0.
  - apply elem_of_cons in Hin as [-> | Hin]; [| now apply IH].
    destruct (processPost_kept P subreddit tf sinceEpoch keyword nowIso g c0 w Hk)
      as (d' & t' & Hd' & Ht' & _ & Heq).
    rewrite Hd in Hd'. injection Hd' as <-.
    rewrite Ht in Ht'. injection Ht' as <-.
    rewrite Heq, Hv in H0. discriminate.
  - apply processPost_Throw in H0 as ->. now exists w1.
Qed.

(** One listed post that passes the filter with a creation time outside
    the range of a JavaScript date fails the processing of its subreddit
    with a RangeError, whatever else the listing holds; nothing has been
    written to the store at that point. *)
Theorem out_of_range_timestamp_fails (aggs : gmap string AggregateRow)
    (errs : list string) (w w1 : World) (payload : Payload) (c : Child)
    (d : ItemData) (t : Z) :
  fetchJson P (postsUrl (sub_name subreddit)) w = (Ok payload, w1) ->
  c ∈ default [] (listing_children payload) ->
  keepsPost sinceEpoch keyword c = true ->
  data c = Some d -> d_created_utc d = Some t ->
  JsDate.valid (t * 1000) = false ->
  exists w',
    processSubreddit P subreddit tf sinceEpoch keyword aggs errs w
    = (Throw "Invalid time value", w')
    /\ db w' = db w.
Proof.
  intros Hf Hin Hk Hd Ht Hv.
  destruct (post_loop_out_of_range (clock P (clock_reads w1))
              (default [] (listing_children payload)) c d t
              (no_drafts aggs errs)
              (set_clock_reads (S (clock_reads w1)) w1) Hin Hk Hd Ht Hv)
    as (w' & Hloop).
  assert (Hrun : processSubreddit P subreddit tf sinceEpoch keyword aggs errs w
                 = (Throw "Invalid time value", w')).
  { unfold processSubreddit, bind at 1, try_catch, bind at 1.
    rewrite Hf. cbn [ret]. unfold bind at 1, now. exact Hloop. }
  exists w'. split; [exact Hrun |].
  pose proof (keeps_processSubreddit (fun d => d) P subreddit tf sinceEpoch
                keyword aggs errs w) as K.
  now rewrite Hrun in K.
Qed.

End Date_range.

(** A listing with a creation time in microseconds. *)
Lemma out_of_range_timestamp_fails_witness :
  exists w',
    processSubreddit (Demo.platform Cases.in_microseconds) Demo.codex "7d" 0
      None ∅ [] Demo.world
    = (Throw "Invalid time value", w')
    /\ db w' = db Demo.world.
Proof.
  apply (out_of_range_timestamp_fails (Demo.platform Cases.in_microseconds)
           Demo.codex "7d" 0 None ∅ [] Demo.world (set_gets 1 Demo.world)
           {| listing_children :=
                Some [Demo.post "p1" "plain" Demo.t0; Cases.late];
              thread_children := None |}
           Cases.late
           {| d_id := "p9"; d_title := Some "good news"; d_selftext := Some "";
              d_body := None; d_author := Some "alice";
              d_created_utc := Some (Demo.t0 * 1000000); d_score := Some 1;
              d_num_comments := Some 0; d_permalink := Some "/r/codex/x";
              d_stickied := false; d_removed_by_category := false |}
           (Demo.t0 * 1000000)).
  - vm_compute. reflexivity.
  - cbn. right. left.
  - reflexivity.
  - reflexivity.
  - reflexivity.
  - reflexivity.
Defined.

(** ** Gathering, step by step *)

Section Steps.

Context (P : Platform) (subreddit : SubredditRow) (tf : string)
  (sinceEpoch : Z) (keyword : option string).

Lemma processComment_grows (post : ItemData) (g g' : Gathered) (c : Child)
    (w w' : World) :
  d_id post ∈ map pr_reddit_id (postRecords g) ->
  processComment P subreddit tf sinceEpoch keyword post g c w = (Ok g', w') ->
  grows tf g g'.
Proof.
  intros Hin H.
  destruct (keepsComment sinceEpoch keyword c) eqn:Hk.
  - destruct (processComment_kept P subreddit tf sinceEpoch keyword post g c w Hk)
      as (d & t & _ & _ & _ & Hrun).
    rewrite Hrun in H. destruct (JsDate.valid (t * 1000)); [| discriminate].
    injection H as <- _. apply rtc_once. now constructor.
  - rewrite (processComment_skipped P subreddit tf sinceEpoch keyword post g c w Hk)
      in H.
    injection H as <- _. apply rtc_refl.
Qed.

Lemma comment_loop_grows (post : ItemData) (cs : list Child)
    (g g' : Gathered) (w w' : World) :
  d_id post ∈ map pr_reddit_id (postRecords g) ->
  for_of cs (processComment P subreddit tf sinceEpoch keyword post) g w
  = (Ok g', w') ->
  grows tf g g'.
Proof.
  revert g w. induction cs as [| c cs IH]; intros g w Hin H; simpl in H.
  - injection H as <- _. apply rtc_refl.
  - apply bind_Ok in H as (g1 & w1 & Hc & Hrest).
    pose proof (processComment_Ok P subreddit tf sinceEpoch keyword post g g1 c
                  w w1 Hc) as (_ & Hsame & _).
    eapply rtc_trans.
    + eapply processComment_grows; eassumption.
    + eapply IH; [| exact Hrest]. now rewrite Hsame.
Qed.

Lemma commentPass_grows (d : ItemData) (g g' : Gathered) (w w' : World) :
  d_id d ∈ map pr_reddit_id (postRecords g) ->
  commentPass P subreddit tf sinceEpoch keyword d g w = (Ok g', w') ->
  grows tf g g'.
Proof.
  intros Hin H.
  destruct (fetchJson P (commentsUrl (d_id d)) w) as [[payload | e] w1] eqn:Hf.
  - rewrite (commentPass_fetched P subreddit tf sinceEpoch keyword d g w w1
               payload Hf) in H.
    apply bind_Ok in H as (g1 & w2 & Hloop & H).
    unfold bind, delay, ret in H. injection H as <- _.
    eapply comment_loop_grows; eassumption.
  - rewrite (commentPass_fetch_failed P subreddit tf sinceEpoch keyword d g w w1
               e Hf) in H.
    injection H as <- _. apply rtc_once. constructor.
Qed.

Lemma processPost_grows (nowIso : Instant) (g g' : Gathered) (c : Child)
    (w w' : World) :
  processPost P subreddit tf sinceEpoch keyword nowIso g c w = (Ok g', w') ->
  grows tf g g'.
Proof.
  intros H.
  destruct (keepsPost sinceEpoch keyword c) eqn:Hk.
  - destruct (processPost_kept P subreddit tf sinceEpoch keyword nowIso g c w Hk)
      as (d & t & _ & _ & _ & Hrun).
    rewrite Hrun in H. destruct (JsDate.valid (t * 1000)); [| discriminate].
    apply bind_Ok in H as (g1 & w1 & Hscore & Hpass).
    set (r := postRecordOf subreddit d (sanitizeText (d_title d)) (t * 1000)
                nowIso) in *.
    assert (Hin : d_id d ∈ map pr_reddit_id (postRecords (push_post r g))).
    { cbn. rewrite map_app. apply elem_of_app. right. cbn. left. }
    rewrite scorePost_run in Hscore.
    destruct (0 <? _); injection Hscore as <- _.
    + eapply rtc_l.
      { apply (step_scored_post tf g r
                 {| ps_reddit_id := d_id d;
                    ps_compound := polarity_compound P (postText d);
                    ps_label := labelFromScore (polarity_compound P (postText d));
                    ps_scored_at := clock P (clock_reads w);
                    ps_posted_at := t * 1000;
                    ps_subreddit_id := sub_id subreddit |}); reflexivity. }
      eapply commentPass_grows; [| exact Hpass]. exact Hin.
    + eapply rtc_l; [apply (step_post tf g r) |].
      eapply commentPass_grows; [| exact Hpass]. exact Hin.
  - rewrite (processPost_skipped P subreddit tf sinceEpoch keyword nowIso g c w Hk)
      in H.
    injection H as <- _. apply rtc_refl.
Qed.

Lemma post_loop_grows (nowIso : Instant) (cs : list Child)
    (g g' : Gathered) (w w' : World) :
  for_of cs (processPost P subreddit tf sinceEpoch keyword nowIso) g w
  = (Ok g', w') ->
  grows tf g g'.
Proof.
  revert g w. induction cs as [| c cs IH]; intros g w H; simpl in H.
  - injection H as <- _. apply rtc_refl.
  - apply bind_Ok in H as (g1 & w1 & Hc & Hrest).
    eapply rtc_trans; [eapply processPost_grows; exact Hc |].
    eapply IH; exact Hrest.
Qed.

Lemma processSubreddit_grows (aggs : gmap string AggregateRow)
    (errs : list string) (g' : Gathered) (w w' : World) :
  processSubreddit P subreddit tf sinceEpoch keyword aggs errs w = (Ok g', w') ->
  grows tf (no_drafts aggs errs) g'.
Proof.
  unfold processSubreddit. intros H.
  apply bind_Ok in H as (fetched & w1 & _ & H).
  destruct fetched as [message | listing].
  - injection H as <- _. apply rtc_once. constructor.
  - apply bind_Ok in H as (nowIso & w2 & _ & H).
    eapply post_loop_grows; exact H.
Qed.

End Steps.

Lemma collect_nothing (all : Gathered) :
  collect all (no_drafts (aggregates all) (warnings all)) = all.
Proof.
  destruct all. unfold collect, no_drafts. cbn. now rewrite !app_nil_r.
Qed.

Lemma collect_step (tf : string) (all g g' : Gathered) :
  step tf g g' -> step tf (collect all g) (collect all g').
Proof.
  intros [g0 m | g0 r | g0 r s Hid Hl | g0 r s Hin Hid Hl].
  - exact (step_warning tf (collect all g0) m).
  - replace (collect all (push_post r g0))
      with (push_post r (collect all g0)); [constructor |].
    unfold collect, push_post. cbn. now rewrite app_assoc.
  - replace (collect all (push_post_sentiment s tf (push_post r g0)))
      with (push_post_sentiment s tf (push_post r (collect all g0))).
    + now constructor.
    + unfold collect, push_post_sentiment, push_post. cbn.
      now rewrite !app_assoc.
  - replace (collect all (push_comment r s tf g0))
      with (push_comment r s tf (collect all g0)).
    + constructor; [| exact Hid | exact Hl].
      cbn. rewrite map_app. apply elem_of_app. now right.
    + unfold collect, push_comment. cbn. now rewrite !app_assoc.
Qed.

Lemma collect_grows (tf : string) (all g g' : Gathered) :
  grows tf g g' -> grows tf (collect all g) (collect all g').
Proof.
  induction 1 as [| g g1 g2 Hs _ IH]; [apply rtc_refl |].
  eapply rtc_l; [apply collect_step; exact Hs | exact IH].
Qed.

(** Everything a run gathers is reached from nothing by these steps. *)
Lemma gather_grows (P : Platform) (subs : list SubredditRow) (tf : string)
    (sinceEpoch : Z) (keyword : option string) (g : Gathered) (w w' : World) :
  gather P subs tf sinceEpoch keyword w = (Ok g, w') ->
  grows tf (no_drafts ∅ []) g.
Proof.
  unfold gather. generalize (no_drafts ∅ []). revert w.
  induction subs as [| sub subs IH]; intros w all H; simpl in H.
  - injection H as <- _. apply rtc_refl.
  - apply bind_Ok in H as (all1 & w1 & Hstep & Hrest).
    apply bind_Ok in Hstep as (result & w2 & Hsub & Hret).
    injection Hret as <- <-.
    eapply rtc_trans; [| eapply IH; exact Hrest].
    rewrite <- (collect_nothing all) at 1.
    apply collect_grows. eapply processSubreddit_grows; exact Hsub.
Qed.

(** ** What the aggregate rows count *)

Section Tally.

Context (f : AggregateRow -> Z) (weight : SentimentLabel -> Z).
Hypothesis Hbump : forall label row, f (bump label row) = f row + weight label.
Hypothesis Hzero :
  forall sub tf bucket,
    f {| subreddit_id := sub; timeframe := tf; bucket_start := bucket;
         positive_count := 0; neutral_count := 0; negative_count := 0;
         activity_count := 0 |} = 0.

Lemma tally_perm (l l' : list AggregateRow) :
  l ≡ₚ l' -> tally f l = tally f l'.
Proof.
  unfold tally.
  induction 1 as [| x l l' _ IH | x y l | l l' l'' _ IH _ IH']; cbn;
    [reflexivity | now rewrite IH | lia | congruence].
Qed.

Lemma tally_insert (aggs : gmap string AggregateRow) (key : string)
    (row : AggregateRow) :
  tally f (map_to_list (<[key := row]> aggs)).*2
  = tally f (map_to_list aggs).*2 + f row
    - match aggs !! key with Some old => f old | None => 0 end.
Proof.
  destruct (aggs !! key) as [old |] eqn:Hk.
  - rewrite <- (insert_delete_eq aggs key row).
    rewrite (tally_perm _ _
               (fmap_Permutation snd _ _
                  (map_to_list_insert (delete key aggs) key row
                     (lookup_delete_eq aggs key)))).
    rewrite <- (insert_delete_id aggs key old Hk) at 2.
    rewrite (tally_perm (map_to_list (<[key:=old]> (delete key aggs))).*2 _
               (fmap_Permutation snd _ _
                  (map_to_list_insert (delete key aggs) key old
                     (lookup_delete_eq aggs key)))).
    unfold tally. cbn. lia.
  - rewrite (tally_perm _ _
               (fmap_Permutation snd _ _
                  (map_to_list_insert aggs key row Hk))).
    unfold tally. cbn. lia.
Qed.

Lemma tally_updateAggregate (aggs : gmap string AggregateRow)
    (args : AggregateArgs) :
  tally f (map_to_list (updateAggregate aggs args)).*2
  = tally f (map_to_list aggs).*2 + weight (a_label args).
Proof.
  unfold updateAggregate. rewrite tally_insert.
  destruct (aggs !! _) as [old |]; rewrite Hbump; [lia |].
  rewrite Hzero. lia.
Qed.

(** The weights of a list of labels. *)
Lemma tally_step (tf : string) (g g' : Gathered) :
  step tf g g' ->
  tally f (Flushed.aggregateRows g') - tally f (Flushed.aggregateRows g)
  = foldr (fun l acc => weight l + acc) 0 (labels g')
    - foldr (fun l acc => weight l + acc) 0 (labels g).
Proof.
  assert (Happ : forall l1 l2,
             foldr (fun l acc => weight l + acc) 0 (l1 ++ l2)
             = foldr (fun l acc => weight l + acc) 0 l1
               + foldr (fun l acc => weight l + acc) 0 l2).
  { intros l1 l2. induction l1 as [| x l1 IH]; cbn; [lia | rewrite IH; lia]. }
  unfold Flushed.aggregateRows, labels.
  intros [g0 m | g0 r | g0 r s Hid Hl | g0 r s Hin Hid Hl];
    cbn [push_warning push_post push_post_sentiment push_comment aggregates
         postSentiments commentSentiments]; try lia.
  - rewrite tally_updateAggregate, !map_app, !Happ. cbn. lia.
  - rewrite tally_updateAggregate, !map_app, !Happ. cbn. lia.
Qed.

Lemma tally_grows (tf : string) (g g' : Gathered) :
  grows tf g g' ->
  tally f (Flushed.aggregateRows g') - tally f (Flushed.aggregateRows g)
  = foldr (fun l acc => weight l + acc) 0 (labels g')
    - foldr (fun l acc => weight l + acc) 0 (labels g).
Proof.
  induction 1 as [| g g1 g2 Hs _ IH]; [lia |].
  pose proof (tally_step tf g g1 Hs). lia.
Qed.

End Tally.

Lemma count_label_weight (label : SentimentLabel) (l : list SentimentLabel) :
  foldr (fun x acc => (if is_label label x then 1 else 0) + acc) 0 l
  = count_label label l.
Proof.
  unfold count_label. induction l as [| x l IH]; [reflexivity |].
  cbn. destruct (is_label label x); cbn [length]; lia.
Qed.

Lemma length_weight (l : list SentimentLabel) :
  foldr (fun _ acc => 1 + acc) 0 l = Z.of_nat (length l).
Proof. induction l as [| x l IH]; cbn [foldr length]; lia. Qed.

(** ** Nothing is dropped on the way to the store *)

Lemma linked_step (tf : string) (g g' : Gathered) :
  step tf g g' -> linked g -> linked g'.
Proof.
  intros [g0 m | g0 r | g0 r s Hid Hl | g0 r s Hin Hid Hl] [H1 H2 H3 H4];
    split; cbn; try assumption.
  - eapply Forall_impl; [exact H1 |]. cbn. intros s Hs.
    rewrite map_app. apply elem_of_app. now left.
  - eapply Forall_impl; [exact H2 |]. cbn. intros s Hs.
    rewrite map_app. apply elem_of_app. now left.
  - rewrite length_app. cbn. lia.
  - apply Forall_app. split.
    + eapply Forall_impl; [exact H1 |]. cbn. intros s0 Hs.
      rewrite map_app. apply elem_of_app. now left.
    + apply Forall_singleton. rewrite Hid, map_app. apply elem_of_app.
      right. cbn. left.
  - eapply Forall_impl; [exact H2 |]. cbn. intros s0 Hs.
    rewrite map_app. apply elem_of_app. now left.
  - rewrite !length_app. cbn. lia.
  - apply Forall_app. split; [exact H2 |]. now apply Forall_singleton.
  - rewrite !map_app, H3. cbn. now rewrite Hid.
Qed.

Lemma linked_grows (tf : string) (g g' : Gathered) :
  grows tf g g' -> linked g -> linked g'.
Proof.
  induction 1 as [| g g1 g2 Hs _ IH]; [tauto |].
  intros Hg. apply IH. eapply linked_step; eassumption.
Qed.

Lemma gather_linked (P : Platform) (subs : list SubredditRow) (tf : string)
    (sinceEpoch : Z) (keyword : option string) (g : Gathered) (w w' : World) :
  gather P subs tf sinceEpoch keyword w = (Ok g, w') -> linked g.
Proof.
  intros H. apply gather_grows in H. eapply linked_grows; [exact H |].
  split; cbn; [constructor | constructor | reflexivity | lia].
Qed.

Lemma js_map_covers (pairs : list (string * nat)) (k : string) :
  k ∈ pairs.*1 -> is_Some (js_map pairs !! k).
Proof.
  unfold js_map.
  assert (Hgen : forall m : gmap string nat,
             k ∈ pairs.*1 \/ is_Some (m !! k) ->
             is_Some (fold_left (fun m p => <[p.1 := p.2]> m) pairs m !! k)).
  { induction pairs as [| p pairs IH]; intros m H; cbn.
    - destruct H as [H | H]; [inversion H | exact H].
    - apply IH. destruct H as [H | H].
      + cbn in H. apply elem_of_cons in H as [-> | H]; [right | now left].
        rewrite lookup_insert_eq. eauto.
      + right. destruct (decide (p.1 = k)) as [-> | Hne].
        * rewrite lookup_insert_eq. eauto.
        * now rewrite lookup_insert_ne. }
  intros H. apply Hgen. now left.
Qed.

Lemma length_omap_all {A B} (f : A -> option B) (l : list A) :
  Forall (fun x => is_Some (f x)) l -> length (omap f l) = length l.
Proof.
  induction 1 as [| x l [y Hy] _ IH]; [reflexivity |].
  cbn. rewrite Hy. cbn. now rewrite IH.
Qed.

Section Nothing_lost.

Context (g : Gathered) (d : DB).
Hypothesis Hlinked : linked g.

Lemma postIdMap_covers (k : string) :
  k ∈ map pr_reddit_id (postRecords g) -> is_Some (Flushed.postIdMap g d !! k).
Proof.
  intros Hk. apply js_map_covers.
  pose proof (with_posts_covers g d k Hk) as Hin.
  apply list_elem_of_fmap in Hin as ([k' i] & -> & Hin). cbn.
  apply list_elem_of_fmap. exists (k', i). split; [reflexivity |].
  unfold Sql.select_posts, Sql.select_keys.
  apply list_elem_of_filter. split; [| exact Hin].
  cbn. apply uniq_elem_of. split; [exact Hk | apply not_elem_of_nil].
Qed.

Lemma commentRows_all :
  map cc_reddit_id (Flushed.commentRows g d)
  = map cr_reddit_id (commentRecords g).
Proof.
  unfold Flushed.commentRows.
  pose proof (ln_comments g Hlinked) as H.
  induction H as [| r l Hr _ IH]; [reflexivity |].
  cbn. unfold commentRow at 1.
  destruct (postIdMap_covers _ Hr) as [i ->]. cbn. now rewrite IH.
Qed.

Lemma commentIdMap_covers (k : string) :
  k ∈ map cr_reddit_id (commentRecords g) ->
  is_Some (Flushed.commentIdMap g d !! k).
Proof.
  rewrite <- commentRows_all. intros Hk. apply js_map_covers.
  pose proof (with_comments_covers g d k Hk) as Hin.
  apply list_elem_of_fmap in Hin as ([k' i] & -> & Hin). cbn.
  apply list_elem_of_fmap. exists (k', i). split; [reflexivity |].
  unfold Sql.select_comments, Sql.select_keys.
  apply list_elem_of_filter. split; [| exact Hin].
  cbn. apply uniq_elem_of. split; [exact Hk | apply not_elem_of_nil].
Qed.

Lemma nothing_lost :
  length (Flushed.commentRows g d) = length (commentRecords g)
  /\ length (Flushed.postSentimentRows g d) = length (postSentiments g)
  /\ length (Flushed.commentSentimentRows g d) = length (commentSentiments g).
Proof.
  split; [| split].
  - rewrite <- (length_map cc_reddit_id), commentRows_all. apply length_map.
  - unfold Flushed.postSentimentRows. apply length_omap_all.
    eapply Forall_impl; [exact (ln_post_sentiments g Hlinked) |].
    cbn. intros s Hs. unfold postSentimentRow.
    destruct (postIdMap_covers _ Hs) as [i ->]. eauto.
  - unfold Flushed.commentSentimentRows. apply length_omap_all.
    apply Forall_forall. intros s Hs. unfold commentSentimentRow.
    destruct (commentIdMap_covers (cs_reddit_id s)) as [i ->]; [| eauto].
    rewrite <- (ln_comment_sentiments g Hlinked).
    apply list_elem_of_fmap. now exists s.
Qed.

End Nothing_lost.

(** ** The daily table after a flush *)

Lemma updateAggregate_keyed (aggs : gmap string AggregateRow)
    (args : AggregateArgs) :
  keyed aggs -> keyed (updateAggregate aggs args).
Proof.
  unfold keyed, updateAggregate. intros H.
  apply map_Forall_insert_2; [| exact H].
  destruct (aggs !! _) as [row |] eqn:Hrow.
  - destruct (H _ _ Hrow) as [Hk Ha]. destruct (a_label args); cbn; split;
      first [exact Hk | lia].
  - destruct (a_label args); cbn; split; first [reflexivity | lia].
Qed.

Lemma keyed_grows (tf : string) (g g' : Gathered) :
  grows tf g g' -> keyed (aggregates g) -> keyed (aggregates g').
Proof.
  induction 1 as [| g g1 g2 Hs _ IH]; [tauto |].
  intros Hg. apply IH. clear IH.
  destruct Hs as [g0 m | g0 r | g0 r s Hid Hl | g0 r s Hin Hid Hl]; cbn;
    try assumption; now apply updateAggregate_keyed.
Qed.

Lemma balanced_grows (tf : string) (g g' : Gathered) :
  grows tf g g' ->
  map_Forall (fun _ row => balanced row) (aggregates g) ->
  map_Forall (fun _ row => balanced row) (aggregates g').
Proof.
  induction 1 as [| g g1 g2 Hs _ IH]; [tauto |].
  intros Hg. apply IH. clear IH.
  destruct Hs as [g0 m | g0 r | g0 r s Hid Hl | g0 r s Hin Hid Hl]; cbn;
    try assumption; now apply updateAggregate_balanced.
Qed.

(** The rows of a keyed map have distinct subreddit-and-day pairs. *)
Lemma keyed_rows (aggs : gmap string AggregateRow) :
  keyed aggs ->
  NoDup (map (fun row => subreddit_id row +:+ ":" +:+ bucket_start row)
           (map_to_list aggs).*2)
  /\ Forall (fun row => 1 <= activity_count row) (map_to_list aggs).*2.
Proof.
  intros H. split.
  - replace (map _ (map_to_list aggs).*2) with (map_to_list aggs).*1;
      [apply NoDup_fst_map_to_list |].
    assert (Hall : Forall (fun p => p.1 = subreddit_id p.2 +:+ ":"
                                          +:+ bucket_start p.2)
                     (map_to_list aggs)).
    { apply Forall_forall. intros [k row] Hin.
      apply elem_of_map_to_list in Hin. now destruct (H _ _ Hin). }
    induction Hall as [| p l Hp _ IH]; [reflexivity |].
    cbn. now rewrite Hp, IH.
  - apply Forall_fmap, Forall_forall. intros [k row] Hin.
    apply elem_of_map_to_list in Hin. now destruct (H _ _ Hin).
Qed.

Lemma upsert_daily_row_new (rows : list AggregateRow) (c : AggregateRow) :
  Forall (fun b => Sql.same_bucket b c = false) rows ->
  Sql.upsert_daily_row rows c = rows ++ [c].
Proof.
  induction 1 as [| b rows Hb _ IH]; [reflexivity |].
  cbn. now rewrite Hb, IH.
Qed.

Lemma same_bucket_key (a b : AggregateRow) :
  Sql.same_bucket a b = true ->
  subreddit_id a = subreddit_id b /\ timeframe a = timeframe b
  /\ bucket_start a = bucket_start b.
Proof.
  unfold Sql.same_bucket. intros H.
  apply andb_true_iff in H as [H H3]. apply andb_true_iff in H as [H1 H2].
  apply String.eqb_eq in H1, H2, H3. auto.
Qed.

Lemma upsert_daily_new (batch base : list AggregateRow) :
  NoDup (map (fun row => subreddit_id row +:+ ":" +:+ bucket_start row) batch) ->
  Forall (fun b => Forall (fun c => Sql.same_bucket b c = false) batch) base ->
  fold_left Sql.upsert_daily_row batch base = base ++ batch.
Proof.
  revert base. induction batch as [| c batch IH]; intros base Hnd Hbase.
  - now rewrite app_nil_r.
  - cbn [fold_left]. cbn in Hnd. apply NoDup_cons in Hnd as [Hc Hnd].
    rewrite upsert_daily_row_new.
    + rewrite IH; [now rewrite <- app_assoc | exact Hnd |].
      apply Forall_app. split.
      * eapply Forall_impl; [exact Hbase |]. cbn. intros b Hb.
        now apply Forall_cons in Hb as [_ Hb].
      * apply Forall_singleton, Forall_forall. intros c' Hc'.
        destruct (Sql.same_bucket c c') eqn:E; [| reflexivity].
        apply same_bucket_key in E as (E1 & _ & E3). exfalso. apply Hc.
        apply list_elem_of_fmap. exists c'. now rewrite E1, E3.
    + eapply Forall_impl; [exact Hbase |]. cbn. intros b Hb.
      now apply Forall_cons in Hb as [Hb _].
Qed.

Lemma stays_ext (tf : string) (subs subs' : list string) (row : AggregateRow) :
  (forall s, s ∈ subs <-> s ∈ subs') ->
  Sql.stays tf subs row = Sql.stays tf subs' row.
Proof.
  intros H. unfold Sql.stays. do 2 f_equal.
  apply bool_decide_ext, H.
Qed.

Lemma filter_ext_all {A} (f f' : A -> bool) (l : list A) :
  (forall x, f x = f' x) -> List.filter f l = List.filter f' l.
Proof. intros H. induction l as [| x l IH]; cbn; [| rewrite H, IH]; auto. Qed.

(** The daily table after the flush: the rows the delete spares, then the
    rows of the run. *)
Lemma final_daily_replaced (tf : string) (g : Gathered) (d : DB) :
  tagged tf g -> keyed (aggregates g) ->
  subreddit_sentiment_daily (Flushed.final tf g d)
  = List.filter
      (Sql.stays tf (map subreddit_id (Flushed.aggregateRows g)))
      (subreddit_sentiment_daily d)
    ++ Flushed.aggregateRows g.
Proof.
  intros Htag Hkey. rewrite final_daily.
  destruct (nonempty (Flushed.aggregateRows g)) eqn:Hne.
  - destruct (keyed_rows _ Hkey) as [Hnd _].
    rewrite upsert_daily_new.
    + f_equal. apply filter_ext_all. intros row. apply stays_ext.
      intros s. rewrite uniq_elem_of. split; [tauto |].
      intros Hs. split; [exact Hs | apply not_elem_of_nil].
    + exact Hnd.
    + apply Forall_forall. intros b Hb. apply list_elem_of_In in Hb.
      apply filter_In in Hb as [_ Hb].
      apply Forall_forall. intros c Hc.
      destruct (Sql.same_bucket b c) eqn:E; [| reflexivity].
      apply same_bucket_key in E as (E1 & E2 & _).
      unfold Sql.stays in Hb. apply negb_true_iff, andb_false_iff in Hb.
      assert (Htf : timeframe c = tf).
      { unfold Flushed.aggregateRows in Hc.
        apply list_elem_of_fmap in Hc as ([k row] & -> & Hin).
        apply elem_of_map_to_list in Hin. exact (Htag _ _ Hin). }
      destruct Hb as [Hb | Hb].
      * rewrite E2, Htf, String.eqb_refl in Hb. discriminate.
      * apply bool_decide_eq_false in Hb. exfalso. apply Hb.
        apply uniq_elem_of. split; [| apply not_elem_of_nil].
        rewrite E1. apply list_elem_of_fmap. now exists c.
  - apply nonempty_false in Hne. rewrite Hne. cbn. rewrite app_nil_r.
    symmetry. apply filter_all. intros row _. unfold Sql.stays. cbn.
    now rewrite andb_false_r.
Qed.

(** ** The report of a run and the rows it leaves *)

Lemma gather_weights (P : Platform) (subs : list SubredditRow)
    (tf : string) (sinceEpoch : Z) (keyword : option string) (g : Gathered)
    (w w' : World) (f : AggregateRow -> Z) (weight : SentimentLabel -> Z) :
  (forall label row, f (bump label row) = f row + weight label) ->
  (forall sub tf bucket,
      f {| subreddit_id := sub; timeframe := tf; bucket_start := bucket;
           positive_count := 0; neutral_count := 0; negative_count := 0;
           activity_count := 0 |} = 0) ->
  gather P subs tf sinceEpoch keyword w = (Ok g, w') ->
  tally f (Flushed.aggregateRows g)
  = foldr (fun l acc => weight l + acc) 0 (labels g).
Proof.
  intros Hbump Hzero H. apply gather_grows in H.
  pose proof (tally_grows f weight Hbump Hzero tf _ _ H) as E.
  unfold Flushed.aggregateRows in E at 2. cbn in E.
  rewrite map_to_list_empty in E. cbn in E. lia.
Qed.

Lemma gather_activity (P : Platform) (subs : list SubredditRow)
    (tf : string) (sinceEpoch : Z) (keyword : option string) (g : Gathered)
    (w w' : World) :
  gather P subs tf sinceEpoch keyword w = (Ok g, w') ->
  tally activity_count (Flushed.aggregateRows g)
  = Z.of_nat (length (postSentiments g))
    + Z.of_nat (length (commentSentiments g)).
Proof.
  intros H.
  rewrite (gather_weights P subs tf sinceEpoch keyword g w w' activity_count
             (fun _ => 1) ltac:(now intros [] ?) ltac:(reflexivity) H).
  rewrite length_weight. unfold labels.
  rewrite length_app, !length_map. lia.
Qed.

(** Every sentiment a run gathers is counted once in the aggregate rows it
    will upsert: over these rows, the activity counts add up to the number
    of sentiments, and each label counter to the number of sentiments with
    that label. *)
Theorem aggregates_count_every_score (P : Platform) (subs : list SubredditRow)
    (tf : string) (sinceEpoch : Z) (keyword : option string) (g : Gathered)
    (w w' : World) :
  gather P subs tf sinceEpoch keyword w = (Ok g, w') ->
  tally activity_count (Flushed.aggregateRows g)
  = Z.of_nat (length (postSentiments g))
    + Z.of_nat (length (commentSentiments g))
  /\ tally positive_count (Flushed.aggregateRows g)
     = count_label Positive (labels g)
  /\ tally neutral_count (Flushed.aggregateRows g)
     = count_label Neutral (labels g)
  /\ tally negative_count (Flushed.aggregateRows g)
     = count_label Negative (labels g).
Proof.
  intros H. split; [now apply gather_activity in H |].
  split; [| split]; rewrite <- count_label_weight.
  - apply (gather_weights P subs tf sinceEpoch keyword g w w' positive_count
             (fun l => if is_label Positive l then 1 else 0)); [| | exact H].
    + intros [] row; cbn; lia.
    + reflexivity.
  - apply (gather_weights P subs tf sinceEpoch keyword g w w' neutral_count
             (fun l => if is_label Neutral l then 1 else 0)); [| | exact H].
    + intros [] row; cbn; lia.
    + reflexivity.
  - apply (gather_weights P subs tf sinceEpoch keyword g w w' negative_count
             (fun l => if is_label Negative l then 1 else 0)); [| | exact H].
    + intros [] row; cbn; lia.
    + reflexivity.
Qed.

(** The three-post batch: five sentiments, in one daily row. *)
Lemma aggregates_count_every_score_witness :
  tally activity_count
    (Flushed.aggregateRows
       (outcome (no_drafts ∅ [])
          (gather (Demo.platform Demo.batch) [Demo.codex] "7d" 0 None
             Demo.world)))
  = 5.
Proof.
  set (run := gather (Demo.platform Demo.batch) [Demo.codex] "7d" 0 None
                Demo.world).
  rewrite (proj1
             (aggregates_count_every_score (Demo.platform Demo.batch)
                [Demo.codex] "7d" 0 None (outcome (no_drafts ∅ []) run)
                Demo.world run.2 ltac:(vm_compute; reflexivity))).
  vm_compute. reflexivity.
Defined.

Lemma gather_keyed (P : Platform) (subs : list SubredditRow) (tf : string)
    (sinceEpoch : Z) (keyword : option string) (g : Gathered) (w w' : World) :
  gather P subs tf sinceEpoch keyword w = (Ok g, w') ->
  keyed (aggregates g)
  /\ map_Forall (fun _ row => balanced row) (aggregates g).
Proof.
  intros H. apply gather_grows in H. split.
  - eapply keyed_grows; [exact H |]. apply map_Forall_empty.
  - eapply balanced_grows; [exact H |]. apply map_Forall_empty.
Qed.

Lemma tally_at_least (rows : list AggregateRow) :
  Forall (fun row => 1 <= activity_count row) rows ->
  Z.of_nat (length rows) <= tally activity_count rows.
Proof.
  unfold tally. induction 1 as [| row rows Hrow _ IH]; cbn [length foldr]; lia.
Qed.

(** The counters a successful run reports are those of what it gathered,
    nothing being dropped on the way to the store: every comment kept is
    stored and scored, the sentiments are those of the comments and of the
    posts that have a text, and an aggregate row counts at least one of
    them. *)
Theorem reported_counts_are_consistent (P : Platform) (tf : string)
    (kw : option string) (w w' : World) (r : ProcessResult) :
  processRefresh P tf kw w = (Ok r, w') ->
  0 <= commentsProcessed r <= sentimentsInserted r
  /\ sentimentsInserted r <= postsProcessed r + commentsProcessed r
  /\ 0 <= aggregatesUpserted r <= sentimentsInserted r
  /\ (aggregatesUpserted r = 0 <-> sentimentsInserted r = 0).
Proof.
  intros H.
  apply processRefresh_Ok in H as (hours & g & wa & wb & _ & Hg & _ & Hf).
  apply flush_Ok in Hf as [_ ->].
  pose proof (gather_linked _ _ _ _ _ _ _ _ Hg) as Hl.
  destruct (nothing_lost g (db wb) Hl) as (E1 & E2 & E3).
  pose proof (gather_activity _ _ _ _ _ _ _ _ Hg) as Et.
  destruct (gather_keyed _ _ _ _ _ _ _ _ Hg) as (Hk & _).
  destruct (keyed_rows _ Hk) as (_ & Hone).
  apply tally_at_least in Hone. fold (Flushed.aggregateRows g) in Hone.
  pose proof (ln_scored g Hl) as Hs.
  pose proof (f_equal (@length _) (ln_comment_sentiments g Hl)) as Hc.
  rewrite !length_map in Hc.
  cbn. rewrite E1, E2, E3.
  assert (Hz : length (Flushed.aggregateRows g) = 0%nat ->
               tally activity_count (Flushed.aggregateRows g) = 0).
  { destruct (Flushed.aggregateRows g); [reflexivity | discriminate]. }
  repeat split; try lia.
Qed.

(** The three-post batch. *)
Lemma reported_counts_are_consistent_witness :
  sentimentsInserted
    (outcome Cases.nothing
       (processRefresh (Demo.platform Demo.batch) "7d" None Demo.world))
  <= postsProcessed
       (outcome Cases.nothing
          (processRefresh (Demo.platform Demo.batch) "7d" None Demo.world))
     + commentsProcessed
         (outcome Cases.nothing
            (processRefresh (Demo.platform Demo.batch) "7d" None Demo.world)).
Proof.
  set (run := processRefresh (Demo.platform Demo.batch) "7d" None Demo.world).
  refine (proj1 (proj2
            (reported_counts_are_consistent (Demo.platform Demo.batch) "7d"
               None Demo.world run.2 (outcome Cases.nothing run) _))).
  vm_compute. reflexivity.
Defined.

(** The daily table after a successful run: the rows of the timeframe of
    the run for the subreddits it scored something in are replaced by the
    aggregate rows of the run, the other rows are left as they were. The
    rows of the run carry its timeframe, are balanced, count at least one
    item each, and all the sentiments the run reports between them. *)
Theorem daily_rows_are_replaced (P : Platform) (tf : string)
    (kw : option string) (w w' : World) (r : ProcessResult) :
  processRefresh P tf kw w = (Ok r, w') ->
  exists rows,
    subreddit_sentiment_daily (db w')
    = List.filter (Sql.stays tf (map subreddit_id rows))
        (subreddit_sentiment_daily (db w))
      ++ rows
    /\ Forall (fun row => timeframe row = tf /\ balanced row
                          /\ 1 <= activity_count row) rows
    /\ Z.of_nat (length rows) = aggregatesUpserted r
    /\ tally activity_count rows = sentimentsInserted r.
Proof.
  intros H.
  apply processRefresh_Ok in H as (hours & g & wa & wb & _ & Hg & Hdb & Hf).
  apply flush_Ok in Hf as [Hfinal ->].
  pose proof (gather_linked _ _ _ _ _ _ _ _ Hg) as Hl.
  destruct (nothing_lost g (db wb) Hl) as (_ & E2 & E3).
  pose proof (gather_activity _ _ _ _ _ _ _ _ Hg) as Et.
  destruct (gather_keyed _ _ _ _ _ _ _ _ Hg) as (Hk & Hb).
  pose proof (gather_tagged _ _ _ _ _ _ _ _ Hg) as Htag.
  exists (Flushed.aggregateRows g). split; [| split; [| split]].
  - rewrite Hfinal, Hdb. now apply final_daily_replaced.
  - unfold Flushed.aggregateRows. apply Forall_fmap, Forall_forall.
    intros [k row] Hin. apply elem_of_map_to_list in Hin. cbn.
    split; [exact (Htag _ _ Hin) | split; [exact (Hb _ _ Hin) |]].
    now destruct (Hk _ _ Hin).
  - reflexivity.
  - cbn. rewrite E2, E3. exact Et.
Qed.

(** The three-post batch on an empty daily table. *)
Lemma daily_rows_are_replaced_witness :
  exists rows,
    subreddit_sentiment_daily
      (db (processRefresh (Demo.platform Demo.batch) "7d" None Demo.world).2)
    = rows
    /\ Z.of_nat (length rows) = 1.
Proof.
  set (run := processRefresh (Demo.platform Demo.batch) "7d" None Demo.world).
  destruct (daily_rows_are_replaced (Demo.platform Demo.batch) "7d" None
              Demo.world run.2 (outcome Cases.nothing run)
              ltac:(vm_compute; reflexivity))
    as (rows & Hrows & _ & Hlen & _).
  exists rows. split; [exact Hrows | exact Hlen].
Defined.

(** ** Consistency of the stored rows *)

Lemma maintains_bind_post {A B} (inv : DB -> Prop) (post : A -> Prop)
    (m : M A) (k : A -> M B) :
  maintains inv m ->
  (forall w a w', m w = (Ok a, w') -> post a) ->
  (forall a, post a -> maintains inv (k a)) ->
  maintains inv (bind m k).
Proof.
  intros Hm Hpost Hk w Hw. unfold bind. specialize (Hm w Hw).
  destruct (m w) as [[a | e] w1] eqn:E; [| exact Hm].
  apply Hk; [eapply Hpost; exact E | exact Hm].
Qed.

Lemma well_labelled_grows (tf : string) (g g' : Gathered) :
  grows tf g g' -> well_labelled g -> well_labelled g'.
Proof.
  induction 1 as [| g g1 g2 Hs _ IH]; [tauto |].
  intros Hg. apply IH. clear IH. destruct Hg as [H1 H2].
  destruct Hs as [g0 m | g0 r | g0 r s Hid Hl | g0 r s Hin Hid Hl];
    split; cbn; try assumption;
    apply Forall_app; (split; [assumption | now apply Forall_singleton]).
Qed.

Lemma gather_well_labelled (P : Platform) (subs : list SubredditRow)
    (tf : string) (sinceEpoch : Z) (keyword : option string) (g : Gathered)
    (w w' : World) :
  gather P subs tf sinceEpoch keyword w = (Ok g, w') -> well_labelled g.
Proof.
  intros H. apply gather_grows in H. eapply well_labelled_grows; [exact H |].
  split; constructor.
Qed.

Lemma Forall_list_filter {A} (Q : A -> Prop) (f : A -> bool) (l : list A) :
  Forall Q l -> Forall Q (List.filter f l).
Proof.
  induction 1 as [| x l Hx _ IH]; cbn; [constructor |].
  destruct (f x); [now constructor | exact IH].
Qed.

Section Consistent_rows.

Context (P : Platform).

Lemma flush_labelled (tf : string) (g : Gathered) :
  well_labelled g -> maintains labelled (flush P tf g).
Proof.
  intros [Hp Hc]. unfold flush.
  assert (Hrows : forall m,
             Forall (fun s => s_label s = labelFromScore (s_compound s))
               (omap (postSentimentRow m) (postSentiments g))).
  { intros m. apply Forall_forall. intros s Hs.
    apply list_elem_of_omap in Hs as (x & Hx & Hs).
    unfold postSentimentRow in Hs. destruct (m !! _); [| discriminate].
    injection Hs as <-. cbn. rewrite Forall_forall in Hp. now apply Hp. }
  assert (Hrows' : forall m,
             Forall (fun s => s_label s = labelFromScore (s_compound s))
               (omap (commentSentimentRow m) (commentSentiments g))).
  { intros m. apply Forall_forall. intros s Hs.
    apply list_elem_of_omap in Hs as (x & Hx & Hs).
    unfold commentSentimentRow in Hs. destruct (m !! _); [| discriminate].
    injection Hs as <-. cbn. rewrite Forall_forall in Hc. now apply Hc. }
  unfold labelled.
  repeat maintain_step; cbn [snd]; try assumption;
    cbn [Sql.delete_sentiments_by_post Sql.delete_sentiments_by_comment
         Sql.insert_sentiments sentiments set_sentiments];
    first [now apply Forall_list_filter
          | apply Forall_app; split; [assumption | apply Hrows]
          | apply Forall_app; split; [assumption | apply Hrows']].
Qed.

Lemma processRefresh_labelled (tf : string) (kw : option string) :
  maintains labelled (processRefresh P tf kw).
Proof.
  unfold processRefresh.
  apply maintains_bind; [apply maintains_keeps, keeps_now | intros since].
  destruct (TIMEFRAME_CONFIG tf) as [hours |]; [| apply maintains_throw].
  apply maintains_bind;
    [apply maintains_store; intros d Hd; exact Hd | intros answer].
  apply maintains_bind; [apply maintains_keeps, keeps_expect | intros subs].
  destruct (negb _); [apply maintains_throw |].
  apply (maintains_bind_post labelled well_labelled).
  - apply maintains_keeps, keeps_gather.
  - intros w g w' Hg. eapply gather_well_labelled; exact Hg.
  - intros g Hg. now apply flush_labelled.
Qed.

(** The labels in the store are those of the scores beside them: a request
    keeps this true of the sentiments table, whatever its outcome. *)
Theorem stored_labels_follow_scores (req : Request) (w : World) :
  labelled (db w) -> labelled (db (serve P req w).2).
Proof.
  apply (maintains_serve labelled P); try (intros; assumption).
  apply processRefresh_labelled.
Qed.

Lemma upsert_daily_row_balanced (rows : list AggregateRow) (c : AggregateRow) :
  Forall balanced rows -> balanced c ->
  Forall balanced (Sql.upsert_daily_row rows c).
Proof.
  intros Hrows Hc. induction Hrows as [| r rows Hr Hrows IH]; cbn.
  - now apply Forall_singleton.
  - destruct (Sql.same_bucket r c); constructor; assumption.
Qed.

Lemma upsert_daily_balanced (batch rows : list AggregateRow) :
  Forall balanced batch -> Forall balanced rows ->
  Forall balanced (fold_left Sql.upsert_daily_row batch rows).
Proof.
  intros Hbatch. revert rows.
  induction Hbatch as [| c batch Hc _ IH]; intros rows Hrows; [exact Hrows |].
  cbn. apply IH. now apply upsert_daily_row_balanced.
Qed.

Lemma flush_balanced (tf : string) (g : Gathered) :
  map_Forall (fun _ row => balanced row) (aggregates g) ->
  maintains balanced_daily (flush P tf g).
Proof.
  intros Hb. unfold flush, balanced_daily.
  assert (Hrows : Forall balanced (map_to_list (aggregates g)).*2).
  { apply Forall_fmap, Forall_forall. intros [k row] Hin.
    apply elem_of_map_to_list in Hin. exact (Hb _ _ Hin). }
  repeat maintain_step; cbn [snd]; try assumption;
    cbn [Sql.delete_daily Sql.upsert_daily subreddit_sentiment_daily set_daily];
    first [now apply Forall_list_filter | now apply upsert_daily_balanced].
Qed.

Lemma processRefresh_balanced (tf : string) (kw : option string) :
  maintains balanced_daily (processRefresh P tf kw).
Proof.
  unfold processRefresh.
  apply maintains_bind; [apply maintains_keeps, keeps_now | intros since].
  destruct (TIMEFRAME_CONFIG tf) as [hours |]; [| apply maintains_throw].
  apply maintains_bind;
    [apply maintains_store; intros d Hd; exact Hd | intros answer].
  apply maintains_bind; [apply maintains_keeps, keeps_expect | intros subs].
  destruct (negb _); [apply maintains_throw |].
  apply (maintains_bind_post balanced_daily
           (fun g => map_Forall (fun _ row => balanced row) (aggregates g))).
  - apply maintains_keeps, keeps_gather.
  - intros w g w' Hg. now destruct (gather_keyed _ _ _ _ _ _ _ _ Hg).
  - intros g Hg. now apply flush_balanced.
Qed.

(** The daily table stays balanced: when the label counters of every
    stored row add up to its activity count before a request, they do so
    after it, whatever its outcome. *)
Theorem daily_table_stays_balanced (req : Request) (w : World) :
  balanced_daily (db w) -> balanced_daily (db (serve P req w).2).
Proof.
  apply (maintains_serve balanced_daily P); try (intros; assumption).
  apply processRefresh_balanced.
Qed.

End Consistent_rows.

Lemma stored_labels_follow_scores_witness :
  labelled
    (db (serve (Demo.platform Demo.batch) (Demo.request (Some "7d") None)
           Demo.world).2).
Proof.
  apply (stored_labels_follow_scores (Demo.platform Demo.batch)
           (Demo.request (Some "7d") None) Demo.world).
  constructor.
Defined.

Lemma daily_table_stays_balanced_witness :
  balanced_daily
    (db (serve (Demo.platform Demo.batch) (Demo.request (Some "7d") None)
           Demo.world).2).
Proof.
  apply (daily_table_stays_balanced (Demo.platform Demo.batch)
           (Demo.request (Some "7d") None) Demo.world).
  constructor.
Defined.

(** ** The keyword of a run *)

(** ** White space *)

Lemma after_app (p l rest : list ascii) :
  Js.after p l = Some rest <-> l = p ++ rest.
Proof.
  revert l. induction p as [| a p IH]; intros l; cbn.
  - split; [now intros [= ->] | now intros ->].
  - destruct l as [| b l]; [split; discriminate |].
    destruct (Ascii.eqb_spec a b) as [<- | Hne].
    + rewrite IH. split; [now intros -> | now intros [= ->]].
    + split; [discriminate | intros [= ? _]; congruence].
Qed.

Lemma after_any_Some (ps : list (list ascii)) (l rest : list ascii) :
  Js.after_any ps l = Some rest -> exists p, p ∈ ps /\ l = p ++ rest.
Proof.
  induction ps as [| p ps IH]; cbn; [discriminate |].
  destruct (Js.after p l) as [r |] eqn:E.
  - intros [= <-]. exists p. split; [left | now apply after_app].
  - intros H. destruct (IH H) as (q & Hq & Hl). exists q. split; [now right | exact Hl].
Qed.

Lemma clean_spec (ps : list (list ascii)) (l : list ascii) :
  clean ps l <-> forall p rest, p ∈ ps -> l <> p ++ rest.
Proof.
  unfold clean. induction ps as [| p ps IH]; cbn.
  - split; [intros _ p rest Hp; now apply elem_of_nil in Hp | reflexivity].
  - destruct (Js.after p l) as [r |] eqn:E.
    + apply after_app in E. split; [discriminate |].
      intros H. exfalso. apply (H p r); [left | exact E].
    + rewrite IH. split.
      * intros H q rest Hq. apply elem_of_cons in Hq as [-> | Hq]; [| now apply H].
        intros Hl. apply after_app in Hl. congruence.
      * intros H q rest Hq. apply H. now right.
Qed.

Lemma clean_prefix (ps : list (list ascii)) (l tail : list ascii) :
  clean ps (l ++ tail) -> clean ps l.
Proof.
  rewrite !clean_spec. intros H p rest Hp ->.
  apply (H p (rest ++ tail) Hp). now rewrite app_assoc.
Qed.

Section Strip.

Context (ps : list (list ascii)).
Hypothesis Hne : Forall (fun p => p <> []) ps.

Lemma after_any_shorter (l rest : list ascii) :
  Js.after_any ps l = Some rest -> (length rest < length l)%nat.
Proof.
  intros H. apply after_any_Some in H as (p & Hp & ->).
  rewrite Forall_forall in Hne. specialize (Hne p Hp).
  rewrite length_app. destruct p; [contradiction | cbn; lia].
Qed.

Lemma strip_clean (n : nat) (l : list ascii) :
  (length l <= n)%nat -> clean ps (Js.strip n ps l).
Proof.
  revert l. induction n as [| n IH]; intros l Hn; cbn.
  - destruct l; [| cbn in Hn; lia].
    apply clean_spec. intros p rest Hp Hl.
    rewrite Forall_forall in Hne. apply (Hne p Hp).
    now destruct p.
  - destruct (Js.after_any ps l) as [rest |] eqn:E; [| exact E].
    apply IH. apply after_any_shorter in E. lia.
Qed.

Lemma strip_id (n : nat) (l : list ascii) :
  clean ps l -> Js.strip n ps l = l.
Proof. unfold clean. destruct n; cbn; [reflexivity |]. now intros ->. Qed.

Lemma strip_suffix (n : nat) (l : list ascii) :
  exists head, l = head ++ Js.strip n ps l.
Proof.
  revert l. induction n as [| n IH]; intros l; cbn; [now exists [] |].
  destruct (Js.after_any ps l) as [rest |] eqn:E; [| now exists []].
  apply after_any_Some in E as (p & _ & ->).
  destruct (IH rest) as (head & Hrest).
  exists (p ++ head). rewrite <- app_assoc. now f_equal.
Qed.

End Strip.

Lemma white_space_encoded :
  Forall (fun p => p <> []) (map Js.encode Js.WHITE_SPACE).
Proof. vm_compute. repeat constructor; discriminate. Qed.

Lemma white_space_reversed :
  Forall (fun p => p <> [])
    (map (fun cp => rev (Js.encode cp)) Js.WHITE_SPACE).
Proof. vm_compute. repeat constructor; discriminate. Qed.

(** A trimmed string starts and ends with no white space. *)
Lemma trim_clean (s : string) :
  clean (map Js.encode Js.WHITE_SPACE) (list_ascii_of_string (Js.trim s))
  /\ clean (map (fun cp => rev (Js.encode cp)) Js.WHITE_SPACE)
       (rev (list_ascii_of_string (Js.trim s))).
Proof.
  unfold Js.trim, Js.trimEnd, Js.trimStart.
  rewrite !list_ascii_of_string_of_list_ascii.
  set (l := list_ascii_of_string s).
  set (a := Js.strip (length l) _ l).
  set (b := Js.strip (length (rev a)) _ (rev a)).
  rewrite rev_involutive.
  assert (Ha : clean (map Js.encode Js.WHITE_SPACE) a)
    by (apply strip_clean; [apply white_space_encoded | reflexivity]).
  assert (Hb : clean (map (fun cp => rev (Js.encode cp)) Js.WHITE_SPACE) b)
    by (apply strip_clean; [apply white_space_reversed | reflexivity]).
  split; [| exact Hb].
  destruct (strip_suffix (map (fun cp => rev (Js.encode cp)) Js.WHITE_SPACE)
              (length (rev a)) (rev a)) as (head & Hhead).
  fold b in Hhead.
  assert (Hrev : a = rev b ++ rev head).
  { rewrite <- rev_app_distr, <- Hhead. now rewrite rev_involutive. }
  rewrite Hrev in Ha. now apply clean_prefix in Ha.
Qed.

Lemma trim_again (s : string) : Js.trim (Js.trim s) = Js.trim s.
Proof.
  destruct (trim_clean s) as [Hstart Hend].
  set (t := Js.trim s) in *. unfold Js.trim, Js.trimStart.
  rewrite (strip_id _ _ _ Hstart), string_of_list_ascii_of_string.
  unfold Js.trimEnd. rewrite (strip_id _ _ _ Hend), rev_involutive.
  apply string_of_list_ascii_of_string.
Qed.

Lemma truthy_length (s : string) :
  (0 <? Z.of_nat (String.length s)) = Js.truthy s.
Proof. destruct s; reflexivity. Qed.

Lemma trim_empty_of_falsy (s : string) : Js.truthy s = false -> Js.trim s = "".
Proof. destruct s; [reflexivity | discriminate]. Qed.

(** ** Lower case *)

Lemma encode_nonempty (cp : Z) : Js.encode cp <> [].
Proof. unfold Js.encode. repeat destruct (_ <? _); discriminate. Qed.

Lemma decode_nonempty (a : ascii) (l : list ascii) : Js.decode (a :: l) <> [].
Proof.
  cbn. destruct (_ <? _); [discriminate |].
  destruct l as [| b [| c [| d l]]]; try discriminate;
    repeat destruct (Js.encodes _ _); discriminate.
Qed.

Lemma lower_units_nonempty (before : bool) (u : Js.Unit) (rest : list Js.Unit) :
  Js.lower_units before (u :: rest) <> [].
Proof.
  cbn. intros H. apply app_eq_nil in H as [H _].
  destruct u as [cp | b]; [| discriminate].
  destruct (cp =? 931); [now apply encode_nonempty in H |].
  unfold Js.lower in H. destruct (cp =? 304); [discriminate |].
  destruct (List.find _ _) as [[[[? ?] ?] ?] |]; cbn in H;
    rewrite app_nil_r in H; now apply encode_nonempty in H.
Qed.

(** Only the empty string has an empty lower case. *)
Lemma toLowerCase_empty (s : string) : Js.toLowerCase s = "" <-> s = "".
Proof.
  split; [| now intros ->].
  destruct s as [| a s]; [reflexivity |]. unfold Js.toLowerCase. cbn [list_ascii_of_string].
  destruct (Js.decode (a :: list_ascii_of_string s)) as [| u rest] eqn:E;
    [now apply decode_nonempty in E |].
  pose proof (lower_units_nonempty false u rest) as H.
  destruct (Js.lower_units false (u :: rest)); [contradiction | discriminate].
Qed.

Lemma normalizeKeyword_Some (k : string) :
  normalizeKeyword (Some k)
  = if Js.truthy (Js.toLowerCase (Js.trim k))
    then Some (Js.toLowerCase (Js.trim k)) else None.
Proof.
  unfold normalizeKeyword. rewrite truthy_length.
  destruct (Js.truthy k) eqn:E; [reflexivity |].
  cbn. now rewrite (trim_empty_of_falsy k E).
Qed.

(** The route trims and defaults as the handler does. *)
Lemma normalizeKeyword_forwarded (payload : RefreshPayload) :
  normalizeKeyword (p_keyword (Route.forwarded payload))
  = normalizeKeyword (p_keyword payload).
Proof.
  unfold Route.forwarded. cbn. destruct (p_keyword payload) as [k |];
    [| reflexivity].
  rewrite (normalizeKeyword_Some k).
  destruct (Js.truthy (Js.trim k)) eqn:E.
  - now rewrite normalizeKeyword_Some, trim_again.
  - destruct (Js.trim k); [reflexivity | discriminate].
Qed.

Lemma serve_forwarded (P : Platform) (payload : RefreshPayload) (w : World) :
  serve P {| method := "POST"; body := Some (Route.forwarded payload) |} w
  = serve P {| method := "POST"; body := Some payload |} w.
Proof.
  unfold serve. cbn [method body]. rewrite normalizeKeyword_forwarded.
  unfold Route.forwarded. cbn [p_timeframe].
  destruct (p_timeframe payload); reflexivity.
Qed.

(** The keyword of a run. It is absent exactly when the request has no
    keyword or a blank one, one that is empty once the white space of
    Unicode is trimmed, such as a no-break space; otherwise it is the
    trimmed keyword in lower case, accented and Greek letters included,
    and is not empty. The trimming done by the Next.js route is therefore
    invisible: the handler does the same with the body the route forwards
    as with the body the route received. *)
Theorem keyword_normal_form (P : Platform) (keyword : option string)
    (payload : RefreshPayload) (w : World) :
  (normalizeKeyword keyword = None
   <-> keyword = None \/ exists k0, keyword = Some k0 /\ Js.trim k0 = "")
  /\ (forall k,
         normalizeKeyword keyword = Some k ->
         k <> ""
         /\ exists k0, keyword = Some k0 /\ k = Js.toLowerCase (Js.trim k0))
  /\ normalizeKeyword (Some (NBSP +:+ " ")) = None
  /\ normalizeKeyword (Some (" ÉCOLE ΟΔΟΣ" +:+ NBSP)) = Some "école οδος"
  /\ normalizeKeyword (p_keyword (Route.forwarded payload))
     = normalizeKeyword (p_keyword payload)
  /\ serve P {| method := "POST"; body := Some (Route.forwarded payload) |} w
     = serve P {| method := "POST"; body := Some payload |} w.
Proof.
  split; [| split; [| split; [| split; [| split]]]].
  - destruct keyword as [k0 |]; [| tauto].
    rewrite normalizeKeyword_Some. split.
    + destruct (Js.truthy _) eqn:E; [discriminate |]. intros _. right.
      exists k0. split; [reflexivity |]. apply toLowerCase_empty.
      now destruct (Js.toLowerCase (Js.trim k0)).
    + intros [[=] | (k & [= <-] & ->)]. reflexivity.
  - intros k Hk. destruct keyword as [k0 |]; [| discriminate].
    rewrite normalizeKeyword_Some in Hk.
    destruct (Js.truthy _) eqn:E; [| discriminate]. injection Hk as <-.
    split; [| now exists k0].
    intros E'. rewrite E' in E. discriminate.
  - vm_compute. reflexivity.
  - vm_compute. reflexivity.
  - apply normalizeKeyword_forwarded.
  - apply serve_forwarded.
Qed.

(** ** Keyword matching *)

Lemma startsWith_prefix (s p : string) :
  Js.startsWith s p = true <-> exists post, s = p +:+ post.
Proof.
  revert s. induction p as [| a p IH]; intros s.
  - split; [intros _; now exists s | intros _; now destruct s].
  - destruct s as [| b s]; cbn; [split; [discriminate | intros (? & [=])] |].
    destruct (ascii_dec a b) as [<- | Hab].
    + rewrite IH. split; intros (post & H); exists post;
        [now rewrite H | now injection H].
    + split; [discriminate | intros (? & [= ? _]); congruence].
Qed.

Lemma includes_infix (s p : string) :
  Js.includes s p = true <-> exists pre post, s = pre +:+ p +:+ post.
Proof.
  induction s as [| c s IH].
  - change (Js.includes "" p) with (Js.startsWith "" p || false).
    rewrite orb_true_iff, startsWith_prefix. split.
    + intros [(post & H) | [=]]. now exists "", post.
    + intros (pre & post & H). left. exists post.
      destruct pre; [exact H | discriminate].
  - change (Js.includes (String c s) p)
      with (Js.startsWith (String c s) p || Js.includes s p).
    rewrite orb_true_iff, startsWith_prefix, IH. split.
    + intros [(post & H) | (pre & post & H)].
      * now exists "", post.
      * exists (String c pre), post. cbn. now rewrite H.
    + intros (pre & post & H). destruct pre as [| c' pre].
      * left. now exists post.
      * right. injection H as _ H. now exists pre, post.
Qed.

(** Keyword matching is containment without regard to case, as
    [toLowerCase] folds it, for letters outside ASCII too: a text passes
    when the run has no keyword, which includes a blank one, or when its
    lower-case form contains the normalised keyword somewhere, not
    necessarily as a word. *)
Theorem keyword_matching_is_containment (text : string)
    (keyword : option string) :
  (matchesKeyword text (normalizeKeyword keyword) = true
   <-> normalizeKeyword keyword = None
       \/ exists k pre post,
            normalizeKeyword keyword = Some k
            /\ Js.toLowerCase text = pre +:+ k +:+ post)
  /\ matchesKeyword "ÉCOLE" (Some "école") = true
  /\ matchesKeyword "Grande ÉCOLE" (normalizeKeyword (Some " École ")) = true
  /\ matchesKeyword "ecole" (Some "école") = false.
Proof.
  split; [| repeat split; vm_compute; reflexivity].
  destruct (normalizeKeyword keyword) as [k |] eqn:Hk.
  - destruct keyword as [k0 |]; [| discriminate].
    rewrite normalizeKeyword_Some in Hk.
    destruct (Js.truthy _) eqn:Htruthy; [| discriminate].
    injection Hk as <-.
    unfold matchesKeyword. cbn [Js.truthy_opt default negb]. rewrite Htruthy.
    cbn [negb]. rewrite includes_infix. split.
    + intros (pre & post & H). right.
      exists (Js.toLowerCase (Js.trim k0)), pre, post. split; [reflexivity |].
      exact H.
    + intros [[=] | (k & pre & post & [= <-] & H)]. now exists pre, post.
  - split; [now left | reflexivity].
Qed.

(** ** Dates *)

Lemma time_value_parts (t : Z) :
  UtcDate.MakeDate (UtcDate.Day t)
    (UtcDate.MakeTime (UtcDate.HourFromTime t) (UtcDate.MinFromTime t)
       (UtcDate.SecFromTime t) (UtcDate.msFromTime t))
  = t.
Proof.
  unfold UtcDate.MakeDate, UtcDate.MakeTime, UtcDate.Day, UtcDate.HourFromTime,
    UtcDate.MinFromTime, UtcDate.SecFromTime, UtcDate.msFromTime,
    UtcDate.msPerDay, UtcDate.msPerHour, UtcDate.msPerMinute,
    UtcDate.msPerSecond.
  pose proof (Z.div_mod t 1000 ltac:(lia)) as H1.
  pose proof (Z.div_mod (t / 1000) 60 ltac:(lia)) as H2.
  rewrite (Z.div_div t 1000 60) in H2 by lia.
  pose proof (Z.div_mod (t / 60000) 60 ltac:(lia)) as H3.
  rewrite (Z.div_div t 60000 60) in H3 by lia.
  pose proof (Z.div_mod (t / 3600000) 24 ltac:(lia)) as H4.
  rewrite (Z.div_div t 3600000 24) in H4 by lia.
  change (1000 * 60) with 60000 in *. change (60000 * 60) with 3600000 in *.
  change (3600000 * 24) with 86400000 in *.
  lia.
Qed.

Lemma setUTCHours_back (t hours : Z) :
  UtcDate.setUTCHours t (UtcDate.getUTCHours t - hours)
  = UtcDate.TimeClip (t - hours * UtcDate.msPerHour).
Proof.
  unfold UtcDate.setUTCHours, UtcDate.getUTCHours. f_equal.
  pose proof (time_value_parts t) as H.
  unfold UtcDate.MakeDate, UtcDate.MakeTime, UtcDate.msPerDay,
    UtcDate.msPerHour, UtcDate.msPerMinute, UtcDate.msPerSecond in *.
  lia.
Qed.

(** The window of a run is exact. Moving the date back with [setUTCHours]
    moves its time value back by the hours of the timeframe, whatever the
    hour of the day and however many days that crosses: the start of the
    window, in seconds, is the floor of that time value over 1000, which is
    the [cutoff] of the pipeline and lies less than a second before that
    time value. *)
Theorem window_is_exact (since hours : Z) :
  JsDate.valid (since - hours * 3600000) = true ->
  UtcDate.sinceEpoch since hours = Some (cutoff since hours)
  /\ (since - hours * 3600000) - 1000 < cutoff since hours * 1000
     <= since - hours * 3600000.
Proof.
  intros Hvalid. unfold UtcDate.sinceEpoch.
  rewrite setUTCHours_back. unfold UtcDate.TimeClip, UtcDate.msPerHour.
  rewrite Hvalid. split; [reflexivity |].
  unfold cutoff.
  pose proof (Z.div_mod (since - hours * 3600000) 1000 ltac:(lia)).
  pose proof (Z.mod_pos_bound (since - hours * 3600000) 1000 ltac:(lia)).
  lia.
Qed.

(** A run on 2024-01-08 at 00:30 UTC over seven days. *)
Lemma window_is_exact_witness :
  UtcDate.sinceEpoch 1704673800000 168 = Some (cutoff 1704673800000 168).
Proof.
  exact (proj1 (window_is_exact 1704673800000 168 eq_refl)).
Defined.

Lemma utcMidnight_day (t : Z) :
  JsDate.utcMidnight t = UtcDate.Day t * UtcDate.msPerDay.
Proof.
  unfold JsDate.utcMidnight, UtcDate.Day, UtcDate.msPerDay, JsDate.MS_PER_DAY.
  pose proof (Z.div_mod t 86400000 ltac:(lia)). lia.
Qed.

Lemma utcMidnight_valid (t : Z) :
  JsDate.valid t = true -> JsDate.valid (JsDate.utcMidnight t) = true.
Proof.
  unfold JsDate.valid, JsDate.utcMidnight, JsDate.MAX_TIME, JsDate.MS_PER_DAY.
  intros H. apply andb_true_iff in H as [Hlo Hhi].
  apply Z.leb_le in Hlo, Hhi.
  pose proof (Z.div_mod t 86400000 ltac:(lia)).
  pose proof (Z.mod_pos_bound t 86400000 ltac:(lia)).
  assert (- 100000000 <= t / 86400000)
    by (apply Z.div_le_lower_bound; lia).
  apply andb_true_iff. split; apply Z.leb_le; lia.
Qed.

Lemma isoDate_utcMidnight (t : Z) :
  JsDate.isoDate (JsDate.utcMidnight t) = JsDate.isoDate t.
Proof.
  unfold JsDate.isoDate. rewrite utcMidnight_day.
  unfold UtcDate.Day, UtcDate.msPerDay, JsDate.MS_PER_DAY.
  now rewrite Z.div_mul by lia.
Qed.

(** The bucket of an item is its UTC day. For a valid timestamp the call
    of [setUTCHours(0, 0, 0, 0)] never fails and stays within the day, so
    the bucket date is the date part of the timestamp itself; an item of
    the same subreddit and the same UTC day is therefore counted in the row
    of the first one, and adds no row. *)
Theorem bucket_is_the_utc_day (aggregates : gmap string AggregateRow)
    (first second : AggregateArgs) :
  JsDate.valid (a_timestamp first) = true ->
  a_subredditId second = a_subredditId first ->
  a_timestamp second / 86400000 = a_timestamp first / 86400000 ->
  UtcDate.bucketDate (a_timestamp first)
  = Some (JsDate.isoDate (a_timestamp first))
  /\ UtcDate.bucketDate (a_timestamp second)
     = UtcDate.bucketDate (a_timestamp first)
  /\ exists key row,
       updateAggregate aggregates first !! key = Some row
       /\ updateAggregate (updateAggregate aggregates first) second
          = <[key := bump (a_label second) row]>
              (updateAggregate aggregates first).
Proof.
  intros Hvalid Hsub Hday.
  assert (Hsame : JsDate.utcMidnight (a_timestamp second)
                  = JsDate.utcMidnight (a_timestamp first)).
  { rewrite !utcMidnight_day. unfold UtcDate.Day, UtcDate.msPerDay.
    now rewrite Hday. }
  assert (Hbucket : forall t,
             UtcDate.setUTCHours_all t 0 0 0 0
             = UtcDate.TimeClip (JsDate.utcMidnight t)).
  { intros t. unfold UtcDate.setUTCHours_all. f_equal.
    rewrite utcMidnight_day. unfold UtcDate.MakeDate, UtcDate.MakeTime. lia. }
  split; [| split].
  - unfold UtcDate.bucketDate. rewrite Hbucket.
    unfold UtcDate.TimeClip, JsDate.toISOString.
    rewrite (utcMidnight_valid _ Hvalid). cbv iota beta.
    rewrite (utcMidnight_valid _ Hvalid). now rewrite isoDate_utcMidnight.
  - unfold UtcDate.bucketDate. now rewrite !Hbucket, Hsame.
  - unfold updateAggregate at 2 3. rewrite Hsame, Hsub.
    set (key := a_subredditId first +:+ ":" +:+ _).
    unfold updateAggregate at 1. fold key.
    rewrite lookup_insert_eq. exists key. eexists. split; [| reflexivity].
    apply lookup_insert_eq.
Qed.

(** Two comments of the afternoon of 2024-01-01 in one subreddit. *)
Lemma bucket_is_the_utc_day_witness :
  UtcDate.bucketDate 1704117600000 = Some (JsDate.isoDate 1704117600000).
Proof.
  exact (proj1
           (bucket_is_the_utc_day ∅
              {| a_subredditId := "s1"; a_timeframe := "7d";
                 a_timestamp := 1704117600000; a_label := Positive |}
              {| a_subredditId := "s1"; a_timeframe := "7d";
                 a_timestamp := 1704121200000; a_label := Neutral |}
              eq_refl eq_refl eq_refl)).
Defined.

(** * Properties of the web application *)

(** ** The order of strings *)

Lemma ascii_compare_refl (a : ascii) : Ascii.compare a a = Eq.
Proof. unfold Ascii.compare. apply N.compare_refl. Qed.

Lemma string_compare_refl (s : string) : String.compare s s = Eq.
Proof.
  induction s as [| c s IH]; [reflexivity |].
  cbn. now rewrite ascii_compare_refl.
Qed.

Lemma string_compare_lt_trans (a b c : string) :
  String.compare a b = Lt -> String.compare b c = Lt ->
  String.compare a c = Lt.
Proof.
  revert b c. induction a as [| x a IH]; intros [| y b] [| z c]; cbn;
    try discriminate; try reflexivity.
  unfold Ascii.compare.
  destruct (N.compare_spec (N_of_ascii x) (N_of_ascii y)) as [E1 | L1 | G1];
    try discriminate;
    destruct (N.compare_spec (N_of_ascii y) (N_of_ascii z)) as [E2 | L2 | G2];
    try discriminate; intros H1 H2.
  - rewrite E1, E2, N.compare_refl. eapply IH; eassumption.
  - rewrite E1. now apply N.compare_lt_iff in L2 as ->.
  - rewrite <- E2. now apply N.compare_lt_iff in L1 as ->.
  - assert (L : (N_of_ascii x < N_of_ascii z)%N) by lia.
    now apply N.compare_lt_iff in L as ->.
Qed.

Lemma string_ltb_irrefl (a : string) : String.ltb a a = false.
Proof. unfold String.ltb. now rewrite string_compare_refl. Qed.

Lemma string_ltb_trans (a b c : string) :
  String.ltb a b = true -> String.ltb b c = true -> String.ltb a c = true.
Proof.
  unfold String.ltb. intros H1 H2.
  destruct (String.compare a b) eqn:E1; try discriminate.
  destruct (String.compare b c) eqn:E2; try discriminate.
  now rewrite (string_compare_lt_trans a b c E1 E2).
Qed.

Lemma string_ltb_total (a b : string) :
  String.ltb a b = true \/ a = b \/ String.ltb b a = true.
Proof.
  unfold String.ltb. rewrite (String.compare_antisym b a).
  destruct (String.compare a b) eqn:E; cbn; auto.
  right. left. now apply String.compare_eq_iff.
Qed.

Lemma string_ltb_asym (a b : string) :
  String.ltb a b = true -> String.ltb b a = false.
Proof.
  intros H. destruct (String.ltb b a) eqn:E; [| reflexivity].
  pose proof (string_ltb_trans a b a H E) as C.
  now rewrite string_ltb_irrefl in C.
Qed.

(** ** Sorting *)

Section Sorting.

Context {A : Type} (compare : A -> A -> Z).

Lemma insert_perm (x : A) (l : list A) : JsArray.insert compare x l ≡ₚ x :: l.
Proof.
  induction l as [| y l IH]; [reflexivity |].
  cbn. destruct (0 <? compare y x); [reflexivity |].
  rewrite IH. apply Permutation_swap.
Qed.

Lemma sort_perm (l : list A) : JsArray.sort compare l ≡ₚ l.
Proof.
  unfold JsArray.sort.
  assert (Hgen : forall acc, fold_left (fun s x => JsArray.insert compare x s) l acc
                             ≡ₚ acc ++ l).
  { induction l as [| x l IH]; intros acc; cbn; [now rewrite app_nil_r |].
    rewrite IH, insert_perm. cbn. apply Permutation_middle. }
  now rewrite Hgen.
Qed.

(** A comparator that orders its arguments consistently: [before a b]
    when it does not put [a] after [b]. *)
Context (before : A -> A -> Prop).
Hypothesis Hnot_after : forall a b, compare a b <= 0 -> before a b.
Hypothesis Hafter : forall a b, 0 < compare a b -> before b a.
Hypothesis Htrans : forall a b c, before a b -> before b c -> before a c.

Lemma insert_sorted (x : A) (l : list A) :
  StronglySorted before l -> StronglySorted before (JsArray.insert compare x l).
Proof.
  induction 1 as [| y l Hl IH Hy]; cbn.
  - repeat constructor.
  - destruct (0 <? compare y x) eqn:E.
    + apply Z.ltb_lt in E. constructor; [now constructor |].
      constructor; [now apply Hafter |].
      eapply Forall_impl; [exact Hy |]. cbn. intros z Hz.
      eapply Htrans; [apply Hafter; exact E | exact Hz].
    + apply Z.ltb_ge in E. constructor; [exact IH |].
      rewrite (insert_perm x l). constructor; [now apply Hnot_after | exact Hy].
Qed.

Lemma sort_sorted (l : list A) : StronglySorted before (JsArray.sort compare l).
Proof.
  unfold JsArray.sort.
  assert (Hgen : forall acc,
             StronglySorted before acc ->
             StronglySorted before
               (fold_left (fun s x => JsArray.insert compare x s) l acc)).
  { induction l as [| x l IH]; intros acc Hacc; cbn; [exact Hacc |].
    apply IH. now apply insert_sorted. }
  apply Hgen. constructor.
Qed.

End Sorting.

(** ** Query parameters *)

Lemma tables_agree (timeframe : string) :
  TIMEFRAME_CONFIG timeframe
  = match Timeframes.TIMEFRAMES timeframe with
    | Some entry => Some (snd entry)
    | None => None
    end.
Proof.
  unfold TIMEFRAME_CONFIG, Timeframes.TIMEFRAMES.
  repeat destruct (String.eqb _ _); reflexivity.
Qed.

Lemma hasOwn_supported (timeframe : string) :
  Timeframes.hasOwn timeframe = true ->
  exists hours, TIMEFRAME_CONFIG timeframe = Some hours.
Proof.
  unfold Timeframes.hasOwn. rewrite tables_agree.
  destruct (Timeframes.TIMEFRAMES timeframe) as [[label hours] |];
    [eauto | discriminate].
Qed.

(** The query parameters are sanitised. The timeframe table of the web
    application and that of the edge function hold the same keys with the
    same hours; the timeframe kept by the dashboard page and by the
    sentiment API route is always one of these keys, so the edge function
    never refuses it, and it is the requested one whenever that one is a
    key; for a value that is not a key, and for a missing one, it is "7d";
    the subreddit kept by the page is "all" or the identifier of a listed
    subreddit. *)
Theorem query_parameters_are_sanitised (timeframe subreddit : Web.Param)
    (input : option string) (subreddits : list Web.Subreddit) :
  (forall key,
      TIMEFRAME_CONFIG key
      = match Timeframes.TIMEFRAMES key with
        | Some entry => Some (snd entry)
        | None => None
        end)
  /\ (exists hours,
         TIMEFRAME_CONFIG (Web.resolveTimeframe timeframe) = Some hours)
  /\ (exists hours, TIMEFRAME_CONFIG (Web.normalizeTimeframe input) = Some hours)
  /\ (forall key,
         Timeframes.hasOwn key = true ->
         Web.resolveTimeframe (Web.Single key) = key
         /\ Web.resolveTimeframe (Web.Multiple [key]) = key
         /\ Web.normalizeTimeframe (Some key) = key)
  /\ (forall key,
         Timeframes.hasOwn key = false ->
         Web.resolveTimeframe (Web.Single key) = "7d"
         /\ Web.resolveTimeframe (Web.Multiple [key]) = "7d"
         /\ Web.normalizeTimeframe (Some key) = "7d")
  /\ Web.resolveTimeframe Web.Absent = "7d"
  /\ Web.resolveTimeframe (Web.Multiple []) = "7d"
  /\ Web.normalizeTimeframe None = "7d"
  /\ (Web.resolveSubreddit subreddit subreddits = "all"
      \/ exists item,
           item ∈ subreddits
           /\ Web.ds_id item = Web.resolveSubreddit subreddit subreddits).
Proof.
  split; [exact tables_agree |].
  split; [| split; [| split; [| split; [| split; [| split; [| split]]]]]];
    try reflexivity.
  - unfold Web.resolveTimeframe.
    destruct (Web.first timeframe) as [v |]; [| now exists (7 * 24)].
    destruct (negb (Js.truthy v)); [now exists (7 * 24) |].
    destruct (Timeframes.hasOwn v) eqn:E; [| now exists (7 * 24)].
    now apply hasOwn_supported.
  - unfold Web.normalizeTimeframe.
    destruct input as [v |]; [| now exists (7 * 24)].
    destruct (negb (Js.truthy v)); [now exists (7 * 24) |].
    destruct (Timeframes.hasOwn v) eqn:E; [| now exists (7 * 24)].
    now apply hasOwn_supported.
  - intros key Hkey.
    assert (Ht : Js.truthy key = true).
    { destruct key; [discriminate Hkey | reflexivity]. }
    unfold Web.resolveTimeframe, Web.normalizeTimeframe. cbn.
    now rewrite Ht, Hkey.
  - intros key Hkey.
    unfold Web.resolveTimeframe, Web.normalizeTimeframe. cbn.
    rewrite Hkey. now destruct (negb (Js.truthy key)).
  - unfold Web.resolveSubreddit.
    destruct (Web.first subreddit) as [v |]; [| now left].
    destruct (_ || _); [now left |].
    destruct (existsb _ subreddits) eqn:E; [| now left].
    right. apply existsb_exists in E as (item & Hin & Heq).
    apply String.eqb_eq in Heq. exists item.
    split; [now apply list_elem_of_In | exact Heq].
Qed.

(** ** Totals *)

Lemma sumOf_from {A} (f : A -> Z) (l : list A) (start : Z) :
  fold_left (fun sum row => sum + f row) l start = start + Web.sumOf f l.
Proof.
  unfold Web.sumOf. revert start.
  induction l as [| x l IH]; intros start; cbn; [lia |].
  rewrite IH, (IH (0 + f x)). lia.
Qed.

Lemma sumOf_cons {A} (f : A -> Z) (x : A) (l : list A) :
  Web.sumOf f (x :: l) = f x + Web.sumOf f l.
Proof. unfold Web.sumOf at 1. cbn. now rewrite sumOf_from. Qed.

Lemma sumOf_app {A} (f : A -> Z) (l l' : list A) :
  Web.sumOf f (l ++ l') = Web.sumOf f l + Web.sumOf f l'.
Proof.
  induction l as [| x l IH]; [reflexivity |].
  rewrite <- app_comm_cons, !sumOf_cons, IH. lia.
Qed.

Lemma sumOf_perm {A} (f : A -> Z) (l l' : list A) :
  l ≡ₚ l' -> Web.sumOf f l = Web.sumOf f l'.
Proof.
  induction 1 as [| x l l' _ IH | x y l | l l' l'' _ IH _ IH'];
    rewrite ?sumOf_cons; [reflexivity | now rewrite IH | lia | congruence].
Qed.

Lemma sumOf_map {A B} (f : B -> Z) (g : A -> B) (l : list A) :
  Web.sumOf f (map g l) = Web.sumOf (fun x => f (g x)) l.
Proof.
  induction l as [| x l IH]; [reflexivity |].
  cbn [map]. now rewrite !sumOf_cons, IH.
Qed.

Lemma add_buckets (buckets : list Web.TrendPoint) (acc : Web.Totals) :
  fold_left Web.add_bucket buckets acc
  = {| Web.tot_subredditId := Web.tot_subredditId acc;
       Web.tot_positive :=
         Web.tot_positive acc + Web.sumOf Web.tp_positive buckets;
       Web.tot_neutral := Web.tot_neutral acc + Web.sumOf Web.tp_neutral buckets;
       Web.tot_negative :=
         Web.tot_negative acc + Web.sumOf Web.tp_negative buckets;
       Web.tot_activity :=
         Web.tot_activity acc + Web.sumOf Web.tp_activityCount buckets |}.
Proof.
  revert acc. induction buckets as [| b buckets IH]; intros acc.
  - destruct acc. cbn. f_equal; unfold Web.sumOf; cbn; lia.
  - cbn [fold_left]. rewrite IH, !sumOf_cons. cbn. f_equal; lia.
Qed.

Lemma aggregate_buckets (buckets : list Web.TrendPoint) (acc : Web.Aggregate) :
  fold_left
    (fun acc bucket =>
       {| Web.ag_positive := Web.ag_positive acc + Web.tp_positive bucket;
          Web.ag_neutral := Web.ag_neutral acc + Web.tp_neutral bucket;
          Web.ag_negative := Web.ag_negative acc + Web.tp_negative bucket;
          Web.ag_activity := Web.ag_activity acc + Web.tp_activityCount bucket |})
    buckets acc
  = {| Web.ag_positive := Web.ag_positive acc + Web.sumOf Web.tp_positive buckets;
       Web.ag_neutral := Web.ag_neutral acc + Web.sumOf Web.tp_neutral buckets;
       Web.ag_negative := Web.ag_negative acc + Web.sumOf Web.tp_negative buckets;
       Web.ag_activity :=
         Web.ag_activity acc + Web.sumOf Web.tp_activityCount buckets |}.
Proof.
  revert acc. induction buckets as [| b buckets IH]; intros acc.
  - destruct acc. cbn. f_equal; unfold Web.sumOf; cbn; lia.
  - cbn [fold_left]. rewrite IH, !sumOf_cons. cbn. f_equal; lia.
Qed.

(** The points of one subreddit. *)
Lemma totalsBySubreddit_rows (subreddits : list Web.Subreddit)
    (trend : list Web.TrendPoint) :
  Web.totalsBySubreddit subreddits trend
  = map (fun s =>
           let related :=
             List.filter
               (fun b => String.eqb (Web.tp_subredditId b) (Web.ds_id s)) trend in
           {| Web.st_id := Web.ds_id s;
              Web.st_displayName := Web.ds_displayName s;
              Web.st_positive := Web.sumOf Web.tp_positive related;
              Web.st_neutral := Web.sumOf Web.tp_neutral related;
              Web.st_negative := Web.sumOf Web.tp_negative related;
              Web.st_activity := Web.sumOf Web.tp_activityCount related |})
      subreddits.
Proof.
  unfold Web.totalsBySubreddit. apply map_ext. intros s.
  rewrite aggregate_buckets. reflexivity.
Qed.

Lemma sumOf_balanced (points : list Web.TrendPoint) :
  Forall (fun p => Web.tp_positive p + Web.tp_neutral p + Web.tp_negative p
                   = Web.tp_activityCount p) points ->
  Web.sumOf Web.tp_positive points + Web.sumOf Web.tp_neutral points
  + Web.sumOf Web.tp_negative points
  = Web.sumOf Web.tp_activityCount points.
Proof.
  induction 1 as [| p points Hp _ IH]; [reflexivity |].
  rewrite !sumOf_cons. lia.
Qed.

Lemma listed_once (ids : list string) (x : string) :
  NoDup ids -> x ∈ ids -> length (List.filter (String.eqb x) ids) = 1%nat.
Proof.
  induction 1 as [| i ids Hi Hnd IH]; [inversion 1 |].
  intros Hx. cbn. destruct (String.eqb_spec x i) as [-> | E].
  - cbn. f_equal.
    assert (Hnone : forall l, i ∉ l -> List.filter (String.eqb i) l = []).
    { induction l as [| j l IHl]; [reflexivity |]. intros Hl. cbn.
      destruct (String.eqb_spec i j) as [-> | _].
      - exfalso. apply Hl. left.
      - apply IHl. intros H. apply Hl. now right. }
    now rewrite Hnone.
  - apply IH. apply elem_of_cons in Hx as [Hx | Hx]; [contradiction | exact Hx].
Qed.

Lemma sum_by_subreddit_cons (f : Web.TrendPoint -> Z) (ids : list string)
    (p : Web.TrendPoint) (trend : list Web.TrendPoint) :
  Web.sumOf
    (fun id =>
       Web.sumOf f
         (List.filter (fun b => String.eqb (Web.tp_subredditId b) id)
            (p :: trend)))
    ids
  = f p * Z.of_nat (length (List.filter (String.eqb (Web.tp_subredditId p)) ids))
    + Web.sumOf
        (fun id =>
           Web.sumOf f
             (List.filter (fun b => String.eqb (Web.tp_subredditId b) id) trend))
        ids.
Proof.
  induction ids as [| i ids IH]; [cbn; unfold Web.sumOf; cbn; lia |].
  rewrite !sumOf_cons, IH. cbn [List.filter].
  destruct (String.eqb (Web.tp_subredditId p) i);
    rewrite ?sumOf_cons; cbn [length]; lia.
Qed.

(** Summing, subreddit by subreddit, the points of each subreddit is
    summing all the points when every point has its subreddit listed once. *)
Lemma sum_by_subreddit (f : Web.TrendPoint -> Z) (ids : list string)
    (trend : list Web.TrendPoint) :
  NoDup ids ->
  Forall (fun p => Web.tp_subredditId p ∈ ids) trend ->
  Web.sumOf
    (fun id =>
       Web.sumOf f
         (List.filter (fun b => String.eqb (Web.tp_subredditId b) id) trend))
    ids
  = Web.sumOf f trend.
Proof.
  intros Hnd. induction 1 as [| p trend Hp _ IH].
  - cbn. clear Hnd. induction ids as [| i ids IHi]; [reflexivity |].
    now rewrite sumOf_cons, IHi.
  - rewrite sum_by_subreddit_cons, IH, sumOf_cons.
    rewrite (listed_once ids _ Hnd Hp). lia.
Qed.

(** The totals of the dashboard. The page and the API route compute the
    same totals. Read from a balanced daily table, the totals of every
    subreddit are balanced, and the total activity the page derives from
    the three label totals is the sum of the activity counts. When the
    subreddits are listed once each and every point belongs to one of them,
    no count is lost or counted twice. *)
Theorem dashboard_totals (subreddits : list Web.Subreddit)
    (trend : list Web.TrendPoint) :
  map (fun t => (Web.tot_subredditId t, Web.tot_positive t, Web.tot_neutral t,
                 Web.tot_negative t, Web.tot_activity t))
    (Web.apiTotals subreddits trend)
  = map (fun t => (Web.st_id t, Web.st_positive t, Web.st_neutral t,
                   Web.st_negative t, Web.st_activity t))
      (Web.totalsBySubreddit subreddits trend)
  /\ (forall d tf,
         balanced_daily d ->
         trend ≡ₚ map Web.trendOf
                    (List.filter (fun row => String.eqb (timeframe row) tf)
                       (subreddit_sentiment_daily d)) ->
         Forall (fun t => Web.st_positive t + Web.st_neutral t + Web.st_negative t
                          = Web.st_activity t)
           (Web.totalsBySubreddit subreddits trend)
         /\ Web.totalActivity (Web.totalsBySubreddit subreddits trend)
            = Web.sumOf Web.st_activity (Web.totalsBySubreddit subreddits trend))
  /\ (NoDup (map Web.ds_id subreddits) ->
      Forall (fun p => Web.tp_subredditId p ∈ map Web.ds_id subreddits) trend ->
      Web.positiveTotal (Web.totalsBySubreddit subreddits trend)
      = Web.sumOf Web.tp_positive trend
      /\ Web.neutralTotal (Web.totalsBySubreddit subreddits trend)
         = Web.sumOf Web.tp_neutral trend
      /\ Web.negativeTotal (Web.totalsBySubreddit subreddits trend)
         = Web.sumOf Web.tp_negative trend).
Proof.
  rewrite totalsBySubreddit_rows.
  split; [| split].
  - unfold Web.apiTotals. rewrite !map_map. apply map_ext. intros s.
    rewrite add_buckets. reflexivity.
  - intros d tf Hd Htrend.
    assert (Hpoints : Forall (fun p => Web.tp_positive p + Web.tp_neutral p
                                       + Web.tp_negative p
                                       = Web.tp_activityCount p) trend).
    { rewrite Htrend. apply Forall_fmap.
      apply Forall_forall. intros row Hrow. apply list_elem_of_In in Hrow.
      apply filter_In in Hrow as [Hrow _]. apply list_elem_of_In in Hrow.
      unfold balanced_daily in Hd. rewrite Forall_forall in Hd.
      exact (Hd row Hrow). }
    assert (Hrows : forall s,
               Forall (fun p => Web.tp_positive p + Web.tp_neutral p
                                + Web.tp_negative p = Web.tp_activityCount p)
                 (List.filter
                    (fun b => String.eqb (Web.tp_subredditId b) (Web.ds_id s))
                    trend)).
    { intros s. now apply Forall_list_filter. }
    split.
    + apply Forall_fmap, Forall_forall. intros s _. cbn.
      now apply sumOf_balanced.
    + unfold Web.totalActivity, Web.positiveTotal, Web.neutralTotal,
        Web.negativeTotal.
      rewrite !sumOf_map. cbn.
      induction subreddits as [| s subs IH]; [reflexivity |].
      rewrite !sumOf_cons. pose proof (sumOf_balanced _ (Hrows s)). lia.
  - intros Hnd Hin.
    unfold Web.positiveTotal, Web.neutralTotal, Web.negativeTotal.
    rewrite !sumOf_map. cbn.
    rewrite <- (sum_by_subreddit Web.tp_positive _ trend Hnd Hin),
      <- (sum_by_subreddit Web.tp_neutral _ trend Hnd Hin),
      <- (sum_by_subreddit Web.tp_negative _ trend Hnd Hin).
    now rewrite !sumOf_map.
Qed.

(** ** The most active subreddit *)

Lemma head_sorted {A} (before : A -> A -> Prop) (l : list A) (x : A) :
  StronglySorted before l -> head l = Some x ->
  forall y, y ∈ l -> y = x \/ before x y.
Proof.
  intros Hs Hx y Hy. destruct Hs as [| z l _ Hz]; [discriminate |].
  injection Hx as ->. apply elem_of_cons in Hy as [-> | Hy]; [now left |].
  right. rewrite Forall_forall in Hz. now apply Hz.
Qed.

(** The subreddit the page shows as the most active one has a positive
    activity and no listed subreddit has a larger one; none is shown
    exactly when no subreddit has a positive activity. *)
Theorem top_subreddit_is_the_most_active (rows : list Web.SubredditTotals) :
  match Web.topSubreddit rows with
  | Some top =>
      top ∈ rows /\ 0 < Web.st_activity top
      /\ forall row, row ∈ rows -> Web.st_activity row <= Web.st_activity top
  | None => forall row, row ∈ rows -> Web.st_activity row <= 0
  end.
Proof.
  unfold Web.topSubreddit.
  set (compare := fun a b => Web.st_activity b - Web.st_activity a).
  set (active := List.filter (fun row => 0 <? Web.st_activity row) rows).
  pose proof (sort_perm compare active) as Hperm.
  assert (Hsorted : StronglySorted
                      (fun a b => Web.st_activity b <= Web.st_activity a)
                      (JsArray.sort compare active)).
  { apply (sort_sorted compare); unfold compare; intros; lia. }
  assert (Hactive : forall row, row ∈ active
                                <-> row ∈ rows /\ 0 < Web.st_activity row).
  { intros row. unfold active. rewrite !list_elem_of_In, filter_In.
    now rewrite Z.ltb_lt. }
  destruct (JsArray.sort compare active) as [| top sorted] eqn:E; cbn.
  - intros row Hrow.
    destruct (Z.le_gt_cases (Web.st_activity row) 0) as [H | H]; [exact H |].
    assert (Hin : row ∈ active) by (apply Hactive; split; [exact Hrow | lia]).
    rewrite <- Hperm in Hin. inversion Hin.
  - assert (Htop : top ∈ active) by (rewrite <- Hperm; left).
    apply Hactive in Htop as [Htop Hpos].
    split; [exact Htop | split; [exact Hpos |]].
    intros row Hrow.
    destruct (Z.le_gt_cases (Web.st_activity row) 0) as [H | H]; [lia |].
    assert (Hin : row ∈ active) by (apply Hactive; split; [exact Hrow | lia]).
    rewrite <- Hperm in Hin.
    destruct (head_sorted _ _ top Hsorted eq_refl row Hin) as [-> | Hle]; lia.
Qed.

(** ** The series of the charts *)

Lemma sorted_strict {A} (key : A -> string) (l : list A) :
  StronglySorted
    (fun a b => key a = key b \/ String.ltb (key a) (key b) = true) l ->
  NoDup (map key l) ->
  StronglySorted (fun a b => String.ltb (key a) (key b) = true) l.
Proof.
  induction 1 as [| x l Hl IH Hx]; [constructor |].
  cbn. intros Hnd. apply NoDup_cons in Hnd as [Hx' Hnd].
  constructor; [now apply IH |].
  apply Forall_forall. intros y Hy. rewrite Forall_forall in Hx.
  destruct (Hx y Hy) as [E | H]; [| exact H].
  exfalso. apply Hx'. rewrite E. apply list_elem_of_fmap. exists y.
  split; [reflexivity | exact Hy].
Qed.

Lemma sorted_map {A B} (f : A -> B) (R : B -> B -> Prop) (l : list A) :
  StronglySorted (fun a b => R (f a) (f b)) l -> StronglySorted R (map f l).
Proof.
  induction 1 as [| x l _ IH Hx]; cbn; constructor; [exact IH |].
  now apply Forall_fmap.
Qed.

Lemma weakly_before_trans (a b c : string) :
  a = b \/ String.ltb a b = true -> b = c \/ String.ltb b c = true ->
  a = c \/ String.ltb a c = true.
Proof.
  intros [-> | H1] [-> | H2]; auto. right. eapply string_ltb_trans; eassumption.
Qed.

Section Maps.

Context {V : Type}.

Lemma get_set (key : string) (value : V) (m : list (string * V)) (k : string) :
  JsArray.get k (JsArray.set key value m)
  = if String.eqb key k then Some value else JsArray.get k m.
Proof.
  unfold JsArray.get.
  induction m as [| [k' v'] m IH]; cbn.
  - now destruct (String.eqb key k).
  - destruct (String.eqb_spec k' key) as [-> | E]; cbn.
    + destruct (String.eqb key k); reflexivity.
    + destruct (String.eqb_spec k' k) as [-> | E'].
      * destruct (String.eqb_spec key k) as [-> | _]; [contradiction |].
        reflexivity.
      * exact IH.
Qed.

Lemma set_keys (key : string) (value : V) (m : list (string * V)) (k : string) :
  k ∈ map fst (JsArray.set key value m) <-> k = key \/ k ∈ map fst m.
Proof.
  induction m as [| [k' v'] m IH]; cbn.
  - rewrite list_elem_of_singleton. split; [auto | intros [H | H]; [exact H |]].
    inversion H.
  - destruct (String.eqb_spec k' key) as [-> | E]; cbn.
    + rewrite !elem_of_cons. tauto.
    + rewrite !elem_of_cons, IH. tauto.
Qed.

Lemma set_NoDup (key : string) (value : V) (m : list (string * V)) :
  NoDup (map fst m) -> NoDup (map fst (JsArray.set key value m)).
Proof.
  induction m as [| [k' v'] m IH]; cbn.
  - intros _. apply NoDup_singleton.
  - intros Hnd. apply NoDup_cons in Hnd as [Hk Hnd].
    destruct (String.eqb_spec k' key) as [-> | E]; cbn.
    + apply NoDup_cons. split; assumption.
    + apply NoDup_cons. split; [| now apply IH].
      rewrite set_keys. intros [H | H]; [now apply E | contradiction].
Qed.

Lemma get_elem (m : list (string * V)) (k : string) (v : V) :
  NoDup (map fst m) -> (k, v) ∈ m -> JsArray.get k m = Some v.
Proof.
  unfold JsArray.get.
  induction m as [| [k' v'] m IH]; [inversion 2 |].
  cbn. intros Hnd Hin. apply NoDup_cons in Hnd as [Hk Hnd].
  apply elem_of_cons in Hin as [[= <- <-] | Hin].
  - now rewrite String.eqb_refl.
  - destruct (String.eqb_spec k' k) as [-> | E]; [| now apply IH].
    exfalso. apply Hk. apply list_elem_of_fmap. now exists (k, v).
Qed.

Lemma get_key (m : list (string * V)) (k : string) :
  k ∈ map fst m <-> is_Some (JsArray.get k m).
Proof.
  unfold JsArray.get.
  induction m as [| [k' v'] m IH]; cbn.
  - split; [inversion 1 | intros [v H]; discriminate].
  - rewrite elem_of_cons. destruct (String.eqb_spec k' k) as [-> | E].
    + split; [eauto | auto].
    + rewrite IH. split; [intros [H | H]; [congruence | exact H] | auto].
Qed.

End Maps.

Section Trend_series.

Context (subredditId : string).

Lemma filter_nobody {A} (f : A -> bool) (l : list A) :
  existsb f l = false -> List.filter f l = [].
Proof.
  induction l as [| x l IH]; [reflexivity |].
  cbn. destruct (f x); [discriminate | exact IH].
Qed.

Lemma group_step (grouped : list (string * Web.Counts)) (p : Web.TrendPoint)
    (points : list Web.TrendPoint) :
  grouped_of subredditId grouped points ->
  grouped_of subredditId (Web.group subredditId grouped p) (points ++ [p]).
Proof.
  intros [Hnd Hget]. unfold Web.group.
  fold (shown subredditId p).
  replace (negb (String.eqb subredditId "all")
           && negb (String.eqb (Web.tp_subredditId p) subredditId))
    with (negb (shown subredditId p))
    by (unfold shown; now rewrite negb_orb).
  destruct (shown subredditId p) eqn:Hsel; cbn [negb].
  - split; [now apply set_NoDup |].
    intros b. rewrite get_set, existsb_app. cbn [existsb].
    unfold counts_of. rewrite !List.filter_app. cbn [List.filter].
    unfold shown_at at 2 4 6 8. rewrite Hsel. cbn [andb].
    destruct (String.eqb_spec (Web.tp_bucketStart p) b) as [-> | E].
    + cbn [orb]. rewrite orb_true_r, !sumOf_app, Hget.
      destruct (existsb (shown_at subredditId b) points) eqn:Hex; cbn.
      * unfold Web.sumOf at 2 4 6. cbn. repeat f_equal; lia.
      * rewrite (filter_nobody _ _ Hex). unfold Web.sumOf. cbn.
        reflexivity.
    + cbn [orb]. rewrite !orb_false_r, !app_nil_r. apply Hget.
  - split; [exact Hnd |].
    intros b. rewrite existsb_app. cbn [existsb].
    unfold counts_of. rewrite !List.filter_app. cbn [List.filter].
    unfold shown_at at 2 4 6 8. rewrite Hsel. cbn [andb].
    cbn [orb]. rewrite !orb_false_r, !app_nil_r. apply Hget.
Qed.

Lemma group_all (data points : list Web.TrendPoint)
    (grouped : list (string * Web.Counts)) :
  grouped_of subredditId grouped points ->
  grouped_of subredditId (fold_left (Web.group subredditId) data grouped)
    (points ++ data).
Proof.
  revert grouped points.
  induction data as [| p data IH]; intros grouped points H; cbn.
  - now rewrite app_nil_r.
  - replace (points ++ p :: data) with ((points ++ [p]) ++ data)
      by (now rewrite <- app_assoc).
    apply IH. now apply group_step.
Qed.

(** The series of the trend chart is exact and ordered: its rows come in
    strictly increasing order of bucket, every row sums the counts of the
    shown points of its bucket, of which there is at least one, and every
    shown point has its bucket in the series. *)
Theorem trend_series_is_sorted_and_exact (data : list Web.TrendPoint) :
  StronglySorted
    (fun a b => String.ltb (Web.sr_bucket a) (Web.sr_bucket b) = true)
    (Web.trendSeries data subredditId)
  /\ (forall row,
         row ∈ Web.trendSeries data subredditId ->
         List.filter (shown_at subredditId (Web.sr_bucket row)) data <> []
         /\ {| Web.c_positive := Web.sr_positive row;
               Web.c_neutral := Web.sr_neutral row;
               Web.c_negative := Web.sr_negative row |}
            = counts_of
                (List.filter (shown_at subredditId (Web.sr_bucket row)) data))
  /\ (forall p,
         p ∈ data ->
         shown subredditId p = true ->
         exists row,
           row ∈ Web.trendSeries data subredditId
           /\ Web.sr_bucket row = Web.tp_bucketStart p).
Proof.
  unfold Web.trendSeries.
  set (grouped := fold_left (Web.group subredditId) data []).
  set (compare := fun a b : string * Web.Counts =>
                    if JsArray.gt (fst a) (fst b) then 1 else -1).
  destruct (group_all data [] [] ltac:(split; [constructor | reflexivity]))
    as [Hnd Hget].
  cbn [app] in Hget. fold grouped in Hnd, Hget.
  pose proof (sort_perm compare grouped) as Hperm.
  assert (Hsorted : StronglySorted
                      (fun a b : string * Web.Counts =>
                         String.ltb (fst a) (fst b) = true)
                      (JsArray.sort compare grouped)).
  { apply sorted_strict; [| now rewrite Hperm].
    apply (sort_sorted compare); unfold compare, JsArray.gt.
    - intros a b. destruct (String.ltb (fst b) (fst a)) eqn:E; [lia |].
      intros _. destruct (string_ltb_total (fst a) (fst b)) as [H | [H | H]];
        [now right | now left | congruence].
    - intros a b. destruct (String.ltb (fst b) (fst a)) eqn:E; [| lia].
      intros _. now right.
    - intros a b c. apply weakly_before_trans. }
  split; [| split].
  - apply sorted_map. exact Hsorted.
  - intros row Hrow. apply list_elem_of_fmap in Hrow as ([b c] & -> & Hin).
    rewrite Hperm in Hin. cbn.
    pose proof (get_elem grouped b c Hnd Hin) as Hb. rewrite Hget in Hb.
    fold (shown_at subredditId b).
    destruct (existsb (shown_at subredditId b) data) eqn:Hex; [| discriminate].
    injection Hb as <-. split; [| reflexivity].
    intros Hnil. apply existsb_exists in Hex as (p & Hp & Hat).
    assert (Hin' : In p (List.filter (shown_at subredditId b) data))
      by (apply filter_In; now split).
    rewrite Hnil in Hin'. contradiction.
  - intros p Hp Hsel.
    assert (Hex : existsb (shown_at subredditId (Web.tp_bucketStart p)) data = true).
    { apply existsb_exists. exists p. split; [now apply list_elem_of_In |].
      unfold shown_at. now rewrite Hsel, String.eqb_refl. }
    pose proof (Hget (Web.tp_bucketStart p)) as Hb. rewrite Hex in Hb.
    assert (Hkey : Web.tp_bucketStart p ∈ map fst grouped).
    { apply get_key. rewrite Hb. eauto. }
    apply list_elem_of_fmap in Hkey as ([b c] & Hbk & Hin). cbn in Hbk.
    exists {| Web.sr_bucket := b; Web.sr_positive := Web.c_positive c;
              Web.sr_neutral := Web.c_neutral c;
              Web.sr_negative := Web.c_negative c |}.
    split; [| now rewrite Hbk].
    apply list_elem_of_fmap. exists (b, c). split; [reflexivity |].
    now rewrite Hperm.
Qed.

End Trend_series.

Lemma uniq_NoDup {A} `{EqDecision A} (l seen : list A) : NoDup (Js.uniq l seen).
Proof.
  revert seen. induction l as [| x l IH]; intros seen; cbn; [constructor |].
  destruct (bool_decide (x ∈ seen)); [apply IH |].
  apply NoDup_cons. split; [| apply IH].
  rewrite uniq_elem_of. intros [_ H]. apply H. left.
Qed.

Lemma buckets_sorted (data : list Web.TrendPoint) :
  StronglySorted (fun a b => String.ltb a b = true) (Web.buckets data)
  /\ forall b, b ∈ Web.buckets data <-> b ∈ map Web.tp_bucketStart data.
Proof.
  unfold Web.buckets.
  set (l := Js.uniq (map Web.tp_bucketStart data) []).
  pose proof (sort_perm JsArray.byCodeUnits l) as Hperm.
  split.
  - apply (sorted_strict (fun b => b)).
    + apply (sort_sorted JsArray.byCodeUnits); unfold JsArray.byCodeUnits.
      * intros a b. destruct (String.compare a b) eqn:E; try lia; intros _.
        -- left. now apply String.compare_eq_iff.
        -- right. unfold String.ltb. now rewrite E.
      * intros a b. destruct (String.compare a b) eqn:E; try lia; intros _.
        right. unfold String.ltb. rewrite String.compare_antisym, E.
        reflexivity.
      * intros a b c. apply weakly_before_trans.
    + rewrite map_id, Hperm. apply uniq_NoDup.
  - intros b. rewrite Hperm. unfold l. rewrite uniq_elem_of.
    split; [tauto | intros H; split; [exact H | apply not_elem_of_nil]].
Qed.

Lemma counts_fold (points : list Web.TrendPoint) (acc : Web.Counts) :
  fold_left
    (fun acc row =>
       {| Web.c_positive := Web.c_positive acc + Web.tp_positive row;
          Web.c_neutral := Web.c_neutral acc + Web.tp_neutral row;
          Web.c_negative := Web.c_negative acc + Web.tp_negative row |})
    points acc
  = {| Web.c_positive := Web.c_positive acc + Web.sumOf Web.tp_positive points;
       Web.c_neutral := Web.c_neutral acc + Web.sumOf Web.tp_neutral points;
       Web.c_negative := Web.c_negative acc + Web.sumOf Web.tp_negative points |}.
Proof.
  revert acc. induction points as [| p points IH]; intros acc.
  - destruct acc. cbn. f_equal; unfold Web.sumOf; cbn; lia.
  - cbn [fold_left]. rewrite IH, !sumOf_cons. cbn. f_equal; lia.
Qed.

(** The series of the share chart never divides by zero. Its rows come in
    strictly increasing order of bucket, one row for each bucket of the
    data; the three shares of a row are the counts of the points of its
    bucket over one common denominator, which is their sum, or 1 when that
    sum is 0. *)
Theorem share_series_never_divides_by_zero (data : list Web.TrendPoint) :
  StronglySorted (fun a b => String.ltb a b = true)
    (map Web.sh_bucket (Web.buildShareSeries data))
  /\ (forall b,
         b ∈ map Web.sh_bucket (Web.buildShareSeries data)
         <-> b ∈ map Web.tp_bucketStart data)
  /\ (forall row,
         row ∈ Web.buildShareSeries data ->
         Web.den (Web.sh_positive row) <> 0
         /\ Web.den (Web.sh_neutral row) = Web.den (Web.sh_positive row)
         /\ Web.den (Web.sh_negative row) = Web.den (Web.sh_positive row)
         /\ {| Web.c_positive := Web.num (Web.sh_positive row);
               Web.c_neutral := Web.num (Web.sh_neutral row);
               Web.c_negative := Web.num (Web.sh_negative row) |}
            = counts_of
                (List.filter
                   (fun p => String.eqb (Web.tp_bucketStart p) (Web.sh_bucket row))
                   data)
         /\ (Web.num (Web.sh_positive row) + Web.num (Web.sh_neutral row)
             + Web.num (Web.sh_negative row)
             = Web.den (Web.sh_positive row)
             \/ (Web.num (Web.sh_positive row) + Web.num (Web.sh_neutral row)
                 + Web.num (Web.sh_negative row) = 0
                 /\ Web.den (Web.sh_positive row) = 1))).
Proof.
  destruct (buckets_sorted data) as [Hsorted Hcover].
  unfold Web.buildShareSeries.
  split; [| split].
  - rewrite map_map. cbn. now rewrite map_id.
  - intros b. rewrite map_map. cbn. rewrite map_id. apply Hcover.
  - intros row Hrow. apply list_elem_of_fmap in Hrow as (b & -> & _).
    rewrite counts_fold. cbn. rewrite !Z.add_0_l. unfold counts_of.
    set (points := List.filter
                     (fun p => String.eqb (Web.tp_bucketStart p) b) data).
    destruct (Z.eqb_spec
                (Web.sumOf Web.tp_positive points
                 + Web.sumOf Web.tp_neutral points
                 + Web.sumOf Web.tp_negative points) 0) as [E | E].
    + split; [lia |]. do 3 (split; [reflexivity |]).
      right. split; [exact E | reflexivity].
    + split; [exact E |]. do 3 (split; [reflexivity |]). now left.
Qed.

(** ** The series of the net chart *)

Lemma net_entry (value : string -> Z) (subreddits : list Web.Subreddit)
    (entry : gmap string Web.Cell) (key : string) :
  fold_left
    (fun entry subreddit =>
       <[Web.ds_id subreddit := Web.Num (value (Web.ds_id subreddit))]> entry)
    subreddits entry
  !! key
  = if bool_decide (key ∈ map Web.ds_id subreddits)
    then Some (Web.Num (value key)) else entry !! key.
Proof.
  revert entry. induction subreddits as [| s subreddits IH]; intros entry.
  - cbn. case_bool_decide as H; [| reflexivity]. now apply elem_of_nil in H.
  - cbn [fold_left map]. rewrite IH.
    case_bool_decide as Hin.
    + rewrite bool_decide_eq_true_2; [reflexivity |]. now right.
    + destruct (decide (key = Web.ds_id s)) as [-> | Hne].
      * rewrite bool_decide_eq_true_2 by left. apply lookup_insert_eq.
      * rewrite bool_decide_eq_false_2.
        -- now apply lookup_insert_ne.
        -- intros H. apply elem_of_cons in H as [H | H]; contradiction.
Qed.

Lemma find_the_point (data : list Web.TrendPoint) (p : Web.TrendPoint) :
  NoDup (map (fun p => (Web.tp_subredditId p, Web.tp_bucketStart p)) data) ->
  p ∈ data ->
  List.find
    (fun row =>
       String.eqb (Web.tp_bucketStart row) (Web.tp_bucketStart p)
       && String.eqb (Web.tp_subredditId row) (Web.tp_subredditId p))
    data
  = Some p.
Proof.
  induction data as [| q data IH]; intros Hnd Hp.
  - now apply elem_of_nil in Hp.
  - cbn in Hnd. apply NoDup_cons in Hnd as [Hq Hnd]. cbn [List.find].
    destruct (String.eqb_spec (Web.tp_bucketStart q) (Web.tp_bucketStart p))
      as [Hb | Hb];
      [destruct (String.eqb_spec (Web.tp_subredditId q) (Web.tp_subredditId p))
         as [Hs | Hs] |]; cbn [andb].
    + apply elem_of_cons in Hp as [-> | Hp]; [reflexivity |]. exfalso.
      apply Hq. rewrite Hs, Hb.
      apply (list_elem_of_fmap_2
               (fun p => (Web.tp_subredditId p, Web.tp_bucketStart p))).
      exact Hp.
    + apply elem_of_cons in Hp as [-> | Hp]; [contradiction |]. now apply IH.
    + apply elem_of_cons in Hp as [-> | Hp]; [contradiction |]. now apply IH.
Qed.

(** The net chart plots every point. Its series has one entry for each
    bucket of the data, in the order of the buckets; an entry holds a number
    under the identifier of every listed subreddit: 0 when the subreddit has
    no point in the bucket, the positive minus the negative count of one of
    its points otherwise, and of the point itself when no two points share
    subreddit and bucket. The bucket is found under "bucket" unless a
    subreddit has that identifier. *)
Theorem net_series_plots_every_point (data : list Web.TrendPoint)
    (subreddits : list Web.Subreddit) :
  length (Web.netSeries data subreddits) = length (Web.buckets data)
  /\ (forall i bucket entry,
         Web.buckets data !! i = Some bucket ->
         Web.netSeries data subreddits !! i = Some entry ->
         (Forall (fun s => Web.ds_id s <> "bucket") subreddits ->
          entry !! "bucket" = Some (Web.Str bucket))
         /\ forall s,
              s ∈ subreddits ->
              exists v,
                entry !! Web.ds_id s = Some (Web.Num v)
                /\ ((v = 0
                     /\ forall p,
                          p ∈ data ->
                          Web.tp_bucketStart p = bucket ->
                          Web.tp_subredditId p <> Web.ds_id s)
                    \/ exists p,
                         p ∈ data
                         /\ Web.tp_bucketStart p = bucket
                         /\ Web.tp_subredditId p = Web.ds_id s
                         /\ v = Web.tp_positive p - Web.tp_negative p))
  /\ (NoDup (map (fun p => (Web.tp_subredditId p, Web.tp_bucketStart p)) data) ->
      forall p s,
        p ∈ data ->
        s ∈ subreddits ->
        Web.ds_id s = Web.tp_subredditId p ->
        exists i entry,
          Web.buckets data !! i = Some (Web.tp_bucketStart p)
          /\ Web.netSeries data subreddits !! i = Some entry
          /\ entry !! Web.ds_id s
             = Some (Web.Num (Web.tp_positive p - Web.tp_negative p))).
Proof.
  set (value := fun (bucket id : string) =>
         match
           List.find
             (fun row =>
                String.eqb (Web.tp_bucketStart row) bucket
                && String.eqb (Web.tp_subredditId row) id) data
         with
         | Some point => Web.tp_positive point - Web.tp_negative point
         | None => 0
         end).
  assert (Hentry : forall i bucket entry,
             Web.buckets data !! i = Some bucket ->
             Web.netSeries data subreddits !! i = Some entry ->
             forall key,
               entry !! key
               = if bool_decide (key ∈ map Web.ds_id subreddits)
                 then Some (Web.Num (value bucket key))
                 else ({["bucket" := Web.Str bucket]} : gmap string Web.Cell)
                      !! key).
  { intros i bucket entry Hb He key. unfold Web.netSeries in He.
    rewrite list_lookup_fmap, Hb in He. injection He as <-.
    apply (net_entry (value bucket)). }
  split; [| split].
  - unfold Web.netSeries. apply length_map.
  - intros i bucket entry Hb He. split.
    + intros Hids. rewrite (Hentry i bucket entry Hb He).
      rewrite bool_decide_eq_false_2; [apply lookup_singleton_eq |].
      intros H. apply list_elem_of_fmap in H as (s & Hs & Hin).
      rewrite Forall_forall in Hids. now apply (Hids s Hin).
    + intros s Hs. exists (value bucket (Web.ds_id s)). split.
      * rewrite (Hentry i bucket entry Hb He).
        rewrite bool_decide_eq_true_2; [reflexivity |].
        now apply list_elem_of_fmap_2.
      * unfold value.
        destruct (List.find _ data) as [p |] eqn:Hfind.
        -- right. apply List.find_some in Hfind as [Hin Hp].
           apply andb_true_iff in Hp as [Hb' Hs'].
           apply String.eqb_eq in Hb', Hs'.
           exists p. repeat split; try assumption. now apply list_elem_of_In.
        -- left. split; [reflexivity |]. intros p Hin Hb' Hs'.
           apply list_elem_of_In in Hin.
           pose proof (List.find_none _ _ Hfind p Hin) as Hno. cbn in Hno.
           rewrite Hb', Hs', !String.eqb_refl in Hno. discriminate.
  - intros Hnd p s Hp Hs Hid.
    destruct (buckets_sorted data) as [_ Hcover].
    assert (Hb : Web.tp_bucketStart p ∈ Web.buckets data).
    { apply Hcover. now apply list_elem_of_fmap_2. }
    apply list_elem_of_lookup in Hb as (i & Hb).
    destruct (Web.netSeries data subreddits !! i) as [entry |] eqn:He.
    2:{ pose proof (proj1 (lookup_ge_None _ _) He) as Hge.
        pose proof (lookup_lt_Some _ _ _ Hb) as Hlt.
        unfold Web.netSeries in Hge. rewrite length_map in Hge. lia. }
    exists i, entry. split; [exact Hb |]. split; [exact He |].
    rewrite (Hentry i _ entry Hb He).
    rewrite bool_decide_eq_true_2 by now apply list_elem_of_fmap_2.
    unfold value. rewrite Hid. now rewrite (find_the_point data p Hnd Hp).
Qed.

(** ** The job status route *)

Lemma filter_other_jobs (id : nat) (rows : list JobRow) :
  Forall (fun r => (job_id r < id)%nat) rows ->
  List.filter (fun r => Nat.eqb (job_id r) id) rows = [].
Proof.
  induction 1 as [| r rows Hr _ IH]; [reflexivity |].
  cbn. destruct (Nat.eqb_spec (job_id r) id); [lia | exact IH].
Qed.

(** The job a reply of the edge function names can be looked up: with the
    web application configured and the store answering, the status route
    answers 200 with the columns of that job, and of no other, while before
    the request it answered 404 for that identifier. Without its two
    variables the route throws instead. *)
Theorem reported_job_can_be_looked_up (P : Platform) (req : Request)
    (w w' : World) (reply : Reply) (id : nat) (url serviceKey : option string) :
  numbered (db w) ->
  serve P req w = (Ok reply, w') ->
  replied_job reply = Some id ->
  match Web.createServiceRoleClient url serviceKey with
  | inl message =>
      Web.GET_status url serviceKey None id (db w') = Throw message
  | inr _ =>
      Web.GET_status url serviceKey None id (db w) = Ok (Web.NotFound id)
      /\ exists data,
           Web.GET_status url serviceKey None id (db w') = Ok (Web.Found data)
           /\ Web.status_code (Web.Found data) = 200
           /\ Web.js_id data = id
  end.
Proof.
  intros Hnum Hserve Hid.
  destruct (serve_job_table P req w Hnum) as (reply' & w'' & Hserve' & H).
  rewrite Hserve in Hserve'. injection Hserve' as <- <-.
  rewrite Hid in H. destruct H as (-> & _ & row & Hrows & Hrow & _).
  unfold Web.GET_status, Web.maybeSingle.
  destruct (Web.createServiceRoleClient url serviceKey) as [message | []];
    [reflexivity |].
  split.
  - now rewrite (filter_other_jobs _ _ Hnum).
  - exists (Web.selected row).
    rewrite Hrows, List.filter_app, (filter_other_jobs _ _ Hnum).
    cbn. rewrite Hrow, Nat.eqb_refl. auto.
Qed.

(** The three-post batch, then the look-up of its job. *)
Lemma reported_job_can_be_looked_up_witness :
  exists data,
    Web.GET_status (Some "https://store.example") (Some "key") None 0
      (db (serve (Demo.platform Demo.batch) (Demo.request (Some "7d") None)
             Demo.world).2)
    = Ok (Web.Found data)
    /\ Web.status_code (Web.Found data) = 200
    /\ Web.js_id data = 0%nat.
Proof.
  set (run := serve (Demo.platform Demo.batch) (Demo.request (Some "7d") None)
                Demo.world).
  refine (proj2
            (reported_job_can_be_looked_up (Demo.platform Demo.batch)
               (Demo.request (Some "7d") None) Demo.world run.2
               (outcome {| code := 0; content := PlainText "" |} run) 0%nat
               (Some "https://store.example") (Some "key") _ _ _)).
  - constructor.
  - vm_compute. reflexivity.
  - vm_compute. reflexivity.
Defined.

(** ** The refresh route *)

(** The answers of the handler to a POST with a JSON body. *)
Lemma serve_post (P : Platform) (payload : RefreshPayload) (w : World) :
  exists reply w',
    serve P {| method := "POST"; body := Some payload |} w = (Ok reply, w')
    /\ ((code reply = 200
         /\ exists jobId status tf kw result duration,
              content reply = Summary jobId status tf kw result duration)
        \/ (code reply = 400
            /\ content reply
               = Rejected "Unsupported timeframe." ["24h"; "7d"; "30d"]
            /\ w' = w)
        \/ code reply = 500).
Proof.
  unfold serve. cbn [method body negb String.eqb Ascii.eqb Bool.eqb].
  destruct (negb _).
  { do 2 eexists. split; [reflexivity |]. cbn. auto. }
  destruct (createServiceClient P).
  { do 2 eexists. split; [reflexivity |]. cbn. auto. }
  set (tf := default "7d" (p_timeframe payload)).
  set (kw := normalizeKeyword (p_keyword payload)).
  destruct (now P w) as [[start | e] w1] eqn:Hnow; [| discriminate Hnow].
  rewrite (bind_step _ _ _ _ _ Hnow).
  destruct (total_store P (Sql.insert_job tf kw "edge_function" "queued") w1)
    as (ins & w2 & Hins).
  rewrite (bind_step _ _ _ _ _ Hins).
  destruct ins as [e | id].
  - destruct (fail_run_answers P start None e w2) as (w3 & ->).
    do 2 eexists. split; [reflexivity |]. cbn. auto.
  - unfold try_catch.
    destruct (run_job P start id tf kw w2) as [[reply | e] w3] eqn:Hrun.
    + apply run_job_Ok in Hrun as (result & duration & ->).
      do 2 eexists. split; [reflexivity |]. cbn. left. split; [reflexivity |].
      now do 6 eexists.
    + destruct (fail_run_answers P start (Some id) e w3) as (w4 & ->).
      do 2 eexists. split; [reflexivity |]. cbn. auto.
Qed.

(** The refresh route relays the edge function. Without the URL of the
    function it answers 503, and without a token 500, in both cases without
    calling the function; the token is the JWT whenever that variable is
    set, even to the empty string, and the service role key only otherwise.
    Configured, it calls the function once, which then behaves as on the
    body the route received (an empty object when that is not JSON), and
    answers 200 with the summary of the run when the function answered 200,
    and 502 with the reply of the function as details otherwise: the
    function never answers 405 through the route, and its 400 for an
    unsupported timeframe reaches the caller as a 502. *)
Theorem refresh_route_relays (P : Platform) (env : Web.RefreshEnv)
    (received : option RefreshPayload) (w : World) :
  if negb (Js.truthy_opt (Web.SUPABASE_EDGE_FUNCTION_URL env)) then
    Web.POST_refresh env (serve P) received w
    = (Ok {| Web.status := 503;
             Web.answer :=
               Web.NotConfigured "Supabase Edge Function URL is not configured."
                 (default "7d" (received ≫= p_timeframe))
                 (p_keyword
                    (Route.forwarded
                       (default {| p_timeframe := None; p_keyword := None |}
                          received))) |}, w)
  else if match Web.SUPABASE_SERVICE_ROLE_JWT env with
          | Some jwt => negb (Js.truthy jwt)
          | None => negb (Js.truthy_opt (Web.SUPABASE_SERVICE_ROLE_KEY env))
          end
  then
    Web.POST_refresh env (serve P) received w
    = (Ok {| Web.status := 500;
             Web.answer :=
               Web.MissingToken
                 "Missing Supabase service token for Edge Function invocation."
          |}, w)
  else
    exists reply w',
      serve P {| method := "POST";
                 body := Some (default {| p_timeframe := None;
                                          p_keyword := None |} received) |} w
      = (Ok reply, w')
      /\ (code reply = 200 \/ code reply = 400 \/ code reply = 500)
      /\ (code reply = 400 ->
          content reply = Rejected "Unsupported timeframe." ["24h"; "7d"; "30d"])
      /\ Web.POST_refresh env (serve P) received w
         = (Ok (if code reply =? 200
                then {| Web.status := 200;
                        Web.answer := Web.Relayed (content reply) |}
                else {| Web.status := 502;
                        Web.answer :=
                          Web.InvocationFailed "Edge Function invocation failed."
                            (content reply) |}), w').
Proof.
  unfold Web.POST_refresh.
  destruct (negb (Js.truthy_opt (Web.SUPABASE_EDGE_FUNCTION_URL env)));
    [now destruct received |].
  set (body := default {| p_timeframe := None; p_keyword := None |} received).
  assert (Htoken :
            negb (Js.truthy_opt
                    match Web.SUPABASE_SERVICE_ROLE_JWT env with
                    | Some jwt => Some jwt
                    | None => Web.SUPABASE_SERVICE_ROLE_KEY env
                    end)
            = match Web.SUPABASE_SERVICE_ROLE_JWT env with
              | Some jwt => negb (Js.truthy jwt)
              | None =>
                  negb (Js.truthy_opt (Web.SUPABASE_SERVICE_ROLE_KEY env))
              end).
  { now destruct (Web.SUPABASE_SERVICE_ROLE_JWT env). }
  rewrite Htoken. clear Htoken.
  destruct (match Web.SUPABASE_SERVICE_ROLE_JWT env with
            | Some jwt => negb (Js.truthy jwt)
            | None => _
            end); [reflexivity |].
  change {| p_timeframe := Some (default "7d" (p_timeframe body));
            p_keyword := _ |} with (Route.forwarded body).
  destruct (serve_post P body w) as (reply & w' & Hserve & Hcode).
  exists reply, w'. split; [exact Hserve |].
  unfold bind. rewrite serve_forwarded, Hserve.
  destruct Hcode as [(Hc & jobId & st & tf & kw & result & duration & Hsum)
                    | [(Hc & Hrej & _) | Hc]].
  - repeat split; [auto | intros H; rewrite Hc in H; discriminate |].
    unfold Web.ok, Web.json, ret. rewrite Hc, Hsum. reflexivity.
  - repeat split; [auto | intros _; exact Hrej |].
    unfold Web.ok, ret. rewrite Hc. reflexivity.
  - repeat split; [auto | intros H; rewrite Hc in H; discriminate |].
    unfold Web.ok, ret. rewrite Hc. reflexivity.
Qed.

(** ** A run in which one comment fetch fails *)

Lemma elem_of_map_prefix {A B} (f : A -> B) (l l' : list A) (b : B) :
  l `prefix_of` l' -> b ∈ map f l -> b ∈ map f l'.
Proof.
  intros [k ->] H. rewrite map_app. apply elem_of_app. now left.
Qed.

Lemma drafted_post_extends (g g' : Gathered) (d : ItemData) :
  extends g g' -> drafted_post g d -> drafted_post g' d.
Proof.
  intros [H1 H2 _ _ _] [Hr Hs]. split.
  - eapply elem_of_map_prefix; eassumption.
  - intros Ht. eapply elem_of_map_prefix; [exact H2 | auto].
Qed.

Lemma drafted_comment_extends (g g' : Gathered) (post d : ItemData) :
  extends g g' -> drafted_comment g post d -> drafted_comment g' post d.
Proof.
  intros [_ _ H3 H4 _] [Hr Hs]. split.
  - eapply (elem_of_map_prefix (fun r => (cr_reddit_id r, cr_post_reddit_id r)));
      eassumption.
  - eapply elem_of_map_prefix; eassumption.
Qed.

Lemma accounts_for_extends (P : Platform) (subreddit : SubredditRow)
    (sinceEpoch : Z) (keyword : option string) (g g' : Gathered) (c : Child) :
  extends g g' ->
  accounts_for P subreddit sinceEpoch keyword g c ->
  accounts_for P subreddit sinceEpoch keyword g' c.
Proof.
  intros Hext H d Hd Hk. destruct (H d Hd Hk) as (Hp & Hw & Hc).
  split; [eapply drafted_post_extends; eassumption |]. split.
  - intros message Hthrows. eapply elem_of_prefix; [apply Hw, Hthrows |].
    apply Hext.
  - intros payload cc cd Hret Hin Hcd Hkc.
    eapply drafted_comment_extends; [exact Hext |]. eapply Hc; eassumption.
Qed.

Section Dated_upstream.

Context (P : Platform) (subreddit : SubredditRow) (tf : string)
  (sinceEpoch : Z) (keyword : option string).

Hypothesis Hdated : dated P.

(** One comment of a dated upstream: the pass completes, and a comment
    that the filter keeps is drafted. *)
Lemma processComment_dated (post : ItemData) (g : Gathered) (c : Child)
    (w : World) :
  serves P c ->
  exists g' w',
    processComment P subreddit tf sinceEpoch keyword post g c w = (Ok g', w')
    /\ extends g g'
    /\ (forall d, data c = Some d ->
                  keepsComment sinceEpoch keyword c = true ->
                  drafted_comment g' post d).
Proof.
  intros Hserved.
  destruct (keepsComment sinceEpoch keyword c) eqn:Hk.
  - destruct (processComment_kept P subreddit tf sinceEpoch keyword post g c w Hk)
      as (d & t & Hd & Ht & _ & Hrun).
    rewrite (Hdated c d t Hserved Hd Ht) in Hrun.
    do 2 eexists. split; [exact Hrun |]. split.
    + eapply processComment_Ok. exact Hrun.
    + intros d' Hd' _. assert (d' = d) by congruence. subst d'.
      split; cbn; rewrite map_app; apply elem_of_app; right;
        apply list_elem_of_singleton; reflexivity.
  - exists g, w. split; [now apply processComment_skipped |].
    split; [apply extends_refl | discriminate].
Qed.

Lemma comment_loop_dated (post : ItemData) (cs : list Child) (g : Gathered)
    (w : World) :
  (forall c, c ∈ cs -> serves P c) ->
  exists g' w',
    for_of cs (processComment P subreddit tf sinceEpoch keyword post) g w
    = (Ok g', w')
    /\ extends g g'
    /\ (forall c d, c ∈ cs -> data c = Some d ->
                    keepsComment sinceEpoch keyword c = true ->
                    drafted_comment g' post d).
Proof.
  revert g w. induction cs as [| c cs IH]; intros g w Hserved.
  - exists g, w. split; [reflexivity |]. split; [apply extends_refl |].
    intros c d Hin. now apply elem_of_nil in Hin.
  - destruct (processComment_dated post g c w) as (g1 & w1 & Hc & Hext1 & Hd1).
    { apply Hserved. left. }
    destruct (IH g1 w1) as (g' & w' & Hrest & Hext & Hd').
    { intros c' Hin. apply Hserved. now right. }
    exists g', w'. split; [simpl; now rewrite (bind_step _ _ _ _ _ Hc) |].
    split; [eapply extends_trans; eassumption |].
    intros c' d Hin Hd Hk. apply elem_of_cons in Hin as [-> | Hin].
    + eapply drafted_comment_extends; [exact Hext | now apply Hd1].
    + eapply Hd'; eassumption.
Qed.

(** The comment pass of a post of a dated upstream completes, whether or
    not the comments can be fetched. *)
Lemma commentPass_dated (d : ItemData) (g : Gathered) (w : World) :
  exists g' w',
    commentPass P subreddit tf sinceEpoch keyword d g w = (Ok g', w')
    /\ extends g g'
    /\ (forall message,
           fetch_throws P (commentsUrl (d_id d)) message ->
           commentWarning subreddit d message ∈ warnings g')
    /\ (forall payload c cd,
           fetch_returns P (commentsUrl (d_id d)) payload ->
           c ∈ default [] (thread_children payload) ->
           data c = Some cd ->
           keepsComment sinceEpoch keyword c = true ->
           drafted_comment g' d cd).
Proof.
  destruct (fetchJson P (commentsUrl (d_id d)) w) as [[payload | e] w1] eqn:Hf.
  - destruct (comment_loop_dated d (default [] (thread_children payload)) g w1)
      as (g' & w' & Hloop & Hext & Hd).
    { intros c Hin.
      destruct (fetchJson_at_served P _ _ _ _ _ _ Hf) as (k & tok & r & Hr & Hj).
      exists k, (commentsUrl (d_id d)), tok, r, payload. auto. }
    exists g', (set_slept (RATE_LIMIT_MS :: slept w') w').
    split.
    { rewrite (commentPass_fetched P subreddit tf sinceEpoch keyword d g w w1
                 payload Hf).
      rewrite (bind_step _ _ _ _ _ Hloop). reflexivity. }
    split; [exact Hext |]. split.
    + intros message Hthrows. destruct (Hthrows w) as (w2 & Hw2). congruence.
    + intros payload' c cd Hret Hin Hcd Hk.
      destruct (Hret w) as (w2 & Hw2).
      assert (payload' = payload) by congruence. subst payload'.
      eapply Hd; eassumption.
  - exists (push_warning (commentWarning subreddit d e) g),
      (set_slept (RATE_LIMIT_MS :: slept w1) w1).
    split; [now apply commentPass_fetch_failed |].
    split.
    { apply (proj1 (commentPass_Ok P subreddit tf sinceEpoch keyword d g _ w _
                      (commentPass_fetch_failed P subreddit tf sinceEpoch
                         keyword d g w w1 e Hf))). }
    split.
    + intros message Hthrows. destruct (Hthrows w) as (w2 & Hw2).
      assert (message = e) by congruence. subst message.
      cbn. apply elem_of_app. right. apply list_elem_of_singleton. reflexivity.
    + intros payload c cd Hret. destruct (Hret w) as (w2 & Hw2). congruence.
Qed.

(** One post of a dated upstream: the pass completes and accounts for the
    post. *)
Lemma processPost_dated (nowIso : Instant) (g : Gathered) (c : Child)
    (w : World) :
  serves P c ->
  exists g' w',
    processPost P subreddit tf sinceEpoch keyword nowIso g c w = (Ok g', w')
    /\ extends g g'
    /\ accounts_for P subreddit sinceEpoch keyword g' c.
Proof.
  intros Hserved.
  destruct (keepsPost sinceEpoch keyword c) eqn:Hk.
  - destruct (processPost_kept P subreddit tf sinceEpoch keyword nowIso g c w Hk)
      as (d & t & Hd & Ht & _ & Hrun).
    rewrite (Hdated c d t Hserved Hd Ht) in Hrun.
    pose proof (scorePost_run P subreddit tf d (t * 1000) (postText d)
                  (push_post
                     (postRecordOf subreddit d (sanitizeText (d_title d))
                        (t * 1000) nowIso) g) w) as Hscore.
    destruct (scorePost_Ok P subreddit tf d (t * 1000) (postText d)
                (push_post
                   (postRecordOf subreddit d (sanitizeText (d_title d))
                      (t * 1000) nowIso) g) w)
      as (g1 & w1 & Hs & Hext1 & Hposts1 & _).
    assert (Hdrafted : drafted_post g1 d).
    { split.
      - rewrite Hposts1. cbn. rewrite map_app. apply elem_of_app. right.
        apply list_elem_of_singleton. reflexivity.
      - intros Htext. rewrite Hs in Hscore.
        destruct (0 <? Z.of_nat (String.length (postText d))) eqn:Hlen.
        + injection Hscore as -> _. cbn. rewrite map_app. apply elem_of_app.
          right. apply list_elem_of_singleton. reflexivity.
        + destruct (postText d); [congruence | discriminate Hlen]. }
    destruct (commentPass_dated d g1 w1) as (g' & w' & Hpass & Hext & Hw & Hc).
    assert (Hall : processPost P subreddit tf sinceEpoch keyword nowIso g c w
                   = (Ok g', w')).
    { rewrite Hrun. unfold bind. rewrite Hs. exact Hpass. }
    exists g', w'. split; [exact Hall |].
    split; [eapply processPost_Ok; exact Hall |].
    intros d' Hd' _. assert (d' = d) by congruence. subst d'.
    split; [eapply drafted_post_extends; eassumption |].
    split; assumption.
  - exists g, w. split; [now apply processPost_skipped |].
    split; [apply extends_refl |]. intros d _ Hk'. congruence.
Qed.

Lemma post_loop_dated (nowIso : Instant) (cs : list Child) (g : Gathered)
    (w : World) :
  (forall c, c ∈ cs -> serves P c) ->
  exists g' w',
    for_of cs (processPost P subreddit tf sinceEpoch keyword nowIso) g w
    = (Ok g', w')
    /\ extends g g'
    /\ (forall c, c ∈ cs -> accounts_for P subreddit sinceEpoch keyword g' c).
Proof.
  revert g w. induction cs as [| c cs IH]; intros g w Hserved.
  - exists g, w. split; [reflexivity |]. split; [apply extends_refl |].
    intros c Hin. now apply elem_of_nil in Hin.
  - destruct (processPost_dated nowIso g c w) as (g1 & w1 & Hc & Hext1 & Hd1).
    { apply Hserved. left. }
    destruct (IH g1 w1) as (g' & w' & Hrest & Hext & Hd').
    { intros c' Hin. apply Hserved. now right. }
    exists g', w'. split; [simpl; now rewrite (bind_step _ _ _ _ _ Hc) |].
    split; [eapply extends_trans; eassumption |].
    intros c' Hin. apply elem_of_cons in Hin as [-> | Hin].
    + eapply accounts_for_extends; eassumption.
    + now apply Hd'.
Qed.

(** One subreddit of a dated upstream: the pass completes; the warnings it
    was given are still there; and when the listing can be fetched, every
    post of the listing is accounted for. *)
Lemma processSubreddit_dated (aggs : gmap string AggregateRow)
    (errs : list string) (w : World) :
  exists g' w',
    processSubreddit P subreddit tf sinceEpoch keyword aggs errs w
    = (Ok g', w')
    /\ errs `prefix_of` warnings g'
    /\ (forall listing c,
           fetch_returns P (postsUrl (sub_name subreddit)) listing ->
           c ∈ default [] (listing_children listing) ->
           accounts_for P subreddit sinceEpoch keyword g' c).
Proof.
  unfold processSubreddit, bind.
  destruct (try_catch _ _ w) as [[[message | listing] | e] w1] eqn:Hm.
  - do 2 eexists. split; [reflexivity |]. split.
    + cbn. now apply prefix_app_r.
    + intros listing c Hret. destruct (Hret w) as (w2 & Hw2).
      unfold try_catch, bind in Hm. rewrite Hw2 in Hm. discriminate.
  - assert (Hf : fetchJson P (postsUrl (sub_name subreddit)) w = (Ok listing, w1)).
    { unfold try_catch, bind in Hm.
      destruct (fetchJson P (postsUrl (sub_name subreddit)) w) as [[p | e] w2];
        [now injection Hm as -> -> | discriminate]. }
    unfold now at 1.
    destruct (post_loop_dated (clock P (clock_reads w1))
                (default [] (listing_children listing)) (no_drafts aggs errs)
                (set_clock_reads (S (clock_reads w1)) w1))
      as (g' & w' & Hloop & Hext & Hacc).
    { intros c Hin.
      destruct (fetchJson_at_served P _ _ _ _ _ _ Hf) as (k & tok & r & Hr & Hj).
      exists k, (postsUrl (sub_name subreddit)), tok, r, listing. auto. }
    exists g', w'. split; [exact Hloop |]. split; [apply Hext |].
    intros listing' c Hret Hin. destruct (Hret w) as (w2 & Hw2).
    assert (listing' = listing) by congruence. subst listing'.
    now apply Hacc.
  - unfold try_catch, bind in Hm.
    destruct (fetchJson P (postsUrl (sub_name subreddit)) w) as [[p | e'] w2];
      discriminate.
Qed.

End Dated_upstream.

Lemma accounts_for_collect (P : Platform) (subreddit : SubredditRow)
    (sinceEpoch : Z) (keyword : option string) (all result : Gathered)
    (c : Child) :
  accounts_for P subreddit sinceEpoch keyword result c ->
  accounts_for P subreddit sinceEpoch keyword (collect all result) c.
Proof.
  intros H d Hd Hk. destruct (H d Hd Hk) as ([Hp Hs] & Hw & Hc).
  split; [| split].
  - split; cbn; rewrite map_app.
    + apply elem_of_app. now right.
    + intros Ht. apply elem_of_app. right. now apply Hs.
  - exact Hw.
  - intros payload cc cd Hret Hin Hcd Hkc.
    destruct (Hc payload cc cd Hret Hin Hcd Hkc) as [Hr Hcs].
    split; cbn; rewrite map_app; apply elem_of_app; now right.
Qed.

(** The gathering of a dated upstream completes and accounts for every
    post of every listing that can be fetched. *)
Lemma gather_dated (P : Platform) (subs : list SubredditRow) (tf : string)
    (sinceEpoch : Z) (keyword : option string) (w : World) :
  dated P ->
  exists g w',
    gather P subs tf sinceEpoch keyword w = (Ok g, w')
    /\ (forall subreddit listing c,
           subreddit ∈ subs ->
           fetch_returns P (postsUrl (sub_name subreddit)) listing ->
           c ∈ default [] (listing_children listing) ->
           accounts_for P subreddit sinceEpoch keyword g c).
Proof.
  intros Hdated. unfold gather.
  assert (Hgen : forall all v,
             exists g w',
               for_of subs
                 (fun all subreddit =>
                    let! result :=
                      processSubreddit P subreddit tf sinceEpoch keyword
                        (aggregates all) (warnings all) in
                    ret (collect all result)) all v
               = (Ok g, w')
               /\ extends all g
               /\ (forall subreddit listing c,
                      subreddit ∈ subs ->
                      fetch_returns P (postsUrl (sub_name subreddit)) listing ->
                      c ∈ default [] (listing_children listing) ->
                      accounts_for P subreddit sinceEpoch keyword g c)).
  { induction subs as [| sub subs IH]; intros all v.
    - exists all, v. split; [reflexivity |]. split; [apply extends_refl |].
      intros subreddit listing c Hin. now apply elem_of_nil in Hin.
    - destruct (processSubreddit_dated P sub tf sinceEpoch keyword Hdated
                  (aggregates all) (warnings all) v)
        as (result & v1 & Hsub & Hpre & Hacc).
      destruct (IH (collect all result) v1) as (g & w' & Hrest & Hext & Hall).
      exists g, w'. split.
      { simpl. unfold bind at 1 2. now rewrite Hsub. }
      assert (Hstep : extends all (collect all result)).
      { split; cbn; try (now apply prefix_app_r); exact Hpre. }
      split; [eapply extends_trans; eassumption |].
      intros subreddit listing c Hin Hret Hc.
      apply elem_of_cons in Hin as [-> | Hin].
      + eapply accounts_for_extends; [exact Hext |].
        apply accounts_for_collect. eapply Hacc; eassumption.
      + eapply Hall; eassumption. }
  destruct (Hgen (no_drafts ∅ []) w) as (g & w' & Hrun & _ & Hall).
  now exists g, w'.
Qed.

Section Quiet_store.

Context (P : Platform).

Hypothesis Hquiet : forall n, store_fault P n = None.

Lemma total_bind_store {A B} (f : DB -> A * DB) (k : string + A -> M B) :
  (forall a, total (k (inr a))) -> total (bind (store P f) k).
Proof.
  intros Hk w. rewrite (bind_step _ _ _ _ _ (store_ok P f w (Hquiet _))).
  apply Hk.
Qed.

Lemma total_expect {A} (context : string) (a : A) :
  total (expect context (inr a)).
Proof. apply total_ret. Qed.

Lemma total_when_nonempty {A} (xs : list A) (context : string)
    (statement : DB -> DB) :
  total (when_nonempty P xs context statement).
Proof.
  unfold when_nonempty, store_. destruct (nonempty xs); [| apply total_ret].
  apply total_bind_store. intros a. apply total_expect.
Qed.

(** With a store that accepts every statement, the flush completes. *)
Lemma total_flush (tf : string) (g : Gathered) : total (flush P tf g).
Proof.
  unfold flush. cbv zeta.
  apply total_bind; [apply total_when_nonempty | intros _].
  apply total_bind_store; intros storedPosts.
  apply total_bind; [apply total_expect | intros storedPosts'].
  apply total_bind; [apply total_when_nonempty | intros _].
  apply total_bind_store; intros storedComments.
  apply total_bind; [apply total_expect | intros storedComments'].
  apply total_bind; [apply total_when_nonempty | intros _].
  apply total_bind; [apply total_when_nonempty | intros _].
  apply total_bind; [apply total_when_nonempty | intros _].
  apply total_bind; [apply total_when_nonempty | intros _].
  apply total_bind; [| intros _; apply total_ret].
  destruct (nonempty _); [| apply total_ret].
  unfold store_. apply total_bind_store; intros a.
  apply total_bind; [apply total_expect | intros _].
  apply total_bind_store; intros b. apply total_expect.
Qed.

(** With a store that accepts every statement and a dated upstream, the
    refresh of a supported timeframe over a configured subreddit
    completes; what it reports is the flush of what it gathered. *)
Lemma processRefresh_dated (tf : string) (kw : option string) (hours : Z)
    (w : World) :
  dated P ->
  TIMEFRAME_CONFIG tf = Some hours ->
  subreddits (db w) <> [] ->
  exists g wa wb result w',
    gather P (subreddits (db w)) tf (cutoff (clock P (clock_reads w)) hours)
      kw wa
    = (Ok g, wb)
    /\ flush P tf g wb = (Ok result, w')
    /\ processRefresh P tf kw w = (Ok result, w')
    /\ (forall subreddit listing c,
           subreddit ∈ subreddits (db w) ->
           fetch_returns P (postsUrl (sub_name subreddit)) listing ->
           c ∈ default [] (listing_children listing) ->
           accounts_for P subreddit (cutoff (clock P (clock_reads w)) hours)
             kw g c).
Proof.
  intros Hdated Hcfg Hsubs.
  set (w1 := set_clock_reads (S (clock_reads w)) w).
  set (wa := set_db (db w1) (set_store_ops (S (store_ops w1)) w1)).
  destruct (gather_dated P (subreddits (db w)) tf
              (cutoff (clock P (clock_reads w)) hours) kw wa Hdated)
    as (g & wb & Hgather & Hacc).
  destruct (total_flush tf g wb) as (result & w' & Hflush).
  exists g, wa, wb, result, w'.
  split; [exact Hgather |]. split; [exact Hflush |]. split; [| exact Hacc].
  unfold processRefresh. rewrite Hcfg.
  rewrite (bind_step (now P) _ w w1 _ eq_refl).
  rewrite (bind_step _ _ _ _ _
             (store_ok P (fun d => (subreddits d, d)) w1 (Hquiet _))).
  cbn [fst snd]. fold wa.
  rewrite (bind_step (expect "Failed to load subreddits"
                        (inr (subreddits (db w1)))) _ wa wa
             (subreddits (db w)) eq_refl).
  replace (negb (nonempty (subreddits (db w)))) with false.
  - now rewrite (bind_step _ _ _ _ _ Hgather).
  - destruct (subreddits (db w)); [congruence | reflexivity].
Qed.

End Quiet_store.

Section Quiet_run.

Context (P : Platform).

Hypothesis Hquiet : forall n, store_fault P n = None.
Hypothesis Hdated : dated P.
Hypothesis Htoken : total (fetchRedditAccessToken P).

(** With a store that accepts every statement, a dated upstream and a
    token to be had, the [try] block of the handler completes: it answers
    200 with the report of the flush of what was gathered. *)
Lemma run_job_dated (start : Instant) (id : nat) (tf : string)
    (kw : option string) (hours : Z) (w : World) :
  TIMEFRAME_CONFIG tf = Some hours ->
  subreddits (db w) <> [] ->
  exists g wa wb result wc duration w',
    gather P (subreddits (db w)) tf (cutoff (clock P (clock_reads w)) hours)
      kw wa
    = (Ok g, wb)
    /\ flush P tf g wb = (Ok result, wc)
    /\ run_job P start id tf kw w
       = (Ok {| code := 200;
                content :=
                  Summary id
                    (if nonempty (errors result)
                     then "completed_with_warnings" else "completed")
                    tf kw result duration |}, w')
    /\ (forall subreddit listing c,
           subreddit ∈ subreddits (db w) ->
           fetch_returns P (postsUrl (sub_name subreddit)) listing ->
           c ∈ default [] (listing_children listing) ->
           accounts_for P subreddit (cutoff (clock P (clock_reads w)) hours)
             kw g c).
Proof.
  intros Hcfg Hsubs.
  pose proof (updateJob_run P id (processing start) w) as Hup.
  rewrite Hquiet in Hup.
  set (w1 := set_db _ _) in Hup.
  destruct (Htoken w1) as (value & w2 & Htok).
  pose proof (fetchRedditAccessToken_frame P w1) as Hframe.
  rewrite Htok in Hframe. cbn [snd] in Hframe.
  assert (Hclock : clock_reads w2 = clock_reads w1) by now rewrite Hframe.
  assert (Hdb : db w2 = db w1) by now rewrite Hframe.
  set (w3 := set_token value w2).
  assert (Hsame : subreddits (db w3) = subreddits (db w)).
  { subst w3. cbn. rewrite Hdb. reflexivity. }
  assert (Hreads : clock_reads w3 = clock_reads w).
  { subst w3. cbn. rewrite Hclock. reflexivity. }
  destruct (processRefresh_dated P Hquiet tf kw hours w3 Hdated Hcfg)
    as (g & wa & wb & result & wc & Hgather & Hflush & Hrun & Hacc).
  { now rewrite Hsame. }
  rewrite Hsame, Hreads in Hgather, Hacc.
  destruct (total_updateJob P id
              (completed (clock P (clock_reads wc))
                 (clock P (clock_reads wc) - start) result)
              (set_clock_reads (S (clock_reads wc)) wc)) as ([] & w' & Hlast).
  exists g, wa, wb, result, wc, (clock P (clock_reads wc) - start), w'.
  split; [exact Hgather |]. split; [exact Hflush |]. split; [| exact Hacc].
  unfold run_job.
  rewrite (bind_step _ _ _ _ _ Hup), (bind_step _ _ _ _ _ Htok).
  rewrite (bind_step (put_token value) _ w2 w3 tt eq_refl).
  rewrite (bind_step _ _ _ _ _ Hrun).
  rewrite (bind_step (now P) _ wc _ _ eq_refl).
  now rewrite (bind_step _ _ _ _ _ Hlast).
Qed.

(** With the same, a trigger for a supported timeframe over a configured
    subreddit completes: the handler answers 200 with the report of the
    flush of what was gathered for that timeframe, with the cutoff of the
    run and the normalised keyword. *)
Lemma serve_dated (payload : RefreshPayload) (hours : Z) (w : World) :
  TIMEFRAME_CONFIG (default "7d" (p_timeframe payload)) = Some hours ->
  createServiceClient P = inr tt ->
  subreddits (db w) <> [] ->
  exists g wa wb result wc duration w',
    gather P (subreddits (db w)) (default "7d" (p_timeframe payload))
      (run_cutoff P w hours) (normalizeKeyword (p_keyword payload)) wa
    = (Ok g, wb)
    /\ flush P (default "7d" (p_timeframe payload)) g wb = (Ok result, wc)
    /\ serve P {| method := "POST"; body := Some payload |} w
       = (Ok {| code := 200;
                content :=
                  Summary (next_id (db w))
                    (if nonempty (errors result)
                     then "completed_with_warnings" else "completed")
                    (default "7d" (p_timeframe payload))
                    (normalizeKeyword (p_keyword payload)) result duration |},
          w')
    /\ (forall subreddit listing c,
           subreddit ∈ subreddits (db w) ->
           fetch_returns P (postsUrl (sub_name subreddit)) listing ->
           c ∈ default [] (listing_children listing) ->
           accounts_for P subreddit (run_cutoff P w hours)
             (normalizeKeyword (p_keyword payload)) g c).
Proof.
  intros Hcfg Hclient Hsubs.
  set (tf := default "7d" (p_timeframe payload)) in *.
  set (kw := normalizeKeyword (p_keyword payload)) in *.
  set (w1 := set_clock_reads (S (clock_reads w)) w).
  set (start := clock P (clock_reads w)).
  pose proof (store_ok P (Sql.insert_job tf kw "edge_function" "queued") w1
                (Hquiet _)) as Hins.
  cbn [fst snd Sql.insert_job] in Hins.
  set (w2 := set_db _ _) in Hins.
  destruct (run_job_dated start (next_id (db w)) tf kw hours w2 Hcfg Hsubs)
    as (g & wa & wb & result & wc & duration & w' & Hgather & Hflush & Hrun
        & Hacc).
  exists g, wa, wb, result, wc, duration, w'.
  split; [exact Hgather |]. split; [exact Hflush |]. split; [| exact Hacc].
  unfold serve. cbn [method body]. fold tf kw.
  rewrite Hcfg, Hclient. cbn [String.eqb Ascii.eqb Bool.eqb negb].
  rewrite (bool_decide_eq_true_2 _ (mk_is_Some _ _ eq_refl)).
  cbn [negb].
  rewrite (bind_step (now P) _ w w1 start eq_refl).
  rewrite (bind_step _ _ _ _ _ Hins).
  change (next_id (db w1)) with (next_id (db w)).
  unfold try_catch. now rewrite Hrun.
Qed.

End Quiet_run.


(** Every item of the three-post batch was created at [Demo.t0]. *)
Lemma batch_created (P : Platform) (child : Child) (d : ItemData) (t : Z) :
  reddit_get P = Demo.batch ->
  serves P child -> data child = Some d -> d_created_utc d = Some t ->
  t = Demo.t0.
Proof.
  intros Hget Hserved Hd Ht.
  apply (served_by_url P
           [ (postsUrl "codex",
              Demo.listing [Demo.post "p1" "good news" Demo.t0;
                            Demo.post "p2" "bad news" Demo.t0;
                            Demo.post "p3" "plain" Demo.t0]);
             (commentsUrl "p1",
              Demo.thread [Demo.comment "c1" "good point" Demo.t0]);
             (commentsUrl "p2", Demo.refused 500 "boom");
             (commentsUrl "p3",
              Demo.thread [Demo.comment "c3" "bad take" Demo.t0]) ]
           child Hget) in Hserved
    as (entry & r & payload & Hentry & Hr & Hj & Hin).
  repeat (apply elem_of_cons in Hentry as [-> | Hentry]);
    try (now apply elem_of_nil in Hentry);
    cbn in Hr; injection Hr as <-; try discriminate;
    cbn in Hj; injection Hj as <-;
    cbn in Hin; destruct Hin as [Hin | Hin];
    repeat (apply elem_of_cons in Hin as [-> | Hin]);
    try (now apply elem_of_nil in Hin);
    cbn in Hd; injection Hd as <-; cbn in Ht; now injection Ht as <-.
Qed.


(** ** Defaults of the trigger payload: what the run executes *)

Lemma update_job_for (id id' : nat) (tf : string) (kw : option string)
    (patch : JobPatch) (d : DB) :
  job_for id tf kw d -> job_for id tf kw (Sql.update_job id' patch d).
Proof.
  intros (row & Hin & Hid & Htf & Hkw). unfold Sql.update_job.
  exists (if Nat.eqb (job_id row) id' then Sql.patch_job patch row else row).
  split.
  - cbn. apply list_elem_of_fmap. now exists row.
  - destruct (Nat.eqb (job_id row) id'); cbn; auto.
Qed.

Lemma job_for_run (P : Platform) (id : nat) (tf : string)
    (kw : option string) (start : Instant) (tf' : string)
    (kw' : option string) :
  maintains (job_for id tf kw)
    (try_catch (run_job P start id tf' kw') (fail_run P start (Some id))).
Proof.
  apply maintains_try_catch; [apply maintains_run_job | intros e;
                               apply maintains_fail_run];
    try (intros; now apply update_job_for).
  intros tf'' kw''. apply maintains_processRefresh; intros; assumption.
Qed.

(** What a completed [try] block ran. *)
Lemma run_job_refreshed (P : Platform) (start : Instant) (id : nat)
    (tf : string) (kw : option string) (w w' : World) (reply : Reply) :
  run_job P start id tf kw w = (Ok reply, w') ->
  exists status result duration v v',
    reply = {| code := 200;
               content := Summary id status tf kw result duration |}
    /\ processRefresh P tf kw v = (Ok result, v').
Proof.
  unfold run_job. intros H.
  apply bind_Ok in H as ([] & w1 & _ & H).
  apply bind_Ok in H as (value & w2 & _ & H).
  apply bind_Ok in H as ([] & w2' & _ & H).
  apply bind_Ok in H as (result & w3 & Hrun & H).
  apply bind_Ok in H as (finishedAt & w4 & _ & H).
  apply bind_Ok in H as ([] & w5 & _ & H).
  injection H as <- <-. now eexists _, result, _, w2', w3.
Qed.

(** C10. A request without [timeframe] is not rejected: it runs exactly as
    the same request with timeframe "7d". With the store configured and
    accepting the insertion, the job of the run is recorded with timeframe
    "7d", and the run either completes, answering 200 with the summary, for
    timeframe "7d", of a refresh made with that timeframe, or fails on the
    way and answers 500 with the identifier of that job; it completes
    when the store accepts every statement, a token is to be had, the
    creation times are dates and a subreddit is configured, and what it
    then reports is the flush of what it gathered for timeframe "7d" with
    the cutoff seven days before the reading of the clock. A keyword that is
    empty once trimmed, of Unicode white space too, is handled exactly as
    an absent keyword, by the edge function, which records and runs the job
    without keyword, and by the route that forwards to it. *)
Theorem omitted_timeframe_and_blank_keyword (P : Platform) (w : World)
    (keyword : string) (kw tf : option string) :
  Js.trim keyword = "" ->
  serve P {| method := "POST";
             body := Some {| p_timeframe := None; p_keyword := kw |} |} w
  = serve P {| method := "POST";
               body := Some {| p_timeframe := Some "7d"; p_keyword := kw |} |} w
  /\ (exists reply w',
         serve P {| method := "POST";
                    body := Some {| p_timeframe := None; p_keyword := kw |} |} w
         = (Ok reply, w')
         /\ code reply <> 400 /\ code reply <> 405
         /\ (createServiceClient P = inr tt ->
             store_fault P (store_ops w) = None ->
             job_for (next_id (db w)) "7d" (normalizeKeyword kw) (db w')
             /\ ((exists status result duration v v',
                     reply
                     = {| code := 200;
                          content :=
                            Summary (next_id (db w)) status "7d"
                              (normalizeKeyword kw) result duration |}
                     /\ processRefresh P "7d" (normalizeKeyword kw) v
                        = (Ok result, v'))
                 \/ exists e,
                      reply
                      = {| code := 500;
                           content := Failed e (Some (next_id (db w))) |})))
  /\ normalizeKeyword (Some keyword) = None
  /\ normalizeKeyword None = None
  /\ serve P {| method := "POST";
                body := Some {| p_timeframe := tf; p_keyword := Some keyword |} |} w
     = serve P {| method := "POST";
                  body := Some {| p_timeframe := tf; p_keyword := None |} |} w
  /\ Route.forwarded {| p_timeframe := None; p_keyword := Some keyword |}
     = {| p_timeframe := Some "7d"; p_keyword := None |}
  /\ (createServiceClient P = inr tt ->
      (forall n, store_fault P n = None) ->
      total (fetchRedditAccessToken P) ->
      dated P ->
      subreddits (db w) <> [] ->
      exists g wa wb result wc status duration w',
        gather P (subreddits (db w)) "7d" (run_cutoff P w (7 * 24))
          (normalizeKeyword kw) wa
        = (Ok g, wb)
        /\ flush P "7d" g wb = (Ok result, wc)
        /\ serve P {| method := "POST";
                      body := Some {| p_timeframe := None; p_keyword := kw |} |}
             w
           = (Ok {| code := 200;
                    content :=
                      Summary (next_id (db w)) status "7d"
                        (normalizeKeyword kw) result duration |}, w')).
Proof.
  intros Hblank.
  split; [reflexivity |].
  split.
  { unfold serve; simpl.
    destruct (createServiceClient P) as [message | []].
    - unfold ret. eexists _, _. split; [reflexivity |]. simpl.
      split; [lia | split; [lia | intros [=]]].
    - set (kw0 := normalizeKeyword kw).
      set (w1 := set_clock_reads (S (clock_reads w)) w).
      set (start := clock P (clock_reads w)).
      rewrite (bind_step (now P) _ w w1 start eq_refl).
      destruct (store_fault P (store_ops w1)) as [e |] eqn:Hfault.
      + rewrite (bind_step _ _ _ _ _ (store_failed P _ w1 e Hfault)).
        destruct (fail_run_answers P start None e
                    (set_store_ops (S (store_ops w1)) w1)) as (w3 & ->).
        eexists _, _. split; [reflexivity |]. simpl.
        split; [lia | split; [lia |]].
        intros _ Hnone. cbn in Hfault. congruence.
      + rewrite (bind_step _ _ _ _ _ (store_ok P _ w1 Hfault)).
        cbn [fst snd Sql.insert_job].
        set (id := next_id (db w1)). set (w2 := set_db _ _).
        assert (Hw2 : job_for id "7d" kw0 (db w2)).
        { exists {| job_id := id; job_timeframe := "7d"; job_keyword := kw0;
                    job_trigger_source := "edge_function";
                    job_status := "queued"; job_started_at := None;
                    job_finished_at := None; job_posts_processed := 0;
                    job_comments_processed := 0;
                    job_sentiments_processed := 0; job_duration_ms := None;
                    job_error := None |}.
          split; [| now repeat split]. cbn.
          apply elem_of_app. right. now apply list_elem_of_singleton. }
        pose proof (job_for_run P id "7d" kw0 start "7d" kw0 w2 Hw2) as Hrun.
        revert Hrun. unfold try_catch.
        destruct (run_job P start id "7d" kw0 w2) as [[reply | e] w3] eqn:Hjob.
        * apply run_job_refreshed in Hjob
            as (status & result & duration & v & v' & -> & Hrefresh).
          intros Hrun. eexists _, _. split; [reflexivity |]. simpl.
          split; [lia | split; [lia |]]. intros _ _. split; [exact Hrun |].
          left. now exists status, result, duration, v, v'.
        * destruct (fail_run_answers P start (Some id) e w3) as (w4 & Hfail).
          rewrite Hfail. intros Hrun.
          eexists _, _. split; [reflexivity |]. simpl.
          split; [lia | split; [lia |]]. intros _ _. split; [exact Hrun |].
          right. now exists e. }
  split; [now apply normalizeKeyword_blank |].
  split; [reflexivity |].
  split.
  { unfold serve; cbn [body method p_keyword p_timeframe].
    now rewrite (normalizeKeyword_blank keyword Hblank). }
  split; [unfold Route.forwarded; simpl; now rewrite Hblank |].
  intros Hclient Hquiet Htoken Hdated Hsubs.
  destruct (serve_dated P Hquiet Hdated Htoken
              {| p_timeframe := None; p_keyword := kw |} (7 * 24) w eq_refl
              Hclient Hsubs)
    as (g & wa & wb & result & wc & duration & w' & Hgather & Hflush & Hserve
        & _).
  exists g, wa, wb, result, wc,
    (if nonempty (errors result) then "completed_with_warnings"
     else "completed"), duration, w'.
  split; [exact Hgather | split; [exact Hflush | exact Hserve]].
Qed.

(** No timeframe, and a keyword made of a no-break space and a space: the
    job is recorded for "7d", without keyword. *)
Lemma omitted_timeframe_and_blank_keyword_witness :
  Js.trim (NBSP +:+ " ") = ""
  /\ job_for 0 "7d" None
       (db (serve (Demo.platform Demo.batch)
              (Demo.request None (Some (NBSP +:+ " "))) Demo.world).2)
  /\ serve (Demo.platform Demo.batch) (Demo.request None (Some (NBSP +:+ " ")))
       Demo.world
     = serve (Demo.platform Demo.batch) (Demo.request (Some "7d") None)
         Demo.world.
Proof.
  split; [vm_compute; reflexivity |].
  pose proof (omitted_timeframe_and_blank_keyword (Demo.platform Demo.batch)
                Demo.world (NBSP +:+ " ") (Some (NBSP +:+ " ")) (Some "7d")
                eq_refl)
    as (H1 & (reply & w' & Hserve & _ & _ & Hjob) & Hnone & _ & H3 & _).
  split.
  - unfold Demo.request. rewrite Hserve. cbn [snd].
    destruct (Hjob eq_refl eq_refl) as [Hrow _].
    now rewrite Hnone in Hrow.
  - exact (eq_trans H1 H3).
Defined.
